(* ===== verification/_CoqProject ===== *)
-Q . S2P
Prelude.v
Hoare.v
Net.v
Errors.v
Config.v
Packet.v
Metrics.v
Os.v
SampleOs.v
Ancillary.v
SockAddr.v
Platform.v
Subscription.v
SharedMetrics.v
Context.v
Delivery.v
Register.v
ContextSpec.v
IpDatagram.v
Bpf.v
AppleBpf.v
RawPlatform.v
RawContext.v
RawContextSpec.v
Demux.v
SharedRaw.v
SharedRawProofs.v
RawHazards.v
Text.v
RecvArgs.v
Ffi.v
FfiWorker.v
Jsonl.v
TokioAdapter.v
Hardware.v
Receiver.v
Python.v
Receivers.v
