(* ===== verification/Prelude.v ===== *)
(** * A verification of mcrx-core, a multicast receive library

    mcrx-core receives UDP multicast and, on request, complete IP datagrams of
    multicast groups. A caller adds subscription configurations to a context,
    joins and leaves their groups, and polls the context for packets; the
    context asks the platform layer, which talks to the kernel. Around the crate
    in [src/src/] are a C interface ([src/mcrx-core-ffi/]), Python bindings
    ([src/mcrx-core-py/]), an adapter for an asynchronous runtime, a receiver
    program that writes metrics to files, and three smaller receivers.
    This library models these parts and proves what they promise.

    ** Parts of the program and files of the development

    - results, effects, integers, bytes, slices, automation: this file; the
      triples [hoare], [keeps] and the runs [run_calls]: [Hoare]
    - [std::net], [std::io], [std::time]: [Net]
    - error.rs: [Errors]; config.rs and raw/config.rs: [Config]; packet.rs and
      raw/packet.rs: [Packet]; metrics.rs: [Metrics]
    - the kernel and the system headers, as a parameter: the class [Os] of
      [Os], extended by [RawOs] (in [RawPlatform]), [AppleBpf] and
      [BpfMachine] (in the files of the same part); concrete instances on which
      every theorem with a hypothesis is exercised: [SampleOs]
    - platform/mod.rs: [Ancillary] (control messages), [SockAddr] (the bytes of
      membership requests) and [Platform] (sockets, memberships, interface
      lookup, the receive loop)
    - subscription.rs: [Subscription], and [SharedMetrics] for one subscription
      that several threads use; context.rs: [Context]; what travels through
      both and the platform layer to a caller: [Delivery]
    - the abstract register that both contexts refine, and its histories:
      [Register]; the refinements: [ContextSpec] and [RawContextSpec]
    - platform/raw.rs: [IpDatagram] (IP and Ethernet parsing), [Bpf] (the
      generated kernel filters), [AppleBpf] (BPF blocks), [RawPlatform]
      (sockets, memberships, receive loops, shared capture)
    - raw/subscription.rs and raw/context.rs: [RawContext]
    - raw/shared.rs: [Demux] (the demultiplexer), [SharedRaw] (the context),
      [SharedRawProofs] (its invariant and properties); shortcomings of the raw
      layer on concrete machines: [RawHazards]
    - strings, their parsers and their display: [Text]
    - mcrx-core-ffi/src/lib.rs: [Ffi] (the calls of one thread, polling with a
      callback) and [FfiWorker] (the background worker and the threads that
      start, stop and free it)
    - mcrx-core-py/src/lib.rs: [Python]
    - tokio_adapter.rs: [TokioAdapter]
    - jsonl.rs: [Jsonl], over a file system and a JSON library
    - the capture of process metrics in metrics.rs: [Hardware]
    - bin/common/recv_args.rs: [RecvArgs]; bin/mcrx_recv.rs: [Receiver];
      bin/mcrx_recv_meta.rs, bin/mcrx_raw_recv.rs, bin/mcrx_tokio_recv.rs:
      [Receivers]

    A struct is a record with the fields of the source under a short prefix, an
    enum an inductive type with its variants. A method on [&mut self] is an
    operation on a pair of the object and the world of the operating system;
    it returns a [Res], and the state it leaves is kept on errors too. The
    [cfg] variants of a function are branches on [target]. A HashMap is a
    [gmap], a Vec a list; [swap_remove], [Vec::insert] and [Vec::remove] panic
    out of range, as do indexing, [expect] and checked arithmetic, so that
    the theorems that calls return also say that none of these can fail.

    Two layers are connected by interfaces. [RawTransport] with
    [RawTransportLaws] is what the raw context needs of the platform layer,
    [SharedCapture] with [SharedCaptureLaws] what the shared context needs; the
    contexts are verified over every instance, and [platform_transport_laws]
    and [platform_capture_laws] discharge the laws for the crate's own layer.

    Calls nest as in the source: a call of [Ffi] runs the operation of
    [Context] under the mutex and turns its result into a status; [poll_recv] runs
    [try_recv] of [Subscription]; [Receiver.run] composes [RecvArgs], [Context],
    [Metrics], [Hardware] and [Jsonl]; [tokio_run] of [Receivers] runs [Context]
    and then [poll_recv], turn by turn of its [select!]. [FfiWorker] is a step system: a state is
    what the threads share and the program point of each thread, a schedule a
    list of moves, and one move is one access to shared memory; what a receive
    answers is chosen by the schedule. [SharedMetrics] is a second step system of
    this kind: the atomic accesses, locks and unlocks of the receive and
    snapshot methods, by any number of threads.

    ** What is shown

    - contexts (UDP, raw, shared): no sequence of calls panics, overflows or
      hangs, and identifiers, configurations, cursors, sockets, reference
      counts and queues stay consistent; lifecycle calls that fail change
      nothing; receive calls poll in rotation and serve a ready subscription;
      batches append exactly what they count, within their bound
    - from the kernel to the caller: the replies of a context, UDP or raw, are those
      of an abstract register of identifiers, configurations and states; a packet
      that it hands out belongs to a subscription that an earlier call added,
      that was joined since and neither left nor removed, and that admits it
    - subscriptions: the two-state machine, its counters, its receive path; with
      several threads no count is lost, no call deadlocks, snapshots never go
      back, and the source and time of the last packet belong together (its
      length may be of another packet)
    - the raw layer: a datagram that arrives while a packet socket is being
      opened may come from another interface; a leave on Windows, a failing raw
      subscription and a foreign datagram of a shared capture have effects
      that [RawHazards] exhibits
    - receive loops: they end, they refine the specifications [receive_run]
      and [raw_run] (skip what is foreign, stop at the first event or after 256
      skips), and what they deliver is what the configuration admits
    - parsers and filters: the IP parser accepts exactly the wire format, the
      Ethernet and BPF walks stay inside their buffers and refine declarative
      scans, the kernel filters agree with the userspace match, control
      messages round-trip, and so do source-specific membership requests, read
      at the offsets of the kernel
    - configurations: validation is equivalent to an independent description
      of the valid ones, and each error names a fault
    - metrics: deltas exist exactly for monotone snapshots, and telescope
    - shared capture: the demultiplexer refines a set of memberships; kernel
      memberships are reference counted, so a duplicate join or leave needs no
      system call; a leave withdraws the subscription from queued packets
    - the C interface: no sequence of calls, null pointers and invalid text
      included, ends with the panic status; the status agrees with the stored
      message; polling delivers what a batch call would; worker generations
      are distinct, and a worker that was stopped or replaced takes no further
      packet, disturbs no other worker and, under every schedule, makes at most
      five more moves outside of its callback, held up by no other thread for
      more than three moves of that thread. Three theorems exhibit races of
      start and stop
    - the Python bindings: no sequence of calls panics or finds the context
      borrowed; an object whose subscription was removed never refers to another
      one; attributes show the configuration that was built; both bindings read
      the same text as the same configuration; packet objects are faithful
    - the Tokio adapter: one poll answers as [try_recv], a dropped future loses
      no packet, and an example where a queued packet is never delivered
    - JSON lines: validation accepts exactly the documents of a declarative
      description, an append extends the document and changes no other file, a
      second writer is refused
    - the receiver: command lines round-trip and accepted ones are in range;
      headers and rows are what the validation demands; the two files of a run
      are valid documents, each with the rows of its own kind; the program does
      not unwind unless its interval is too long for the clock, an argument is
      not Unicode, its name is missing, or the terminal refuses a line; process
      counters are read back from [/proc]; numbers are printed to the nearest
      last digit
    - the other receivers: they run on or exit with a message; the one on Tokio
      prints the packets that its task is delivered, no more and no fewer than
      its subscription counted

    ** Bounds and fuel

    Loops of the source that are not structural run with fuel, and a theorem
    says that the fuel suffices: the receive loops with their own budget of
    256 reads ([MAX_FILTERED_DATAGRAMS_PER_RECEIVE],
    [MAX_RAW_FILTERED_READS_PER_RECV]); the macOS loop with [apple_recv_fuel],
    two steps for each of the 256 and one more; the block and control-buffer
    walks with the length of the buffer; the shared batch with one round per
    requested packet and one more. The retry of the adapter enumeration on
    Windows, whose number of rounds only the kernel bounds, has
    [adapters_fuel] = 64 rounds. Theorems that reach it assume [OsLaws] of
    [Platform]: on Windows, the kernel accepts a buffer within these rounds, and
    the control messages of [WSARecvMsg] end inside their buffer. [OsLaws] says
    nothing of the other targets ([unix_laws]), and it holds on a Windows target
    whose kernel asks for a larger buffer once ([windows_laws]). Integers are [Z] at the width of the source, lengths of Rust buffers are [nat].
    Sequences of calls are bounded by the 64-bit identifier counter, which the
    code lets overflow; sequences of moves of the worker's threads by the 64-bit
    generation counter. [poll_recv] needs fuel 2 over a runtime that reports a
    cleared descriptor as pending. The loops of [Receiver.run], [meta_run] and
    [raw_run] of [Receivers] only end with an error; their theorems hold for
    every number of rounds, that of [tokio_run] for every sequence of turns.

    ** What is not modelled

    The kernel, the offsets in the structures of the system headers, the
    control structures of raw sockets and the handle accessors are parameters
    or left out. The feature metrics is on.
    Atomic accesses of [FfiWorker] and [SharedMetrics] are sequentially
    consistent (the source uses relaxed ones for the counters; the theorems
    rest on the order of accesses to one counter and on the mutex); the waking of a
    future by the runtime is left to the events of [run_task]. The file system,
    [serde_json] and the runtime are classes with laws. So is the terminal: a line
    that it refuses makes [println!] unwind, as an argument that is not Unicode
    makes [env::args] unwind, and the theorems about whole programs say that
    they assume neither happens. The re-exports, the tests and the example are
    left out. *)

From stdpp Require Export base decidable countable list gmap strings numbers pretty.
From Stdlib Require Import Strings.Byte.
From Stdlib Require Export ZArith Lia.

Declare Scope mcrx_scope.
Delimit Scope mcrx_scope with mcrx.
Open Scope mcrx_scope.

(** ** Results

    [Ok] and [Err] are the two constructors of Rust's [Result]; [Panic] is a
    computation that unwinds (an out-of-range index, a failed [expect], an
    overflow with overflow checks on) and [OutOfFuel] is a loop that was cut
    off by the bound the model runs it with. *)
Inductive Res (E A : Type) : Type :=
  | Ok (a : A)
  | Err (e : E)
  | Panic
  | OutOfFuel.

Arguments Ok {E A} a.
Arguments Err {E A} e.
Arguments Panic {E A}.
Arguments OutOfFuel {E A}.

Definition res_bind {E A B : Type} (r : Res E A) (k : A → Res E B) : Res E B :=
  match r with
  | Ok a => k a
  | Err e => Err e
  | Panic => Panic
  | OutOfFuel => OutOfFuel
  end.

Definition res_map {E A B : Type} (f : A → B) (r : Res E A) : Res E B :=
  res_bind r (λ a, Ok (f a)).

Definition res_map_err {E F A : Type} (f : E → F) (r : Res E A) : Res F A :=
  match r with
  | Ok a => Ok a
  | Err e => Err (f e)
  | Panic => Panic
  | OutOfFuel => OutOfFuel
  end.

(** [Option::ok_or]. *)
Definition ok_or {E A : Type} (o : option A) (e : E) : Res E A :=
  match o with Some a => Ok a | None => Err e end.

(** [Option::expect]: the program panics on [None]. *)
Definition expect {E A : Type} (o : option A) : Res E A :=
  match o with Some a => Ok a | None => Panic end.

(** [Result::ok]; unwinding is not a value, so it has no image. *)
Definition res_ok {E A : Type} (r : Res E A) : option A :=
  match r with Ok a => Some a | _ => None end.

Definition res_err {E A : Type} (r : Res E A) : option E :=
  match r with Err e => Some e | _ => None end.

(** A result that the caller of a Rust function can observe. *)
Definition returns {E A : Type} (r : Res E A) : Prop :=
  match r with Ok _ | Err _ => True | Panic | OutOfFuel => False end.

(** The early return [if c { return Err(e); }]. *)
Definition guard {E : Type} (c : bool) (e : E) : Res E unit :=
  if c then Err e else Ok ().

Notation "'let?' x ':=' r 'in' k" := (res_bind r (λ x, k))
  (at level 10, x pattern, r at level 100, k at level 200) : mcrx_scope.

(** ** Effects

    A fallible operation on a state: the state it leaves is kept on every
    outcome, as a Rust [&mut self] method that returns early keeps what it has
    already written. *)
Definition M (S E A : Type) : Type := S → Res E A * S.

Section effects.
Context {S E : Type}.

Definition mpure {A : Type} (a : A) : M S E A := λ s, (Ok a, s).
Definition mthrow {A : Type} (e : E) : M S E A := λ s, (Err e, s).
Definition mpanic {A : Type} : M S E A := λ s, (Panic, s).
Definition mfuel {A : Type} : M S E A := λ s, (OutOfFuel, s).
Definition mlift {A : Type} (r : Res E A) : M S E A := λ s, (r, s).
Definition mget : M S E S := λ s, (Ok s, s).
Definition mput (s : S) : M S E unit := λ _, (Ok (), s).
Definition mmodify (f : S → S) : M S E unit := λ s, (Ok (), f s).
Definition mreads {A : Type} (f : S → A) : M S E A := λ s, (Ok (f s), s).

Definition mthen {A B : Type} (m : M S E A) (k : A → M S E B) : M S E B := λ s,
  match m s with
  | (Ok a, s') => k a s'
  | (Err e, s') => (Err e, s')
  | (Panic, s') => (Panic, s')
  | (OutOfFuel, s') => (OutOfFuel, s')
  end.

(** [Result::map] and the [match]es that inspect a [Result] without
    propagating it: an [Err] becomes a value, unwinding does not. *)
Definition mcatch {F A : Type} (m : M S F A) : M S E (A + F) := λ s,
  match m s with
  | (Ok a, s') => (Ok (inl a), s')
  | (Err e, s') => (Ok (inr e), s')
  | (Panic, s') => (Panic, s')
  | (OutOfFuel, s') => (OutOfFuel, s')
  end.

Definition mmap_err {F A : Type} (f : F → E) (m : M S F A) : M S E A := λ s,
  let '(r, s') := m s in (res_map_err f r, s').

Definition mmap {A B : Type} (f : A → B) (m : M S E A) : M S E B :=
  mthen m (λ a, mpure (f a)).
End effects.

(** An operation on the first, or on the second, half of a state. *)
Definition on_fst {S T E A : Type} (m : M S E A) : M (S * T) E A := λ s,
  let '(r, s') := m s.1 in (r, (s', s.2)).

Definition on_snd {S T E A : Type} (m : M T E A) : M (S * T) E A := λ s,
  let '(r, t') := m s.2 in (r, (s.1, t')).

Notation "'let*' x ':=' m 'in' k" := (mthen m (λ x, k))
  (at level 10, x pattern, m at level 100, k at level 200) : mcrx_scope.
Notation "m ';;*' k" := (mthen m (λ _, k))
  (at level 199, right associativity) : mcrx_scope.

(** Unary postconditions: [post m s Q] states that every outcome of [m] run
    from [s] satisfies [Q]. *)
Definition post {S E A : Type} (m : M S E A) (s : S) (Q : Res E A → S → Prop) : Prop :=
  Q (m s).1 (m s).2.

Lemma post_then {S E A B : Type} (m : M S E A) (k : A → M S E B) s Q :
  post m s (λ r s', match r with
                    | Ok a => post (k a) s' Q
                    | Err e => Q (Err e) s'
                    | Panic => Q Panic s'
                    | OutOfFuel => Q OutOfFuel s'
                    end) →
  post (mthen m k) s Q.
Proof. unfold post, mthen. by destruct (m s) as [[] ?]. Qed.

Lemma post_mono {S E A : Type} (m : M S E A) s (P Q : Res E A → S → Prop) :
  post m s P → (∀ r s', P r s' → Q r s') → post m s Q.
Proof. unfold post. eauto. Qed.

Lemma post_eq {S E A : Type} (m : M S E A) s Q r s' :
  post m s Q → m s = (r, s') → Q r s'.
Proof. unfold post. intros H Heq. by rewrite Heq in H. Qed.

Lemma mthen_ok {S E A B : Type} (m : M S E A) (k : A → M S E B) s a s' :
  m s = (Ok a, s') → mthen m k s = k a s'.
Proof. unfold mthen. by intros ->. Qed.

Lemma mthen_inv {S E A B : Type} (m : M S E A) (k : A → M S E B) s b s' :
  mthen m k s = (Ok b, s') → ∃ a s1, m s = (Ok a, s1) ∧ k a s1 = (Ok b, s').
Proof. unfold mthen. destruct (m s) as [[a|e| |] s1]; naive_solver. Qed.

(** Total operations: every run returns a value or an error. *)
Definition total {S E A : Type} (m : M S E A) : Prop := ∀ s, returns (m s).1.

Create HintDb total.

Lemma total_mpure {S E A : Type} (a : A) : total (mpure a : M S E A).
Proof. done. Qed.
Lemma total_mthrow {S E A : Type} (e : E) : total (mthrow e : M S E A).
Proof. done. Qed.
Lemma total_mlift {S E A : Type} (r : Res E A) : returns r → total (mlift r : M S E A).
Proof. by intros ? ?. Qed.
Lemma total_then {S E A B : Type} (m : M S E A) (k : A → M S E B) :
  total m → (∀ a, total (k a)) → total (mthen m k).
Proof.
  intros Hm Hk s. specialize (Hm s). unfold mthen.
  destruct (m s) as [[a|e| |] s']; simpl in *; [apply Hk|exact I|contradiction..].
Qed.
Lemma total_mmap {S E A B : Type} (f : A → B) (m : M S E A) : total m → total (mmap f m).
Proof. intros. apply total_then; [done|intros; apply total_mpure]. Qed.
Lemma total_mcatch {S E F A : Type} (m : M S F A) : total m → total (mcatch m : M S E (A + F)).
Proof. intros Hm s. specialize (Hm s). unfold mcatch. destruct (m s) as [[]?]; by simpl in *. Qed.
Lemma returns_ok_or {E A : Type} (o : option A) (e : E) : returns (ok_or o e).
Proof. by destruct o. Qed.
Lemma returns_guard {E : Type} (c : bool) (e : E) : returns (guard c e).
Proof. by destruct c. Qed.
Lemma returns_bind {E A B : Type} (r : Res E A) (k : A → Res E B) :
  returns r → (∀ a, returns (k a)) → returns (res_bind r k).
Proof. destruct r; simpl; auto. Qed.
#[export] Hint Resolve total_mpure total_mthrow total_mlift total_then total_mmap total_mcatch
  returns_ok_or returns_guard returns_bind : total.
#[export] Hint Extern 4 (total (match ?x with _ => _ end)) => destruct x : total.
#[export] Hint Extern 4 (returns (match ?x with _ => _ end)) => destruct x : total.
#[export] Hint Extern 6 (∀ _, total _) => intros : total.
#[export] Hint Extern 6 (∀ _, returns _) => intros : total.
#[export] Hint Extern 9 (returns _) => exact I : total.

(** ** Machine integers

    A [u8], [u16], [u32] or [u64] (and a [usize], 64 bits wide) is a [Z]; the
    operations that wrap, saturate or check say so. *)
Definition u8_max : Z := 255.
Definition u16_max : Z := 65535.
Definition u32_max : Z := 4294967295.
Definition u64_max : Z := 18446744073709551615.
Definition usize_max : Z := u64_max.

Definition wrap64 (z : Z) : Z := z `mod` 18446744073709551616.
Definition wrap32 (z : Z) : Z := z `mod` 4294967296.
Definition wrap8 (z : Z) : Z := z `mod` 256.

Definition checked_add (m x y : Z) : option Z :=
  if bool_decide (x + y ≤ m)%Z then Some (x + y)%Z else None.
Definition checked_sub (x y : Z) : option Z :=
  if bool_decide (y ≤ x)%Z then Some (x - y)%Z else None.
Definition saturating_add (m x y : Z) : Z := Z.min (x + y) m.
Definition saturating_sub (x y : Z) : Z := Z.max (x - y) 0.

(** [AtomicU64::fetch_add]: wraps around. *)
Definition fetch_add (counter n : Z) : Z := wrap64 (counter + n).

Lemma wrap64_small z : (0 ≤ z ≤ u64_max)%Z → wrap64 z = z.
Proof. unfold wrap64, u64_max. intros. apply Z.mod_small. lia. Qed.

Lemma wrap64_bounds z : (0 ≤ wrap64 z ≤ u64_max)%Z.
Proof. unfold wrap64, u64_max. pose proof (Z.mod_pos_bound z 18446744073709551616). lia. Qed.

Lemma fetch_add_small c n :
  (0 ≤ c)%Z → (0 ≤ n)%Z → (c + n ≤ u64_max)%Z → fetch_add c n = (c + n)%Z.
Proof. intros. unfold fetch_add. apply wrap64_small. lia. Qed.

Lemma checked_sub_Some x y z : checked_sub x y = Some z ↔ (y ≤ x ∧ z = x - y)%Z.
Proof. unfold checked_sub. case_bool_decide; naive_solver lia. Qed.

Lemma checked_add_Some m x y z : checked_add m x y = Some z ↔ (x + y ≤ m ∧ z = x + y)%Z.
Proof. unfold checked_add. case_bool_decide; naive_solver lia. Qed.

(** ** Bytes *)
Abbreviation byte := Byte.byte (only parsing).

#[global] Instance byte_eq_decision : EqDecision Byte.byte := Byte.byte_eq_dec.
#[global] Instance byte_countable : Countable Byte.byte :=
  inj_countable Byte.to_N Byte.of_N Byte.of_to_N.

(** The numeric value of a byte. *)
Definition u8 (b : Byte.byte) : Z := Z.of_N (Byte.to_N b).

(** The byte with a given numeric value, modulo 256. *)
Definition byte_of (z : Z) : Byte.byte :=
  default Byte.x00 (Byte.of_N (Z.to_N (z `mod` 256))).

Lemma u8_bounds b : (0 ≤ u8 b ≤ 255)%Z.
Proof. unfold u8. pose proof (Byte.to_N_bounded b). lia. Qed.

Lemma byte_of_u8 b : byte_of (u8 b) = b.
Proof.
  unfold byte_of. rewrite Z.mod_small by (pose proof (u8_bounds b); lia).
  unfold u8. by rewrite N2Z.id, Byte.of_to_N.
Qed.

Lemma u8_inj b c : u8 b = u8 c → b = c.
Proof. intros H. by rewrite <-(byte_of_u8 b), H, byte_of_u8. Qed.

Lemma u8_byte_of z : (0 ≤ z < 256)%Z → u8 (byte_of z) = z.
Proof.
  intros Hz. unfold byte_of, u8. rewrite Z.mod_small by lia.
  destruct (Byte.of_N (Z.to_N z)) as [b|] eqn:Hn; simpl.
  - apply Byte.to_of_N in Hn. rewrite Hn. lia.
  - apply Byte.of_N_None_iff in Hn. lia.
Qed.

#[global] Instance u8_Inj : Inj (=) (=) u8 := u8_inj.

(** [u16::from_be_bytes], [u32::from_be_bytes]. *)
Definition be16 (hi lo : Byte.byte) : Z := u8 hi * 256 + u8 lo.
Definition be32 (a b c d : Byte.byte) : Z :=
  ((u8 a * 256 + u8 b) * 256 + u8 c) * 256 + u8 d.

Lemma be16_bounds a b : (0 ≤ be16 a b ≤ u16_max)%Z.
Proof. unfold be16, u16_max. pose proof (u8_bounds a). pose proof (u8_bounds b). lia. Qed.

Lemma be16_inj a b a' b' : be16 a b = be16 a' b' → a = a' ∧ b = b'.
Proof.
  unfold be16. intros H. pose proof (u8_bounds a). pose proof (u8_bounds b).
  pose proof (u8_bounds a'). pose proof (u8_bounds b').
  split; apply u8_inj; lia.
Qed.

Lemma be32_bounds a b c d : (0 ≤ be32 a b c d ≤ u32_max)%Z.
Proof.
  unfold be32, u32_max. pose proof (u8_bounds a). pose proof (u8_bounds b).
  pose proof (u8_bounds c). pose proof (u8_bounds d). lia.
Qed.

Lemma be32_inj a b c d a' b' c' d' :
  be32 a b c d = be32 a' b' c' d' → a = a' ∧ b = b' ∧ c = c' ∧ d = d'.
Proof.
  unfold be32. intros H. pose proof (u8_bounds a). pose proof (u8_bounds b).
  pose proof (u8_bounds c). pose proof (u8_bounds d). pose proof (u8_bounds a').
  pose proof (u8_bounds b'). pose proof (u8_bounds c'). pose proof (u8_bounds d').
  split_and!; apply u8_inj; lia.
Qed.

(** ** Slices *)

(** [bytes.get(lo..hi)]. *)
Definition slice {A : Type} (l : list A) (lo hi : nat) : option (list A) :=
  if bool_decide (lo ≤ hi ∧ hi ≤ length l) then Some (take (hi - lo) (drop lo l)) else None.

Lemma slice_Some {A : Type} (l : list A) lo hi x :
  slice l lo hi = Some x ↔ lo ≤ hi ∧ hi ≤ length l ∧ x = take (hi - lo) (drop lo l).
Proof. unfold slice. case_bool_decide; naive_solver. Qed.

Lemma slice_length {A : Type} (l : list A) lo hi x :
  slice l lo hi = Some x → length x = hi - lo.
Proof. rewrite slice_Some. intros (?&?&->). rewrite length_take, length_drop. lia. Qed.

(** [Vec::swap_remove]: the last element takes the place of the removed one. *)
Definition swap_remove {A : Type} (i : nat) (l : list A) : option (A * list A) :=
  match l !! i, last l with
  | Some x, Some y => Some (x, removelast (<[i := y]> l))
  | _, _ => None
  end.

(** [Iterator::position]. *)
Fixpoint position {A : Type} (p : A → bool) (l : list A) : option nat :=
  match l with
  | [] => None
  | x :: l => if p x then Some 0 else S <$> position p l
  end.

Lemma position_Some {A : Type} (p : A → bool) l i :
  position p l = Some i → ∃ x, l !! i = Some x ∧ p x = true ∧
    ∀ j y, j < i → l !! j = Some y → p y = false.
Proof.
  revert i. induction l as [|x l IH]; intros i; simpl; [done|].
  destruct (p x) eqn:Hp; [intros [= <-]; exists x; split_and!; [done..|lia]|].
  intros (j & Hj & ->)%fmap_Some. destruct (IH _ Hj) as (y & ? & ? & Hmin).
  exists y; split_and!; [done..|]. intros [|k] z ? Hk; simpl in Hk; [congruence|].
  eapply Hmin; [|done]. lia.
Qed.

Lemma position_None {A : Type} (p : A → bool) l :
  position p l = None ↔ ∀ x, x ∈ l → p x = false.
Proof.
  induction l as [|x l IH]; simpl.
  - split; [intros _ x Hx; inversion Hx|done].
  - destruct (p x) eqn:Hp; [split; [done|]|].
    + intros H. specialize (H x). rewrite Hp in H. by assert (true = false) by (apply H; left).
    + rewrite fmap_None, IH. setoid_rewrite elem_of_cons. naive_solver.
Qed.

Lemma position_app_last {A : Type} (p : A → bool) l x :
  (∀ y, y ∈ l → p y = false) → p x = true → position p (l ++ [x]) = Some (length l).
Proof.
  intros Hl Hx. induction l as [|y l IH]; simpl; [by rewrite Hx|].
  rewrite (Hl y) by left. by rewrite IH by (intros; apply Hl; by right).
Qed.

Lemma removelast_take {A : Type} (l : list A) : removelast l = take (length l - 1) l.
Proof. rewrite removelast_firstn_len. f_equal. lia. Qed.

(** [swap_remove] keeps the multiset of the other elements. *)
Lemma swap_remove_Permutation {A : Type} (i : nat) (l l' : list A) x :
  swap_remove i l = Some (x, l') → l ≡ₚ x :: l'.
Proof.
  unfold swap_remove. destruct (l !! i) as [z|] eqn:Hi; [|done].
  destruct (last l) as [y|] eqn:Hl; [|done]. intros [= <- <-].
  apply last_Some in Hl as [l0 ->].
  destruct (decide (i = length l0)) as [->|Hne].
  - rewrite lookup_app_r, Nat.sub_diag in Hi by lia. simpl in Hi. injection Hi as ->.
    rewrite insert_app_r_alt, Nat.sub_diag by lia. simpl.
    rewrite removelast_last. by rewrite (comm (++)).
  - pose proof (lookup_lt_Some _ _ _ Hi) as Hlt. rewrite length_app in Hlt. simpl in Hlt.
    rewrite lookup_app_l in Hi by lia.
    rewrite insert_app_l, removelast_last by lia.
    rewrite (comm (++)). simpl. rewrite <-(take_drop_middle l0 i z) at 1 by done.
    rewrite insert_take_drop by lia. rewrite <-!Permutation_middle.
    apply perm_swap.
Qed.

Lemma swap_remove_length {A : Type} (i : nat) (l l' : list A) x :
  swap_remove i l = Some (x, l') → length l = S (length l').
Proof. intros H. by rewrite (swap_remove_Permutation _ _ _ _ H). Qed.

Lemma swap_remove_is_Some {A : Type} (i : nat) (l : list A) :
  i < length l → is_Some (swap_remove i l).
Proof.
  intros Hi. unfold swap_remove. destruct (lookup_lt_is_Some_2 l i Hi) as [x ->].
  destruct (last l) eqn:Hl; [eauto|]. apply last_None in Hl. subst. simpl in Hi. lia.
Qed.

(** ** Automation *)

(** Splits every [match] and [if] of the goal or of a hypothesis. *)
Ltac split_cases :=
  repeat first [ progress simplify_eq/= | case_match ].

(** Linear arithmetic with constant divisors. *)
Ltac zlia := Z.to_euclidean_division_equations; lia.

(** Destructs the next effect of a sequence in [H]. *)
Ltac mstep H :=
  unfold mthen at 1 in H;
  match type of H with
  | context [match ?m with _ => _ end] =>
      let r := fresh "r" in let s := fresh "s" in let Hm := fresh "Hm" in
      destruct m as [r s] eqn:Hm; destruct r; simplify_eq/=
  end.

Create HintDb mcrx.
#[export] Hint Resolve wrap64_bounds u8_bounds be16_bounds be32_bounds : mcrx.
