(* ===== verification/Hoare.v ===== *)
(** * Hoare triples for effectful operations

    [hoare P m Q R]: run from a state in [P], the operation returns; with a
    value [a] it ends in [Q a], with an error in [R]. It neither unwinds nor
    hangs. *)

From S2P Require Import Prelude.

Section hoare.
Context {S E : Type}.

Definition hoare {A : Type} (P : S → Prop) (m : M S E A) (Q : A → S → Prop) (R : S → Prop) : Prop :=
  ∀ s, P s →
    match m s with
    | (Ok a, s') => Q a s'
    | (Err _, s') => R s'
    | (Panic, _) | (OutOfFuel, _) => False
    end.

Lemma hoare_then {A B : Type} P (m : M S E A) (k : A → M S E B) Q' Q R :
  hoare P m Q' R → (∀ a, hoare (Q' a) (k a) Q R) → hoare P (mthen m k) Q R.
Proof.
  intros Hm Hk s Hs. specialize (Hm s Hs). unfold mthen.
  destruct (m s) as [[a|e| |] s']; try done. by apply Hk.
Qed.

Lemma hoare_conseq {A : Type} P P' (m : M S E A) (Q Q' : A → S → Prop) (R R' : S → Prop) :
  hoare P' m Q' R' → (∀ s, P s → P' s) → (∀ a s, Q' a s → Q a s) → (∀ s, R' s → R s) →
  hoare P m Q R.
Proof.
  intros Hm HP HQ HR s Hs. specialize (Hm s (HP s Hs)).
  destruct (m s) as [[a|e| |] s']; by eauto.
Qed.

Lemma hoare_pure {A : Type} P (a : A) (Q : A → S → Prop) R :
  (∀ s, P s → Q a s) → hoare P (mpure a) Q R.
Proof. intros H s. apply H. Qed.

Lemma hoare_throw {A : Type} P e (Q : A → S → Prop) (R : S → Prop) :
  (∀ s, P s → R s) → hoare P (mthrow e) Q R.
Proof. intros H s. apply H. Qed.

Lemma hoare_get {B : Type} P (k : S → M S E B) Q R :
  (∀ s0, P s0 → hoare (λ s, s = s0) (k s0) Q R) → hoare P (mthen mget k) Q R.
Proof. intros Hk s Hs. by apply (Hk s Hs s). Qed.

Lemma hoare_lift {A B : Type} P (r : Res E A) (k : A → M S E B) Q R :
  returns r → (∀ e, r = Err e → ∀ s, P s → R s) → (∀ a, r = Ok a → hoare P (k a) Q R) →
  hoare P (mthen (mlift r) k) Q R.
Proof.
  intros Hr He Hk s Hs. unfold mthen, mlift. destruct r as [a|e| |]; try done.
  - by apply (Hk a).
  - by eapply He.
Qed.

Lemma hoare_modify {B : Type} P (f : S → S) (k : M S E B) Q R :
  hoare (λ s, ∃ s0, P s0 ∧ s = f s0) k Q R → hoare P (mthen (mmodify f) (λ _, k)) Q R.
Proof. intros Hk s Hs. apply Hk. eauto. Qed.

Lemma hoare_match_pure {A : Type} (X : Prop) P (m : M S E A) Q R :
  (X → hoare P m Q R) → hoare (λ s, X ∧ P s) m Q R.
Proof. intros Hm s [HX Hs]. by apply (Hm HX). Qed.

Lemma hoare_returns {A : Type} P (m : M S E A) Q R s :
  hoare P m Q R → P s → returns (m s).1.
Proof. intros Hm Hs. specialize (Hm s Hs). by destruct (m s) as [[] ?]. Qed.

(** The operation keeps an assertion, whatever it answers. *)
Definition keeps {A : Type} (I : S → Prop) (m : M S E A) : Prop := hoare I m (λ _, I) I.

Lemma keeps_spec {A : Type} I (m : M S E A) s :
  keeps I m → I s → returns (m s).1 ∧ I (m s).2.
Proof. intros Hm Hs. specialize (Hm s Hs). by destruct (m s) as [[] ?]. Qed.

Lemma keeps_mmap {A B : Type} I (f : A → B) (m : M S E A) : keeps I m → keeps I (mmap f m).
Proof. intros Hm. eapply hoare_then; [exact Hm|]. intros a. by apply hoare_pure. Qed.
End hoare.

(** Total operations on one half of the state. *)
Lemma hoare_on_snd {S T E A : Type} (m : M T E A) (P : S * T → Prop) (Q : A → S * T → Prop) R :
  (∀ s, P s → match m s.2 with
              | (Ok a, t) => Q a (s.1, t)
              | (Err _, t) => R (s.1, t)
              | (Panic, _) | (OutOfFuel, _) => False
              end) →
  hoare P (on_snd m) Q R.
Proof. intros Hm s Hs. specialize (Hm s Hs). unfold on_snd. by destruct (m s.2) as [[] t]. Qed.

(** A run that visits the states of a sequence of calls, stopping at one that
    unwinds. *)
Fixpoint run_calls {S E C : Type} (call : C → M S E unit) (l : list C) (s : S) : Res E unit * S :=
  match l with
  | [] => (Ok (), s)
  | k :: l =>
      match call k s with
      | (Ok _, s') | (Err _, s') => run_calls call l s'
      | (Panic, s') => (Panic, s')
      | (OutOfFuel, s') => (OutOfFuel, s')
      end
  end.

(** An invariant indexed by the number of calls still allowed. *)
Lemma run_calls_keeps {S E C : Type} (call : C → M S E unit) (I : nat → S → Prop) l s :
  (∀ k n, hoare (I (Datatypes.S n)) (call k) (λ _, I n) (I n)) → I (length l) s →
  returns (run_calls call l s).1 ∧ I 0 (run_calls call l s).2.
Proof.
  intros Hcall. revert s. induction l as [|k l IH]; intros s Hs; simpl; [done|].
  specialize (Hcall k (length l) s Hs). destruct (call k s) as [[]?]; try done; by apply IH.
Qed.
