(* ===== verification/Net.v ===== *)
(** * The parts of [std::net], [std::io] and [std::time] that the crate uses

    IP addresses are tuples of bytes, so an address is well formed by its
    type; socket addresses, I/O errors and their kinds, and the textual form
    of IPv4 addresses and of numbers. *)

From S2P Require Import Prelude.

(** ** Addresses *)

(** [std::net::Ipv4Addr]. *)
Record Ipv4Addr := Ipv4 { v4_a : byte; v4_b : byte; v4_c : byte; v4_d : byte }.

(** [std::net::Ipv6Addr]. *)
Record Ipv6Addr := Ipv6 {
  v6_0 : byte; v6_1 : byte; v6_2 : byte; v6_3 : byte;
  v6_4 : byte; v6_5 : byte; v6_6 : byte; v6_7 : byte;
  v6_8 : byte; v6_9 : byte; v6_10 : byte; v6_11 : byte;
  v6_12 : byte; v6_13 : byte; v6_14 : byte; v6_15 : byte }.

(** [std::net::IpAddr]. *)
Inductive IpAddr := V4 (a : Ipv4Addr) | V6 (a : Ipv6Addr).

(** [Ipv4Addr::octets], [Ipv6Addr::octets]. *)
Definition v4_octets (a : Ipv4Addr) : list byte := [v4_a a; v4_b a; v4_c a; v4_d a].
Definition v6_octets (a : Ipv6Addr) : list byte :=
  [v6_0 a; v6_1 a; v6_2 a; v6_3 a; v6_4 a; v6_5 a; v6_6 a; v6_7 a;
   v6_8 a; v6_9 a; v6_10 a; v6_11 a; v6_12 a; v6_13 a; v6_14 a; v6_15 a].
Definition ip_octets (a : IpAddr) : list byte :=
  match a with V4 a => v4_octets a | V6 a => v6_octets a end.

(** [<[u8; 4]>::try_from(slice)] and [<[u8; 16]>::try_from(slice)], followed
    by [from]. *)
Definition v4_of_octets (l : list byte) : option Ipv4Addr :=
  match l with [a; b; c; d] => Some (Ipv4 a b c d) | _ => None end.
Definition v6_of_octets (l : list byte) : option Ipv6Addr :=
  match l with
  | [a0; a1; a2; a3; a4; a5; a6; a7; a8; a9; a10; a11; a12; a13; a14; a15] =>
      Some (Ipv6 a0 a1 a2 a3 a4 a5 a6 a7 a8 a9 a10 a11 a12 a13 a14 a15)
  | _ => None
  end.

Lemma v4_of_octets_octets a : v4_of_octets (v4_octets a) = Some a.
Proof. by destruct a. Qed.
Lemma v6_of_octets_octets a : v6_of_octets (v6_octets a) = Some a.
Proof. by destruct a. Qed.

Lemma v4_of_octets_Some l a : v4_of_octets l = Some a ↔ l = v4_octets a.
Proof.
  split; [|intros ->; apply v4_of_octets_octets].
  unfold v4_of_octets. intros. by split_cases.
Qed.
Lemma v6_of_octets_Some l a : v6_of_octets l = Some a ↔ l = v6_octets a.
Proof.
  split; [|intros ->; apply v6_of_octets_octets].
  unfold v6_of_octets. intros. by split_cases.
Qed.

Lemma v6_of_octets_is_Some l : length l = 16 → ∃ a, v6_of_octets l = Some a.
Proof. intros. do 16 (destruct l as [|? l]; [done|]). destruct l; [eauto|done]. Qed.

#[global] Instance v4_octets_inj : Inj (=) (=) v4_octets.
Proof. intros [] [] [=]. by subst. Qed.
#[global] Instance v6_octets_inj : Inj (=) (=) v6_octets.
Proof. intros [] [] [=]. by subst. Qed.

#[global] Instance Ipv4Addr_eq_dec : EqDecision Ipv4Addr.
Proof. solve_decision. Defined.
#[global] Instance Ipv6Addr_eq_dec : EqDecision Ipv6Addr.
Proof.
  refine (λ a b, cast_if (decide (v6_octets a = v6_octets b))).
  - by apply v6_octets_inj.
  - by intros ->.
Defined.
#[global] Instance IpAddr_eq_dec : EqDecision IpAddr.
Proof. solve_decision. Defined.

#[global] Instance Ipv4Addr_countable : Countable Ipv4Addr :=
  inj_countable v4_octets v4_of_octets v4_of_octets_octets.
#[global] Instance Ipv6Addr_countable : Countable Ipv6Addr :=
  inj_countable v6_octets v6_of_octets v6_of_octets_octets.
#[global] Program Instance IpAddr_countable : Countable IpAddr :=
  inj_countable' (λ a, match a with V4 a => inl a | V6 a => inr a end)
                 (λ s, match s with inl a => V4 a | inr a => V6 a end) _.
Next Obligation. by intros []. Qed.

Lemma length_v4_octets a : length (v4_octets a) = 4.
Proof. done. Qed.
Lemma length_v6_octets a : length (v6_octets a) = 16.
Proof. done. Qed.

Lemma ip_octets_length a b : ip_octets a = ip_octets b → a = b.
Proof.
  destruct a, b; simpl; intros H; try done.
  - f_equal. by apply v4_octets_inj.
  - f_equal. by apply v6_octets_inj.
Qed.

(** [is_multicast]: 224.0.0.0/4 and ff00::/8. *)
Definition v4_is_multicast (a : Ipv4Addr) : bool :=
  bool_decide (224 ≤ u8 (v4_a a))%Z && bool_decide (u8 (v4_a a) ≤ 239)%Z.
Definition v6_is_multicast (a : Ipv6Addr) : bool := bool_decide (u8 (v6_0 a) = 255)%Z.
Definition is_multicast (a : IpAddr) : bool :=
  match a with V4 a => v4_is_multicast a | V6 a => v6_is_multicast a end.

(** [UNSPECIFIED], [is_unspecified], [is_broadcast]. *)
Definition v4_unspecified : Ipv4Addr := Ipv4 Byte.x00 Byte.x00 Byte.x00 Byte.x00.
Definition v6_unspecified : Ipv6Addr :=
  Ipv6 Byte.x00 Byte.x00 Byte.x00 Byte.x00 Byte.x00 Byte.x00 Byte.x00 Byte.x00
       Byte.x00 Byte.x00 Byte.x00 Byte.x00 Byte.x00 Byte.x00 Byte.x00 Byte.x00.
Definition v4_broadcast : Ipv4Addr := Ipv4 Byte.xff Byte.xff Byte.xff Byte.xff.
Definition v4_is_unspecified (a : Ipv4Addr) : bool := bool_decide (a = v4_unspecified).
Definition v4_is_broadcast (a : Ipv4Addr) : bool := bool_decide (a = v4_broadcast).
Definition v6_is_unspecified (a : Ipv6Addr) : bool := bool_decide (a = v6_unspecified).

(** Addresses from numbers, for concrete inputs. *)
Definition v4 (a b c d : Z) : Ipv4Addr := Ipv4 (byte_of a) (byte_of b) (byte_of c) (byte_of d).
Definition v6 (a b c d e f g h : Z) : Ipv6Addr :=
  let hi z := byte_of (z `div` 256) in
  Ipv6 (hi a) (byte_of a) (hi b) (byte_of b) (hi c) (byte_of c) (hi d) (byte_of d)
       (hi e) (byte_of e) (hi f) (byte_of f) (hi g) (byte_of g) (hi h) (byte_of h).

(** [std::net::SocketAddr] with its two halves. *)
Inductive SocketAddr :=
  | SockV4 (ip : Ipv4Addr) (port : Z)
  | SockV6 (ip : Ipv6Addr) (port flowinfo scope_id : Z).

Definition sock_ip (a : SocketAddr) : IpAddr :=
  match a with SockV4 ip _ => V4 ip | SockV6 ip _ _ _ => V6 ip end.
Definition sock_port (a : SocketAddr) : Z :=
  match a with SockV4 _ p => p | SockV6 _ p _ _ => p end.

#[global] Instance SocketAddr_eq_dec : EqDecision SocketAddr.
Proof. solve_decision. Defined.

(** ** I/O errors *)

(** The [std::io::ErrorKind]s that the crate names; every other kind is
    [OtherKind] with a number of its own. *)
Inductive ErrorKind :=
  | WouldBlock
  | Unsupported
  | NotFound
  | PermissionDenied
  | InvalidData
  | InvalidInput
  | UnexpectedEof
  | Other
  | OtherKind (n : Z).

#[global] Instance ErrorKind_eq_dec : EqDecision ErrorKind.
Proof. solve_decision. Defined.

(** [std::io::Error]: its kind, the operating-system code when it has one, and
    its [Display] text. *)
Record IoError := mkIoError {
  io_kind : ErrorKind;
  io_raw_os_error : option Z;
  io_text : string }.

#[global] Instance IoError_eq_dec : EqDecision IoError.
Proof. solve_decision. Defined.

(** [std::io::Error::other(message)] and [std::io::Error::new(kind, message)]. *)
Definition io_error_new (kind : ErrorKind) (message : string) : IoError :=
  mkIoError kind None message.
Definition io_error_other (message : string) : IoError := io_error_new Other message.

(** An I/O call on a world [W]: it returns a value or an error, and an
    infallible call returns a value. *)
Definition Io (W A : Type) : Type := W → (A + IoError) * W.
Definition Call (W A : Type) : Type := W → A * W.
Definition io_ok {W A : Type} (a : A) : Io W A := λ w, (inl a, w).
Definition io_fail {W A : Type} (e : IoError) : Io W A := λ w, (inr e, w).

(** ** Text *)

(** [Display] of unsigned integers and of IPv4 addresses. *)
Definition display_Z (z : Z) : string := pretty z.
Definition v4_display (a : Ipv4Addr) : string :=
  (display_Z (u8 (v4_a a)) +:+ "." +:+ display_Z (u8 (v4_b a)) +:+ "." +:+
   display_Z (u8 (v4_c a)) +:+ "." +:+ display_Z (u8 (v4_d a)))%string.

(** [{:x}] on a 16-bit segment: no leading zeros. *)
Definition hex_digit (z : Z) : string :=
  default "?" (["0"; "1"; "2"; "3"; "4"; "5"; "6"; "7"; "8"; "9";
                "a"; "b"; "c"; "d"; "e"; "f"] !! Z.to_nat z).
Fixpoint hex_go (fuel : nat) (z : Z) (acc : string) : string :=
  match fuel with
  | O => acc
  | S fuel =>
      let acc := (hex_digit (z `mod` 16) +:+ acc)%string in
      if bool_decide (z `div` 16 = 0)%Z then acc else hex_go fuel (z `div` 16) acc
  end.
Definition display_hex16 (z : Z) : string := hex_go 4 z "".

(** [Ipv6Addr::segments]. *)
Fixpoint pair_segments (l : list byte) : list Z :=
  match l with hi :: lo :: l => be16 hi lo :: pair_segments l | _ => [] end.
Definition v6_segments (a : Ipv6Addr) : list Z := pair_segments (v6_octets a).

(** The first longest run of zero segments, as a start and a length. *)
Fixpoint zero_run_go (l : list Z) (i : nat) (cur best : nat * nat) : nat * nat :=
  match l with
  | [] => best
  | s :: l =>
      if bool_decide (s = 0)%Z then
        let cur := (if bool_decide (cur.2 = 0) then i else cur.1, S cur.2) in
        zero_run_go l (S i) cur (if bool_decide (best.2 < cur.2) then cur else best)
      else zero_run_go l (S i) (0, 0) best
  end.
Definition join_segments (l : list Z) : string :=
  match display_hex16 <$> l with
  | [] => ""
  | s :: l => fold_left (λ acc t, acc +:+ ":" +:+ t)%string l s
  end.
Definition v6_display (a : Ipv6Addr) : string :=
  let segs := v6_segments a in
  if bool_decide (take 6 segs = [0; 0; 0; 0; 0; 65535]%Z) then
    ("::ffff:" +:+ v4_display (Ipv4 (v6_12 a) (v6_13 a) (v6_14 a) (v6_15 a)))%string
  else
    let '(start, len) := zero_run_go segs 0 (0, 0) (0, 0) in
    if bool_decide (1 < len) then
      (join_segments (take start segs) +:+ "::" +:+ join_segments (drop (start + len) segs))%string
    else join_segments segs.
Definition ip_display (a : IpAddr) : string :=
  match a with V4 a => v4_display a | V6 a => v6_display a end.

Example v6_display_doc : v6_display (v6 8193 3512 0 0 0 0 0 16) = "2001:db8::10".
Proof. vm_compute. reflexivity. Qed.
Example v4_display_doc : v4_display (v4 239 1 2 3) = "239.1.2.3".
Proof. vm_compute. reflexivity. Qed.
