(* ===== verification/Errors.v ===== *)
(** * The crate's error type ([src/src/error.rs])

    [McrxError] with the constructors of the source and its [Display]
    messages, which the receive socket stores when its setup fails. *)

From S2P Require Import Prelude Net.

Inductive McrxError :=
  | InvalidDestinationPort
  | InvalidMulticastGroup
  | SsmGroupRequiresSource
  | InvalidSourceAddress
  | InvalidIpv6SsmGroup
  | InvalidIpv4SsmGroup
  | SourceAddressFamilyMismatch
  | InterfaceAddressFamilyMismatch
  | InvalidInterfaceIndex
  | InterfaceIndexRequiresIpv6
  | DuplicateSubscription
  | SubscriptionNotFound
  | SubscriptionNotJoined
  | SubscriptionAlreadyJoined
  | SocketCreateFailed (e : IoError)
  | SocketOptionFailed (e : IoError)
  | SocketBindFailed (e : IoError)
  | RawSocketCreateFailed (e : IoError)
  | RawSocketBindFailed (e : IoError)
  | RawPacketReceiveUnsupported (message : string)
  | InvalidSharedRawCaptureLimits
  | SharedRawCaptureSubscriptionLimitExceeded (limit : Z)
  | Ipv6NotYetImplemented
  | InvalidSubscriptionAddressFamily
  | ReceiveSocketSetupFailed (message : string)
  | ReceiveMetadataUnavailable
  | SocketLocalAddrFailed (e : IoError)
  | SocketIoctlFailed (e : IoError)
  | ExistingSocketAddressFamilyMismatch
  | ExistingSocketPortMismatch (expected actual : Z)
  | MulticastJoinFailed (e : IoError)
  | MulticastLeaveFailed (e : IoError)
  | SourceSpecificMulticastUnsupported
  | Ipv6SourceSpecificMulticastRequiresInterface
  | Ipv6SourceSpecificMulticastNotYetImplemented
  | InterfaceProbeBindFailed (e : IoError)
  | InterfaceProbeConnectFailed (e : IoError)
  | InterfaceProbeLocalAddrFailed (e : IoError)
  | InterfaceDiscoveryFailed (message : string)
  | NonIpSocketAddress
  | ReceiveFailed (e : IoError).

#[global] Instance McrxError_eq_dec : EqDecision McrxError.
Proof. solve_decision. Defined.

(** The [#[error("...")]] formats, rendered by [to_string]. *)
Definition mcrx_error_to_string (e : McrxError) : string :=
  match e with
  | InvalidDestinationPort => "MCRX: invalid destination port"
  | InvalidMulticastGroup => "MCRX: group must be a multicast IP address"
  | SsmGroupRequiresSource => "MCRX: SSM-range multicast groups require a source address"
  | InvalidSourceAddress => "MCRX: invalid source address"
  | InvalidIpv6SsmGroup => "MCRX: IPv6 SSM groups must use the ff3x:: prefix"
  | InvalidIpv4SsmGroup => "MCRX: IPv4 SSM groups must use the 232.0.0.0/8 range"
  | SourceAddressFamilyMismatch =>
      "MCRX: source address family must match group address family"
  | InterfaceAddressFamilyMismatch =>
      "MCRX: interface address family must match group address family"
  | InvalidInterfaceIndex => "MCRX: interface index must be greater than 0"
  | InterfaceIndexRequiresIpv6 =>
      "MCRX: interface index is only supported for IPv6 subscriptions"
  | DuplicateSubscription => "MCRX: subscription already exists"
  | SubscriptionNotFound => "MCRX: subscription not found"
  | SubscriptionNotJoined => "MCRX: subscription not joined"
  | SubscriptionAlreadyJoined => "MCRX: subscription already joined"
  | SocketCreateFailed e => "MCRX: failed to create UDP socket: " +:+ io_text e
  | SocketOptionFailed e => "MCRX: failed to set socket option: " +:+ io_text e
  | SocketBindFailed e => "MCRX: failed to bind UDP socket: " +:+ io_text e
  | RawSocketCreateFailed e => "MCRX: failed to create raw receive socket: " +:+ io_text e
  | RawSocketBindFailed e => "MCRX: failed to bind raw receive socket: " +:+ io_text e
  | RawPacketReceiveUnsupported m =>
      "MCRX: raw multicast receive is not supported on this platform: " +:+ m
  | InvalidSharedRawCaptureLimits =>
      "MCRX: shared raw capture limits must be greater than zero"
  | SharedRawCaptureSubscriptionLimitExceeded limit =>
      "MCRX: shared raw capture subscription limit of " +:+ display_Z limit +:+ " reached"
  | Ipv6NotYetImplemented => "MCRX: requested IPv6 functionality is not implemented yet"
  | InvalidSubscriptionAddressFamily =>
      "MCRX: invalid subscription address-family combination"
  | ReceiveSocketSetupFailed m => "MCRX: receive socket setup failed: " +:+ m
  | ReceiveMetadataUnavailable =>
      "MCRX: receive packet did not include destination address metadata"
  | SocketLocalAddrFailed e =>
      "MCRX: failed to read local address from existing socket: " +:+ io_text e
  | SocketIoctlFailed e =>
      "MCRX: failed to look up socket extension function: " +:+ io_text e
  | ExistingSocketAddressFamilyMismatch =>
      "MCRX: existing socket address family does not match the subscription configuration"
  | ExistingSocketPortMismatch expected actual =>
      "MCRX: existing socket is bound to UDP port " +:+ display_Z actual +:+
      ", expected " +:+ display_Z expected
  | MulticastJoinFailed e => "MCRX: failed to join multicast group: " +:+ io_text e
  | MulticastLeaveFailed e => "MCRX: failed to leave multicast group: " +:+ io_text e
  | SourceSpecificMulticastUnsupported =>
      "MCRX: source-specific multicast is not supported on this platform"
  | Ipv6SourceSpecificMulticastRequiresInterface =>
      "MCRX: IPv6 source-specific multicast requires an explicit interface address or interface index"
  | Ipv6SourceSpecificMulticastNotYetImplemented =>
      "MCRX: IPv6 source-specific multicast is not implemented yet"
  | InterfaceProbeBindFailed e => "MCRX: failed to bind interface probe socket: " +:+ io_text e
  | InterfaceProbeConnectFailed e =>
      "MCRX: failed to connect interface probe socket: " +:+ io_text e
  | InterfaceProbeLocalAddrFailed e =>
      "MCRX: failed to read local address from interface probe socket: " +:+ io_text e
  | InterfaceDiscoveryFailed m => "MCRX: failed to discover local interface: " +:+ m
  | NonIpSocketAddress => "MCRX: received packet from non-IP socket address"
  | ReceiveFailed e => "MCRX: receive failed: " +:+ io_text e
  end%string.

(** The result of a pure fallible function of the crate, and of one with
    effects on a state. *)
Abbreviation Result A := (Res McrxError A).
Abbreviation Op S A := (M S McrxError A).

(** Variants that a [source] function documented as legacy never returns. *)
Definition legacy_error (e : McrxError) : bool :=
  match e with
  | Ipv6NotYetImplemented | Ipv6SourceSpecificMulticastNotYetImplemented => true
  | _ => false
  end.
