(* ===== verification/Config.v ===== *)
(** * Subscription configurations ([src/src/config.rs], [src/src/raw/config.rs])

    The UDP and the raw configuration, their constructors, their validation,
    and the family-specific membership views that the platform layer uses. *)

From S2P Require Import Prelude Net Errors.

(** ** Data *)

Inductive SubscriptionAddressFamily := Ipv4Family | Ipv6Family.

Inductive SourceFilter :=
  | SourceAny
  | Source (source : IpAddr).

Record SubscriptionConfig := mkConfig {
  cfg_group : IpAddr;
  cfg_source : SourceFilter;
  cfg_dst_port : Z;
  cfg_interface : option IpAddr;
  cfg_interface_index : option Z }.

Record Ipv4Membership := mkMembership4 {
  m4_group : Ipv4Addr;
  m4_source : option Ipv4Addr;
  m4_interface : option Ipv4Addr }.

Record Ipv6Membership := mkMembership6 {
  m6_group : Ipv6Addr;
  m6_source : option Ipv6Addr;
  m6_interface : option Ipv6Addr;
  m6_interface_index : option Z }.

Record RawSubscriptionConfig := mkRawConfig {
  raw_group : IpAddr;
  raw_source : SourceFilter;
  raw_interface : option IpAddr;
  raw_interface_index : option Z }.

#[global] Instance Family_eq_dec : EqDecision SubscriptionAddressFamily.
Proof. solve_decision. Defined.
#[global] Program Instance Family_countable : Countable SubscriptionAddressFamily :=
  inj_countable' (λ f, match f with Ipv4Family => true | Ipv6Family => false end)
                 (λ b : bool, if b then Ipv4Family else Ipv6Family) _.
Next Obligation. by intros []. Qed.
#[global] Instance SourceFilter_eq_dec : EqDecision SourceFilter.
Proof. solve_decision. Defined.
#[global] Instance SubscriptionConfig_eq_dec : EqDecision SubscriptionConfig.
Proof. solve_decision. Defined.
#[global] Instance RawSubscriptionConfig_eq_dec : EqDecision RawSubscriptionConfig.
Proof. solve_decision. Defined.

(** ** Validation *)

Definition same_family (left right : IpAddr) : bool :=
  match left, right with
  | V4 _, V4 _ | V6 _, V6 _ => true
  | _, _ => false
  end.

Definition is_ipv4_ssm_group (group : Ipv4Addr) : bool :=
  bool_decide (u8 (v4_a group) = 232)%Z.

Definition is_ipv6_ssm_group (group : Ipv6Addr) : bool :=
  bool_decide (u8 (v6_0 group) = 255)%Z &&
  bool_decide (Z.shiftr (u8 (v6_1 group)) 4 = 3)%Z &&
  bool_decide (u8 (v6_2 group) = 0)%Z &&
  bool_decide (u8 (v6_3 group) = 0)%Z.

Definition is_valid_source_address (source : IpAddr) : bool :=
  match source with
  | V4 s => negb (v4_is_unspecified s) && negb (v4_is_multicast s) && negb (v4_is_broadcast s)
  | V6 s => negb (v6_is_unspecified s) && negb (v6_is_multicast s)
  end.

(** [group_is_ssm] of [validate_multicast_selection]. *)
Definition group_is_ssm (group : IpAddr) : bool :=
  match group with
  | V4 g => is_ipv4_ssm_group g
  | V6 g => is_ipv6_ssm_group g
  end.

Definition validate_multicast_selection (group : IpAddr) (source : SourceFilter)
    (interface : option IpAddr) (interface_index : option Z) : Result unit :=
  let? _ := guard (negb (is_multicast group)) InvalidMulticastGroup in
  let? _ := guard (bool_decide (source = SourceAny) && group_is_ssm group)
                  SsmGroupRequiresSource in
  let? _ :=
    match source with
    | SourceAny => Ok ()
    | Source source =>
        let? _ := guard (negb (is_valid_source_address source)) InvalidSourceAddress in
        let? _ := guard (negb (same_family group source)) SourceAddressFamilyMismatch in
        match group, source with
        | V4 g, V4 _ => guard (negb (is_ipv4_ssm_group g)) InvalidIpv4SsmGroup
        | V6 g, V6 _ => guard (negb (is_ipv6_ssm_group g)) InvalidIpv6SsmGroup
        | _, _ => Ok ()
        end
    end in
  let? _ :=
    match interface with
    | Some interface => guard (negb (same_family group interface)) InterfaceAddressFamilyMismatch
    | None => Ok ()
    end in
  match interface_index with
  | Some index =>
      let? _ := guard (bool_decide (index = 0)%Z) InvalidInterfaceIndex in
      guard (match group with V6 _ => false | V4 _ => true end) InterfaceIndexRequiresIpv6
  | None => Ok ()
  end.

(** ** [SubscriptionConfig] *)

Definition family_of_group (group : IpAddr) : SubscriptionAddressFamily :=
  match group with V4 _ => Ipv4Family | V6 _ => Ipv6Family end.

Definition source_of_filter (source : SourceFilter) : option IpAddr :=
  match source with SourceAny => None | Source s => Some s end.

Module SubscriptionConfig.
Definition validate (c : SubscriptionConfig) : Result unit :=
  let? _ := guard (bool_decide (cfg_dst_port c = 0)%Z) InvalidDestinationPort in
  validate_multicast_selection (cfg_group c) (cfg_source c)
    (cfg_interface c) (cfg_interface_index c).

Definition family (c : SubscriptionConfig) : SubscriptionAddressFamily :=
  family_of_group (cfg_group c).
Definition is_ipv4 (c : SubscriptionConfig) : bool := bool_decide (family c = Ipv4Family).
Definition is_ipv6 (c : SubscriptionConfig) : bool := bool_decide (family c = Ipv6Family).
Definition source_addr (c : SubscriptionConfig) : option IpAddr :=
  source_of_filter (cfg_source c).

Definition asm_ip (group : IpAddr) (port : Z) : SubscriptionConfig :=
  mkConfig group SourceAny port None None.
Definition asm (group : Ipv4Addr) (port : Z) : SubscriptionConfig := asm_ip (V4 group) port.
Definition asm_v6 (group : Ipv6Addr) (port : Z) : SubscriptionConfig := asm_ip (V6 group) port.
Definition ssm_ip (group source : IpAddr) (port : Z) : SubscriptionConfig :=
  mkConfig group (Source source) port None None.
Definition ssm (group source : Ipv4Addr) (port : Z) : SubscriptionConfig :=
  ssm_ip (V4 group) (V4 source) port.
Definition ssm_v6 (group source : Ipv6Addr) (port : Z) : SubscriptionConfig :=
  ssm_ip (V6 group) (V6 source) port.

Definition ipv4_membership (c : SubscriptionConfig) : option Ipv4Membership :=
  group ← match cfg_group c with V4 group => Some group | V6 _ => None end;
  source ← match cfg_source c with
           | SourceAny => Some None
           | Source (V4 source) => Some (Some source)
           | Source (V6 _) => None
           end;
  interface ← match cfg_interface c with
              | None => Some None
              | Some (V4 interface) => Some (Some interface)
              | Some (V6 _) => None
              end;
  Some (mkMembership4 group source interface).

Definition ipv6_membership (c : SubscriptionConfig) : option Ipv6Membership :=
  group ← match cfg_group c with V6 group => Some group | V4 _ => None end;
  source ← match cfg_source c with
           | SourceAny => Some None
           | Source (V6 source) => Some (Some source)
           | Source (V4 _) => None
           end;
  interface ← match cfg_interface c with
              | None => Some None
              | Some (V6 interface) => Some (Some interface)
              | Some (V4 _) => None
              end;
  Some (mkMembership6 group source interface (cfg_interface_index c)).
End SubscriptionConfig.

(** ** [RawSubscriptionConfig] *)

Module RawSubscriptionConfig.
Definition validate (c : RawSubscriptionConfig) : Result unit :=
  validate_multicast_selection (raw_group c) (raw_source c)
    (raw_interface c) (raw_interface_index c).

Definition family (c : RawSubscriptionConfig) : SubscriptionAddressFamily :=
  family_of_group (raw_group c).
Definition is_ipv4 (c : RawSubscriptionConfig) : bool := bool_decide (family c = Ipv4Family).
Definition is_ipv6 (c : RawSubscriptionConfig) : bool := bool_decide (family c = Ipv6Family).
Definition source_addr (c : RawSubscriptionConfig) : option IpAddr :=
  source_of_filter (raw_source c).

Definition asm_ip (group : IpAddr) : RawSubscriptionConfig :=
  mkRawConfig group SourceAny None None.
Definition asm (group : Ipv4Addr) : RawSubscriptionConfig := asm_ip (V4 group).
Definition asm_v6 (group : Ipv6Addr) : RawSubscriptionConfig := asm_ip (V6 group).
Definition ssm_ip (group source : IpAddr) : RawSubscriptionConfig :=
  mkRawConfig group (Source source) None None.
Definition ssm (group source : Ipv4Addr) : RawSubscriptionConfig :=
  ssm_ip (V4 group) (V4 source).
Definition ssm_v6 (group source : Ipv6Addr) : RawSubscriptionConfig :=
  ssm_ip (V6 group) (V6 source).

Definition membership_compat_config (c : RawSubscriptionConfig) : SubscriptionConfig :=
  mkConfig (raw_group c) (raw_source c) 1 (raw_interface c) (raw_interface_index c).
End RawSubscriptionConfig.

(** ** Specification *)

(** The big-endian value of an address, and membership of a CIDR block. *)
Definition addr_value (a : IpAddr) : Z := foldl (λ acc b, acc * 256 + u8 b)%Z 0%Z (ip_octets a).
Definition addr_bits (a : IpAddr) : Z := 8 * Z.of_nat (length (ip_octets a)).
Definition in_block (a base : IpAddr) (len : Z) : Prop :=
  addr_bits a = addr_bits base ∧
  (addr_value a `div` 2 ^ (addr_bits a - len) = addr_value base `div` 2 ^ (addr_bits base - len))%Z.

(** The documented SSM ranges: [232.0.0.0/8] and [ff3x::/32]. *)
Definition in_ssm_range (g : IpAddr) : Prop :=
  in_block g (V4 (v4 232 0 0 0)) 8 ∨
  ∃ x, (0 ≤ x < 16)%Z ∧ in_block g (V6 (v6 (65328 + x) 0 0 0 0 0 0 0)) 32.

(** The multicast ranges: [224.0.0.0/4] and [ff00::/8]. *)
Definition in_multicast_range (a : IpAddr) : Prop :=
  in_block a (V4 (v4 224 0 0 0)) 4 ∨ in_block a (V6 (v6 65280 0 0 0 0 0 0 0)) 8.

(** An address that can send: not the zero address, not a group, and not
    [255.255.255.255]. *)
Definition can_send (a : IpAddr) : Prop :=
  addr_value a ≠ 0%Z ∧ ¬ in_multicast_range a ∧ (addr_bits a = 32 → addr_value a ≠ 2 ^ 32 - 1)%Z.

(** A selection of group, source and interface that can be joined. *)
Record valid_selection (group : IpAddr) (source : SourceFilter)
    (interface : option IpAddr) (interface_index : option Z) : Prop := {
  vs_multicast : in_multicast_range group;
  vs_source :
    match source with
    | SourceAny => ¬ in_ssm_range group
    | Source s => in_ssm_range group ∧ addr_bits s = addr_bits group ∧ can_send s
    end;
  vs_interface : ∀ i, interface = Some i → addr_bits i = addr_bits group;
  vs_index : ∀ n, interface_index = Some n → n ≠ 0%Z ∧ addr_bits group = 128%Z }.

Definition valid_config (c : SubscriptionConfig) : Prop :=
  cfg_dst_port c ≠ 0%Z ∧
  valid_selection (cfg_group c) (cfg_source c) (cfg_interface c) (cfg_interface_index c).

(** What each validation error says about the configuration. *)
Definition selection_fault (group : IpAddr) (source : SourceFilter)
    (interface : option IpAddr) (interface_index : option Z) (e : McrxError) : Prop :=
  match e with
  | InvalidMulticastGroup => is_multicast group = false
  | SsmGroupRequiresSource => source = SourceAny ∧ in_ssm_range group
  | InvalidSourceAddress => ∃ s, source = Source s ∧ is_valid_source_address s = false
  | SourceAddressFamilyMismatch => ∃ s, source = Source s ∧ same_family group s = false
  | InvalidIpv4SsmGroup =>
      ∃ s, source = Source s ∧ family_of_group group = Ipv4Family ∧ ¬ in_ssm_range group
  | InvalidIpv6SsmGroup =>
      ∃ s, source = Source s ∧ family_of_group group = Ipv6Family ∧ ¬ in_ssm_range group
  | InterfaceAddressFamilyMismatch => ∃ i, interface = Some i ∧ same_family group i = false
  | InvalidInterfaceIndex => interface_index = Some 0%Z
  | InterfaceIndexRequiresIpv6 =>
      ∃ n, interface_index = Some n ∧ family_of_group group = Ipv4Family
  | _ => False
  end.

(** ** Lemmas *)

(** The leading bytes of a big-endian value, by division. *)
Lemma foldl_be_div (l : list byte) acc :
  (foldl (λ acc b, acc * 256 + u8 b) acc l `div` 256 ^ Z.of_nat (length l))%Z = acc.
Proof.
  revert acc. induction l as [|b l IH]; intros acc; cbn [foldl length].
  - change (256 ^ Z.of_nat 0)%Z with 1%Z. by rewrite Z.div_1_r.
  - replace (256 ^ Z.of_nat (S (length l)))%Z with (256 ^ Z.of_nat (length l) * 256)%Z
      by (rewrite Nat2Z.inj_succ, Z.pow_succ_r by lia; lia).
    rewrite <-Z.div_div, IH by lia.
    pose proof (u8_bounds b). rewrite Z.div_add_l by lia. rewrite Z.div_small by lia. lia.
Qed.

(** The value of a big-endian list determines it. *)
Lemma foldl_be_inj (l l' : list byte) acc acc' :
  length l = length l' →
  foldl (λ acc b, acc * 256 + u8 b)%Z acc l = foldl (λ acc b, acc * 256 + u8 b)%Z acc' l' →
  acc = acc' ∧ l = l'.
Proof.
  revert l' acc acc'. induction l as [|b l IH]; intros [|b' l'] acc acc'; cbn; try done.
  intros [= Hl] Hv. destruct (IH l' _ _ Hl Hv) as [Hacc ->].
  pose proof (u8_bounds b). pose proof (u8_bounds b').
  assert (u8 b = u8 b') as ->%u8_inj by lia. split; [lia|done].
Qed.

Lemma addr_value_inj a b : addr_bits a = addr_bits b → addr_value a = addr_value b → a = b.
Proof.
  unfold addr_value. intros Hbits Hv. apply foldl_be_inj in Hv as [_ Ho].
  - destruct a, b; try done; f_equal; [by apply v4_octets_inj|by apply v6_octets_inj].
  - unfold addr_bits in Hbits. lia.
Qed.

Lemma same_family_bits a b : same_family a b = true ↔ addr_bits b = addr_bits a.
Proof. by destruct a, b. Qed.

Lemma family_bits g : family_of_group g = Ipv6Family ↔ addr_bits g = 128%Z.
Proof. by destruct g. Qed.

Lemma addr_value_div_v4 a b c d :
  (addr_value (V4 (Ipv4 a b c d)) `div` 2 ^ 24)%Z = u8 a.
Proof. apply (foldl_be_div [b; c; d] (u8 a)). Qed.

Lemma addr_value_div_v6 (a0 a1 a2 a3 a4 a5 a6 a7 a8 a9 a10 a11 a12 a13 a14 a15 : byte) :
  (addr_value (V6 (Ipv6 a0 a1 a2 a3 a4 a5 a6 a7 a8 a9 a10 a11 a12 a13 a14 a15)) `div` 2 ^ 96)%Z =
  be32 a0 a1 a2 a3.
Proof.
  rewrite <-(foldl_be_div [a4; a5; a6; a7; a8; a9; a10; a11; a12; a13; a14; a15]
               (be32 a0 a1 a2 a3)).
  change (256 ^ Z.of_nat (length _))%Z with (2 ^ 96)%Z.
  unfold addr_value. cbn [foldl ip_octets v6_octets v6_0 v6_1 v6_2 v6_3 v6_4 v6_5 v6_6 v6_7
    v6_8 v6_9 v6_10 v6_11 v6_12 v6_13 v6_14 v6_15]. unfold be32.
  rewrite Z.mul_0_l, Z.add_0_l. done.
Qed.

Lemma in_block_v4_8 a b c d :
  in_block (V4 (Ipv4 a b c d)) (V4 (v4 232 0 0 0)) 8 ↔ u8 a = 232%Z.
Proof.
  unfold in_block, v4. rewrite !addr_value_div_v4. simpl. by split; [intros []|intros ->].
Qed.

Lemma in_block_v6_32 (a0 a1 a2 a3 a4 a5 a6 a7 a8 a9 a10 a11 a12 a13 a14 a15 : byte) x :
  (0 ≤ x < 16)%Z →
  in_block (V6 (Ipv6 a0 a1 a2 a3 a4 a5 a6 a7 a8 a9 a10 a11 a12 a13 a14 a15))
           (V6 (v6 (65328 + x) 0 0 0 0 0 0 0)) 32 ↔
  u8 a0 = 255%Z ∧ u8 a1 = (48 + x)%Z ∧ u8 a2 = 0%Z ∧ u8 a3 = 0%Z.
Proof.
  intros Hx. unfold in_block, v6.
  change (2 ^ (addr_bits _ - 32))%Z with (2 ^ 96)%Z.
  rewrite !addr_value_div_v6. simpl.
  replace ((65328 + x) `div` 256)%Z with 255%Z by zlia.
  assert (byte_of (65328 + x) = byte_of (48 + x)) as ->.
  { unfold byte_of. assert ((65328 + x) `mod` 256 = (48 + x) `mod` 256)%Z as -> by zlia. done. }
  split.
  - intros [_ (->&->&->&->)%be32_inj]. by rewrite !u8_byte_of by lia.
  - intros (H0&H1&H2&H3). split; [done|]. unfold be32.
    rewrite H0, H1, H2, H3, !u8_byte_of by lia. done.
Qed.

Lemma shiftr4_eq_3 z : (0 ≤ z ≤ 255)%Z → Z.shiftr z 4 = 3%Z ↔ ∃ x, (0 ≤ x < 16 ∧ z = 48 + x)%Z.
Proof.
  intros Hz. rewrite Z.shiftr_div_pow2 by lia. change (2 ^ 4)%Z with 16%Z. split.
  - intros H. exists (z - 48)%Z. zlia.
  - intros (x & ? & ->). zlia.
Qed.

Lemma group_is_ssm_spec g : group_is_ssm g = true ↔ in_ssm_range g.
Proof.
  unfold in_ssm_range. destruct g as [[a b c d]|[]]; simpl.
  - unfold is_ipv4_ssm_group. rewrite bool_decide_eq_true, in_block_v4_8. simpl.
    split; [tauto|]. intros [?|(x & ? & [? _])]; done.
  - unfold is_ipv6_ssm_group. simpl. rewrite !andb_true_iff, !bool_decide_eq_true.
    rewrite shiftr4_eq_3 by apply u8_bounds. split.
    + intros (((? & x & Hx & ?) & ?) & ?). right. exists x. split; [done|].
      by apply in_block_v6_32.
    + intros [[? _]|(x & Hx & (? & ? & ? & ?)%in_block_v6_32)]; [done| |done]. eauto 10.
Qed.

Lemma group_is_ssm_false g : group_is_ssm g = false ↔ ¬ in_ssm_range g.
Proof. rewrite <-group_is_ssm_spec. by destruct (group_is_ssm g). Qed.

Lemma in_block_v4_4 a b c d :
  in_block (V4 (Ipv4 a b c d)) (V4 (v4 224 0 0 0)) 4 ↔ (224 ≤ u8 a ≤ 239)%Z.
Proof.
  unfold in_block, v4. change (2 ^ (addr_bits _ - 4))%Z with (2 ^ 24 * 16)%Z.
  rewrite <-!Z.div_div, !addr_value_div_v4 by lia. change (u8 (byte_of 224) `div` 16)%Z with 14%Z.
  split; [intros [_ ?]|intros ?; split; [done|]]; zlia.
Qed.

Lemma in_block_v6_8 (a0 a1 a2 a3 a4 a5 a6 a7 a8 a9 a10 a11 a12 a13 a14 a15 : byte) :
  in_block (V6 (Ipv6 a0 a1 a2 a3 a4 a5 a6 a7 a8 a9 a10 a11 a12 a13 a14 a15))
           (V6 (v6 65280 0 0 0 0 0 0 0)) 8 ↔ u8 a0 = 255%Z.
Proof.
  unfold in_block, v6. change (2 ^ (addr_bits _ - 8))%Z with (2 ^ 96 * 2 ^ 24)%Z.
  rewrite <-!Z.div_div, !addr_value_div_v6 by lia.
  change (be32 _ _ _ _ `div` 2 ^ 24)%Z with 255%Z at 2.
  pose proof (foldl_be_div [a1; a2; a3] (u8 a0)) as Hd. cbn [foldl length] in Hd.
  change (256 ^ Z.of_nat 3)%Z with (2 ^ 24)%Z in Hd. unfold be32. rewrite Hd.
  split; [by intros [_ ?]|by split].
Qed.

Lemma is_multicast_spec a : is_multicast a = true ↔ in_multicast_range a.
Proof.
  unfold in_multicast_range. destruct a as [[a b c d]|[]]; simpl.
  - unfold v4_is_multicast. rewrite andb_true_iff, !bool_decide_eq_true, in_block_v4_4. simpl.
    split; [by left|]. intros [?|[? _]]; done.
  - unfold v6_is_multicast. rewrite bool_decide_eq_true, in_block_v6_8. simpl.
    split; [by right|]. intros [[? _]|?]; done.
Qed.

(** What the validation of a source asks for. *)
Lemma is_valid_source_spec a : is_valid_source_address a = true ↔ can_send a.
Proof.
  unfold can_send. rewrite <- is_multicast_spec. unfold is_valid_source_address.
  assert (Hzero : ∀ z, addr_bits z = addr_bits a → addr_value z = 0%Z → addr_value a = 0%Z ↔ a = z).
  { intros z Hz H0. split; [intros Ha; apply addr_value_inj; congruence|by intros ->]. }
  destruct a as [a|a].
  - rewrite (Hzero (V4 v4_unspecified)) by done.
    assert (Hone : addr_value (V4 a) = (2 ^ 32 - 1)%Z ↔ a = v4_broadcast).
    { split; [|by intros ->]. intros Ha.
      assert (V4 a = V4 v4_broadcast) as [= ->] by (by apply addr_value_inj). done. }
    unfold v4_is_unspecified, v4_is_broadcast. cbn [is_multicast].
    rewrite !andb_true_iff, !negb_true_iff, !bool_decide_eq_false. rewrite <- not_true_iff_false.
    rewrite Hone. naive_solver.
  - rewrite (Hzero (V6 v6_unspecified)) by done.
    unfold v6_is_unspecified. cbn [is_multicast].
    rewrite !andb_true_iff, !negb_true_iff, !bool_decide_eq_false, <- not_true_iff_false.
    naive_solver.
Qed.

Lemma guard_Ok {E} (c : bool) (e : E) : guard c e = Ok () ↔ c = false.
Proof. by destruct c. Qed.
Lemma guard_bind_Ok {E A} (c : bool) (e : E) (k : Res E A) a :
  res_bind (guard c e) (λ _, k) = Ok a ↔ c = false ∧ k = Ok a.
Proof. destruct c; simpl; naive_solver. Qed.
Lemma guard_bind_Err {E A} (c : bool) (e e' : E) (k : Res E A) :
  res_bind (guard c e) (λ _, k) = Err e' ↔ (c = true ∧ e = e') ∨ (c = false ∧ k = Err e').
Proof. destruct c; simpl; naive_solver. Qed.
#[export] Hint Rewrite @guard_Ok @guard_bind_Ok @guard_bind_Err negb_false_iff negb_true_iff
  bool_decide_eq_true bool_decide_eq_false : mcrx.

#[local] Ltac vsel :=
  unfold validate_multicast_selection; autorewrite with mcrx.

(** The interface part of the validation. *)
Lemma validate_interface_Ok group interface :
  match interface with
  | Some i => guard (negb (same_family group i)) InterfaceAddressFamilyMismatch
  | None => Ok ()
  end = Ok () ↔ ∀ i, interface = Some i → same_family group i = true.
Proof. destruct interface; autorewrite with mcrx; naive_solver. Qed.

Lemma validate_index_Ok group index :
  match index with
  | Some index =>
      res_bind (guard (bool_decide (index = 0%Z)) InvalidInterfaceIndex)
        (λ _, guard (match group with V6 _ => false | V4 _ => true end) InterfaceIndexRequiresIpv6)
  | None => Ok ()
  end = Ok () ↔ ∀ n, index = Some n → n ≠ 0%Z ∧ family_of_group group = Ipv6Family.
Proof. destruct index, group; autorewrite with mcrx; simpl; naive_solver. Qed.

Lemma validate_source_Ok group source :
  match source with
  | SourceAny => Ok ()
  | Source source =>
      res_bind (guard (negb (is_valid_source_address source)) InvalidSourceAddress)
        (λ _, res_bind (guard (negb (same_family group source)) SourceAddressFamilyMismatch)
        (λ _, match group, source with
              | V4 g, V4 _ => guard (negb (is_ipv4_ssm_group g)) InvalidIpv4SsmGroup
              | V6 g, V6 _ => guard (negb (is_ipv6_ssm_group g)) InvalidIpv6SsmGroup
              | _, _ => Ok ()
              end))
  end = Ok () ↔
  match source with
  | SourceAny => True
  | Source s => group_is_ssm group = true ∧ same_family group s = true
                ∧ is_valid_source_address s = true
  end.
Proof.
  destruct source as [|s]; [done|]. autorewrite with mcrx.
  destruct group, s; simpl; autorewrite with mcrx; naive_solver.
Qed.

Lemma res_bind_unit_Ok {E} (m k : Res E unit) :
  res_bind m (λ _, k) = Ok () ↔ m = Ok () ∧ k = Ok ().
Proof. destruct m as [[]| | |]; naive_solver. Qed.

Lemma validate_selection_Ok group source interface index :
  validate_multicast_selection group source interface index = Ok () ↔
  valid_selection group source interface index.
Proof.
  unfold validate_multicast_selection.
  rewrite !res_bind_unit_Ok, validate_source_Ok, validate_interface_Ok, validate_index_Ok,
    !guard_Ok, negb_false_iff, andb_false_iff, bool_decide_eq_false.
  rewrite is_multicast_spec. setoid_rewrite same_family_bits. setoid_rewrite family_bits. split.
  - intros (Hm & Hs & Hsrc & Hi & Hx). split; [done| |done..].
    destruct source as [|s]; [|by rewrite <-group_is_ssm_spec, <-is_valid_source_spec, <-same_family_bits].
    apply group_is_ssm_false. naive_solver.
  - intros [Hm Hs Hi Hx]. split_and!; [done| | |done..].
    + destruct source; [right; by apply group_is_ssm_false|by left].
    + destruct source; [done|]. by rewrite group_is_ssm_spec, is_valid_source_spec, same_family_bits.
Qed.

Lemma res_bind_unit_Err {E} (m k : Res E unit) e :
  res_bind m (λ _, k) = Err e ↔ m = Err e ∨ (m = Ok () ∧ k = Err e).
Proof. destruct m as [[]| | |]; naive_solver. Qed.

Lemma validate_selection_Err group source interface index e :
  validate_multicast_selection group source interface index = Err e →
  selection_fault group source interface index e.
Proof.
  unfold validate_multicast_selection. rewrite !res_bind_unit_Err. unfold guard.
  intros [H|[_ [H|[_ [H|[_ [H|[_ H]]]]]]]].
  - destruct (negb _) eqn:Hm; simplify_eq/=. by apply negb_true_iff in Hm.
  - destruct (_ && _) eqn:Hm; simplify_eq/=.
    by rewrite andb_true_iff, bool_decide_eq_true, group_is_ssm_spec in Hm.
  - destruct source as [|s]; [done|].
    destruct (is_valid_source_address s) eqn:Hv; simplify_eq/=; [|eauto].
    destruct (same_family group s) eqn:Hf; simplify_eq/=; [|eauto].
    destruct group as [g|g], s as [s|s]; try done; simpl in *; split_cases;
      eexists; (split; [done|]; split; [done|]);
      apply group_is_ssm_false; by apply negb_true_iff.
  - destruct interface as [i|]; [|done]. split_cases. eexists. split; [done|].
    by apply negb_true_iff.
  - destruct index as [n|]; [|done]. destruct (bool_decide_reflect (n = 0%Z)); split_cases;
      simpl; eauto.
Qed.

(** A validation never unwinds. *)
Lemma validate_selection_returns group source interface index :
  returns (validate_multicast_selection group source interface index).
Proof.
  unfold validate_multicast_selection, guard.
  repeat (case_match; simpl; try done).
Qed.

Lemma config_validate_returns c : returns (SubscriptionConfig.validate c).
Proof.
  unfold SubscriptionConfig.validate, guard. case_bool_decide; simpl; [done|].
  apply validate_selection_returns.
Qed.

Lemma validate_Ok c : SubscriptionConfig.validate c = Ok () ↔ valid_config c.
Proof.
  unfold SubscriptionConfig.validate, valid_config.
  by rewrite guard_bind_Ok, bool_decide_eq_false, validate_selection_Ok.
Qed.

(** ** Properties *)

(** C14: a UDP configuration passes [validate] exactly when its port is
    not zero, its group lies in 224.0.0.0/4 or ff00::/8, a group in an SSM
    range (232.0.0.0/8, ff30::/32 to ff3f::/32) has a source filter and no other
    group has one, the source is an address of the group's family that can send (neither
    unspecified nor multicast nor the IPv4 broadcast address), the interface is
    of the group's family and an interface index is non-zero and goes with an
    IPv6 group. Ranges and families are those of the address's value and width,
    not of the functions of the code. *)
Theorem validate_iff_valid_config (c : SubscriptionConfig) :
  SubscriptionConfig.validate c = Ok () ↔ valid_config c.
Proof. apply validate_Ok. Qed.

(** [validate] returns; when it returns an error, the error
    names a fault that the configuration has, and no other error is ever
    returned. *)
Theorem validate_error_is_a_fault (c : SubscriptionConfig) :
  returns (SubscriptionConfig.validate c) ∧
  ∀ e, SubscriptionConfig.validate c = Err e →
    (e = InvalidDestinationPort ∧ cfg_dst_port c = 0%Z) ∨
    selection_fault (cfg_group c) (cfg_source c) (cfg_interface c) (cfg_interface_index c) e.
Proof.
  split.
  - apply config_validate_returns.
  - intros e. unfold SubscriptionConfig.validate. rewrite guard_bind_Err, bool_decide_eq_true.
    intros [[? <-]|[_ H]]; [by left|right]. by apply validate_selection_Err.
Qed.

(** A valid configuration has exactly one membership view, that
    of its own family, and the view holds the configured group, source and
    interface: the platform layer never meets a missing view. *)
Theorem valid_config_membership (c : SubscriptionConfig) :
  SubscriptionConfig.validate c = Ok () →
  match SubscriptionConfig.family c with
  | Ipv4Family =>
      SubscriptionConfig.ipv6_membership c = None ∧
      ∃ m, SubscriptionConfig.ipv4_membership c = Some m ∧
           cfg_group c = V4 (m4_group m) ∧
           SubscriptionConfig.source_addr c = V4 <$> m4_source m ∧
           cfg_interface c = V4 <$> m4_interface m
  | Ipv6Family =>
      SubscriptionConfig.ipv4_membership c = None ∧
      ∃ m, SubscriptionConfig.ipv6_membership c = Some m ∧
           cfg_group c = V6 (m6_group m) ∧
           SubscriptionConfig.source_addr c = V6 <$> m6_source m ∧
           cfg_interface c = V6 <$> m6_interface m ∧
           cfg_interface_index c = m6_interface_index m
  end.
Proof.
  rewrite validate_Ok. intros [_ [_ Hs Hi _]].
  destruct c as [g s p i x]; simpl in *.
  assert (Hfs : match s with Source s => same_family g s = true | SourceAny => True end).
  { destruct s; [done|]. apply same_family_bits. naive_solver. }
  assert (Hfi : match i with Some i => same_family g i = true | None => True end).
  { destruct i; [|done]. by apply same_family_bits, Hi. }
  clear Hs Hi. destruct g as [g|g], s as [|[s|s]], i as [[i|i]|]; try done;
    (split; [done|]); eexists; done.
Qed.

Example valid_config_membership_witness :
  let c := mkConfig (V4 (v4 232 1 2 3)) (Source (V4 (v4 10 0 0 1))) 5000 None None in
  ∃ m, SubscriptionConfig.ipv4_membership c = Some m ∧ m4_source m = Some (v4 10 0 0 1).
Proof.
  intros c.
  pose proof (valid_config_membership c ltac:(vm_compute; reflexivity)) as Hm.
  vm_compute in Hm. destruct Hm as (_ & m & [= <-] & _). eexists. split; reflexivity.
Defined.

Example validate_error_is_a_fault_witness :
  let c := mkConfig (V4 (v4 10 0 0 9)) SourceAny 5000 None None in
  selection_fault (cfg_group c) SourceAny None None InvalidMulticastGroup.
Proof.
  intros c.
  destruct (proj2 (validate_error_is_a_fault c) InvalidMulticastGroup) as [[H _]|H];
    [vm_compute; reflexivity|discriminate H|exact H].
Defined.
