(* ===== verification/Packet.v ===== *)
(** * Packets and receive metadata ([src/src/packet.rs], [src/src/raw/packet.rs]) *)

From S2P Require Import Prelude Net.

(** [SubscriptionId(pub u64)]. *)
Abbreviation SubscriptionId := Z (only parsing).

Record Packet := mkPacket {
  pk_subscription_id : SubscriptionId;
  pk_source : SocketAddr;
  pk_group : IpAddr;
  pk_dst_port : Z;
  pk_payload : list byte }.

Record ReceiveMetadata := mkMetadata {
  md_socket_local_addr : option SocketAddr;
  md_configured_interface : option IpAddr;
  md_configured_interface_index : option Z;
  md_destination_local_ip : option IpAddr;
  md_ingress_interface_index : option Z }.

Definition ReceiveMetadata_empty : ReceiveMetadata := mkMetadata None None None None None.

Record PacketWithMetadata := mkPacketWithMetadata {
  pm_packet : Packet;
  pm_metadata : ReceiveMetadata }.

Record RawPacket := mkRawPacket {
  rp_subscription_id : SubscriptionId;
  rp_datagram : list byte;
  rp_source_ip : option IpAddr;
  rp_group : option IpAddr;
  rp_ip_protocol : option Z;
  rp_metadata : ReceiveMetadata }.

Definition payload_len (p : Packet) : nat := length (pk_payload p).
Definition into_packet (p : PacketWithMetadata) : Packet := pm_packet p.
Definition datagram_len (p : RawPacket) : nat := length (rp_datagram p).

(** Assignments to fields of a [&mut ReceiveMetadata]. *)
Definition set_destination_local_ip (ip : option IpAddr) (m : ReceiveMetadata) : ReceiveMetadata :=
  mkMetadata (md_socket_local_addr m) (md_configured_interface m)
    (md_configured_interface_index m) ip (md_ingress_interface_index m).
Definition set_ingress_interface_index (i : option Z) (m : ReceiveMetadata) : ReceiveMetadata :=
  mkMetadata (md_socket_local_addr m) (md_configured_interface m)
    (md_configured_interface_index m) (md_destination_local_ip m) i.
Definition set_configured (interface : option IpAddr) (index : option Z)
    (m : ReceiveMetadata) : ReceiveMetadata :=
  mkMetadata (md_socket_local_addr m) interface index
    (md_destination_local_ip m) (md_ingress_interface_index m).

#[global] Instance ReceiveMetadata_eq_dec : EqDecision ReceiveMetadata.
Proof. solve_decision. Defined.
#[global] Instance Packet_eq_dec : EqDecision Packet.
Proof. solve_decision. Defined.
#[global] Instance RawPacket_eq_dec : EqDecision RawPacket.
Proof. solve_decision. Defined.
