(* ===== verification/Metrics.v ===== *)
(** * Metrics snapshots, deltas and samplers ([src/src/metrics.rs])

    The cumulative snapshots, the deltas between two of them, the rates, and
    the samplers that keep the previous snapshot. [f64] values are IEEE-754
    binary64 numbers of the standard library's [SpecFloat]; a [SystemTime] is
    a number of nanoseconds relative to the Unix epoch. *)

From S2P Require Import Prelude Net.
From Stdlib Require Import Floats.SpecFloat Sorting.Sorted.

(** ** [f64] *)
Abbreviation f64 := spec_float.
Definition f64_of_Z (z : Z) : f64 := binary_normalize 53 1024 z 0 false.
Definition f64_add (x y : f64) : f64 := SFadd 53 1024 x y.
Definition f64_sub (x y : f64) : f64 := SFsub 53 1024 x y.
Definition f64_mul (x y : f64) : f64 := SFmul 53 1024 x y.
Definition f64_div (x y : f64) : f64 := SFdiv 53 1024 x y.
Definition f64_lt (x y : f64) : bool := SFltb x y.
Definition f64_zero : f64 := S754_zero false.

(** ** [Duration] and [SystemTime] *)
Definition SystemTime : Type := Z.
Definition nanos_per_sec : Z := 1000000000.

(** [SystemTime::duration_since]: an error when [earlier] is later. *)
Definition duration_since (self earlier : SystemTime) : option Z := checked_sub self earlier.

(** [Duration::as_secs_f64]: [secs as f64 + nanos as f64 / 1e9]. *)
Definition as_secs_f64 (nanos : Z) : f64 :=
  f64_add (f64_of_Z (nanos `div` nanos_per_sec))
          (f64_div (f64_of_Z (nanos `mod` nanos_per_sec)) (f64_of_Z nanos_per_sec)).

(** [rate_per_sec] and [duration_since_epoch_secs]. *)
Definition rate_per_sec (count : Z) (interval_secs : f64) : f64 :=
  if f64_lt f64_zero interval_secs then f64_div (f64_of_Z count) interval_secs else f64_zero.
Definition duration_since_epoch_secs (time : SystemTime) : f64 :=
  as_secs_f64 (default 0%Z (duration_since time 0%Z)).

(** ** Subscription metrics *)
Record SubscriptionMetricsSnapshot := mkSubSnapshot {
  ss_packets_received : Z;
  ss_bytes_received : Z;
  ss_would_block_count : Z;
  ss_receive_errors : Z;
  ss_join_count : Z;
  ss_leave_count : Z;
  ss_last_payload_len : option Z;
  ss_last_source : option SocketAddr;
  ss_last_receive_at : option SystemTime;
  ss_captured_at : SystemTime }.

Record SubscriptionMetricsDelta := mkSubDelta {
  sd_interval_secs : f64;
  sd_packets_received : Z;
  sd_bytes_received : Z;
  sd_would_block_count : Z;
  sd_receive_errors : Z;
  sd_join_count : Z;
  sd_leave_count : Z }.

Definition subscription_delta_since (self earlier : SubscriptionMetricsSnapshot)
    : option SubscriptionMetricsDelta :=
  duration ← duration_since (ss_captured_at self) (ss_captured_at earlier);
  packets ← checked_sub (ss_packets_received self) (ss_packets_received earlier);
  bytes ← checked_sub (ss_bytes_received self) (ss_bytes_received earlier);
  would_block ← checked_sub (ss_would_block_count self) (ss_would_block_count earlier);
  errors ← checked_sub (ss_receive_errors self) (ss_receive_errors earlier);
  joins ← checked_sub (ss_join_count self) (ss_join_count earlier);
  leaves ← checked_sub (ss_leave_count self) (ss_leave_count earlier);
  Some (mkSubDelta (as_secs_f64 duration) packets bytes would_block errors joins leaves).

Definition sd_packets_per_sec (d : SubscriptionMetricsDelta) : f64 :=
  rate_per_sec (sd_packets_received d) (sd_interval_secs d).
Definition sd_bytes_per_sec (d : SubscriptionMetricsDelta) : f64 :=
  rate_per_sec (sd_bytes_received d) (sd_interval_secs d).
Definition sd_would_block_per_sec (d : SubscriptionMetricsDelta) : f64 :=
  rate_per_sec (sd_would_block_count d) (sd_interval_secs d).
Definition sd_receive_errors_per_sec (d : SubscriptionMetricsDelta) : f64 :=
  rate_per_sec (sd_receive_errors d) (sd_interval_secs d).

(** ** Context metrics *)
Record ContextMetricsSnapshot := mkCtxSnapshot {
  cs_subscriptions_added : Z;
  cs_subscriptions_removed : Z;
  cs_active_subscriptions : Z;
  cs_joined_subscriptions : Z;
  cs_total_packets_received : Z;
  cs_total_bytes_received : Z;
  cs_total_would_block_count : Z;
  cs_total_receive_errors : Z;
  cs_total_join_count : Z;
  cs_total_leave_count : Z;
  cs_batch_calls : Z;
  cs_batch_packets_received : Z;
  cs_captured_at : SystemTime }.

Record ContextMetricsDelta := mkCtxDelta {
  cd_interval_secs : f64;
  cd_packets_received : Z;
  cd_bytes_received : Z;
  cd_would_block_count : Z;
  cd_receive_errors : Z;
  cd_join_count : Z;
  cd_leave_count : Z;
  cd_batch_calls : Z;
  cd_batch_packets_received : Z }.

Definition context_delta_since (self earlier : ContextMetricsSnapshot)
    : option ContextMetricsDelta :=
  duration ← duration_since (cs_captured_at self) (cs_captured_at earlier);
  packets ← checked_sub (cs_total_packets_received self) (cs_total_packets_received earlier);
  bytes ← checked_sub (cs_total_bytes_received self) (cs_total_bytes_received earlier);
  would_block ← checked_sub (cs_total_would_block_count self) (cs_total_would_block_count earlier);
  errors ← checked_sub (cs_total_receive_errors self) (cs_total_receive_errors earlier);
  joins ← checked_sub (cs_total_join_count self) (cs_total_join_count earlier);
  leaves ← checked_sub (cs_total_leave_count self) (cs_total_leave_count earlier);
  calls ← checked_sub (cs_batch_calls self) (cs_batch_calls earlier);
  batch ← checked_sub (cs_batch_packets_received self) (cs_batch_packets_received earlier);
  Some (mkCtxDelta (as_secs_f64 duration) packets bytes would_block errors joins leaves calls batch).

Definition cd_packets_per_sec (d : ContextMetricsDelta) : f64 :=
  rate_per_sec (cd_packets_received d) (cd_interval_secs d).
Definition cd_bytes_per_sec (d : ContextMetricsDelta) : f64 :=
  rate_per_sec (cd_bytes_received d) (cd_interval_secs d).
Definition cd_would_block_per_sec (d : ContextMetricsDelta) : f64 :=
  rate_per_sec (cd_would_block_count d) (cd_interval_secs d).
Definition cd_receive_errors_per_sec (d : ContextMetricsDelta) : f64 :=
  rate_per_sec (cd_receive_errors d) (cd_interval_secs d).

(** ** Hardware metrics *)
Record HardwareMetricsSnapshot := mkHwSnapshot {
  hs_cpu_user_secs_total : f64;
  hs_cpu_system_secs_total : f64;
  hs_rss_bytes : Z;
  hs_virtual_memory_bytes : Z;
  hs_thread_count : Z;
  hs_open_fds : Z;
  hs_page_faults_minor_total : Z;
  hs_page_faults_major_total : Z;
  hs_ctx_switches_voluntary_total : Z;
  hs_ctx_switches_involuntary_total : Z;
  hs_captured_at : SystemTime }.

Record HardwareMetricsDelta := mkHwDelta {
  hd_ts : f64;
  hd_interval_secs : f64;
  hd_cpu_user_secs : f64;
  hd_cpu_system_secs : f64;
  hd_cpu_total_secs : f64;
  hd_cpu_util_percent : f64;
  hd_rss_bytes : Z;
  hd_virtual_memory_bytes : Z;
  hd_thread_count : Z;
  hd_open_fds : Z;
  hd_page_faults_minor : Z;
  hd_page_faults_major : Z;
  hd_ctx_switches_voluntary : Z;
  hd_ctx_switches_involuntary : Z }.

Definition hardware_delta_since (self earlier : HardwareMetricsSnapshot)
    : option HardwareMetricsDelta :=
  duration ← duration_since (hs_captured_at self) (hs_captured_at earlier);
  let interval_secs := as_secs_f64 duration in
  if f64_lt (hs_cpu_user_secs_total self) (hs_cpu_user_secs_total earlier)
     || f64_lt (hs_cpu_system_secs_total self) (hs_cpu_system_secs_total earlier)
  then None
  else
    let cpu_user_secs := f64_sub (hs_cpu_user_secs_total self) (hs_cpu_user_secs_total earlier) in
    let cpu_system_secs :=
      f64_sub (hs_cpu_system_secs_total self) (hs_cpu_system_secs_total earlier) in
    let cpu_total_secs := f64_add cpu_user_secs cpu_system_secs in
    let cpu_util_percent :=
      if f64_lt f64_zero interval_secs
      then f64_mul (f64_div cpu_total_secs interval_secs) (f64_of_Z 100)
      else f64_zero in
    minor ← checked_sub (hs_page_faults_minor_total self) (hs_page_faults_minor_total earlier);
    major ← checked_sub (hs_page_faults_major_total self) (hs_page_faults_major_total earlier);
    voluntary ← checked_sub (hs_ctx_switches_voluntary_total self)
                            (hs_ctx_switches_voluntary_total earlier);
    involuntary ← checked_sub (hs_ctx_switches_involuntary_total self)
                              (hs_ctx_switches_involuntary_total earlier);
    Some (mkHwDelta (duration_since_epoch_secs (hs_captured_at self)) interval_secs
            cpu_user_secs cpu_system_secs cpu_total_secs cpu_util_percent
            (hs_rss_bytes self) (hs_virtual_memory_bytes self) (hs_thread_count self)
            (hs_open_fds self) minor major voluntary involuntary).

(** ** Samplers

    The three samplers of the source are one machine over their snapshot type:
    the state is the previous snapshot. *)
Section sampler.
Context {Snapshot Delta : Type} (delta_since : Snapshot → Snapshot → option Delta).

Definition sampler_new : option Snapshot := None.
Definition sampler_sample (previous : option Snapshot) (current : Snapshot)
    : option Delta * option Snapshot :=
  (match previous with
   | Some previous => delta_since current previous
   | None => None
   end, Some current).
Definition sampler_reset (previous : option Snapshot) : option Snapshot := None.
Definition sampler_previous (previous : option Snapshot) : option Snapshot := previous.

(** The deltas of a sequence of [sample] calls. *)
Fixpoint sampler_run (previous : option Snapshot) (l : list Snapshot) : list (option Delta) :=
  match l with
  | [] => []
  | s :: l => let '(d, p) := sampler_sample previous s in d :: sampler_run p l
  end.
End sampler.

Definition SubscriptionMetricsSampler_sample := sampler_sample subscription_delta_since.
Definition ContextMetricsSampler_sample := sampler_sample context_delta_since.
Definition HardwareMetricsSampler_sample := sampler_sample hardware_delta_since.

(** ** The order of snapshots *)

(** [s] was captured after [e] and none of its counters moved backwards. *)
Definition context_counters (s : ContextMetricsSnapshot) : list Z :=
  [cs_total_packets_received s; cs_total_bytes_received s; cs_total_would_block_count s;
   cs_total_receive_errors s; cs_total_join_count s; cs_total_leave_count s;
   cs_batch_calls s; cs_batch_packets_received s].
Definition context_delta_counters (d : ContextMetricsDelta) : list Z :=
  [cd_packets_received d; cd_bytes_received d; cd_would_block_count d; cd_receive_errors d;
   cd_join_count d; cd_leave_count d; cd_batch_calls d; cd_batch_packets_received d].
Definition context_not_before (e s : ContextMetricsSnapshot) : Prop :=
  (cs_captured_at e ≤ cs_captured_at s)%Z ∧ Forall2 Z.le (context_counters e) (context_counters s).

Definition subscription_counters (s : SubscriptionMetricsSnapshot) : list Z :=
  [ss_packets_received s; ss_bytes_received s; ss_would_block_count s; ss_receive_errors s;
   ss_join_count s; ss_leave_count s].
Definition subscription_delta_counters (d : SubscriptionMetricsDelta) : list Z :=
  [sd_packets_received d; sd_bytes_received d; sd_would_block_count d; sd_receive_errors d;
   sd_join_count d; sd_leave_count d].
Definition subscription_not_before (e s : SubscriptionMetricsSnapshot) : Prop :=
  (ss_captured_at e ≤ ss_captured_at s)%Z ∧
  Forall2 Z.le (subscription_counters e) (subscription_counters s).

Ltac checked_subs :=
  repeat match goal with
  | H : checked_sub _ _ ≫= _ = Some _ |- _ =>
      let x := fresh "x" in let Hx := fresh "Hx" in
      apply bind_Some in H as (x & Hx & H); apply checked_sub_Some in Hx as [? ->]
  end.

Lemma checked_sub_le x y : (y ≤ x)%Z → checked_sub x y = Some (x - y)%Z.
Proof. intros. by apply checked_sub_Some. Qed.

Lemma context_delta_Some s e d :
  context_delta_since s e = Some d ↔
  context_not_before e s ∧
  d = mkCtxDelta (as_secs_f64 (cs_captured_at s - cs_captured_at e))
        (cs_total_packets_received s - cs_total_packets_received e)
        (cs_total_bytes_received s - cs_total_bytes_received e)
        (cs_total_would_block_count s - cs_total_would_block_count e)
        (cs_total_receive_errors s - cs_total_receive_errors e)
        (cs_total_join_count s - cs_total_join_count e)
        (cs_total_leave_count s - cs_total_leave_count e)
        (cs_batch_calls s - cs_batch_calls e)
        (cs_batch_packets_received s - cs_batch_packets_received e).
Proof.
  unfold context_delta_since, context_not_before, context_counters, duration_since. split.
  - intros Hd. checked_subs. simplify_eq. by repeat constructor.
  - intros [[Ht Hf] ->]. rewrite !Forall2_cons in Hf. destruct_and!.
    by rewrite !checked_sub_le by done.
Qed.

Lemma subscription_delta_Some s e d :
  subscription_delta_since s e = Some d ↔
  subscription_not_before e s ∧
  d = mkSubDelta (as_secs_f64 (ss_captured_at s - ss_captured_at e))
        (ss_packets_received s - ss_packets_received e)
        (ss_bytes_received s - ss_bytes_received e)
        (ss_would_block_count s - ss_would_block_count e)
        (ss_receive_errors s - ss_receive_errors e)
        (ss_join_count s - ss_join_count e)
        (ss_leave_count s - ss_leave_count e).
Proof.
  unfold subscription_delta_since, subscription_not_before, subscription_counters, duration_since.
  split.
  - intros Hd. checked_subs. simplify_eq. by repeat constructor.
  - intros [[Ht Hf] ->]. rewrite !Forall2_cons in Hf. destruct_and!.
    by rewrite !checked_sub_le by done.
Qed.

(** ** Properties *)

(** A context delta exists exactly when the later snapshot was not
    captured earlier and no counter moved backwards, and then every counter of
    the delta is the difference of the cumulative ones; the subscription delta
    likewise. *)
Theorem delta_since_spec (s e : ContextMetricsSnapshot) (s' e' : SubscriptionMetricsSnapshot) :
  (is_Some (context_delta_since s e) ↔ context_not_before e s) ∧
  (∀ d, context_delta_since s e = Some d →
     context_delta_counters d = zip_with Z.sub (context_counters s) (context_counters e)) ∧
  (is_Some (subscription_delta_since s' e') ↔ subscription_not_before e' s') ∧
  (∀ d, subscription_delta_since s' e' = Some d →
     subscription_delta_counters d =
       zip_with Z.sub (subscription_counters s') (subscription_counters e')).
Proof.
  split_and!.
  - unfold is_Some. setoid_rewrite context_delta_Some. naive_solver.
  - by intros d [_ ->]%context_delta_Some.
  - unfold is_Some. setoid_rewrite subscription_delta_Some. naive_solver.
  - by intros d [_ ->]%subscription_delta_Some.
Qed.

(** The sum of a counter over the deltas of a run. *)
Definition packets_of_run (l : list (option ContextMetricsDelta)) : Z :=
  foldr (λ d acc, match d with Some d => cd_packets_received d | None => 0 end + acc)%Z 0%Z l.

(** Over a sequence of snapshots in which each is not before the
    previous one, the sampler answers nothing on the first sample and a delta
    on every later one, and the packet counts of the deltas add up to the
    difference between the last and the first snapshot. *)
Theorem sampler_telescopes (first : ContextMetricsSnapshot) (l : list ContextMetricsSnapshot) :
  Sorted context_not_before (first :: l) →
  ∃ ds, sampler_run context_delta_since sampler_new (first :: l) = None :: (Some <$> ds) ∧
        length ds = length l ∧
        packets_of_run (Some <$> ds) =
          (cs_total_packets_received (default first (last l))
           - cs_total_packets_received first)%Z.
Proof.
  cbn [sampler_run sampler_sample sampler_new]. revert first.
  induction l as [|s l IH]; intros first Hs; cbn [sampler_run sampler_sample].
  - exists []. simpl. split_and!; [done..|]. lia.
  - apply Sorted_inv in Hs as [Hs Hhd]. inversion Hhd as [|? ? Hle]; subst.
    destruct (IH s Hs) as (ds & Hrun & Hlen & Hsum). injection Hrun as Hrun.
    destruct (context_delta_since s first) as [d|] eqn:Hd.
    + exists (d :: ds). cbn [fmap list_fmap]. rewrite Hrun. split_and!; [done|simpl; lia|].
      simpl. rewrite Hsum. apply context_delta_Some in Hd as [_ ->]. simpl.
      destruct (last l) as [z|] eqn:Hlast; rewrite last_cons, Hlast; simpl; lia.
    + assert (is_Some (context_delta_since s first)) as [? ?].
      { eexists. by apply context_delta_Some. }
      congruence.
Qed.

(** Three snapshots, a second apart, of a context that receives ten packets a
    second. *)
Definition sample_snapshot (n : Z) : ContextMetricsSnapshot :=
  (mkCtxSnapshot 1 0 1 1 (10 * n) (1000 * n) n 0 1 0 n (10 * n) (n * 1000000000))%Z.

Example sampler_telescopes_witness :
  ∃ ds, sampler_run context_delta_since sampler_new
          [sample_snapshot 0; sample_snapshot 1; sample_snapshot 2] = None :: (Some <$> ds) ∧
        packets_of_run (Some <$> ds) = 20%Z.
Proof.
  destruct (sampler_telescopes (sample_snapshot 0) [sample_snapshot 1; sample_snapshot 2])
    as (ds & Hrun & _ & Hsum).
  - repeat constructor; vm_compute; try discriminate; repeat constructor; discriminate.
  - exists ds. split; [exact Hrun|]. rewrite Hsum. reflexivity.
Defined.
