(* ===== verification/Os.v ===== *)
(** * The operating-system interface

    The crate reaches the kernel through [socket2], [libc] and [windows-sys],
    none of which is part of the repository. They are the fields of the class
    [Os]: an abstract world, the calls that read and change it, and the sizes
    and byte order that the platform headers define. Every definition of the
    platform layer takes an [Os]; nothing is assumed about what a call
    answers. *)

From S2P Require Import Prelude Net Config.

(** The compilation targets that the [cfg] attributes of the source tell
    apart. *)
Inductive TargetOs :=
  | Linux
  | Android
  | MacOs
  | Ios
  | Bsd          (* freebsd, dragonfly, netbsd, openbsd *)
  | Solarish     (* solaris, illumos: unix without SO_REUSEPORT *)
  | OtherUnix
  | Windows
  | OtherOs.

#[global] Instance TargetOs_eq_dec : EqDecision TargetOs.
Proof. solve_decision. Defined.

Definition cfg_unix (t : TargetOs) : bool :=
  match t with Windows | OtherOs => false | _ => true end.
Definition cfg_linux_or_android (t : TargetOs) : bool :=
  match t with Linux | Android => true | _ => false end.
Definition cfg_apple (t : TargetOs) : bool :=
  match t with MacOs | Ios => true | _ => false end.
Definition cfg_apple_or_bsd (t : TargetOs) : bool :=
  match t with MacOs | Ios | Bsd => true | _ => false end.

(** The socket options that the crate sets by name. *)
Inductive SockOpt :=
  | IP_PKTINFO | IPV6_RECVPKTINFO | IPV6_PKTINFO | IP_RECVDSTADDR | IP_RECVIF
  | MCAST_JOIN_SOURCE_GROUP | MCAST_LEAVE_SOURCE_GROUP
  | IP_ADD_SOURCE_MEMBERSHIP | IP_DROP_SOURCE_MEMBERSHIP.

Inductive SockLevel := IPPROTO_IP | IPPROTO_IPV6.

#[global] Instance SockOpt_eq_dec : EqDecision SockOpt.
Proof. solve_decision. Defined.
#[global] Instance SockLevel_eq_dec : EqDecision SockLevel.
Proof. solve_decision. Defined.

(** A control message as [CMSG_FIRSTHDR] and [CMSG_NXTHDR] deliver it: level,
    type, and the [cmsg_len - CMSG_LEN(0)] bytes at [CMSG_DATA]. *)
Record Cmsg := mkCmsg { cm_level : SockLevel; cm_type : SockOpt; cm_data : list byte }.

(** What [recvmsg] reports: the datagram, the peer address when it is an IP
    address, and the control messages with their total length. *)
Record UnixMsg := mkUnixMsg {
  um_payload : list byte;
  um_source : option SocketAddr;
  um_controllen : nat;
  um_control : list Cmsg }.

(** What [WSARecvMsg] reports; the control buffer is raw memory at an
    address. *)
Record WsaMsg := mkWsaMsg {
  wm_payload : list byte;
  wm_source : option SocketAddr;
  wm_control_base : Z;
  wm_control : list byte }.

(** An entry of the list that [getifaddrs] returns. *)
Inductive IfSockAddr := IfInet (a : Ipv4Addr) | IfInet6 (a : Ipv6Addr) | IfOtherFamily.
Record IfAddr := mkIfAddr { ifa_name : option string; ifa_addr : option IfSockAddr }.

(** An adapter of [GetAdaptersAddresses] with its unicast addresses. *)
Record Adapter := mkAdapter { ad_ipv6_if_index : Z; ad_unicast : list (option IfSockAddr) }.

(** The outcome of a [GetAdaptersAddresses] call. *)
Inductive AdaptersResult :=
  | AdaptersOverflow
  | AdaptersFailed (status : Z)
  | Adapters (l : list Adapter).

(** Sizes, offsets and constants of the structures that the crate fills in for
    [setsockopt]: [sockaddr_storage], [sockaddr_in6] and [ip_mreq_source]. *)
Record SockAddrLayout := mkSockAddrLayout {
  storage_size : nat;
  storage_align : nat;
  sin6_size : nat;
  sin6_len_at : nat;
  sin6_family_at : nat;
  sin6_family_size : nat;
  sin6_addr_at : nat;
  AF_INET6 : Z;
  mreq_size : nat;
  imr_multiaddr_at : nat;
  imr_sourceaddr_at : nat;
  imr_interface_at : nat }.

Class Os := {
  target : TargetOs;
  little_endian : bool;
  overflow_checks : bool;
  World : Type;
  Socket : Type;
  UdpProbe : Type;
  WsaRecvMsgFn : Type;
  (* socket2 *)
  socket_new_udp : SubscriptionAddressFamily → Io World Socket;
  set_only_v6 : Socket → bool → Io World unit;
  set_reuse_address : Socket → bool → Io World unit;
  set_reuse_port : Socket → bool → Io World unit;
  set_multicast_all_v4 : Socket → bool → Io World unit;
  set_multicast_all_v6 : Socket → bool → Io World unit;
  set_nonblocking : Socket → bool → Io World unit;
  bind_socket : Socket → SocketAddr → Io World unit;
  local_addr_as_socket : Socket → Io World (option SocketAddr);
  join_multicast_v4 : Socket → Ipv4Addr → Ipv4Addr → Io World unit;
  leave_multicast_v4 : Socket → Ipv4Addr → Ipv4Addr → Io World unit;
  join_ssm_v4 : Socket → Ipv4Addr → Ipv4Addr → Ipv4Addr → Io World unit;
  leave_ssm_v4 : Socket → Ipv4Addr → Ipv4Addr → Ipv4Addr → Io World unit;
  join_multicast_v6 : Socket → Ipv6Addr → Z → Io World unit;
  leave_multicast_v6 : Socket → Ipv6Addr → Z → Io World unit;
  (* setsockopt with the bytes of the option value, and their layout *)
  setsockopt : Socket → SockLevel → SockOpt → list byte → Io World unit;
  sockaddr_layout : SockAddrLayout;
  (* receive *)
  recvmsg : Socket → nat → nat → Io World UnixMsg;
  wsa_lookup_recvmsg : Socket → Io World (option WsaRecvMsgFn);
  wsa_recvmsg : WsaRecvMsgFn → Socket → nat → nat → Io World WsaMsg;
  cmsg_space : nat → nat;
  sockaddr_dl_size : nat;
  (* interfaces *)
  getifaddrs : Io World (list IfAddr);
  if_nametoindex : string → Call World Z;
  get_adapters_addresses : Call World AdaptersResult;
  (* std::net::UdpSocket, used as a routing probe *)
  probe_bind : SocketAddr → Io World UdpProbe;
  probe_connect : UdpProbe → SocketAddr → Io World unit;
  probe_local_addr : UdpProbe → Io World SocketAddr;
  (* std::time::SystemTime::now, in nanoseconds since the Unix epoch *)
  system_time_now : Call World Z
}.
