(* ===== verification/SampleOs.v ===== *)
(** * A concrete operating system

    A small instance of [Os] on which the development's operations run and its
    theorems are exercised. A socket is a number that fixes its behaviour: an
    even socket always has a datagram for the group 239.1.2.3, port 5000, and
    an odd one always fails; socket 2 would block; every setup call succeeds;
    the sockets [4 * n + 2] are those of IPv6.
    The world counts the receive calls, which is also its clock. *)

From S2P Require Import Prelude Net Config Packet Os.

Definition sample_group : Ipv4Addr := v4 239 1 2 3.
Definition sample_source : SocketAddr := SockV4 (v4 10 0 0 1) 4000.

(** [struct in_pktinfo] with interface index 3 for the sample group, as Linux
    delivers it on a little-endian machine. *)
Definition sample_pktinfo : Cmsg :=
  mkCmsg IPPROTO_IP IP_PKTINFO
    ([byte_of 3; Byte.x00; Byte.x00; Byte.x00] ++ v4_octets (v4 10 0 0 2) ++ v4_octets sample_group).

Definition sample_message : UnixMsg :=
  mkUnixMsg [byte_of 104; byte_of 105] (Some sample_source) 32 [sample_pktinfo].

Definition sample_error : IoError := mkIoError Other (Some 5%Z) "Input/output error".

Definition sample_recvmsg (s : nat) : Io nat UnixMsg := λ w,
  (if bool_decide (s = 2) then inr (mkIoError WouldBlock (Some 11%Z) "would block")
   else if Nat.even s then inl sample_message else inr sample_error, S w).

(** The layouts of Linux and of macOS. *)
Definition sample_layout (t : TargetOs) : SockAddrLayout :=
  mkSockAddrLayout 128 8 28 0 (if cfg_apple_or_bsd t then 1 else 0) (if cfg_apple_or_bsd t then 1 else 2) 8
    (if cfg_apple t then 30 else 10)%Z 12 0 (if cfg_apple t then 4 else 8) (if cfg_apple t then 8 else 4).

(** An operating system whose setup calls succeed; the target, the world and
    the calls that the samples exercise are given. *)
Definition quiet_os_with (t : TargetOs) (W : Type) (clock : W → nat)
    (receive : nat → Io W UnixMsg) (join leave : nat → Io W unit)
    (lookup : option unit) (wsa : nat → nat → Io W WsaMsg) (adapters : Call W AdaptersResult) : Os := {|
  target := t;
  little_endian := true;
  overflow_checks := true;
  World := W;
  Socket := nat;
  UdpProbe := unit;
  WsaRecvMsgFn := unit;
  socket_new_udp family := λ w,
    (inl (4 * S (clock w) + if family is Ipv6Family then 2 else 0), w);
  set_only_v6 _ _ := io_ok ();
  set_reuse_address _ _ := io_ok ();
  set_reuse_port _ _ := io_ok ();
  set_multicast_all_v4 _ _ := io_ok ();
  set_multicast_all_v6 _ _ := io_ok ();
  set_nonblocking _ _ := io_ok ();
  bind_socket _ _ := io_ok ();
  local_addr_as_socket s :=
    io_ok (Some (if s mod 4 =? 2 then SockV6 v6_unspecified 5000 0 0 else SockV4 v4_unspecified 5000));
  join_multicast_v4 s _ _ := join s;
  leave_multicast_v4 s _ _ := leave s;
  join_ssm_v4 _ _ _ _ := io_ok ();
  leave_ssm_v4 _ _ _ _ := io_ok ();
  join_multicast_v6 _ _ _ := io_ok ();
  leave_multicast_v6 _ _ _ := io_ok ();
  setsockopt _ _ _ _ := io_ok ();
  sockaddr_layout := sample_layout t;
  recvmsg s _ _ := receive s;
  wsa_lookup_recvmsg _ := io_ok lookup;
  wsa_recvmsg _ s _ control_size := wsa s control_size;
  cmsg_space n := 16 + 8 * ((n + 7) / 8);
  sockaddr_dl_size := 20;
  getifaddrs := io_ok [];
  if_nametoindex _ := λ w, (0%Z, w);
  get_adapters_addresses := adapters;
  probe_bind _ := io_ok ();
  probe_connect _ _ := io_ok ();
  probe_local_addr _ := io_ok (SockV4 (v4 10 0 0 2) 40000);
  system_time_now := λ w, (Z.of_nat (clock w), w)
|}.

Definition quiet_os (t : TargetOs) (W : Type) (clock : W → nat)
    (receive : nat → Io W UnixMsg) (join leave : nat → Io W unit) : Os :=
  quiet_os_with t W clock receive join leave None (λ _ _, io_fail sample_error) (λ w, (Adapters [], w)).

(** Linux, where joining on socket 1 fails. *)
#[export] Instance sample_os : Os :=
  quiet_os Linux nat (λ w, w) sample_recvmsg
    (λ s, if bool_decide (s = 1) then io_fail sample_error else io_ok ()) (λ _, io_ok ()).

(** Windows, with the list of the sockets that hold a membership as its world;
    joining on socket 3 fails. *)
Definition ledger_join (s : nat) : Io (list nat) unit := λ w,
  if bool_decide (s = 3) then (inr sample_error, w) else (inl (), s :: w).
Definition ledger_leave (s : nat) : Io (list nat) unit := λ w,
  if bool_decide (s ∈ w) then (inl (), filter (λ s', s' ≠ s) w) else (inr sample_error, w).
Definition ledger_os : Os :=
  quiet_os Windows (list nat) length (λ _, io_fail sample_error) ledger_join ledger_leave.

(** Windows, with the datagrams of the sample sockets, as [WSARecvMsg] reports
    them: one control message, of type [IP_PKTINFO]. The first call of
    [GetAdaptersAddresses] asks for a larger buffer. *)
Definition windows_control : list byte :=
  [byte_of 24; Byte.x00; Byte.x00; Byte.x00; Byte.x00; Byte.x00; Byte.x00; Byte.x00] ++
  [Byte.x00; Byte.x00; Byte.x00; Byte.x00; byte_of 19; Byte.x00; Byte.x00; Byte.x00] ++
  v4_octets sample_group ++ [byte_of 3; Byte.x00; Byte.x00; Byte.x00].
Definition windows_message : WsaMsg :=
  mkWsaMsg [byte_of 104; byte_of 105] (Some sample_source) 4096 windows_control.
Definition windows_recvmsg (s control_size : nat) : Io nat WsaMsg := λ w,
  (if Nat.even s && bool_decide (24 ≤ control_size) then inl windows_message else inr sample_error, S w).
Definition sample_interface : Ipv6Addr := v6 65152 0 0 0 0 0 0 1.
Definition windows_adapters : Call nat AdaptersResult := λ w,
  match w with
  | O => (AdaptersOverflow, 1)
  | S _ => (Adapters [mkAdapter 3 [None; Some (IfInet6 sample_interface)]], w)
  end.
Definition windows_os : Os :=
  quiet_os_with Windows nat (λ w, w) (λ _, io_fail sample_error) (λ _, io_ok ()) (λ _, io_ok ())
    (Some ()) windows_recvmsg windows_adapters.

(** A configuration for the sample group, and a receive socket for it. *)
Definition sample_config : SubscriptionConfig :=
  mkConfig (V4 sample_group) SourceAny 5000 None None.

(** An IPv6 configuration, with an interface that has to be looked up. *)
Definition windows_config : SubscriptionConfig :=
  mkConfig (V6 (v6 65301 0 0 0 0 0 0 1)) SourceAny 5000 (Some (V6 sample_interface)) None.
