(* ===== verification/Ancillary.v ===== *)
(** * Ancillary data of a received datagram ([src/src/platform/mod.rs])

    The control-message decoding that fills [ReceiveMetadata]: the Unix
    version over the messages that the [CMSG_*] macros deliver, and the
    Windows version, which walks the control buffer itself, over raw memory. *)

From S2P Require Import Prelude Net Config Packet Os SampleOs.

Local Open Scope Z_scope.

(** ** Native-endian integers *)

Definition le_val (l : list byte) : Z := foldr (λ b acc, u8 b + 256 * acc) 0 l.
Definition be_val (l : list byte) : Z := foldl (λ acc b, acc * 256 + u8 b) 0 l.

Fixpoint le_bytes (n : nat) (z : Z) : list byte :=
  match n with
  | O => []
  | S n => byte_of z :: le_bytes n (z `div` 256)
  end.

Lemma u8_byte_of_mod z : u8 (byte_of z) = z `mod` 256.
Proof.
  rewrite <-(u8_byte_of (z `mod` 256)) by zlia. f_equal. unfold byte_of. by rewrite Z.mod_mod by lia.
Qed.

Lemma length_le_bytes n z : length (le_bytes n z) = n.
Proof. revert z. induction n as [|n IH]; intros z; cbn; [done|]. by rewrite IH. Qed.

Lemma le_val_bytes n z : 0 ≤ z < 256 ^ Z.of_nat n → le_val (le_bytes n z) = z.
Proof.
  revert z. induction n as [|n IH]; intros z Hz; [cbn in *; lia|].
  rewrite Nat2Z.inj_succ, Z.pow_succ_r in Hz by lia.
  cbn [le_bytes]. change (le_val (?b :: ?l)) with (u8 b + 256 * le_val l).
  rewrite IH by (split; [zlia|apply Z.div_lt_upper_bound; lia]).
  rewrite u8_byte_of_mod. zlia.
Qed.

Lemma le_val_nonneg l : 0 ≤ le_val l.
Proof. induction l as [|b l IH]; [done|]. cbn. pose proof (u8_bounds b). unfold le_val in IH. lia. Qed.

Lemma le_bytes_val l : le_bytes (length l) (le_val l) = l.
Proof.
  induction l as [|b l IH]; [done|]. pose proof (u8_bounds b). pose proof (le_val_nonneg l).
  cbn [length le_bytes]. change (le_val (b :: l)) with (u8 b + 256 * le_val l). f_equal.
  - apply u8_inj. rewrite u8_byte_of_mod, (Z.mul_comm 256), Z.mod_add by lia. apply Z.mod_small. lia.
  - rewrite (Z.mul_comm 256), Z.div_add, Z.div_small by lia. exact IH.
Qed.

Lemma be_val_rev l : be_val (rev l) = le_val l.
Proof.
  induction l as [|b l IH]; [done|]. cbn [rev]. unfold be_val in *. rewrite foldl_app, IH.
  change (le_val (b :: l)) with (u8 b + 256 * le_val l). cbn [foldl]. lia.
Qed.

Section decode.
Context `{Os}.

(** [from_ne_bytes] and [to_ne_bytes]. *)
Definition ne_val (l : list byte) : Z := if little_endian then le_val l else be_val l.
Definition ne_bytes (n : nat) (z : Z) : list byte :=
  if little_endian then le_bytes n z else rev (le_bytes n z).

Lemma length_ne_bytes n z : length (ne_bytes n z) = n.
Proof. unfold ne_bytes. destruct little_endian; rewrite ?length_rev; apply length_le_bytes. Qed.

Lemma ne_val_bytes n z : 0 ≤ z < 256 ^ Z.of_nat n → ne_val (ne_bytes n z) = z.
Proof.
  intros Hz. unfold ne_val, ne_bytes. destruct little_endian; rewrite ?be_val_rev; by apply le_val_bytes.
Qed.

Lemma ne_bytes_val l : ne_bytes (length l) (ne_val l) = l.
Proof.
  unfold ne_val, ne_bytes. destruct little_endian; [apply le_bytes_val|].
  rewrite <- (rev_involutive l) at 2. rewrite be_val_rev, <- length_rev, le_bytes_val. apply rev_involutive.
Qed.

(** ** Unix *)

(** [control_message_contains::<T>] for a [T] of [size] bytes:
    [cmsg_len >= CMSG_LEN(size)]. *)
Definition control_message_contains (size : nat) (c : Cmsg) : bool :=
  bool_decide (size ≤ length (cm_data c))%nat.

(** [libc::in_pktinfo]: interface index, local address, destination address. *)
Definition read_in_pktinfo (data : list byte) : option (Z * Ipv4Addr) :=
  ifindex ← slice data 0 4; addr ← slice data 8 12;
  addr ← v4_of_octets addr; Some (ne_val ifindex, addr).

(** [libc::in6_pktinfo]: destination address, interface index. *)
Definition read_in6_pktinfo (data : list byte) : option (Z * Ipv6Addr) :=
  addr ← slice data 0 16; ifindex ← slice data 16 20;
  addr ← v6_of_octets addr; Some (ne_val ifindex, addr).

(** [libc::in_addr], and the [SockAddrDlPrefix] of the source file. *)
Definition read_in_addr (data : list byte) : option Ipv4Addr :=
  addr ← slice data 0 4; v4_of_octets addr.
Definition read_sdl_index (data : list byte) : option Z :=
  index ← slice data 2 4; Some (ne_val index).

(** [if index != 0 { metadata.ingress_interface_index = Some(index) }]. *)
Definition note_ingress (index : Z) (m : ReceiveMetadata) : ReceiveMetadata :=
  if bool_decide (index = 0) then m else set_ingress_interface_index (Some index) m.

Definition note_pktinfo4 (info : option (Z * Ipv4Addr)) (m : ReceiveMetadata) : ReceiveMetadata :=
  match info with
  | Some (index, addr) => note_ingress index (set_destination_local_ip (Some (V4 addr)) m)
  | None => m
  end.
Definition note_pktinfo6 (info : option (Z * Ipv6Addr)) (m : ReceiveMetadata) : ReceiveMetadata :=
  match info with
  | Some (index, addr) => note_ingress index (set_destination_local_ip (Some (V6 addr)) m)
  | None => m
  end.

(** One iteration of [apply_receive_ancillary_data]. *)
Definition apply_cmsg (family : SubscriptionAddressFamily) (m : ReceiveMetadata) (c : Cmsg)
    : ReceiveMetadata :=
  match family with
  | Ipv4Family =>
      if bool_decide (cm_level c = IPPROTO_IP) then
        if cfg_linux_or_android target then
          if bool_decide (cm_type c = IP_PKTINFO) && control_message_contains 12 c
          then note_pktinfo4 (read_in_pktinfo (cm_data c)) m else m
        else if cfg_apple_or_bsd target then
          match cm_type c with
          | IP_RECVDSTADDR =>
              if control_message_contains 4 c then
                match read_in_addr (cm_data c) with
                | Some addr => set_destination_local_ip (Some (V4 addr)) m
                | None => m
                end
              else m
          | IP_RECVIF =>
              if control_message_contains 4 c then
                match read_sdl_index (cm_data c) with
                | Some index => note_ingress index m
                | None => m
                end
              else m
          | _ => m
          end
        else m
      else m
  | Ipv6Family =>
      if bool_decide (cm_level c = IPPROTO_IPV6) && bool_decide (cm_type c = IPV6_PKTINFO)
         && control_message_contains 20 c
      then note_pktinfo6 (read_in6_pktinfo (cm_data c)) m else m
  end.

Definition apply_receive_ancillary_data_unix (control : list Cmsg) (m : ReceiveMetadata)
    (family : SubscriptionAddressFamily) : ReceiveMetadata :=
  foldl (apply_cmsg family) m control.

(** ** Windows

    [CMSGHDR] is a [usize] length and two [i32]s: 16 bytes, aligned to 8. A
    header is named by its address. *)
Definition cmsghdr_size : Z := 16.
Definition cmsghdr_align : Z := 8.

Definition wsa_cmsg_align (length : Z) : Z :=
  Z.land (length + cmsghdr_align - 1) (Z.lnot (cmsghdr_align - 1)).
Definition wsa_cmsg_space (length : Z) : Z := wsa_cmsg_align cmsghdr_size + wsa_cmsg_align length.
Definition wsa_cmsg_len (length : Z) : Z := wsa_cmsg_align cmsghdr_size + length.

Definition wsa_control_len (msg : WsaMsg) : Z := Z.of_nat (length (wm_control msg)).

(** A read of the control buffer's memory. Reading outside of it is undefined
    behaviour, which the model makes a [Panic]. *)
Definition wsa_read (msg : WsaMsg) (addr : Z) (n : nat) : Res False (list byte) :=
  if bool_decide (wm_control_base msg ≤ addr) then
    let off := Z.to_nat (addr - wm_control_base msg) in
    expect (slice (wm_control msg) off (off + n)%nat)
  else Panic.

Definition wsa_hdr_len (msg : WsaMsg) (cmsg : Z) : Res False Z :=
  res_map ne_val (wsa_read msg cmsg 8).
Definition wsa_hdr_level (msg : WsaMsg) (cmsg : Z) : Res False Z :=
  res_map ne_val (wsa_read msg (cmsg + 8) 4).
Definition wsa_hdr_type (msg : WsaMsg) (cmsg : Z) : Res False Z :=
  res_map ne_val (wsa_read msg (cmsg + 12) 4).

Definition wsa_cmsg_firsthdr (msg : WsaMsg) : option Z :=
  if bool_decide (wm_control_base msg = 0) || bool_decide (wsa_control_len msg < wsa_cmsg_space 0)
  then None else Some (wm_control_base msg).

(** [wsa_cmsg_nxthdr] on a non-null header. *)
Definition wsa_cmsg_nxthdr (msg : WsaMsg) (cmsg : Z) : Res False (option Z) :=
  let base := wm_control_base msg in
  match checked_add usize_max base (wsa_control_len msg) with
  | None => Ok None
  | Some max =>
      match checked_add usize_max cmsg cmsghdr_size with
      | None => Ok None
      | Some current_header_end =>
          if bool_decide (cmsg < base) || bool_decide (max < current_header_end) then Ok None
          else
            let? current_len := wsa_hdr_len msg cmsg in
            if bool_decide (current_len < wsa_cmsg_len 0) then Ok None
            else
              match checked_add usize_max current_len (cmsghdr_align - 1) with
              | None => Ok None
              | Some sum =>
                  let aligned_len := Z.land sum (Z.lnot (cmsghdr_align - 1)) in
                  match checked_add usize_max cmsg aligned_len with
                  | None => Ok None
                  | Some next =>
                      match checked_add usize_max next (wsa_cmsg_align cmsghdr_size) with
                      | None => Ok None
                      | Some next_end =>
                          if bool_decide (max < next_end) then Ok None else Ok (Some next)
                      end
                  end
              end
      end
  end.

Definition wsa_cmsg_data (cmsg : Z) : Z := cmsg + wsa_cmsg_align cmsghdr_size.

(** [IN_PKTINFO]: address, interface index; [IN6_PKTINFO] likewise. The
    numeric values of the option names are those of the Windows headers. *)
Definition win_IPPROTO_IP : Z := 0.
Definition win_IPPROTO_IPV6 : Z := 41.
Definition win_IP_PKTINFO : Z := 19.
Definition win_IPV6_PKTINFO : Z := 19.

Definition wsa_apply_one (msg : WsaMsg) (cmsg : Z) (family : SubscriptionAddressFamily)
    (m : ReceiveMetadata) : Res False ReceiveMetadata :=
  let? level := wsa_hdr_level msg cmsg in
  let? type := wsa_hdr_type msg cmsg in
  let? len := wsa_hdr_len msg cmsg in
  match family with
  | Ipv4Family =>
      if bool_decide (level = win_IPPROTO_IP) && bool_decide (type = win_IP_PKTINFO)
         && bool_decide (wsa_cmsg_len 8 ≤ len)
      then
        let? data := wsa_read msg (wsa_cmsg_data cmsg) 8 in
        Ok (note_pktinfo4
              (addr ← slice data 0 4; index ← slice data 4 8;
               addr ← v4_of_octets addr; Some (ne_val index, addr)) m)
      else Ok m
  | Ipv6Family =>
      if bool_decide (level = win_IPPROTO_IPV6) && bool_decide (type = win_IPV6_PKTINFO)
         && bool_decide (wsa_cmsg_len 20 ≤ len)
      then
        let? data := wsa_read msg (wsa_cmsg_data cmsg) 20 in
        Ok (note_pktinfo6 (read_in6_pktinfo data) m)
      else Ok m
  end.

(** The [while !cmsg.is_null()] loop. *)
Fixpoint wsa_apply_loop (fuel : nat) (msg : WsaMsg) (cmsg : option Z)
    (family : SubscriptionAddressFamily) (m : ReceiveMetadata) : Res False ReceiveMetadata :=
  match cmsg with
  | None => Ok m
  | Some c =>
      match fuel with
      | O => OutOfFuel
      | S fuel =>
          let? m := wsa_apply_one msg c family m in
          let? next := wsa_cmsg_nxthdr msg c in
          wsa_apply_loop fuel msg next family m
      end
  end.

(** Every header takes at least 16 bytes, so the buffer bounds the loop. *)
Definition apply_receive_ancillary_data_windows (msg : WsaMsg) (m : ReceiveMetadata)
    (family : SubscriptionAddressFamily) : Res False ReceiveMetadata :=
  wsa_apply_loop (S (length (wm_control msg))) msg (wsa_cmsg_firsthdr msg) family m.

(** ** The Windows walk *)

(** A header that the walk visits. *)
Inductive wsa_visits (msg : WsaMsg) : Z → Prop :=
  | wsa_visits_first c : wsa_cmsg_firsthdr msg = Some c → wsa_visits msg c
  | wsa_visits_next c c' :
      wsa_visits msg c → wsa_cmsg_nxthdr msg c = Ok (Some c') → wsa_visits msg c'.

(** A header that lies in the buffer. *)
Definition wsa_hdr_inside (msg : WsaMsg) (c : Z) : Prop :=
  wm_control_base msg ≤ c ∧ c + cmsghdr_size ≤ wm_control_base msg + wsa_control_len msg.

Lemma land_lnot_7 z : Z.land z (Z.lnot 7) = z - z `mod` 8.
Proof.
  replace (Z.lnot 7) with (Z.lnot (Z.ones 3)) by done.
  rewrite <-Z.ldiff_land, Z.ldiff_ones_r, Z.shiftl_mul_pow2, Z.shiftr_div_pow2 by lia.
  change (2 ^ 3) with 8. pose proof (Z.div_mod z 8). lia.
Qed.

Lemma be_val_nonneg l : 0 ≤ be_val l.
Proof.
  unfold be_val. assert (∀ acc, 0 ≤ acc → 0 ≤ foldl (λ acc b, acc * 256 + u8 b) acc l); [|auto with lia].
  induction l as [|b l IH]; intros acc Hacc; simpl; [done|].
  apply IH. pose proof (u8_bounds b). lia.
Qed.

Lemma wsa_read_inside msg addr n :
  wm_control_base msg ≤ addr →
  addr + Z.of_nat n ≤ wm_control_base msg + wsa_control_len msg →
  ∃ l, wsa_read msg addr n = Ok l ∧ length l = n.
Proof.
  intros Hlo Hhi. unfold wsa_read, wsa_control_len in *. rewrite bool_decide_true by done.
  unfold slice. rewrite bool_decide_true by lia. eexists. split; [done|].
  rewrite length_take, length_drop. lia.
Qed.

Lemma wsa_hdr_reads msg c :
  wsa_hdr_inside msg c →
  (∃ n, wsa_hdr_len msg c = Ok n) ∧ (∃ n, wsa_hdr_level msg c = Ok n) ∧
  (∃ n, wsa_hdr_type msg c = Ok n).
Proof.
  intros [Hlo Hhi]. unfold cmsghdr_size, wsa_hdr_len, wsa_hdr_level, wsa_hdr_type in *.
  destruct (wsa_read_inside msg c 8) as (? & -> & _); [lia..|].
  destruct (wsa_read_inside msg (c + 8) 4) as (? & -> & _); [lia..|].
  destruct (wsa_read_inside msg (c + 12) 4) as (? & -> & _); [lia..|].
  simpl. split_and!; eauto.
Qed.

(** The next header is at least a header further, and inside the buffer. *)
Lemma wsa_nxthdr_inside msg c :
  wsa_hdr_inside msg c →
  ∃ next, wsa_cmsg_nxthdr msg c = Ok next ∧
    ∀ c', next = Some c' → c + cmsghdr_size ≤ c' ∧ wsa_hdr_inside msg c'.
Proof.
  intros Hin. destruct (wsa_hdr_reads msg c Hin) as [[n Hn] _]. destruct Hin as [Hlo Hhi].
  unfold wsa_cmsg_nxthdr. rewrite Hn. simpl.
  unfold wsa_cmsg_align, cmsghdr_align, cmsghdr_size in *.
  unfold wsa_hdr_inside, wsa_cmsg_len, wsa_cmsg_align, cmsghdr_size, cmsghdr_align.
  change (8 - 1) with 7. change (Z.land (16 + 8 - 1) (Z.lnot 7)) with 16.
  repeat (case_match; [|by eexists]). all: repeat case_match; simplify_eq; try by eexists.
  rewrite !checked_add_Some in *. destruct_and!; subst.
  rewrite ?orb_false_iff, ?bool_decide_eq_false in *. destruct_and!.
  rewrite ?land_lnot_7 in *.
  eexists; split; [done|]. intros ? [= <-]. zlia.
Qed.

Lemma wsa_firsthdr_inside msg c : wsa_cmsg_firsthdr msg = Some c → wsa_hdr_inside msg c.
Proof.
  unfold wsa_cmsg_firsthdr. case_match eqn:Hb; [done|]. intros [= <-].
  apply orb_false_iff in Hb as [_ Hb%bool_decide_eq_false].
  change (wsa_cmsg_space 0) with 16 in Hb. unfold wsa_hdr_inside, cmsghdr_size. lia.
Qed.

Lemma wsa_visits_inside msg c : wsa_visits msg c → wsa_hdr_inside msg c.
Proof.
  induction 1 as [c Hc|c c' Hc IH Hn]; [by apply wsa_firsthdr_inside|].
  destruct (wsa_nxthdr_inside msg c IH) as (next & Heq & Hnext).
  rewrite Heq in Hn. simplify_eq. by apply Hnext.
Qed.

(** Every header that the walk visits ends inside the buffer. *)
Definition wsa_control_wf (msg : WsaMsg) : Prop := ∀ c n,
  wsa_visits msg c → wsa_hdr_len msg c = Ok n → c + n ≤ wm_control_base msg + wsa_control_len msg.

Lemma wsa_apply_one_outcome msg c family m :
  wsa_hdr_inside msg c →
  (wsa_apply_one msg c family m = Panic ∨ ∃ m', wsa_apply_one msg c family m = Ok m') ∧
  ((∀ n, wsa_hdr_len msg c = Ok n → c + n ≤ wm_control_base msg + wsa_control_len msg) →
   ∃ m', wsa_apply_one msg c family m = Ok m').
Proof.
  intros Hin. destruct (wsa_hdr_reads msg c Hin) as ([n Hn] & [lv Hlv] & [ty Hty]).
  destruct Hin as [Hlo Hhi].
  assert (Hrd : ∀ sz, (wsa_read msg (wsa_cmsg_data c) sz = Panic ∨
                       ∃ l, wsa_read msg (wsa_cmsg_data c) sz = Ok l) ∧
     (wsa_cmsg_len (Z.of_nat sz) ≤ n → c + n ≤ wm_control_base msg + wsa_control_len msg →
      ∃ l, wsa_read msg (wsa_cmsg_data c) sz = Ok l)).
  { intros sz. split.
    - unfold wsa_read, expect. repeat case_match; eauto.
    - unfold wsa_cmsg_len, wsa_cmsg_data. change (wsa_cmsg_align cmsghdr_size) with 16.
      intros ? ?. destruct (wsa_read_inside msg (c + 16) sz) as (l & ? & _); [lia..|eauto]. }
  unfold wsa_apply_one. rewrite Hn, Hlv, Hty. simpl.
  destruct family; case_match eqn:Hg; [|by split; [right|]; eauto| |by split; [right|]; eauto].
  - apply andb_true_iff in Hg as [_ Hg%bool_decide_eq_true].
    destruct (Hrd 8%nat) as [Hany Hok]. split.
    + destruct Hany as [->|[l ->]]; simpl; eauto.
    + intros Hwf. destruct (Hok Hg (Hwf _ eq_refl)) as [l ->]. simpl. eauto.
  - apply andb_true_iff in Hg as [_ Hg%bool_decide_eq_true].
    destruct (Hrd 20%nat) as [Hany Hok]. split.
    + destruct Hany as [->|[l ->]]; simpl; eauto.
    + intros Hwf. destruct (Hok Hg (Hwf _ eq_refl)) as [l ->]. simpl. eauto.
Qed.

Lemma wsa_loop_outcome msg family fuel cmsg m :
  (∀ c, cmsg = Some c → wsa_visits msg c ∧
        wm_control_base msg + wsa_control_len msg - c < 16 * Z.of_nat fuel) →
  (wsa_apply_loop fuel msg cmsg family m = Panic ∨
   ∃ m', wsa_apply_loop fuel msg cmsg family m = Ok m') ∧
  (wsa_control_wf msg → ∃ m', wsa_apply_loop fuel msg cmsg family m = Ok m').
Proof.
  revert cmsg m. induction fuel as [|fuel IH]; intros [c|] m Hc; simpl; [|by split; eauto| |by split; eauto].
  { destruct (Hc c eq_refl) as [Hv%wsa_visits_inside Hf].
    destruct Hv. unfold cmsghdr_size in *. lia. }
  destruct (Hc c eq_refl) as [Hv Hf]. pose proof (wsa_visits_inside _ _ Hv) as Hin.
  destruct (wsa_nxthdr_inside msg c Hin) as (next & Hnx & Hnext).
  assert (Hnv : ∀ c', next = Some c' → wsa_visits msg c' ∧
            wm_control_base msg + wsa_control_len msg - c' < 16 * Z.of_nat fuel).
  { intros c' ->. destruct (Hnext c' eq_refl) as [? _]. unfold cmsghdr_size in *.
    split; [by eapply wsa_visits_next|lia]. }
  destruct (wsa_apply_one_outcome msg c family m Hin) as [Hany Hok]. split.
  - destruct Hany as [->|[m' ->]]; simpl; [by left|]. rewrite Hnx. simpl. by apply IH.
  - intros Hwf. destruct Hok as [m' ->]; [intros n Hn; by eapply Hwf|].
    simpl. rewrite Hnx. simpl. by apply IH.
Qed.

Lemma wsa_walk_outcome msg m family :
  let r := apply_receive_ancillary_data_windows msg m family in
  (r = Panic ∨ ∃ m', r = Ok m') ∧ (wsa_control_wf msg → ∃ m', r = Ok m').
Proof.
  apply wsa_loop_outcome. intros c Hc. pose proof (wsa_firsthdr_inside _ _ Hc) as [? ?].
  split; [by constructor|]. unfold wsa_control_len in *. lia.
Qed.

Lemma wsa_walk_returns msg m family :
  wsa_control_wf msg → ∃ m', apply_receive_ancillary_data_windows msg m family = Ok m'.
Proof. apply wsa_walk_outcome. Qed.

(** ** Encodings, for the round trip *)

(** The message that Linux attaches to a datagram received on interface
    [index] for destination [dst]. *)
Definition encode_pktinfo4 (index : Z) (spec dst : Ipv4Addr) : Cmsg :=
  mkCmsg IPPROTO_IP IP_PKTINFO (ne_bytes 4 index ++ v4_octets spec ++ v4_octets dst).
Definition encode_pktinfo6 (index : Z) (dst : Ipv6Addr) : Cmsg :=
  mkCmsg IPPROTO_IPV6 IPV6_PKTINFO (v6_octets dst ++ ne_bytes 4 index).

Lemma ne_val_bytes4 z : 0 ≤ z ≤ u32_max → ne_val (ne_bytes 4 z) = z.
Proof. unfold u32_max. intros Hz. apply ne_val_bytes. cbn. lia. Qed.

Lemma read_encoded_pktinfo4 index spec dst :
  0 ≤ index ≤ u32_max →
  read_in_pktinfo (cm_data (encode_pktinfo4 index spec dst)) = Some (index, dst).
Proof.
  intros Hi. rewrite <-(ne_val_bytes4 index Hi) at 2. unfold encode_pktinfo4, ne_bytes.
  destruct spec, dst. by destruct little_endian.
Qed.

Lemma read_encoded_pktinfo6 index dst :
  0 ≤ index ≤ u32_max →
  read_in6_pktinfo (cm_data (encode_pktinfo6 index dst)) = Some (index, dst).
Proof.
  intros Hi. rewrite <-(ne_val_bytes4 index Hi) at 2. unfold encode_pktinfo6, ne_bytes.
  destruct dst. by destruct little_endian.
Qed.

(** ** Properties *)

(** C31: whatever the control buffer holds, the walk reads headers only
    inside of it and ends; and when every header it meets ends inside the
    buffer, the payload reads are inside too and the walk returns. *)
Theorem wsa_walk_is_safe (msg : WsaMsg) (m : ReceiveMetadata) (family : SubscriptionAddressFamily) :
  (∀ c, wsa_visits msg c → wsa_hdr_inside msg c) ∧
  apply_receive_ancillary_data_windows msg m family ≠ OutOfFuel ∧
  (wsa_control_wf msg → ∃ m', apply_receive_ancillary_data_windows msg m family = Ok m').
Proof.
  split; [apply wsa_visits_inside|].
  destruct (wsa_walk_outcome msg m family) as [Hany Hok]. split; [|done].
  by destruct Hany as [->|[m' ->]].
Qed.

(** On Linux, decoding the pktinfo message of a datagram sent to
    [dst] and received on interface [index] records exactly that destination
    and, unless the index is zero, that interface. *)
Theorem pktinfo_roundtrip (index : Z) (spec : Ipv4Addr) (dst4 : Ipv4Addr) (dst6 : Ipv6Addr)
    (m : ReceiveMetadata) :
  cfg_linux_or_android target = true → 0 ≤ index ≤ u32_max →
  apply_receive_ancillary_data_unix [encode_pktinfo4 index spec dst4] m Ipv4Family =
    note_ingress index (set_destination_local_ip (Some (V4 dst4)) m) ∧
  apply_receive_ancillary_data_unix [encode_pktinfo6 index dst6] m Ipv6Family =
    note_ingress index (set_destination_local_ip (Some (V6 dst6)) m).
Proof.
  intros Ht Hi. unfold apply_receive_ancillary_data_unix, apply_cmsg. cbn [foldl].
  rewrite Ht. rewrite (read_encoded_pktinfo4 index spec dst4 Hi), (read_encoded_pktinfo6 index dst6 Hi).
  unfold encode_pktinfo4, encode_pktinfo6, ne_bytes, control_message_contains.
  by destruct little_endian.
Qed.
End decode.

Example pktinfo_roundtrip_witness :
  md_ingress_interface_index
    (apply_receive_ancillary_data_unix [encode_pktinfo4 3 (v4 10 0 0 2) (v4 239 1 2 3)]
       ReceiveMetadata_empty Ipv4Family) = Some 3.
Proof.
  destruct (pktinfo_roundtrip 3 (v4 10 0 0 2) (v4 239 1 2 3) v6_unspecified ReceiveMetadata_empty)
    as [H _]; [reflexivity|unfold u32_max; lia|].
  rewrite H. reflexivity.
Defined.
