(* ===== verification/SockAddr.v ===== *)
(** * Structures handed to [setsockopt] ([src/src/platform/mod.rs])

    The bytes of [sockaddr_in6], [GroupSourceRequest] and [ip_mreq_source].
    Sizes and offsets of the system headers are the [sockaddr_layout] of [Os];
    how the source fills the structures, and how its own struct is laid out,
    is modelled here, and read back with the kernel's view of it. *)

From S2P Require Import Prelude Net Config Os SampleOs Ancillary.

Local Open Scope nat_scope.

(** ** Memory *)

Definition zeroed (n : nat) : list byte := replicate n Byte.x00.

(** Writing into a struct at an offset, inside of it. *)
Definition write_at (offset : nat) (data l : list byte) : list byte :=
  take offset l ++ data ++ drop (offset + length data) l.

Definition align_to (alignment n : nat) : nat := n + (alignment - n `mod` alignment) `mod` alignment.

Lemma length_write_at offset data l :
  offset + length data ≤ length l → length (write_at offset data l) = length l.
Proof. intros Hl. unfold write_at. rewrite !length_app, length_take, length_drop. lia. Qed.

Lemma slice_write_same offset data l n :
  n = length data → offset + n ≤ length l → slice (write_at offset data l) offset (offset + n) = Some data.
Proof.
  intros -> Hl. apply slice_Some. split_and!; [lia|rewrite length_write_at; lia|].
  unfold write_at. rewrite drop_app_length' by (rewrite length_take; lia).
  rewrite take_app_length'; [done|lia].
Qed.

Lemma slice_write_other offset data l lo hi :
  offset + length data ≤ length l → hi ≤ offset ∨ offset + length data ≤ lo →
  slice (write_at offset data l) lo hi = slice l lo hi.
Proof.
  intros Hl Hd. unfold slice. rewrite length_write_at by done.
  case_bool_decide as Hb; [|done]. f_equal. destruct Hd as [Hd|Hd]; unfold write_at.
  - rewrite drop_app_le by (rewrite length_take; lia).
    rewrite take_app_le by (rewrite length_drop, length_take; lia).
    rewrite skipn_firstn_comm, take_take. f_equal. lia.
  - rewrite app_assoc, drop_app_ge by (rewrite length_app, length_take; lia).
    rewrite length_app, length_take, drop_drop. do 2 f_equal. lia.
Qed.

Lemma slice_write_three a b c n da db dc l :
  length da = n → length db = n → length dc = n →
  a + n ≤ length l → b + n ≤ length l → c + n ≤ length l →
  a + n ≤ b ∨ b + n ≤ a → a + n ≤ c ∨ c + n ≤ a → b + n ≤ c ∨ c + n ≤ b →
  let w := write_at c dc (write_at b db (write_at a da l)) in
  slice w a (a + n) = Some da ∧ slice w b (b + n) = Some db ∧ slice w c (c + n) = Some dc.
Proof.
  intros Ha Hb Hc La Lb Lc Hab Hac Hbc. cbv zeta.
  assert (L1 : length (write_at a da l) = length l) by (apply length_write_at; lia).
  assert (L2 : length (write_at b db (write_at a da l)) = length l) by (rewrite length_write_at; lia).
  split_and!.
  - rewrite slice_write_other by lia. rewrite slice_write_other by lia. apply slice_write_same; lia.
  - rewrite slice_write_other by lia. apply slice_write_same; lia.
  - apply slice_write_same; lia.
Qed.

Lemma slice_app_shift {A : Type} (a b : list A) lo hi :
  slice (a ++ b) (length a + lo) (length a + hi) = slice b lo hi.
Proof.
  unfold slice. rewrite length_app. rewrite (drop_app_ge a) by lia.
  replace (length a + lo - length a) with lo by lia.
  replace (length a + hi - (length a + lo)) with (hi - lo) by lia.
  by rewrite (bool_decide_ext (length a + lo ≤ length a + hi ∧ length a + hi ≤ length a + length b)
    (lo ≤ hi ∧ hi ≤ length b)) by lia.
Qed.

Lemma slice_app_left {A : Type} (a b : list A) lo hi : hi ≤ length a → slice (a ++ b) lo hi = slice a lo hi.
Proof.
  intros Hh. unfold slice. rewrite length_app.
  rewrite (bool_decide_ext (lo ≤ hi ∧ hi ≤ length a + length b) (lo ≤ hi ∧ hi ≤ length a)) by lia.
  case_bool_decide; [|done]. rewrite drop_app_le by lia. by rewrite take_app_le by (rewrite length_drop; lia).
Qed.

Lemma slice_app_middle {A : Type} (a b c : list A) n :
  n = length a → slice (a ++ b ++ c) n (n + length b) = Some b.
Proof.
  intros ->. replace (length a) with (length a + 0) at 1 by lia. rewrite slice_app_shift, slice_app_left by lia.
  apply slice_Some. split_and!; [lia..|]. rewrite drop_0, take_ge by lia. done.
Qed.

(** ** The structures *)

Section structures.
Context `{Os}.

(** [sockaddr_in6], whose other fields (port, flow, scope) stay zero. *)
Definition sockaddr_in6 (addr : Ipv6Addr) : list byte :=
  let layout := sockaddr_layout in
  let sockaddr := zeroed (sin6_size layout) in
  let sockaddr :=
    if cfg_apple_or_bsd target
    then write_at (sin6_len_at layout) [byte_of (Z.of_nat (sin6_size layout))] sockaddr else sockaddr in
  let sockaddr :=
    write_at (sin6_family_at layout) (ne_bytes (sin6_family_size layout) (AF_INET6 layout)) sockaddr in
  write_at (sin6_addr_at layout) (v6_octets addr) sockaddr.

Definition ipv6_sockaddr_storage (addr : Ipv6Addr) : list byte :=
  write_at 0 (sockaddr_in6 addr) (zeroed (storage_size sockaddr_layout)).

(** The alignment of [GroupSourceSockAddrStorage]: on Apple targets it is a byte
    array. *)
Definition storage_field_align : nat := if cfg_apple target then 1 else storage_align sockaddr_layout.

(** [GroupSourceRequest] under [repr(C)]; its padding is zero here. *)
Definition group_source_request (interface : Z) (group source : Ipv6Addr) : list byte :=
  let header := ne_bytes 4 interface in
  let body := header ++ zeroed (align_to storage_field_align 4 - 4) ++
              ipv6_sockaddr_storage group ++ ipv6_sockaddr_storage source in
  body ++ zeroed (align_to (Nat.max 4 storage_field_align) (length body) - length body).

(** [libc::in_addr { s_addr: u32::from_ne_bytes(addr.octets()) }]. *)
Definition ipv4_in_addr (addr : Ipv4Addr) : Z := ne_val (v4_octets addr).

Definition ip_mreq_source (group source interface : Ipv4Addr) : list byte :=
  let layout := sockaddr_layout in
  let request := zeroed (mreq_size layout) in
  let request := write_at (imr_multiaddr_at layout) (ne_bytes 4 (ipv4_in_addr group)) request in
  let request := write_at (imr_sourceaddr_at layout) (ne_bytes 4 (ipv4_in_addr source)) request in
  write_at (imr_interface_at layout) (ne_bytes 4 (ipv4_in_addr interface)) request.

(** ** The kernel's view *)

Definition read_sockaddr_in6 (l : list byte) : option Ipv6Addr :=
  let layout := sockaddr_layout in
  family ← slice l (sin6_family_at layout) (sin6_family_at layout + sin6_family_size layout);
  if (ne_val family =? AF_INET6 layout)%Z then
    octets ← slice l (sin6_addr_at layout) (sin6_addr_at layout + 16); v6_of_octets octets
  else None.

(** Where [struct group_source_req] has its group: Darwin packs it to four
    bytes, elsewhere it has the natural alignment of C. *)
Definition gsr_group_at : nat :=
  if cfg_apple target then align_to (Nat.min 4 (storage_align sockaddr_layout)) 4
  else align_to (storage_align sockaddr_layout) 4.

Definition read_group_source_req (l : list byte) : option (Z * Ipv6Addr * Ipv6Addr) :=
  let size := storage_size sockaddr_layout in
  interface ← slice l 0 4;
  group ← slice l gsr_group_at (gsr_group_at + size);
  source ← slice l (gsr_group_at + size) (gsr_group_at + size + size);
  group ← read_sockaddr_in6 group;
  source ← read_sockaddr_in6 source;
  Some (ne_val interface, group, source).

Definition read_in_addr_at (offset : nat) (l : list byte) : option Ipv4Addr :=
  octets ← slice l offset (offset + 4); v4_of_octets octets.
Definition read_ip_mreq_source (l : list byte) : option (Ipv4Addr * Ipv4Addr * Ipv4Addr) :=
  group ← read_in_addr_at (imr_multiaddr_at sockaddr_layout) l;
  source ← read_in_addr_at (imr_sourceaddr_at sockaddr_layout) l;
  interface ← read_in_addr_at (imr_interface_at sockaddr_layout) l;
  Some (group, source, interface).

(** Fields inside their struct and apart from each other, as the headers of
    every target have them. *)
Definition apart (a a_size b b_size : nat) : Prop := a + a_size ≤ b ∨ b + b_size ≤ a.

Record layout_ok (l : SockAddrLayout) : Prop := {
  ok_storage : sin6_size l ≤ storage_size l;
  ok_align : storage_align l = 1 ∨ storage_align l = 2 ∨ storage_align l = 4 ∨ storage_align l = 8;
  ok_len : cfg_apple_or_bsd target = true → sin6_len_at l < sin6_size l;
  ok_family : sin6_family_at l + sin6_family_size l ≤ sin6_size l;
  ok_addr : sin6_addr_at l + 16 ≤ sin6_size l;
  ok_fields : apart (sin6_family_at l) (sin6_family_size l) (sin6_addr_at l) 16;
  ok_inet6 : (0 ≤ AF_INET6 l < 256 ^ Z.of_nat (sin6_family_size l))%Z;
  ok_multiaddr : imr_multiaddr_at l + 4 ≤ mreq_size l;
  ok_sourceaddr : imr_sourceaddr_at l + 4 ≤ mreq_size l;
  ok_interface : imr_interface_at l + 4 ≤ mreq_size l;
  ok_group_source : apart (imr_multiaddr_at l) 4 (imr_sourceaddr_at l) 4;
  ok_group_interface : apart (imr_multiaddr_at l) 4 (imr_interface_at l) 4;
  ok_source_interface : apart (imr_sourceaddr_at l) 4 (imr_interface_at l) 4 }.

Section layout.
Context (Hlayout : layout_ok sockaddr_layout).

Lemma length_zeroed n : length (zeroed n) = n.
Proof. apply length_replicate. Qed.

Lemma sockaddr_in6_reads addr :
  length (sockaddr_in6 addr) = sin6_size sockaddr_layout ∧ read_sockaddr_in6 (sockaddr_in6 addr) = Some addr.
Proof.
  destruct Hlayout. unfold sockaddr_in6.
  set (s0 := if cfg_apple_or_bsd target then _ else _).
  assert (Hs0 : length s0 = sin6_size sockaddr_layout).
  { unfold s0. destruct (cfg_apple_or_bsd target); [|apply length_zeroed].
    specialize (ok_len0 eq_refl). rewrite length_write_at; rewrite length_zeroed; simpl; lia. }
  set (family := ne_bytes _ _).
  assert (Hf : length family = sin6_family_size sockaddr_layout) by apply length_ne_bytes.
  assert (Hs1 : length (write_at (sin6_family_at sockaddr_layout) family s0) = sin6_size sockaddr_layout)
    by (rewrite length_write_at; lia).
  assert (Hv : length (v6_octets addr) = 16) by apply length_v6_octets.
  split; [by rewrite length_write_at by lia|]. unfold read_sockaddr_in6.
  rewrite (slice_write_other _ _ _ (sin6_family_at _)) by (unfold apart in *; lia).
  rewrite (slice_write_same (sin6_family_at _)) by lia. cbn [mbind option_bind]. unfold family at 1.
  rewrite ne_val_bytes, Z.eqb_refl by done.
  rewrite slice_write_same by lia. cbn [mbind option_bind]. apply v6_of_octets_octets.
Qed.

Lemma read_prefix l rest addr :
  read_sockaddr_in6 l = Some addr → read_sockaddr_in6 (l ++ rest) = Some addr.
Proof.
  assert (Hs : ∀ lo hi x, slice l lo hi = Some x → slice (l ++ rest) lo hi = Some x).
  { intros lo hi x Hx. rewrite slice_app_left; [done|]. apply slice_Some in Hx. lia. }
  unfold read_sockaddr_in6. intros (family & Hf & Hl)%bind_Some. rewrite (Hs _ _ _ Hf). cbn [mbind option_bind].
  destruct (_ =? _)%Z; [|done]. apply bind_Some in Hl as (octets & Ho & Ha).
  by rewrite (Hs _ _ _ Ho).
Qed.

Lemma storage_reads addr :
  length (ipv6_sockaddr_storage addr) = storage_size sockaddr_layout ∧
  read_sockaddr_in6 (ipv6_sockaddr_storage addr) = Some addr.
Proof.
  destruct (sockaddr_in6_reads addr) as [Hlen Hread]. pose proof (ok_storage _ Hlayout).
  unfold ipv6_sockaddr_storage. split; [rewrite length_write_at; rewrite length_zeroed; lia|].
  unfold write_at. rewrite take_0. cbn [app]. by apply read_prefix.
Qed.

(** The source's struct has its group where the kernel reads it. *)
Lemma group_offset : align_to storage_field_align 4 = gsr_group_at ∧ 4 ≤ gsr_group_at.
Proof.
  unfold storage_field_align, gsr_group_at.
  destruct (cfg_apple target), (ok_align _ Hlayout) as [->|[->|[->| ->]]]; vm_compute; lia.
Qed.

Lemma in_addr_bytes addr : ne_bytes 4 (ipv4_in_addr addr) = v4_octets addr.
Proof. apply (ne_bytes_val (v4_octets addr)). Qed.

Lemma slice_four {A : Type} (a p g s t : list A) n :
  length a = n → slice (a ++ p ++ g ++ s ++ t) 0 n = Some a ∧
  slice (a ++ p ++ g ++ s ++ t) (n + length p) (n + length p + length g) = Some g ∧
  slice (a ++ p ++ g ++ s ++ t) (n + length p + length g) (n + length p + length g + length s) = Some s.
Proof.
  intros <-. split_and!.
  - rewrite slice_app_left by lia. apply slice_Some. split_and!; [lia..|]. by rewrite drop_0, take_ge by lia.
  - rewrite (app_assoc a p). apply slice_app_middle. by rewrite length_app.
  - rewrite (app_assoc a p), (app_assoc (a ++ p) g). apply slice_app_middle. by rewrite !length_app.
Qed.
End layout.

(** C29: the kernel reads back what the crate asks for. In the bytes of a
    [group_source_req], on every target, the interface, the group and the
    source are at the offsets where the kernel looks for them, with the
    family of IPv6: the unaligned storage of the Apple struct matches Darwin's
    packing, and the aligned one the natural layout elsewhere. In an
    [ip_mreq_source] the three addresses are in network order. *)
Theorem source_requests_read_back (interface : Z) (group source : Ipv6Addr)
    (group4 source4 interface4 : Ipv4Addr) :
  layout_ok sockaddr_layout → (0 ≤ interface ≤ u32_max)%Z →
  read_group_source_req (group_source_request interface group source) = Some (interface, group, source) ∧
  read_ip_mreq_source (ip_mreq_source group4 source4 interface4) = Some (group4, source4, interface4).
Proof.
  intros Hlayout Hi. split.
  - destruct (storage_reads Hlayout group) as [Hg Hrg]. destruct (storage_reads Hlayout source) as [Hs Hrs].
    destruct (group_offset Hlayout) as [Hoff Hge]. unfold read_group_source_req, group_source_request.
    rewrite Hoff. cbv zeta. set (tail := zeroed (_ - length _)). rewrite <- !app_assoc.
    destruct (slice_four (ne_bytes 4 interface) (zeroed (gsr_group_at - 4)) (ipv6_sockaddr_storage group)
      (ipv6_sockaddr_storage source) tail 4 (length_ne_bytes _ _)) as (-> & Hsg & Hss).
    rewrite length_zeroed, Hg in Hsg, Hss. rewrite Hs in Hss.
    replace (4 + (gsr_group_at - 4)) with gsr_group_at in * by lia.
    cbn [mbind option_bind]. rewrite Hsg. cbn [mbind option_bind]. rewrite Hss. cbn [mbind option_bind].
    rewrite Hrg, Hrs. cbn [mbind option_bind]. by rewrite ne_val_bytes4.
  - destruct Hlayout. unfold read_ip_mreq_source, ip_mreq_source, read_in_addr_at.
    rewrite !in_addr_bytes. unfold apart in *. cbv zeta.
    destruct (slice_write_three (imr_multiaddr_at sockaddr_layout) (imr_sourceaddr_at sockaddr_layout)
      (imr_interface_at sockaddr_layout) 4 (v4_octets group4) (v4_octets source4) (v4_octets interface4)
      (zeroed (mreq_size sockaddr_layout))) as (-> & -> & ->);
      rewrite ?length_zeroed; try apply length_v4_octets; try done.
    cbn [mbind option_bind]. by rewrite !v4_of_octets_octets.
Qed.
End structures.

Lemma sample_layout_ok : @layout_ok sample_os (@sockaddr_layout sample_os).
Proof. split; vm_compute; try lia; try done; auto. Qed.

Lemma source_requests_read_back_witness :
  read_group_source_req (H := sample_os) (group_source_request 7 v6_unspecified v6_unspecified) =
    Some (7%Z, v6_unspecified, v6_unspecified).
Proof.
  apply (source_requests_read_back (H := sample_os) 7 v6_unspecified v6_unspecified v4_unspecified
    v4_unspecified v4_unspecified); [apply sample_layout_ok|unfold u32_max; lia].
Defined.

(** The request has 264 bytes on Linux and 260 on Darwin, as their kernels
    expect. *)
Definition layout_os (t : TargetOs) : Os :=
  quiet_os t nat (λ w, w) (λ _, io_fail sample_error) (λ _, io_ok ()) (λ _, io_ok ()).

Example request_sizes :
  let size t := length (group_source_request (H := layout_os t) 7 v6_unspecified v6_unspecified) in
  size Linux = 264 ∧ size MacOs = 260.
Proof. vm_compute. done. Qed.
