(* ===== verification/Platform.v ===== *)
(** * The UDP platform layer ([src/src/platform/mod.rs])

    Opening, adopting and configuring receive sockets, joining and leaving
    multicast groups, and the receive loop with its destination, source and
    interface filter. The [cfg] variants of a function are the branches of its
    definition on [target]. *)

From S2P Require Import Prelude Net Errors Config Packet Os SampleOs Ancillary SockAddr.

Section platform.
Context `{Os}.

Abbreviation Eff A := (Op World A).

(** [io_call.map_err(constructor)?], a [match] on the I/O result, and a call
    that cannot fail. *)
Definition io {A : Type} (f : IoError → McrxError) (m : Io World A) : Eff A := λ w,
  match m w with
  | (inl a, w') => (Ok a, w')
  | (inr e, w') => (Err (f e), w')
  end.
Definition try_io {A : Type} (m : Io World A) : Eff (A + IoError) := λ w,
  let '(r, w') := m w in (Ok r, w').
Definition call {A : Type} (m : Call World A) : Eff A := λ w,
  let '(a, w') := m w in (Ok a, w').

(** ** Membership views and interface resolution *)

Definition ipv4_membership (c : SubscriptionConfig) : Result Ipv4Membership :=
  ok_or (SubscriptionConfig.ipv4_membership c) InvalidSubscriptionAddressFamily.
Definition ipv6_membership (c : SubscriptionConfig) : Result Ipv6Membership :=
  ok_or (SubscriptionConfig.ipv6_membership c) InvalidSubscriptionAddressFamily.

Definition resolve_ipv4_interface (c : SubscriptionConfig) : Result Ipv4Addr :=
  let? m := ipv4_membership c in
  Ok (default v4_unspecified (m4_interface m)).

(** The walk over [getifaddrs]: the first entry with the address whose name
    has a non-zero index. *)
Fixpoint find_interface_index (wanted : IfSockAddr → bool) (l : list IfAddr) : Eff (option Z) :=
  match l with
  | [] => mpure None
  | ifa :: l =>
      match ifa_addr ifa, ifa_name ifa with
      | Some addr, Some name =>
          if wanted addr then
            let* index := call (if_nametoindex name) in
            if bool_decide (index = 0)%Z then find_interface_index wanted l
            else mpure (Some index)
          else find_interface_index wanted l
      | _, _ => find_interface_index wanted l
      end
  end.

Definition is_inet6 (interface : Ipv6Addr) (a : IfSockAddr) : bool :=
  match a with IfInet6 x => bool_decide (x = interface) | _ => false end.

Definition unresolved_ipv6 (interface : Ipv6Addr) : McrxError :=
  InterfaceDiscoveryFailed ("failed to resolve IPv6 interface address " +:+
    v6_display interface +:+ " to an interface index").

(** [resolve_ipv6_interface_index] on Unix. *)
Definition resolve_ipv6_interface_index_unix (interface : Ipv6Addr) : Eff Z :=
  let* ifaddrs := io (λ e, InterfaceDiscoveryFailed (io_text e)) getifaddrs in
  let* matched := find_interface_index (is_inet6 interface) ifaddrs in
  mlift (ok_or matched (unresolved_ipv6 interface)).

(** [resolve_ipv6_interface_index] on Windows. [GetAdaptersAddresses] is
    called again as long as it asks for a larger buffer. *)
Fixpoint find_adapter (interface : Ipv6Addr) (l : list Adapter) : option Z :=
  match l with
  | [] => None
  | ad :: l =>
      if existsb (λ a, match a with Some a => is_inet6 interface a | None => false end)
                 (ad_unicast ad)
      then Some (ad_ipv6_if_index ad) else find_adapter interface l
  end.
Fixpoint resolve_ipv6_interface_index_windows (fuel : nat) (interface : Ipv6Addr) : Eff Z :=
  match fuel with
  | O => mfuel
  | S fuel =>
      let* result := call get_adapters_addresses in
      match result with
      | AdaptersOverflow => resolve_ipv6_interface_index_windows fuel interface
      | AdaptersFailed status =>
          mthrow (InterfaceDiscoveryFailed ("GetAdaptersAddresses failed with status " +:+
                    display_Z status))
      | Adapters l => mlift (ok_or (find_adapter interface l) (unresolved_ipv6 interface))
      end
  end.

(** The number of enlarged buffers the model follows. *)
Definition adapters_fuel : nat := 64.

Definition resolve_ipv6_interface_index (interface : Ipv6Addr) : Eff Z :=
  if cfg_unix target then resolve_ipv6_interface_index_unix interface
  else if bool_decide (target = Windows) then
    resolve_ipv6_interface_index_windows adapters_fuel interface
  else mthrow (InterfaceDiscoveryFailed
         ("IPv6 interface resolution is not implemented on this platform for " +:+
          v6_display interface)).

Definition resolve_ipv6_interface (c : SubscriptionConfig) : Eff Z :=
  let* m := mlift (ipv6_membership c) in
  if cfg_apple target && bool_decide (is_Some (m6_source m)) && bool_decide (m6_interface m = None)
     && bool_decide (m6_interface_index m = None)
  then mthrow Ipv6SourceSpecificMulticastRequiresInterface
  else
    match m6_interface_index m, m6_interface m with
    | Some index, _ => mpure index
    | None, None => mpure 0%Z
    | None, Some interface =>
        if v6_is_unspecified interface then mpure 0%Z
        else resolve_ipv6_interface_index interface
    end.

(** ** Socket setup *)

Definition set_port_reuse_if_supported (s : Socket) : Io World unit :=
  if cfg_unix target && negb (bool_decide (target = Solarish)) then set_reuse_port s true
  else io_ok ().

Definition restrict_multicast_delivery_to_socket_memberships (s : Socket)
    (family : SubscriptionAddressFamily) : Io World unit :=
  if bool_decide (target = Linux) then
    match family with
    | Ipv4Family => set_multicast_all_v4 s false
    | Ipv6Family => set_multicast_all_v6 s false
    end
  else io_ok ().

Definition try_socket_local_addr (s : Socket) : Eff SocketAddr :=
  let* a := io SocketLocalAddrFailed (local_addr_as_socket s) in
  mlift (ok_or a NonIpSocketAddress).

Definition socket_local_addr (s : Socket) : Eff SocketAddr := try_socket_local_addr s.

(** [result.ok()]. *)
Definition ok {A : Type} (m : Eff A) : Eff (option A) :=
  let* r := mcatch m in
  mpure (match r with inl a => Some a | inr _ => None end).

Definition socket_family (s : Socket) : Eff (option SubscriptionAddressFamily) :=
  let* a := ok (try_socket_local_addr s) in
  mpure (match a with
         | None => None
         | Some (SockV4 _ _) => Some Ipv4Family
         | Some (SockV6 _ _ _ _) => Some Ipv6Family
         end).

Definition set_socket_option_flag (s : Socket) (level : SockLevel) (name : SockOpt) : Eff unit :=
  io SocketOptionFailed (setsockopt s level name (ne_bytes 4 1)).

Definition enable_receive_metadata (s : Socket) (family : SubscriptionAddressFamily) : Eff unit :=
  if cfg_linux_or_android target then
    match family with
    | Ipv4Family => set_socket_option_flag s IPPROTO_IP IP_PKTINFO
    | Ipv6Family => set_socket_option_flag s IPPROTO_IPV6 IPV6_RECVPKTINFO
    end
  else if cfg_apple_or_bsd target then
    match family with
    | Ipv4Family =>
        set_socket_option_flag s IPPROTO_IP IP_RECVDSTADDR ;;*
        set_socket_option_flag s IPPROTO_IP IP_RECVIF
    | Ipv6Family => set_socket_option_flag s IPPROTO_IPV6 IPV6_RECVPKTINFO
    end
  else
    match family with
    | Ipv4Family => set_socket_option_flag s IPPROTO_IP IP_PKTINFO
    | Ipv6Family => set_socket_option_flag s IPPROTO_IPV6 IPV6_PKTINFO
    end.

Definition get_wsarecvmsg (s : Socket) : Eff WsaRecvMsgFn :=
  let* func := io SocketIoctlFailed (wsa_lookup_recvmsg s) in
  mlift (ok_or func (SocketIoctlFailed (io_error_other "WSARecvMsg lookup returned null"))).

(** [configure_detailed_receive]; only Windows yields a function pointer. *)
Definition configure_detailed_receive (s : Socket) : Eff (option WsaRecvMsgFn) :=
  if cfg_linux_or_android target || cfg_apple_or_bsd target || bool_decide (target = Windows) then
    let* family := socket_family s in
    let* family := mlift (ok_or family ExistingSocketAddressFamilyMismatch) in
    enable_receive_metadata s family ;;*
    if bool_decide (target = Windows) then mmap Some (get_wsarecvmsg s) else mpure None
  else mthrow (ReceiveSocketSetupFailed
         "destination-address metadata is unsupported on this platform").

(** ** [ReceiveSocket] *)

Record ReceiveSocket := mkReceiveSocket {
  rs_socket : Socket;
  rs_local_addr : option SocketAddr;
  rs_setup_error : option string;
  rs_wsarecvmsg : option WsaRecvMsgFn }.

(** [result.err().map(|err| err.to_string())]. *)
Definition err_text {A : Type} (m : Eff A) : Eff (option A * option string) :=
  let* r := mcatch m in
  mpure (match r with
         | inl a => (Some a, None)
         | inr e => (None, Some (mcrx_error_to_string e))
         end).

Definition first_some {A : Type} (x y : option A) : option A :=
  match x with Some _ => x | None => y end.

Definition adopt (s : Socket) (c : SubscriptionConfig) : Eff ReceiveSocket :=
  let* local_addr := ok (try_socket_local_addr s) in
  let validation_error := mcrx_error_to_string <$> res_err (SubscriptionConfig.validate c) in
  let* isolation := err_text (io SocketOptionFailed
    (restrict_multicast_delivery_to_socket_memberships s (SubscriptionConfig.family c))) in
  let* nonblocking := err_text (io SocketOptionFailed (set_nonblocking s true)) in
  let early := first_some (first_some validation_error isolation.2) nonblocking.2 in
  let* detailed :=
    match early with
    | Some _ => mpure (None, None)
    | None => err_text (configure_detailed_receive s)
    end in
  mpure (mkReceiveSocket s local_addr (first_some early detailed.2)
           (match detailed.1 with Some f => f | None => None end)).

Definition try_adopt (s : Socket) (c : SubscriptionConfig) : Eff ReceiveSocket :=
  mlift (SubscriptionConfig.validate c) ;;*
  io SocketOptionFailed
    (restrict_multicast_delivery_to_socket_memberships s (SubscriptionConfig.family c)) ;;*
  io SocketOptionFailed (set_nonblocking s true) ;;*
  let* local_addr := try_socket_local_addr s in
  let* wsarecvmsg := configure_detailed_receive s in
  mpure (mkReceiveSocket s (Some local_addr) None wsarecvmsg).

Definition ensure_ready (rs : ReceiveSocket) : Result unit :=
  match rs_setup_error rs with
  | Some message => Err (ReceiveSocketSetupFailed message)
  | None => Ok ()
  end.

Definition rs_local_addr_or_query (rs : ReceiveSocket) : Eff SocketAddr :=
  let* a := match rs_local_addr rs with
            | Some a => mpure (Some a)
            | None => ok (try_socket_local_addr (rs_socket rs))
            end in
  mlift (ok_or a (SocketLocalAddrFailed
    (io_error_other "failed to determine socket local address"))).

Definition base_metadata (rs : ReceiveSocket) (c : SubscriptionConfig) : Eff ReceiveMetadata :=
  let* local_addr := rs_local_addr_or_query rs in
  mpure (mkMetadata (Some local_addr) (cfg_interface c) (cfg_interface_index c) None None).

(** [prepare_existing_socket]. *)
Definition prepare_existing_socket (s : Socket) (c : SubscriptionConfig) : Eff ReceiveSocket :=
  let* local_addr := socket_local_addr s in
  mlift (match SubscriptionConfig.family c, local_addr with
         | Ipv4Family, SockV4 _ port | Ipv6Family, SockV6 _ port _ _ =>
             guard (negb (bool_decide (port = cfg_dst_port c)%Z))
                   (ExistingSocketPortMismatch (cfg_dst_port c) port)
         | _, _ => Err ExistingSocketAddressFamilyMismatch
         end) ;;*
  let* rs := try_adopt s c in
  mpure (mkReceiveSocket (rs_socket rs) (Some local_addr) (rs_setup_error rs) (rs_wsarecvmsg rs)).

(** [open_bound_socket]. *)
Definition open_bound_socket (c : SubscriptionConfig) : Eff ReceiveSocket :=
  let* s :=
    match SubscriptionConfig.family c with
    | Ipv4Family => io SocketCreateFailed (socket_new_udp Ipv4Family)
    | Ipv6Family =>
        let* s := io SocketCreateFailed (socket_new_udp Ipv6Family) in
        io SocketOptionFailed (set_only_v6 s true) ;;* mpure s
    end in
  io SocketOptionFailed (set_reuse_address s true) ;;*
  io SocketOptionFailed (set_port_reuse_if_supported s) ;;*
  io SocketBindFailed (bind_socket s
    (match SubscriptionConfig.family c with
     | Ipv4Family => SockV4 v4_unspecified (cfg_dst_port c)
     | Ipv6Family => SockV6 v6_unspecified (cfg_dst_port c) 0 0
     end)) ;;*
  prepare_existing_socket s c.

(** ** Memberships *)

(** [resolve_default_ipv4_interface]: the address a probe socket would use to
    reach the source. *)
Definition sockaddr_display (a : SocketAddr) : string :=
  match a with
  | SockV4 ip port => v4_display ip +:+ ":" +:+ display_Z port
  | SockV6 ip port _ scope =>
      "[" +:+ v6_display ip +:+
      (if bool_decide (scope = 0)%Z then "" else "%" +:+ display_Z scope) +:+
      "]:" +:+ display_Z port
  end%string.

Definition resolve_default_ipv4_interface (source : Ipv4Addr) : Eff Ipv4Addr :=
  let* probe := io InterfaceProbeBindFailed (probe_bind (SockV4 v4_unspecified 0)) in
  io InterfaceProbeConnectFailed (probe_connect probe (SockV4 source 9)) ;;*
  let* local := io InterfaceProbeLocalAddrFailed (probe_local_addr probe) in
  let unresolved :=
    InterfaceDiscoveryFailed ("failed to infer default IPv4 interface for source " +:+
      v4_display source +:+ ": probe bound to " +:+ sockaddr_display local) in
  match local with
  | SockV4 ip _ => if v4_is_unspecified ip then mthrow unresolved else mpure ip
  | SockV6 _ _ _ _ => mthrow unresolved
  end.

Definition resolve_ipv4_source_interface_address (interface source : Ipv4Addr) : Eff Ipv4Addr :=
  if v4_is_unspecified interface then resolve_default_ipv4_interface source
  else mpure interface.

Definition set_ipv6_source_membership_option (s : Socket) (option_name : SockOpt)
    (group source : Ipv6Addr) (interface : Z) : Io World unit :=
  if cfg_linux_or_android target || cfg_apple target || bool_decide (target = Windows) then
    setsockopt s IPPROTO_IPV6 option_name (group_source_request interface group source)
  else io_fail (io_error_new Unsupported
         "IPv6 source-specific multicast is not supported on this platform").

Definition set_ipv4_source_membership_option (s : Socket) (option_name : SockOpt)
    (group source interface : Ipv4Addr) : Io World unit :=
  setsockopt s IPPROTO_IP option_name (ip_mreq_source group source interface).

Definition join_source_multicast_v4 (s : Socket) (group source interface : Ipv4Addr) : Eff unit :=
  if cfg_apple target then
    let* interface := resolve_ipv4_source_interface_address interface source in
    io MulticastJoinFailed
      (set_ipv4_source_membership_option s IP_ADD_SOURCE_MEMBERSHIP group source interface)
  else io MulticastJoinFailed (join_ssm_v4 s source group interface).

Definition leave_source_multicast_v4 (s : Socket) (group source interface : Ipv4Addr) : Eff unit :=
  if cfg_apple target then
    let* interface := resolve_ipv4_source_interface_address interface source in
    io MulticastLeaveFailed
      (set_ipv4_source_membership_option s IP_DROP_SOURCE_MEMBERSHIP group source interface)
  else io MulticastLeaveFailed (leave_ssm_v4 s source group interface).

(** The [match result] that ends both IPv6 SSM branches. *)
Definition ssm_v6_error (f : IoError → McrxError) (e : IoError) : McrxError :=
  if bool_decide (io_kind e = Unsupported) then SourceSpecificMulticastUnsupported else f e.

Definition join_multicast_group (s : Socket) (c : SubscriptionConfig) : Eff unit :=
  match SubscriptionConfig.family c with
  | Ipv4Family =>
      let* membership := mlift (ipv4_membership c) in
      let* interface := mlift (resolve_ipv4_interface c) in
      match m4_source membership with
      | None => io MulticastJoinFailed (join_multicast_v4 s (m4_group membership) interface)
      | Some source => join_source_multicast_v4 s (m4_group membership) source interface
      end
  | Ipv6Family =>
      let* membership := mlift (ipv6_membership c) in
      let* interface := resolve_ipv6_interface c in
      match m6_source membership with
      | None => io MulticastJoinFailed (join_multicast_v6 s (m6_group membership) interface)
      | Some source =>
          io (ssm_v6_error MulticastJoinFailed)
            (set_ipv6_source_membership_option s MCAST_JOIN_SOURCE_GROUP
               (m6_group membership) source interface)
      end
  end.

Definition leave_multicast_group (s : Socket) (c : SubscriptionConfig) : Eff unit :=
  match SubscriptionConfig.family c with
  | Ipv4Family =>
      let* membership := mlift (ipv4_membership c) in
      let* interface := mlift (resolve_ipv4_interface c) in
      match m4_source membership with
      | None => io MulticastLeaveFailed (leave_multicast_v4 s (m4_group membership) interface)
      | Some source => leave_source_multicast_v4 s (m4_group membership) source interface
      end
  | Ipv6Family =>
      let* membership := mlift (ipv6_membership c) in
      let* interface := resolve_ipv6_interface c in
      match m6_source membership with
      | None => io MulticastLeaveFailed (leave_multicast_v6 s (m6_group membership) interface)
      | Some source =>
          io (ssm_v6_error MulticastLeaveFailed)
            (set_ipv6_source_membership_option s MCAST_LEAVE_SOURCE_GROUP
               (m6_group membership) source interface)
      end
  end.

(** ** The receive path *)

Definition ANCILLARY_STACK_BUFFER_SIZE : nat := 256.
Definition MAX_FILTERED_DATAGRAMS_PER_RECEIVE : nat := 256.
Definition RECEIVE_BUFFER_SIZE : nat := N.to_nat 65535.

Definition ancillary_buffer_size (family : SubscriptionAddressFamily) : nat :=
  if cfg_linux_or_android target then
    match family with Ipv4Family => cmsg_space 12 | Ipv6Family => cmsg_space 20 end
  else if cfg_apple_or_bsd target then
    match family with
    | Ipv4Family => cmsg_space 4 + cmsg_space sockaddr_dl_size
    | Ipv6Family => cmsg_space 20
    end
  else if bool_decide (target = Windows) then
    match family with
    | Ipv4Family => Z.to_nat (wsa_cmsg_space 8)
    | Ipv6Family => Z.to_nat (wsa_cmsg_space 20)
    end
  else 0.

Definition packet_matches_subscription (source : SocketAddr) (metadata : ReceiveMetadata)
    (c : SubscriptionConfig) : Result bool :=
  let? destination := ok_or (md_destination_local_ip metadata) ReceiveMetadataUnavailable in
  if negb (bool_decide (destination = cfg_group c)) then Ok false
  else if match cfg_source c with
          | Source expected => negb (bool_decide (sock_ip source = expected))
          | SourceAny => false
          end then Ok false
  else if match cfg_interface_index c with
          | Some expected =>
              negb (bool_decide (md_ingress_interface_index metadata = Some expected))
          | None => false
          end then Ok false
  else Ok true.

(** [filtered_receive_budget_exhausted]: the updated counter and the verdict. *)
Definition filtered_receive_budget_exhausted (filtered : nat) : nat * bool :=
  (S filtered, bool_decide (MAX_FILTERED_DATAGRAMS_PER_RECEIVE ≤ S filtered)).

(** One received datagram with its metadata; [None] when the call would block.
    The two variants differ in the system call and in the decoding of the
    control data. *)
Definition receive_datagram_unix (rs : ReceiveSocket) (c : SubscriptionConfig)
    (control_size : nat) : Eff (option (list byte * SocketAddr * ReceiveMetadata)) :=
  let* r := try_io (recvmsg (rs_socket rs) RECEIVE_BUFFER_SIZE control_size) in
  match r with
  | inr e => if bool_decide (io_kind e = WouldBlock) then mpure None else mthrow (ReceiveFailed e)
  | inl msg =>
      let* source := mlift (ok_or (um_source msg) NonIpSocketAddress) in
      let* metadata := base_metadata rs c in
      let control_len := Nat.min (um_controllen msg) control_size in
      let metadata :=
        if bool_decide (control_len = 0) then metadata
        else apply_receive_ancillary_data_unix (um_control msg) metadata
               (SubscriptionConfig.family c) in
      mpure (Some (um_payload msg, source, metadata))
  end.

Definition receive_datagram_windows (recvmsg : WsaRecvMsgFn) (rs : ReceiveSocket)
    (c : SubscriptionConfig) (control_size : nat)
    : Eff (option (list byte * SocketAddr * ReceiveMetadata)) :=
  let* r := try_io (wsa_recvmsg recvmsg (rs_socket rs) RECEIVE_BUFFER_SIZE control_size) in
  match r with
  | inr e => if bool_decide (io_kind e = WouldBlock) then mpure None else mthrow (ReceiveFailed e)
  | inl msg =>
      let* source := mlift (ok_or (wm_source msg) NonIpSocketAddress) in
      let* metadata := base_metadata rs c in
      let msg := mkWsaMsg (wm_payload msg) (wm_source msg) (wm_control_base msg)
                   (take control_size (wm_control msg)) in
      let* metadata :=
        if bool_decide (wm_control_base msg = 0)%Z || bool_decide (wm_control msg = [])
        then mpure metadata
        else mlift (res_map_err (False_rect _)
               (apply_receive_ancillary_data_windows msg metadata (SubscriptionConfig.family c))) in
      mpure (Some (wm_payload msg, source, metadata))
  end.

(** The receive [loop]: filtered datagrams are skipped until the budget is
    spent. [fuel] bounds the iterations of the model. *)
Fixpoint recv_loop (receive : Eff (option (list byte * SocketAddr * ReceiveMetadata)))
    (subscription_id : SubscriptionId) (c : SubscriptionConfig) (fuel filtered : nat)
    : Eff (option PacketWithMetadata) :=
  match fuel with
  | O => mfuel
  | S fuel =>
      let* received := receive in
      match received with
      | None => mpure None
      | Some (payload, source, metadata) =>
          let* matches := mlift (packet_matches_subscription source metadata c) in
          if matches then
            mpure (Some (mkPacketWithMetadata
              (mkPacket subscription_id source (cfg_group c) (cfg_dst_port c) payload) metadata))
          else
            let '(filtered, exhausted) := filtered_receive_budget_exhausted filtered in
            if exhausted then mpure None
            else recv_loop receive subscription_id c fuel filtered
      end
  end.

(** The check both variants make before they build the control buffer. *)
Definition ancillary_size_error (control_size : nat) : McrxError :=
  ReceiveSocketSetupFailed ("ancillary buffer requirement " +:+
    display_Z (Z.of_nat control_size) +:+ " exceeds " +:+
    display_Z (Z.of_nat ANCILLARY_STACK_BUFFER_SIZE) +:+ " bytes").

Definition recv_packet_with_metadata_unix (rs : ReceiveSocket) (subscription_id : SubscriptionId)
    (c : SubscriptionConfig) : Eff (option PacketWithMetadata) :=
  let control_size := ancillary_buffer_size (SubscriptionConfig.family c) in
  mlift (guard (bool_decide (ANCILLARY_STACK_BUFFER_SIZE < control_size))
               (ancillary_size_error control_size)) ;;*
  recv_loop (receive_datagram_unix rs c control_size) subscription_id c
    MAX_FILTERED_DATAGRAMS_PER_RECEIVE 0.

Definition recv_packet_with_metadata_windows (rs : ReceiveSocket) (subscription_id : SubscriptionId)
    (c : SubscriptionConfig) : Eff (option PacketWithMetadata) :=
  let* recvmsg := mlift (ok_or (rs_wsarecvmsg rs)
                    (ReceiveSocketSetupFailed "WSARecvMsg is unavailable")) in
  let control_size := ancillary_buffer_size (SubscriptionConfig.family c) in
  mlift (guard (bool_decide (ANCILLARY_STACK_BUFFER_SIZE < control_size))
               (ancillary_size_error control_size)) ;;*
  recv_loop (receive_datagram_windows recvmsg rs c control_size) subscription_id c
    MAX_FILTERED_DATAGRAMS_PER_RECEIVE 0.

Definition recv_packet_with_ancillary_metadata (rs : ReceiveSocket)
    (subscription_id : SubscriptionId) (c : SubscriptionConfig) : Eff (option PacketWithMetadata) :=
  if cfg_unix target then recv_packet_with_metadata_unix rs subscription_id c
  else if bool_decide (target = Windows) then
    recv_packet_with_metadata_windows rs subscription_id c
  else mthrow (ReceiveSocketSetupFailed
         "destination-address metadata is unsupported on this platform").

Definition recv_packet_with_metadata (rs : ReceiveSocket) (subscription_id : SubscriptionId)
    (c : SubscriptionConfig) : Eff (option PacketWithMetadata) :=
  mlift (ensure_ready rs) ;;*
  recv_packet_with_ancillary_metadata rs subscription_id c.

Definition recv_packet (rs : ReceiveSocket) (subscription_id : SubscriptionId)
    (c : SubscriptionConfig) : Eff (option Packet) :=
  mmap (fmap into_packet) (recv_packet_with_metadata rs subscription_id c).

(** ** Totality *)

Lemma total_io {A : Type} (f : IoError → McrxError) (m : Io World A) : total (io f m).
Proof. intros w. unfold io. by destruct (m w) as [[]?]. Qed.
Lemma total_try_io {A : Type} (m : Io World A) : total (try_io m).
Proof. intros w. unfold try_io. by destruct (m w). Qed.
Lemma total_call {A : Type} (m : Call World A) : total (call m).
Proof. intros w. unfold call. by destruct (m w). Qed.
#[local] Hint Resolve total_io total_try_io total_call : total.

Lemma total_find_interface_index wanted l : total (find_interface_index wanted l).
Proof. induction l; simpl; auto 10 with total. Qed.
#[local] Hint Resolve total_find_interface_index : total.

Lemma total_resolve_ipv6_interface_index_unix i : total (resolve_ipv6_interface_index_unix i).
Proof. unfold resolve_ipv6_interface_index_unix. auto 10 with total. Qed.
#[local] Hint Resolve total_resolve_ipv6_interface_index_unix : total.

(** *** What the code relies on outside of Unix

    Nothing is assumed of a Unix kernel. On Windows, one of any
    [adapters_fuel] calls of [GetAdaptersAddresses] in a row does not ask for
    a larger buffer, and the control messages that [WSARecvMsg] reports end
    inside the control buffer it was given. *)
Fixpoint adapters_settle (fuel : nat) (w : World) : Prop :=
  match fuel with
  | O => False
  | S fuel =>
      match get_adapters_addresses w with
      | (AdaptersOverflow, w) => adapters_settle fuel w
      | _ => True
      end
  end.

Class OsLaws : Prop := {
  adapters_law : target = Windows → ∀ w, adapters_settle adapters_fuel w;
  wsa_control_law : target = Windows → ∀ recvmsg s size control_size w msg w',
    wsa_recvmsg recvmsg s size control_size w = (inl msg, w') →
    length (wm_control msg) ≤ control_size ∧ wsa_control_wf msg }.

Lemma unix_laws : cfg_unix target = true → OsLaws.
Proof. by intros Hu; split; intros Ht; rewrite Ht in Hu. Qed.

Lemma resolve_windows_returns fuel i w :
  adapters_settle fuel w → returns (resolve_ipv6_interface_index_windows fuel i w).1.
Proof.
  revert w. induction fuel as [|fuel IH]; intros w Hs; [done|].
  cbn [resolve_ipv6_interface_index_windows adapters_settle] in *. unfold mthen at 1, call.
  destruct (get_adapters_addresses w) as [[|status|l] w']; [by apply IH|done|].
  apply total_mlift, returns_ok_or.
Qed.

Lemma total_resolve_ipv6_interface_index i :
  OsLaws → total (resolve_ipv6_interface_index i).
Proof.
  intros Hl. unfold resolve_ipv6_interface_index. destruct (cfg_unix target); [auto with total|].
  case_bool_decide as Ht; [|apply total_mthrow].
  intros w. by apply resolve_windows_returns, adapters_law.
Qed.

Lemma total_resolve_ipv6_interface c :
  OsLaws → total (resolve_ipv6_interface c).
Proof.
  intros Hu. pose proof total_resolve_ipv6_interface_index. unfold resolve_ipv6_interface, ipv6_membership.
  auto 15 with total.
Qed.

Lemma total_try_socket_local_addr s : total (try_socket_local_addr s).
Proof. unfold try_socket_local_addr. auto with total. Qed.
Lemma total_ok {A : Type} (m : Eff A) : total m → total (ok m).
Proof. unfold ok. auto with total. Qed.
#[local] Hint Resolve total_try_socket_local_addr total_ok : total.

Lemma total_configure_detailed_receive s : total (configure_detailed_receive s).
Proof.
  unfold configure_detailed_receive, socket_family, enable_receive_metadata,
    set_socket_option_flag, get_wsarecvmsg. auto 20 with total.
Qed.
#[local] Hint Resolve total_configure_detailed_receive : total.

Lemma returns_validate c : returns (SubscriptionConfig.validate c).
Proof. apply config_validate_returns. Qed.
#[local] Hint Resolve returns_validate : total.

Lemma total_err_text {A : Type} (m : Eff A) : total m → total (err_text m).
Proof. unfold err_text. auto with total. Qed.
#[local] Hint Resolve total_err_text : total.

Lemma total_adopt s c : total (adopt s c).
Proof. unfold adopt. auto 20 with total. Qed.

Lemma total_try_adopt s c : total (try_adopt s c).
Proof. unfold try_adopt. auto 20 with total. Qed.
#[local] Hint Resolve total_try_adopt : total.

Lemma total_prepare_existing_socket s c : total (prepare_existing_socket s c).
Proof. unfold prepare_existing_socket, socket_local_addr. auto 20 with total. Qed.
#[local] Hint Resolve total_prepare_existing_socket : total.

Lemma total_open_bound_socket c : total (open_bound_socket c).
Proof. unfold open_bound_socket. auto 30 with total. Qed.

Lemma total_base_metadata rs c : total (base_metadata rs c).
Proof. unfold base_metadata, rs_local_addr_or_query. auto 20 with total. Qed.
#[local] Hint Resolve total_base_metadata : total.

Lemma returns_packet_matches source md c : returns (packet_matches_subscription source md c).
Proof. unfold packet_matches_subscription. auto 20 with total. Qed.
#[local] Hint Resolve returns_packet_matches : total.

Lemma total_receive_datagram_unix rs c n : total (receive_datagram_unix rs c n).
Proof. unfold receive_datagram_unix. auto 20 with total. Qed.

(** ** Specification of the receive loop

    A run skips some datagrams that do not match the subscription, fewer than
    the budget, and ends with the first event that is not a skip; or it skips
    the whole budget. *)
Section receive_spec.
Context (receive : Eff (option (list byte * SocketAddr * ReceiveMetadata))).
Context (id : SubscriptionId) (c : SubscriptionConfig).

Inductive skips : nat → World → World → Prop :=
  | skips_O w : skips 0 w w
  | skips_S n w w1 w2 payload source md :
      receive w = (Ok (Some (payload, source, md)), w1) →
      packet_matches_subscription source md c = Ok false →
      skips n w1 w2 → skips (S n) w w2.

Inductive receive_event (w : World) : Res McrxError (option PacketWithMetadata) → World → Prop :=
  | event_packet w' payload source md :
      receive w = (Ok (Some (payload, source, md)), w') →
      packet_matches_subscription source md c = Ok true →
      receive_event w (Ok (Some (mkPacketWithMetadata
        (mkPacket id source (cfg_group c) (cfg_dst_port c) payload) md))) w'
  | event_would_block w' : receive w = (Ok None, w') → receive_event w (Ok None) w'
  | event_receive_error w' e : receive w = (Err e, w') → receive_event w (Err e) w'
  | event_no_metadata w' payload source md e :
      receive w = (Ok (Some (payload, source, md)), w') →
      packet_matches_subscription source md c = Err e → receive_event w (Err e) w'.

Inductive receive_run (w : World) : Res McrxError (option PacketWithMetadata) → World → Prop :=
  | run_event n w1 r w2 :
      n < MAX_FILTERED_DATAGRAMS_PER_RECEIVE → skips n w w1 → receive_event w1 r w2 →
      receive_run w r w2
  | run_budget w1 :
      skips MAX_FILTERED_DATAGRAMS_PER_RECEIVE w w1 → receive_run w (Ok None) w1.

Lemma skips_snoc n w w1 w2 payload source md :
  skips n w w1 → receive w1 = (Ok (Some (payload, source, md)), w2) →
  packet_matches_subscription source md c = Ok false → skips (S n) w w2.
Proof.
  induction 1 as [|n w w' w1 p' s' md' Hr Hm Hs IH]; intros Hr2 Hm2.
  - eapply skips_S; [done..|constructor].
  - eapply skips_S; [done..|]. by apply IH.
Qed.

Lemma recv_loop_run fuel filtered w0 w :
  total receive → skips filtered w0 w →
  fuel + filtered = MAX_FILTERED_DATAGRAMS_PER_RECEIVE → 0 < fuel →
  let '(r, w') := recv_loop receive id c fuel filtered w in receive_run w0 r w'.
Proof.
  intros Htot. revert filtered w. induction fuel as [|fuel IH]; intros filtered w Hs Hf Hpos; [lia|].
  cbn [recv_loop]. unfold mthen at 1. pose proof (Htot w) as Hret.
  destruct (receive w) as [[[[[payload source] md]|]|e| |] w1] eqn:Hr; try contradiction.
  - unfold mthen, mlift.
    pose proof (returns_packet_matches source md c) as Hpm.
    destruct (packet_matches_subscription source md c) as [[]|e| |] eqn:Hm; try contradiction.
    + eapply run_event; [|done|by eapply event_packet]. lia.
    + unfold filtered_receive_budget_exhausted. case_bool_decide.
      * apply run_budget.
        assert (MAX_FILTERED_DATAGRAMS_PER_RECEIVE = S filtered) as -> by lia.
        by eapply skips_snoc.
      * apply IH; [by eapply skips_snoc|lia..].
    + eapply run_event; [|done|by eapply event_no_metadata]. lia.
  - eapply run_event; [|done|by apply event_would_block]. lia.
  - eapply run_event; [|done|by apply event_receive_error]. lia.
Qed.

Lemma receive_run_returns w r w' :
  total receive → receive_run w r w' → returns r.
Proof.
  intros _ Hrun. destruct Hrun as [n w1 r w2 _ _ Hev|]; [|done]. by destruct Hev.
Qed.

Lemma receive_run_packet w p w' :
  receive_run w (Ok (Some p)) w' →
  packet_matches_subscription (pk_source (pm_packet p)) (pm_metadata p) c = Ok true ∧
  pk_subscription_id (pm_packet p) = id ∧ pk_group (pm_packet p) = cfg_group c ∧
  pk_dst_port (pm_packet p) = cfg_dst_port c.
Proof.
  intros Hrun. inversion Hrun as [n w1 r w2 _ _ Hev|]; subst.
  by inversion Hev; subst.
Qed.
End receive_spec.

(** The packets a configuration admits. *)
Definition admits (c : SubscriptionConfig) (p : PacketWithMetadata) : Prop :=
  md_destination_local_ip (pm_metadata p) = Some (cfg_group c) ∧
  (∀ s, cfg_source c = Source s → sock_ip (pk_source (pm_packet p)) = s) ∧
  (∀ i, cfg_interface_index c = Some i → md_ingress_interface_index (pm_metadata p) = Some i).

Lemma packet_matches_true source md c :
  packet_matches_subscription source md c = Ok true ↔
  md_destination_local_ip md = Some (cfg_group c) ∧
  (∀ s, cfg_source c = Source s → sock_ip source = s) ∧
  (∀ i, cfg_interface_index c = Some i → md_ingress_interface_index md = Some i).
Proof.
  unfold packet_matches_subscription.
  destruct (md_destination_local_ip md) as [d|]; simpl; [|naive_solver].
  destruct (bool_decide_reflect (d = cfg_group c)) as [->|]; simpl; [|naive_solver].
  destruct (cfg_source c) as [|s]; destruct (cfg_interface_index c) as [i|];
    repeat case_bool_decide; simpl; naive_solver.
Qed.

Lemma recv_loop_whole receive id c w :
  total receive →
  let '(r, w') := recv_loop receive id c MAX_FILTERED_DATAGRAMS_PER_RECEIVE 0 w in
  receive_run receive id c w r w'.
Proof.
  intros Ht. apply recv_loop_run; [done|constructor|..]; unfold MAX_FILTERED_DATAGRAMS_PER_RECEIVE; lia.
Qed.

Lemma recv_unix_run rs id c w :
  let control_size := ancillary_buffer_size (SubscriptionConfig.family c) in
  let '(r, w') := recv_packet_with_metadata_unix rs id c w in
  (ANCILLARY_STACK_BUFFER_SIZE < control_size ∧ r = Err (ancillary_size_error control_size) ∧ w' = w)
  ∨ (control_size ≤ ANCILLARY_STACK_BUFFER_SIZE ∧
     receive_run (receive_datagram_unix rs c control_size) id c w r w').
Proof.
  cbv zeta. unfold recv_packet_with_metadata_unix, guard, mthen, mlift.
  case_bool_decide as Hs; [by left|].
  pose proof (recv_loop_whole (receive_datagram_unix rs c
    (ancillary_buffer_size (SubscriptionConfig.family c))) id c w (total_receive_datagram_unix _ _ _)) as Hl.
  destruct (recv_loop _ _ _ _ _ _) as [r w'].
  right. split; [lia|done].
Qed.

Lemma total_recv_unix rs id c : total (recv_packet_with_metadata_unix rs id c).
Proof.
  intros w. pose proof (recv_unix_run rs id c w) as Hr. cbv zeta in Hr.
  destruct (recv_packet_with_metadata_unix rs id c w) as [r w'].
  destruct Hr as [(_ & -> & _)|[_ Hr]]; [done|].
  eapply receive_run_returns; [|done]. apply total_receive_datagram_unix.
Qed.

Lemma total_receive_datagram_windows recvmsg rs c n :
  OsLaws → target = Windows → total (receive_datagram_windows recvmsg rs c n).
Proof.
  intros Hl Ht w. unfold receive_datagram_windows, mthen at 1, try_io.
  destruct (wsa_recvmsg recvmsg _ _ _ w) as [[msg|e] w1] eqn:Hr; [|by case_bool_decide].
  destruct (wsa_control_law Ht _ _ _ _ _ _ _ Hr) as [Hlen Hwf].
  rewrite (take_ge (wm_control msg)) by done.
  replace (mkWsaMsg _ _ _ _) with msg by (by destruct msg). revert w1 Hr. intros w1 _.
  revert w1. apply total_then; [apply total_mlift, returns_ok_or|]. intros source.
  apply total_then; [apply total_base_metadata|]. intros metadata.
  apply total_then; [|intros; apply total_mpure]. case_match; [apply total_mpure|].
  destruct (wsa_walk_returns msg metadata (SubscriptionConfig.family c) Hwf) as [m' ->]. by intros w1.
Qed.

(** What a receive call does: an error before anything was received, or a run
    of the platform's receive function. *)
Definition receives (rs : ReceiveSocket) (id : SubscriptionId) (c : SubscriptionConfig) (w : World)
    (r : Result (option PacketWithMetadata)) (w' : World) : Prop :=
  (∃ e, r = Err e ∧ w' = w) ∨
  (rs_setup_error rs = None ∧ ∃ receive, total receive ∧ receive_run receive id c w r w').

Lemma recv_receives rs id c w :
  OsLaws →
  let '(r, w') := recv_packet_with_metadata rs id c w in receives rs id c w r w'.
Proof.
  intros Hl. unfold recv_packet_with_metadata, ensure_ready, mthen at 1, mlift.
  destruct (rs_setup_error rs) as [e|] eqn:He; [left; by eexists|].
  unfold recv_packet_with_ancillary_metadata. destruct (cfg_unix target) eqn:Hu.
  - pose proof (recv_unix_run rs id c w) as Hrun. cbv zeta in Hrun.
    destruct (recv_packet_with_metadata_unix rs id c w) as [r w'].
    destruct Hrun as [(_ & -> & ->)|[_ Hrun]]; [left; by eexists|right].
    split; [done|]. eexists. split; [apply total_receive_datagram_unix|exact Hrun].
  - case_bool_decide as Ht; [|left; by eexists].
    unfold recv_packet_with_metadata_windows, ok_or, guard, mthen, mlift.
    destruct (rs_wsarecvmsg rs) as [recvmsg|]; [|left; by eexists].
    case_bool_decide; [left; by eexists|].
    pose proof (total_receive_datagram_windows recvmsg rs c
      (ancillary_buffer_size (SubscriptionConfig.family c)) Hl Ht) as Htot.
    pose proof (recv_loop_whole _ id c w Htot) as Hrun.
    destruct (recv_loop _ _ _ _ _ w) as [r w']. right. split; [done|]. by eexists.
Qed.

Lemma total_recv_packet_with_metadata rs id c : OsLaws → total (recv_packet_with_metadata rs id c).
Proof.
  intros Hl w. pose proof (recv_receives rs id c w Hl) as Hr.
  destruct (recv_packet_with_metadata rs id c w) as [r w'].
  destruct Hr as [(e & -> & _)|(_ & receive & Ht & Hrun)]; [done|].
  by eapply receive_run_returns.
Qed.

(** The kernel request that a membership amounts to. *)
Inductive MembershipRequest :=
  | AsmV4 (group interface : Ipv4Addr)
  | SsmV4 (group source interface : Ipv4Addr)
  | AsmV6 (group : Ipv6Addr) (interface : Z)
  | SsmV6 (group source : Ipv6Addr) (interface : Z).

Definition membership_request (c : SubscriptionConfig) : Eff MembershipRequest :=
  match SubscriptionConfig.family c with
  | Ipv4Family =>
      let* m := mlift (ipv4_membership c) in
      let interface := default v4_unspecified (m4_interface m) in
      match m4_source m with
      | None => mpure (AsmV4 (m4_group m) interface)
      | Some source =>
          if cfg_apple target then
            let* interface := resolve_ipv4_source_interface_address interface source in
            mpure (SsmV4 (m4_group m) source interface)
          else mpure (SsmV4 (m4_group m) source interface)
      end
  | Ipv6Family =>
      let* m := mlift (ipv6_membership c) in
      let* interface := resolve_ipv6_interface c in
      mpure (match m6_source m with
             | None => AsmV6 (m6_group m) interface
             | Some source => SsmV6 (m6_group m) source interface
             end)
  end.

Definition request_join (s : Socket) (r : MembershipRequest) : Eff unit :=
  match r with
  | AsmV4 g i => io MulticastJoinFailed (join_multicast_v4 s g i)
  | SsmV4 g src i =>
      io MulticastJoinFailed
        (if cfg_apple target then set_ipv4_source_membership_option s IP_ADD_SOURCE_MEMBERSHIP g src i
         else join_ssm_v4 s src g i)
  | AsmV6 g i => io MulticastJoinFailed (join_multicast_v6 s g i)
  | SsmV6 g src i =>
      io (ssm_v6_error MulticastJoinFailed)
        (set_ipv6_source_membership_option s MCAST_JOIN_SOURCE_GROUP g src i)
  end.

Definition request_leave (s : Socket) (r : MembershipRequest) : Eff unit :=
  match r with
  | AsmV4 g i => io MulticastLeaveFailed (leave_multicast_v4 s g i)
  | SsmV4 g src i =>
      io MulticastLeaveFailed
        (if cfg_apple target then set_ipv4_source_membership_option s IP_DROP_SOURCE_MEMBERSHIP g src i
         else leave_ssm_v4 s src g i)
  | AsmV6 g i => io MulticastLeaveFailed (leave_multicast_v6 s g i)
  | SsmV6 g src i =>
      io (ssm_v6_error MulticastLeaveFailed)
        (set_ipv6_source_membership_option s MCAST_LEAVE_SOURCE_GROUP g src i)
  end.

#[local] Ltac request_cases :=
  unfold membership_request, resolve_ipv4_interface, mthen, mlift, mpure, res_bind;
  repeat (simpl; try done; case_match; simplify_eq/=); try done.

Lemma join_as_request s c w :
  join_multicast_group s c w = mthen (membership_request c) (request_join s) w.
Proof.
  unfold join_multicast_group, join_source_multicast_v4, request_join. request_cases.
Qed.

Lemma leave_as_request s c w :
  leave_multicast_group s c w = mthen (membership_request c) (request_leave s) w.
Proof.
  unfold leave_multicast_group, leave_source_multicast_v4, request_leave. request_cases.
Qed.

(** A packet for the subscription [id] that its configuration admits. *)
Definition addressed (id : SubscriptionId) (c : SubscriptionConfig) (p : PacketWithMetadata) : Prop :=
  pk_subscription_id (pm_packet p) = id ∧ pk_group (pm_packet p) = cfg_group c ∧
  pk_dst_port (pm_packet p) = cfg_dst_port c ∧ admits c p.

Lemma recv_addressed rs id c w w' p :
  OsLaws → recv_packet_with_metadata rs id c w = (Ok (Some p), w') →
  rs_setup_error rs = None ∧ addressed id c p.
Proof.
  intros Hl Hr. pose proof (recv_receives rs id c w Hl) as Hrun. rewrite Hr in Hrun.
  destruct Hrun as [(e & ? & _)|(He & receive & _ & Hrun)]; [done|].
  apply receive_run_packet in Hrun as (Hm & ? & ? & ?).
  by rewrite packet_matches_true in Hm.
Qed.

(** ** Properties *)

(** A packet that a receive call hands out carries the
    subscription's identifier, group and port; its destination address is the
    configured group, its sender the configured source and its ingress
    interface the configured index, when these are configured; and the
    socket's setup had succeeded. *)
Theorem received_packet_is_admitted (rs : ReceiveSocket) (id : SubscriptionId)
    (c : SubscriptionConfig) (w w' : World) (p : PacketWithMetadata) :
  OsLaws →
  recv_packet_with_metadata rs id c w = (Ok (Some p), w') →
  rs_setup_error rs = None ∧
  pk_subscription_id (pm_packet p) = id ∧
  pk_group (pm_packet p) = cfg_group c ∧
  pk_dst_port (pm_packet p) = cfg_dst_port c ∧
  admits c p.
Proof. apply recv_addressed. Qed.

(** C6: the Unix receive call either reports an oversized control
    buffer without touching the world, or behaves as its specification: it
    consumes fewer than 256 datagrams of other subscriptions and ends with the
    first event that is not one, or it consumes exactly 256 of them and
    reports that nothing is ready. In every case it returns. *)
Theorem recv_unix_refines_receive_run (rs : ReceiveSocket) (id : SubscriptionId)
    (c : SubscriptionConfig) (w : World) :
  let control_size := ancillary_buffer_size (SubscriptionConfig.family c) in
  let '(r, w') := recv_packet_with_metadata_unix rs id c w in
  returns r ∧
  ((ANCILLARY_STACK_BUFFER_SIZE < control_size ∧ r = Err (ancillary_size_error control_size) ∧ w' = w)
   ∨ (control_size ≤ ANCILLARY_STACK_BUFFER_SIZE ∧
      receive_run (receive_datagram_unix rs c control_size) id c w r w')).
Proof.
  cbv zeta. pose proof (recv_unix_run rs id c w) as Hr. pose proof (total_recv_unix rs id c w) as Ht.
  cbv zeta in Hr. by destruct (recv_packet_with_metadata_unix rs id c w) as [r w'].
Qed.

(** Joining and leaving resolve the configuration to the same
    kernel request, group, source and interface, and differ only in the call
    that carries it out and in the error constructor. *)
Theorem join_and_leave_agree (s : Socket) (c : SubscriptionConfig) (w : World) :
  join_multicast_group s c w = mthen (membership_request c) (request_join s) w ∧
  leave_multicast_group s c w = mthen (membership_request c) (request_leave s) w.
Proof. split; [apply join_as_request|apply leave_as_request]. Qed.
End platform.

(** The laws hold of the concrete systems. *)
Lemma sample_laws : OsLaws (H := sample_os).
Proof. by apply unix_laws. Qed.

Lemma windows_laws : OsLaws (H := windows_os).
Proof.
  split; intros _.
  - by intros [|w].
  - intros [] s size control_size w msg w'. cbn. unfold windows_recvmsg.
    destruct (Nat.even s && bool_decide (24 ≤ control_size)) eqn:Hb; [|done].
    apply andb_true_iff in Hb as [_ Hb%bool_decide_eq_true]. intros [= <- _]. split; [done|].
    assert (∀ c, wsa_visits (H := windows_os) windows_message c → c = 4096%Z) as Hc.
    { induction 1 as [c Hc|c c' _ -> Hc]; [by injection Hc|]. vm_compute in Hc. discriminate. }
    intros c n ->%Hc Hn. vm_compute in Hn. injection Hn as <-. vm_compute. discriminate.
Qed.

Definition sample_socket (s : nat) : ReceiveSocket :=
  mkReceiveSocket s (Some (SockV4 v4_unspecified 5000)) None None.

Definition sample_received : PacketWithMetadata :=
  mkPacketWithMetadata
    (mkPacket 7 sample_source (V4 sample_group) 5000 [byte_of 104; byte_of 105])
    (mkMetadata (Some (SockV4 v4_unspecified 5000)) None None (Some (V4 sample_group)) (Some 3%Z)).

Example received_packet_is_admitted_witness :
  recv_packet_with_metadata (sample_socket 4) 7 sample_config 0 = (Ok (Some sample_received), 1) ∧
  admits sample_config sample_received.
Proof.
  assert (Hr : recv_packet_with_metadata (sample_socket 4) 7 sample_config 0
               = (Ok (Some sample_received), 1)) by (vm_compute; reflexivity).
  split; [exact Hr|].
  apply (received_packet_is_admitted (sample_socket 4) 7 sample_config 0 1 sample_received);
    [by apply unix_laws|exact Hr].
Defined.
