(* ===== verification/Subscription.v ===== *)
(** * UDP subscriptions ([src/src/subscription.rs])

    A subscription with its lifecycle state and its metrics. A [&self] method
    that updates the metrics through atomics is an operation on the pair of
    the subscription and the world. *)

From S2P Require Import Prelude Net Errors Config Packet Metrics Os SampleOs Platform.

(** [SubscriptionState]. *)
Inductive SubscriptionState := Bound | Joined.

#[global] Instance SubscriptionState_eq_dec : EqDecision SubscriptionState.
Proof. solve_decision. Defined.

(** [SubscriptionMetricsInner] with its [LastPacketMetrics]. *)
Record SubscriptionMetricsInner := mkSubMetrics {
  sm_packets_received : Z;
  sm_bytes_received : Z;
  sm_would_block_count : Z;
  sm_receive_errors : Z;
  sm_join_count : Z;
  sm_leave_count : Z;
  sm_last_payload_len : Z;
  sm_last_source : option SocketAddr;
  sm_last_receive_at : option SystemTime }.

Definition SubscriptionMetricsInner_default : SubscriptionMetricsInner :=
  mkSubMetrics 0 0 0 0 0 0 usize_max None None.

Section subscription.
Context `{Os}.

Record Subscription := mkSubscription {
  sub_id : SubscriptionId;
  sub_config : SubscriptionConfig;
  sub_socket : ReceiveSocket;
  sub_state : SubscriptionState;
  sub_metrics : SubscriptionMetricsInner }.

(** [SubscriptionParts]. *)
Record SubscriptionParts := mkParts {
  sp_id : SubscriptionId;
  sp_config : SubscriptionConfig;
  sp_socket : Socket;
  sp_state : SubscriptionState }.

Definition set_sub_metrics (f : SubscriptionMetricsInner → SubscriptionMetricsInner)
    (s : Subscription) : Subscription :=
  mkSubscription (sub_id s) (sub_config s) (sub_socket s) (sub_state s) (f (sub_metrics s)).
Definition set_sub_state (st : SubscriptionState) (s : Subscription) : Subscription :=
  mkSubscription (sub_id s) (sub_config s) (sub_socket s) st (sub_metrics s).

(** ** Construction *)

Definition with_socket (id : SubscriptionId) (c : SubscriptionConfig) (rs : ReceiveSocket)
    : Subscription :=
  mkSubscription id c rs Bound SubscriptionMetricsInner_default.
Definition from_receive_socket (id : SubscriptionId) (c : SubscriptionConfig) (rs : ReceiveSocket)
    : Subscription := with_socket id c rs.
Definition Subscription_new (id : SubscriptionId) (c : SubscriptionConfig) (s : Socket)
    : Op World Subscription :=
  let* receive_socket := adopt s c in
  mpure (with_socket id c receive_socket).

(** ** Accessors *)

Definition sub_is_joined (s : Subscription) : bool :=
  match sub_state s with Joined => true | Bound => false end.
Definition sub_raw_socket (s : Subscription) : Socket := rs_socket (sub_socket s).
Definition into_socket (s : Subscription) : Socket := rs_socket (sub_socket s).
Definition into_parts (s : Subscription) : SubscriptionParts :=
  mkParts (sub_id s) (sub_config s) (into_socket s) (sub_state s).

(** [local_addr]: the recorded address, or a query of the socket. *)
Definition sub_local_addr (s : Subscription) : Op World SocketAddr :=
  let* r := mcatch (F := McrxError) (rs_local_addr_or_query (sub_socket s)) in
  match r with
  | inl a => mpure a
  | inr _ => socket_local_addr (sub_raw_socket s)
  end.

(** ** Metrics *)

Definition record_received_packet (p : Packet) : Op (Subscription * World) unit :=
  let n := Z.of_nat (payload_len p) in
  on_fst (mmodify (set_sub_metrics (λ m,
    mkSubMetrics (fetch_add (sm_packets_received m) 1) (fetch_add (sm_bytes_received m) n)
      (sm_would_block_count m) (sm_receive_errors m) (sm_join_count m) (sm_leave_count m)
      n (Some (pk_source p)) (sm_last_receive_at m)))) ;;*
  let* now := on_snd (call system_time_now) in
  on_fst (mmodify (set_sub_metrics (λ m,
    mkSubMetrics (sm_packets_received m) (sm_bytes_received m)
      (sm_would_block_count m) (sm_receive_errors m) (sm_join_count m) (sm_leave_count m)
      (sm_last_payload_len m) (sm_last_source m) (Some now)))).

Definition record_would_block : Op (Subscription * World) unit :=
  on_fst (mmodify (set_sub_metrics (λ m,
    mkSubMetrics (sm_packets_received m) (sm_bytes_received m)
      (fetch_add (sm_would_block_count m) 1) (sm_receive_errors m) (sm_join_count m)
      (sm_leave_count m) (sm_last_payload_len m) (sm_last_source m) (sm_last_receive_at m)))).

Definition record_receive_error : Op (Subscription * World) unit :=
  on_fst (mmodify (set_sub_metrics (λ m,
    mkSubMetrics (sm_packets_received m) (sm_bytes_received m)
      (sm_would_block_count m) (fetch_add (sm_receive_errors m) 1) (sm_join_count m)
      (sm_leave_count m) (sm_last_payload_len m) (sm_last_source m) (sm_last_receive_at m)))).

Definition metrics_snapshot (s : Subscription) : Op World SubscriptionMetricsSnapshot :=
  let m := sub_metrics s in
  let* now := call system_time_now in
  mpure (mkSubSnapshot (sm_packets_received m) (sm_bytes_received m) (sm_would_block_count m)
    (sm_receive_errors m) (sm_join_count m) (sm_leave_count m)
    (if bool_decide (sm_last_payload_len m = usize_max) then None
     else Some (sm_last_payload_len m))
    (sm_last_source m) (sm_last_receive_at m) now).

(** ** Receive

    [try_recv] and [try_recv_with_metadata] share their shape: the packet that
    the metrics record is [packet_of] the received value. *)
Definition try_recv_as {A : Type} (packet_of : A → Packet)
    (recv : ReceiveSocket → SubscriptionId → SubscriptionConfig → Op World (option A))
    : Op (Subscription * World) (option A) :=
  let* st := mget in
  let s := st.1 in
  if negb (sub_is_joined s) then mthrow SubscriptionNotJoined
  else
    let* r := mcatch (on_snd (recv (sub_socket s) (sub_id s) (sub_config s))) in
    match r with
    | inl (Some packet) => record_received_packet (packet_of packet) ;;* mpure (Some packet)
    | inl None => record_would_block ;;* mpure None
    | inr err => record_receive_error ;;* mthrow err
    end.

Definition try_recv : Op (Subscription * World) (option Packet) :=
  try_recv_as (λ p, p) recv_packet.
Definition try_recv_with_metadata : Op (Subscription * World) (option PacketWithMetadata) :=
  try_recv_as pm_packet recv_packet_with_metadata.

(** ** Lifecycle *)

Definition mark_joined (s : Subscription) : Result unit * Subscription :=
  if bool_decide (sub_state s = Joined) then (Err SubscriptionAlreadyJoined, s)
  else
    (Ok (), set_sub_metrics (λ m,
       mkSubMetrics (sm_packets_received m) (sm_bytes_received m) (sm_would_block_count m)
         (sm_receive_errors m) (fetch_add (sm_join_count m) 1) (sm_leave_count m)
         (sm_last_payload_len m) (sm_last_source m) (sm_last_receive_at m))
       (set_sub_state Joined s)).

Definition mark_bound (s : Subscription) : Result unit * Subscription :=
  if bool_decide (sub_state s = Bound) then (Err SubscriptionNotJoined, s)
  else
    (Ok (), set_sub_metrics (λ m,
       mkSubMetrics (sm_packets_received m) (sm_bytes_received m) (sm_would_block_count m)
         (sm_receive_errors m) (sm_join_count m) (fetch_add (sm_leave_count m) 1)
         (sm_last_payload_len m) (sm_last_source m) (sm_last_receive_at m))
       (set_sub_state Bound s)).

(** ** The lifecycle as a state machine *)

Inductive LifecycleCall := MarkJoined | MarkBound.

Definition lifecycle_call (k : LifecycleCall) (s : Subscription) : Result unit * Subscription :=
  match k with MarkJoined => mark_joined s | MarkBound => mark_bound s end.

Fixpoint lifecycle_run (l : list LifecycleCall) (s : Subscription) : Subscription :=
  match l with [] => s | k :: l => lifecycle_run l (lifecycle_call k s).2 end.

(** The subscription is joined exactly when it was joined once more than it
    was left. *)
Definition lifecycle_inv (s : Subscription) : Prop :=
  (0 ≤ sm_leave_count (sub_metrics s))%Z ∧
  sm_join_count (sub_metrics s) =
    (sm_leave_count (sub_metrics s) + (if sub_is_joined s then 1 else 0))%Z.

Lemma lifecycle_call_inv k s :
  (sm_join_count (sub_metrics s) < u64_max)%Z → lifecycle_inv s →
  lifecycle_inv (lifecycle_call k s).2 ∧
  (sm_join_count (sub_metrics (lifecycle_call k s).2) ≤ sm_join_count (sub_metrics s) + 1)%Z.
Proof.
  unfold lifecycle_inv, sub_is_joined, u64_max. intros Hlt [Hge Heq].
  destruct k; simpl; unfold mark_joined, mark_bound; destruct (sub_state s) eqn:Hst; simpl;
    rewrite ?Hst; (try lia); rewrite fetch_add_small by (unfold u64_max; lia); lia.
Qed.

(** ** Facts about receiving *)

Definition same_identity (s s' : Subscription) : Prop :=
  sub_id s' = sub_id s ∧ sub_config s' = sub_config s ∧ sub_socket s' = sub_socket s ∧
  sub_state s' = sub_state s.

#[global] Instance same_identity_preorder : PreOrder same_identity.
Proof.
  split; [by intros s|]. unfold same_identity. intros ? ? ? ? ?. destruct_and!.
  split_and!; congruence.
Qed.

Lemma try_recv_as_identity {A : Type} (packet_of : A → Packet) recv s w :
  same_identity s (try_recv_as packet_of recv (s, w)).2.1.
Proof.
  unfold try_recv_as, mthen, mget, mcatch, on_snd, mthrow, record_received_packet,
    record_would_block, record_receive_error, mthen, on_snd, on_fst, mmodify, call, mpure.
  simpl. destruct (sub_is_joined s); simpl; [|done].
  destruct (recv _ _ _ w) as [[[p|]|e| |] w'] eqn:Hr; simpl; try done.
  by destruct (system_time_now w').
Qed.

Lemma try_recv_as_result {A : Type} (packet_of : A → Packet) recv s w :
  (try_recv_as packet_of recv (s, w)).1 =
    if sub_is_joined s then (recv (sub_socket s) (sub_id s) (sub_config s) w).1
    else Err SubscriptionNotJoined.
Proof.
  unfold try_recv_as, mthen, mget, mcatch, on_snd, mthrow, record_received_packet,
    record_would_block, record_receive_error, mthen, on_snd, on_fst, mmodify, call, mpure.
  simpl. destruct (sub_is_joined s); simpl; [|done].
  destruct (recv _ _ _ w) as [[[p|]|e| |] w'] eqn:Hr; simpl; try done.
  by destruct (system_time_now w').
Qed.

(** What a context needs of a receive method: it always returns and leaves
    the subscription's identity alone. *)
Class ReceiveMethod {A : Type} (recv : Op (Subscription * World) (option A)) : Prop := {
  receive_total : total recv;
  receive_identity : ∀ s w, same_identity s (recv (s, w)).2.1;
  receive_unjoined : ∀ s w, sub_is_joined s = false → recv (s, w) = (Err SubscriptionNotJoined, (s, w)) }.

Lemma try_recv_as_method {A : Type} (packet_of : A → Packet) recv :
  (∀ rs id c, total (recv rs id c)) → ReceiveMethod (try_recv_as packet_of recv).
Proof.
  intros Ht. split.
  - intros [s w]. rewrite try_recv_as_result. destruct (sub_is_joined s); [apply Ht|done].
  - apply try_recv_as_identity.
  - intros s w Hj. unfold try_recv_as, mthen, mget. simpl. by rewrite Hj.
Qed.

Lemma total_recv_packet rs id c : OsLaws → total (recv_packet rs id c).
Proof. intros. apply total_mmap. by apply total_recv_packet_with_metadata. Qed.

Lemma try_recv_method : OsLaws → ReceiveMethod try_recv.
Proof. intros. apply try_recv_as_method. intros. by apply total_recv_packet. Qed.
Lemma try_recv_with_metadata_method :
  OsLaws → ReceiveMethod try_recv_with_metadata.
Proof. intros. apply try_recv_as_method. intros. by apply total_recv_packet_with_metadata. Qed.

(** ** Properties *)

(** From a fresh subscription, whatever sequence of
    [mark_joined] and [mark_bound] calls is made, the subscription is joined
    exactly when it was joined once more than it was left, by its own
    counters. *)
Theorem lifecycle_counters (id : SubscriptionId) (c : SubscriptionConfig) (rs : ReceiveSocket)
    (l : list LifecycleCall) :
  (Z.of_nat (length l) < u64_max)%Z →
  lifecycle_inv (lifecycle_run l (with_socket id c rs)).
Proof.
  intros Hlen.
  assert (Hgen : ∀ s, lifecycle_inv s →
    (sm_join_count (sub_metrics s) + Z.of_nat (length l) < u64_max)%Z →
    lifecycle_inv (lifecycle_run l s)).
  { clear Hlen. induction l as [|k l IH]; intros s Hs Hb; simpl in *; [done|].
    destruct (lifecycle_call_inv k s) as [? ?]; [lia|done|]. apply IH; [done|lia]. }
  apply Hgen; [|simpl; lia]. by unfold lifecycle_inv.
Qed.

(** Marking a subscription twice is an error that changes
    nothing; otherwise the state flips, and nothing but the state and the
    counter of the transition changes. *)
Theorem mark_spec (s : Subscription) :
  mark_joined s = (if sub_is_joined s then (Err SubscriptionAlreadyJoined, s)
                   else (Ok (), (mark_joined s).2)) ∧
  mark_bound s = (if sub_is_joined s then (Ok (), (mark_bound s).2)
                  else (Err SubscriptionNotJoined, s)) ∧
  (sub_is_joined s = false →
     sub_is_joined (mark_joined s).2 = true ∧
     (mark_bound (mark_joined s).2).1 = Ok () ∧
     into_parts (mark_bound (mark_joined s).2).2 = into_parts s).
Proof.
  unfold mark_joined, mark_bound, sub_is_joined.
  destruct s as [id c rs st m]; destruct st; simpl; by split_and!.
Qed.

(** A receive on a subscription that is not joined is refused
    without touching the subscription or the world; on a joined one it answers
    what the platform layer answers, leaves identity, configuration, socket
    and state alone, and counts the outcome in exactly one of its three
    outcome counters. *)
Theorem try_recv_spec (s : Subscription) (w : World) :
  (sub_is_joined s = false →
     try_recv_with_metadata (s, w) = (Err SubscriptionNotJoined, (s, w))) ∧
  (sub_is_joined s = true →
     let platform := recv_packet_with_metadata (sub_socket s) (sub_id s) (sub_config s) w in
     let '(r, (s', _)) := try_recv_with_metadata (s, w) in
     let m := sub_metrics s in let m' := sub_metrics s' in
     r = platform.1 ∧ same_identity s s' ∧
     match r with
     | Ok (Some p) =>
         sm_packets_received m' = fetch_add (sm_packets_received m) 1 ∧
         sm_bytes_received m' =
           fetch_add (sm_bytes_received m) (Z.of_nat (payload_len (pm_packet p))) ∧
         sm_last_payload_len m' = Z.of_nat (payload_len (pm_packet p)) ∧
         sm_last_source m' = Some (pk_source (pm_packet p)) ∧
         sm_would_block_count m' = sm_would_block_count m ∧
         sm_receive_errors m' = sm_receive_errors m
     | Ok None =>
         m' = mkSubMetrics (sm_packets_received m) (sm_bytes_received m)
                (fetch_add (sm_would_block_count m) 1) (sm_receive_errors m) (sm_join_count m)
                (sm_leave_count m) (sm_last_payload_len m) (sm_last_source m)
                (sm_last_receive_at m)
     | Err _ =>
         m' = mkSubMetrics (sm_packets_received m) (sm_bytes_received m)
                (sm_would_block_count m) (fetch_add (sm_receive_errors m) 1) (sm_join_count m)
                (sm_leave_count m) (sm_last_payload_len m) (sm_last_source m)
                (sm_last_receive_at m)
     | Panic | OutOfFuel => s' = s
     end).
Proof.
  unfold try_recv_with_metadata, try_recv_as, mthen, mget, mcatch, on_snd, mthrow,
    record_received_packet, record_would_block, record_receive_error, mthen, on_snd, on_fst,
    mmodify, call, mpure. simpl.
  split; intros ->; simpl; [done|].
  destruct (recv_packet_with_metadata _ _ _ w) as [[[p|]|e| |] w'] eqn:Hr; simpl; try done.
  by destruct (system_time_now w').
Qed.
End subscription.

Example lifecycle_counters_witness :
  lifecycle_inv (lifecycle_run [MarkJoined; MarkJoined; MarkBound; MarkJoined]
    (with_socket 1 sample_config (sample_socket 4))).
Proof. apply lifecycle_counters. vm_compute. reflexivity. Defined.
