(* ===== verification/SharedMetrics.v ===== *)
(** * One subscription in several threads ([src/src/subscription.rs])

    [try_recv] and [metrics_snapshot] take a subscription by shared reference:
    threads may call them at the same time, and only the atomic counters and
    the mutex of the last packet keep the metrics together. Here every atomic
    access, and every lock and unlock, is one step; [Subscription] is the same
    code in one thread. Accesses are sequentially consistent. *)

From Stdlib Require Import Sorting.Sorted.
From stdpp Require Import sorting.
From S2P Require Import Prelude Hoare Net Errors Config Packet Metrics Os SampleOs Platform Subscription.

Local Open Scope list_scope.
Local Open Scope nat_scope.

(** ** The shared memory *)

Inductive SubCounter :=
  | PacketsReceived | BytesReceived | WouldBlockCount | ReceiveErrors | JoinCount | LeaveCount.

#[global] Instance SubCounter_eq_dec : EqDecision SubCounter.
Proof. solve_decision. Defined.

Definition sm_get (k : SubCounter) (m : SubscriptionMetricsInner) : Z :=
  match k with
  | PacketsReceived => sm_packets_received m
  | BytesReceived => sm_bytes_received m
  | WouldBlockCount => sm_would_block_count m
  | ReceiveErrors => sm_receive_errors m
  | JoinCount => sm_join_count m
  | LeaveCount => sm_leave_count m
  end.

(** [fetch_add] on one of the counters. *)
Definition sm_add (k : SubCounter) (n : Z) (m : SubscriptionMetricsInner) : SubscriptionMetricsInner :=
  let add k' v := if bool_decide (k = k') then fetch_add v n else v in
  mkSubMetrics (add PacketsReceived (sm_packets_received m)) (add BytesReceived (sm_bytes_received m))
    (add WouldBlockCount (sm_would_block_count m)) (add ReceiveErrors (sm_receive_errors m))
    (add JoinCount (sm_join_count m)) (add LeaveCount (sm_leave_count m))
    (sm_last_payload_len m) (sm_last_source m) (sm_last_receive_at m).

(** [last_payload_len], which is atomic, and [LastPacketMetrics]. *)
Definition sm_store_len (n : Z) (m : SubscriptionMetricsInner) : SubscriptionMetricsInner :=
  mkSubMetrics (sm_packets_received m) (sm_bytes_received m) (sm_would_block_count m)
    (sm_receive_errors m) (sm_join_count m) (sm_leave_count m) n (sm_last_source m) (sm_last_receive_at m).
Definition sm_set_source (source : SocketAddr) (m : SubscriptionMetricsInner) : SubscriptionMetricsInner :=
  mkSubMetrics (sm_packets_received m) (sm_bytes_received m) (sm_would_block_count m)
    (sm_receive_errors m) (sm_join_count m) (sm_leave_count m) (sm_last_payload_len m)
    (Some source) (sm_last_receive_at m).
Definition sm_set_receive_at (at_ : SystemTime) (m : SubscriptionMetricsInner) : SubscriptionMetricsInner :=
  mkSubMetrics (sm_packets_received m) (sm_bytes_received m) (sm_would_block_count m)
    (sm_receive_errors m) (sm_join_count m) (sm_leave_count m) (sm_last_payload_len m)
    (sm_last_source m) (Some at_).

(** The snapshot that a thread is filling in. *)
Definition ss_get (k : SubCounter) (s : SubscriptionMetricsSnapshot) : Z :=
  match k with
  | PacketsReceived => ss_packets_received s
  | BytesReceived => ss_bytes_received s
  | WouldBlockCount => ss_would_block_count s
  | ReceiveErrors => ss_receive_errors s
  | JoinCount => ss_join_count s
  | LeaveCount => ss_leave_count s
  end.
Definition ss_set (k : SubCounter) (n : Z) (s : SubscriptionMetricsSnapshot) : SubscriptionMetricsSnapshot :=
  let set k' v := if bool_decide (k = k') then n else v in
  mkSubSnapshot (set PacketsReceived (ss_packets_received s)) (set BytesReceived (ss_bytes_received s))
    (set WouldBlockCount (ss_would_block_count s)) (set ReceiveErrors (ss_receive_errors s))
    (set JoinCount (ss_join_count s)) (set LeaveCount (ss_leave_count s))
    (ss_last_payload_len s) (ss_last_source s) (ss_last_receive_at s) (ss_captured_at s).
Definition ss_set_len (n : Z) (s : SubscriptionMetricsSnapshot) : SubscriptionMetricsSnapshot :=
  mkSubSnapshot (ss_packets_received s) (ss_bytes_received s) (ss_would_block_count s)
    (ss_receive_errors s) (ss_join_count s) (ss_leave_count s)
    (if bool_decide (n = usize_max) then None else Some n)
    (ss_last_source s) (ss_last_receive_at s) (ss_captured_at s).
Definition ss_set_last (m : SubscriptionMetricsInner) (s : SubscriptionMetricsSnapshot) : SubscriptionMetricsSnapshot :=
  mkSubSnapshot (ss_packets_received s) (ss_bytes_received s) (ss_would_block_count s)
    (ss_receive_errors s) (ss_join_count s) (ss_leave_count s) (ss_last_payload_len s)
    (sm_last_source m) (sm_last_receive_at m) (ss_captured_at s).
Definition ss_set_captured_at (now : SystemTime) (s : SubscriptionMetricsSnapshot) : SubscriptionMetricsSnapshot :=
  mkSubSnapshot (ss_packets_received s) (ss_bytes_received s) (ss_would_block_count s)
    (ss_receive_errors s) (ss_join_count s) (ss_leave_count s) (ss_last_payload_len s)
    (ss_last_source s) (ss_last_receive_at s) now.

(** ** The accesses of each method *)

Inductive Access :=
  | FetchAdd (k : SubCounter) (n : nat)
  | StoreLastLen (n : Z)
  | LockLast
  | SetLastSource (p : Packet)
  | SetLastReceiveAt (p : Packet)
  | UnlockLast
  | LoadLastLen
  | Load (k : SubCounter)
  | ReadLast
  | CaptureNow
  | UnlockAndReturn.

Definition record_received_packet_code (p : Packet) : list Access :=
  [FetchAdd PacketsReceived 1; FetchAdd BytesReceived (payload_len p);
   StoreLastLen (Z.of_nat (payload_len p)); LockLast; SetLastSource p; SetLastReceiveAt p; UnlockLast].
Definition record_would_block_code : list Access := [FetchAdd WouldBlockCount 1].
Definition record_receive_error_code : list Access := [FetchAdd ReceiveErrors 1].
Definition metrics_snapshot_code : list Access :=
  [LoadLastLen; LockLast; Load PacketsReceived; Load BytesReceived; Load WouldBlockCount;
   Load ReceiveErrors; Load JoinCount; Load LeaveCount; ReadLast; CaptureNow; UnlockAndReturn].

(** What a thread calls: [try_recv] with the kernel's answer, or
    [metrics_snapshot]. *)
Inductive SharedCall := Receives (p : Packet) | Blocks | Fails | TakesSnapshot.

Definition code (c : SharedCall) : list Access :=
  match c with
  | Receives p => record_received_packet_code p
  | Blocks => record_would_block_code
  | Fails => record_receive_error_code
  | TakesSnapshot => metrics_snapshot_code
  end.

(** ** Threads *)

(** The counters, the holder of the mutex, the finished snapshots in the order
    in which they returned, and the receive times that were stamped. *)
Record SharedState := mkShared {
  metrics : SubscriptionMetricsInner;
  last_packet_lock : option nat;
  snapshots : list SubscriptionMetricsSnapshot;
  stamps : list (Packet * SystemTime) }.

Record Thread := mkThread { todo : list Access; filling : SubscriptionMetricsSnapshot }.
Record System := mkSystem { shared : SharedState; threads : list Thread; clock : SystemTime }.

Definition on_metrics (f : SubscriptionMetricsInner → SubscriptionMetricsInner) (sh : SharedState) : SharedState :=
  mkShared (f (metrics sh)) (last_packet_lock sh) (snapshots sh) (stamps sh).
Definition set_lock (holder : option nat) (sh : SharedState) : SharedState :=
  mkShared (metrics sh) holder (snapshots sh) (stamps sh).

(** One access of thread [self]; [None] while it has to wait. *)
Definition access (self : nat) (now : SystemTime) (a : Access) (sh : SharedState)
    (s : SubscriptionMetricsSnapshot) : option (SharedState * SubscriptionMetricsSnapshot) :=
  match a with
  | FetchAdd k n => Some (on_metrics (sm_add k (Z.of_nat n)) sh, s)
  | StoreLastLen n => Some (on_metrics (sm_store_len n) sh, s)
  | LockLast =>
      match last_packet_lock sh with
      | Some _ => None
      | None => Some (set_lock (Some self) sh, s)
      end
  | SetLastSource p => Some (on_metrics (sm_set_source (pk_source p)) sh, s)
  | SetLastReceiveAt p =>
      let sh := on_metrics (sm_set_receive_at now) sh in
      Some (mkShared (metrics sh) (last_packet_lock sh) (snapshots sh) (stamps sh ++ [(p, now)]), s)
  | UnlockLast => Some (set_lock None sh, s)
  | LoadLastLen => Some (sh, ss_set_len (sm_last_payload_len (metrics sh)) s)
  | Load k => Some (sh, ss_set k (sm_get k (metrics sh)) s)
  | ReadLast => Some (sh, ss_set_last (metrics sh) s)
  | CaptureNow => Some (sh, ss_set_captured_at now s)
  | UnlockAndReturn =>
      Some (mkShared (metrics sh) None (snapshots sh ++ [s]) (stamps sh), s)
  end.

(** Thread [i] moves, or the system clock changes. *)
Inductive Move := Go (i : nat) | Tick (t : SystemTime).

Definition step (s : System) (mv : Move) : option System :=
  match mv with
  | Tick t => Some (mkSystem (shared s) (threads s) t)
  | Go i =>
      t ← threads s !! i;
      match todo t with
      | [] => None
      | a :: rest =>
          '(sh, snapshot) ← access i (clock s) a (shared s) (filling t);
          Some (mkSystem sh (<[i := mkThread rest snapshot]> (threads s)) (clock s))
      end
  end.

Fixpoint run (moves : list Move) (s : System) : option System :=
  match moves with
  | [] => Some s
  | mv :: moves => s' ← step s mv; run moves s'
  end.

Definition blank_snapshot : SubscriptionMetricsSnapshot :=
  mkSubSnapshot 0 0 0 0 0 0 None None None 0%Z.

(** Threads with the calls they make, sharing a subscription with metrics [m]. *)
Definition start (m : SubscriptionMetricsInner) (now : SystemTime) (calls : list (list SharedCall)) : System :=
  mkSystem (mkShared m None [] []) ((λ l, mkThread (l ≫= code) blank_snapshot) <$> calls) now.

Definition finished (s : System) : Prop := Forall (λ t, todo t = []) (threads s).

(** ** The same calls in one thread *)

Section sequential.
Context `{Os}.

Definition call_op (c : SharedCall) : Op (Subscription * World) unit :=
  match c with
  | Receives p => record_received_packet p
  | Blocks => record_would_block
  | Fails => record_receive_error
  | TakesSnapshot => λ st, let '(r, w) := metrics_snapshot (st.1) (st.2) in (res_map (λ _, ()) r, (st.1, w))
  end.

Fixpoint call_ops (cs : list SharedCall) : Op (Subscription * World) unit :=
  match cs with
  | [] => mpure ()
  | c :: cs => call_op c ;;* call_ops cs
  end.
End sequential.

(** A thread that is alone makes its accesses as [Subscription] describes the
    call: the metrics are those of the method, and the snapshot is the one that
    [metrics_snapshot] returns. *)
Lemma alone_as_called `{Os} c sub w now w' :
  system_time_now w = (now, w') →
  ∃ s, run (replicate (length (code c)) (Go 0)) (start (sub_metrics sub) now [[c]]) = Some s ∧ finished s ∧
    metrics (shared s) = sub_metrics (call_op c (sub, w)).2.1 ∧
    snapshots (shared s) =
      match c with
      | TakesSnapshot => if metrics_snapshot sub w is (Ok e, _) then [e] else []
      | _ => []
      end.
Proof.
  intros Hnow. destruct sub as [id cf rs ss []]. destruct c; cbn;
    unfold record_received_packet, metrics_snapshot, record_would_block, record_receive_error,
      mthen, on_fst, on_snd, mmodify, call, mpure; cbn; rewrite ?Hnow;
    eexists; (split; [reflexivity|]); (split; [by repeat constructor|done]).
Qed.

(** ** What is still to be added *)

Definition adds (k : SubCounter) (a : Access) : Z :=
  match a with
  | FetchAdd k' n => if bool_decide (k' = k) then Z.of_nat n else 0
  | _ => 0
  end.
Fixpoint pending (k : SubCounter) (l : list Access) : Z :=
  match l with
  | [] => 0
  | a :: l => adds k a + pending k l
  end.

Lemma pending_app k l l' : pending k (l ++ l') = (pending k l + pending k l')%Z.
Proof. induction l as [|a l IH]; cbn; [done|]. rewrite IH. lia. Qed.

(** A thread's first access moves out of what is pending. *)
Lemma todo_split i t a rest s ts :
  ts !! i = Some t → todo t = a :: rest →
  ∃ l1 l2, ts ≫= todo = l1 ++ a :: l2 ∧ <[i := mkThread rest s]> ts ≫= todo = l1 ++ l2.
Proof.
  intros Hi Ht. pose proof (lookup_lt_Some _ _ _ Hi) as Hlt.
  exists (take i ts ≫= todo), (rest ++ (drop (S i) ts ≫= todo)). split.
  - rewrite <-(take_drop_middle ts i t) at 1 by done. by rewrite bind_app, bind_cons, Ht.
  - by rewrite (insert_take_drop ts i), bind_app, bind_cons by done.
Qed.

Lemma pending_insert k i t a rest s ts :
  ts !! i = Some t → todo t = a :: rest →
  pending k (ts ≫= todo) = (adds k a + pending k (<[i := mkThread rest s]> ts ≫= todo))%Z.
Proof.
  intros Hi Ht. destruct (todo_split i t a rest s ts Hi Ht) as (l1 & l2 & -> & ->).
  rewrite !pending_app. cbn. lia.
Qed.

Definition in_u64 (m : SubscriptionMetricsInner) : Prop := ∀ k, (0 ≤ sm_get k m ≤ u64_max)%Z.

Lemma sm_get_add k k' n m :
  sm_get k (sm_add k' n m) = if bool_decide (k' = k) then fetch_add (sm_get k m) n else sm_get k m.
Proof. by destruct k, k'. Qed.

Lemma ss_get_set k k' n s : ss_get k (ss_set k' n s) = if bool_decide (k' = k) then n else ss_get k s.
Proof. by destruct k, k'. Qed.

Lemma in_u64_add k n m : in_u64 m → in_u64 (sm_add k n m).
Proof.
  intros Hm k'. rewrite sm_get_add. case_bool_decide; [apply wrap64_bounds|apply Hm].
Qed.

(** Computes what is pending of a known counter. *)
Ltac pending_cases :=
  unfold fetch_add; repeat case_bool_decide; try congruence;
  rewrite ?Z.add_0_l, ?Z.add_0_r; rewrite ?wrap64_small by done; try done.

(** One thread adds what its calls say. *)
Lemma call_op_adds `{Os} c st :
  ∃ m' w', call_op c st = (Ok (), (set_sub_metrics (λ _, m') st.1, w')) ∧
    (in_u64 (sub_metrics st.1) → ∀ k,
      sm_get k m' = wrap64 (sm_get k (sub_metrics st.1) + pending k (code c))).
Proof.
  destruct st as [[id cf rs ss m] w]. destruct c; cbn [call_op].
  - unfold record_received_packet, mthen, on_fst, on_snd, mmodify, call. cbn.
    destruct (system_time_now w) as [now w']. cbn. do 2 eexists. split; [reflexivity|].
    intros Hm k. specialize (Hm k).
    destruct k; cbn in *; pending_cases.
  - do 2 eexists. split; [reflexivity|]. intros Hm k. specialize (Hm k).
    destruct k; cbn in *; pending_cases.
  - do 2 eexists. split; [reflexivity|]. intros Hm k. specialize (Hm k).
    destruct k; cbn in *; pending_cases.
  - unfold metrics_snapshot, mthen, call. cbn. destruct (system_time_now w) as [now w']. cbn.
    do 2 eexists. split; [reflexivity|]. intros Hm k. specialize (Hm k). cbn in *. pending_cases.
Qed.

Lemma wrap64_add_l x y : wrap64 (wrap64 x + y) = wrap64 (x + y).
Proof. apply Zplus_mod_idemp_l. Qed.

Lemma call_ops_add `{Os} cs st :
  in_u64 (sub_metrics st.1) →
  ∃ m' w', call_ops cs st = (Ok (), (set_sub_metrics (λ _, m') st.1, w')) ∧
    ∀ k, sm_get k m' = wrap64 (sm_get k (sub_metrics st.1) + pending k (cs ≫= code)).
Proof.
  revert st. induction cs as [|c cs IH]; intros [s w] Hm; cbn [call_ops].
  - exists (sub_metrics s), w. split; [by destruct s|]. intros k. cbn.
    by rewrite Z.add_0_r, wrap64_small by apply Hm.
  - destruct (call_op_adds c (s, w)) as (m1 & w1 & Hc & Hadd). specialize (Hadd Hm). cbn [fst sub_metrics] in *.
    destruct (IH (set_sub_metrics (λ _, m1) s, w1)) as (m2 & w2 & Hcs & Hadd').
    { intros k. cbn. rewrite Hadd. apply wrap64_bounds. }
    exists m2, w2. split; [unfold mthen; by rewrite Hc, Hcs|]. intros k.
    rewrite Hadd', bind_cons, pending_app. cbn [sub_metrics set_sub_metrics fst].
    by rewrite Hadd, wrap64_add_l, Z.add_assoc.
Qed.

(** ** What holds between any two steps

    [free] describes what a thread outside the critical sections still has to
    do, [holds] what the holder of the mutex still has to do and what it has
    achieved. [ordered] stands for the assumptions under which snapshots are
    ordered: no counter overflows and the clock does not go back. *)

Definition record_section (p : Packet) : list Access := [SetLastSource p; SetLastReceiveAt p; UnlockLast].
Definition snapshot_section : list Access := drop 2 metrics_snapshot_code.

Definition unlocked (a : Access) : Prop :=
  match a with
  | FetchAdd _ _ | StoreLastLen _ | LoadLastLen => True
  | _ => False
  end.

Inductive free : list Access → Prop :=
  | free_nil : free []
  | free_step a r : unlocked a → free r → free (a :: r)
  | free_record p r : free r → free (LockLast :: record_section p ++ r)
  | free_snapshot r : free r → free (LockLast :: snapshot_section ++ r).

Lemma free_calls cs : free (cs ≫= code).
Proof.
  induction cs as [|c cs IH]; [constructor|]. rewrite bind_cons.
  destruct c; cbn [code]; unfold record_received_packet_code; repeat (apply free_step; [done|]); try done.
  - by apply free_record.
  - by apply free_snapshot.
Qed.

Section invariant.
Context (m0 : SubscriptionMetricsInner) (total : SubCounter → Z) (ordered : Prop).

(** The two fields of [LastPacketMetrics] belong together. *)
Definition last_known (marks : list (Packet * SystemTime)) (source : option SocketAddr)
    (receive_at : option SystemTime) : Prop :=
  (source = sm_last_source m0 ∧ receive_at = sm_last_receive_at m0) ∨
  ∃ p t, (p, t) ∈ marks ∧ source = Some (pk_source p) ∧ receive_at = Some t.

Definition last_ok (sh : SharedState) : Prop :=
  last_known (stamps sh) (sm_last_source (metrics sh)) (sm_last_receive_at (metrics sh)).

Definition achieved (now : SystemTime) (sh : SharedState) (s : SubscriptionMetricsSnapshot) (a : Access) : Prop :=
  match a with
  | Load k => ordered → (∀ e, e ∈ snapshots sh → ss_get k e ≤ ss_get k s)%Z ∧ (ss_get k s ≤ sm_get k (metrics sh))%Z
  | ReadLast => last_known (stamps sh) (ss_last_source s) (ss_last_receive_at s)
  | CaptureNow =>
      ordered → (∀ e, e ∈ snapshots sh → ss_captured_at e ≤ ss_captured_at s)%Z ∧ (ss_captured_at s ≤ now)%Z
  | _ => True
  end.

Inductive holds (now : SystemTime) (sh : SharedState) (s : SubscriptionMetricsSnapshot) : list Access → Prop :=
  | holds_source p r : last_ok sh → free r → holds now sh s (record_section p ++ r)
  | holds_receive_at p r :
      sm_last_source (metrics sh) = Some (pk_source p) → free r →
      holds now sh s (SetLastReceiveAt p :: UnlockLast :: r)
  | holds_unlock r : last_ok sh → free r → holds now sh s (UnlockLast :: r)
  | holds_snapshot before after r :
      last_ok sh → snapshot_section = before ++ after → after ≠ [] → free r →
      Forall (achieved now sh s) before → holds now sh s (after ++ r).

Definition thread_ok (now : SystemTime) (sh : SharedState) (i : nat) (t : Thread) : Prop :=
  if bool_decide (last_packet_lock sh = Some i) then holds now sh (filling t) (todo t) else free (todo t).

(** Every snapshot was complete, and they are in order. *)
Definition returned_ok (now : SystemTime) (sh : SharedState) : Prop :=
  (∀ e, e ∈ snapshots sh → last_known (stamps sh) (ss_last_source e) (ss_last_receive_at e)) ∧
  (ordered → StronglySorted subscription_not_before (snapshots sh) ∧
    ∀ e, e ∈ snapshots sh → (ss_captured_at e ≤ now)%Z ∧ ∀ k, (ss_get k e ≤ sm_get k (metrics sh))%Z).

Record inv (s : System) : Prop := {
  inv_threads : ∀ i t, threads s !! i = Some t → thread_ok (clock s) (shared s) i t;
  inv_holder : ∀ i, last_packet_lock (shared s) = Some i → is_Some (threads s !! i);
  inv_last : last_packet_lock (shared s) = None → last_ok (shared s);
  inv_returned : returned_ok (clock s) (shared s) }.

(** No addition is lost. *)
Record counted (s : System) : Prop := {
  counted_u64 : in_u64 (metrics (shared s));
  counted_total : ∀ k,
    wrap64 (sm_get k (metrics (shared s)) + pending k (threads s ≫= todo)) = wrap64 (total k);
  counted_exactly : ordered → ∀ k,
    (sm_get k (metrics (shared s)) + pending k (threads s ≫= todo) = total k)%Z ∧ (total k ≤ u64_max)%Z }.

(** The counters grow and the clock advances; the rest stays. *)
Definition later (sh sh' : SharedState) : Prop :=
  last_packet_lock sh' = last_packet_lock sh ∧ snapshots sh' = snapshots sh ∧ stamps sh' = stamps sh ∧
  sm_last_source (metrics sh') = sm_last_source (metrics sh) ∧
  sm_last_receive_at (metrics sh') = sm_last_receive_at (metrics sh) ∧
  (ordered → ∀ k, (sm_get k (metrics sh) ≤ sm_get k (metrics sh'))%Z).

Lemma later_last_ok sh sh' : later sh sh' → last_ok sh → last_ok sh'.
Proof. unfold last_ok. by intros (_ & _ & -> & -> & -> & _). Qed.

Lemma achieved_later now now' sh sh' s a :
  later sh sh' → (ordered → now ≤ now')%Z → achieved now sh s a → achieved now' sh' s a.
Proof.
  intros (_ & Hsn & Hst & _ & _ & Hk) Hnow. destruct a; cbn; rewrite ?Hsn, ?Hst; try done.
  - intros Ha Ho. destruct (Ha Ho) as [He Hle]. split; [done|]. by etrans; [|apply Hk].
  - intros Ha Ho. destruct (Ha Ho) as [He Hle]. split; [done|]. specialize (Hnow Ho). lia.
Qed.

Lemma holds_later now now' sh sh' s l :
  later sh sh' → (ordered → now ≤ now')%Z → holds now sh s l → holds now' sh' s l.
Proof.
  intros Hl Hnow Hh. pose proof (later_last_ok _ _ Hl). inversion_clear Hh.
  - constructor; auto.
  - constructor; [|done]. by destruct Hl as (_ & _ & _ & -> & _).
  - constructor; auto.
  - eapply holds_snapshot; [by auto|done|done|done|]. eapply Forall_impl; [done|].
    intros. by eapply achieved_later.
Qed.

Lemma thread_ok_later now now' sh sh' i t :
  later sh sh' → (ordered → now ≤ now')%Z → thread_ok now sh i t → thread_ok now' sh' i t.
Proof.
  intros Hl Hnow. unfold thread_ok. destruct (Hl) as [-> _]. case_bool_decide; [|done].
  by apply holds_later.
Qed.

Lemma returned_later now now' sh sh' :
  later sh sh' → (ordered → now ≤ now')%Z → returned_ok now sh → returned_ok now' sh'.
Proof.
  intros (_ & Hsn & Hst & _ & _ & Hk) Hnow [Hl Ho]. unfold returned_ok. rewrite Hsn, Hst.
  split; [done|]. intros Hord. destruct (Ho Hord) as [Hs He]. split; [done|]. intros e Hin.
  destruct (He e Hin) as [Ht Hc]. specialize (Hnow Hord). split; [lia|]. intros k. by etrans; [|apply Hk].
Qed.

Lemma later_refl sh : later sh sh.
Proof. by split_and!. Qed.

Lemma inv_tick s t : inv s → (ordered → clock s ≤ t)%Z → inv (mkSystem (shared s) (threads s) t).
Proof.
  intros [] Ht. pose proof (later_refl (shared s)). constructor; cbn; try done.
  - intros. eapply thread_ok_later; eauto.
  - by eapply returned_later.
Qed.

(** *** Counting *)

Lemma access_adds i now a sh f sh' f' :
  access i now a sh f = Some (sh', f') → in_u64 (metrics sh) →
  ∀ k, sm_get k (metrics sh') = wrap64 (sm_get k (metrics sh) + adds k a).
Proof.
  intros Ha Hm k. specialize (Hm k). destruct a; cbn in Ha |- *.
  1: { simplify_eq. cbn. rewrite sm_get_add. case_bool_decide; [done|]. by rewrite Z.add_0_r, wrap64_small. }
  all: split_cases; rewrite Z.add_0_r, wrap64_small by done; by destruct k.
Qed.

Lemma pending_nonneg k l : (0 ≤ pending k l)%Z.
Proof. induction l as [|a l IH]; cbn; [done|]. destruct a; cbn; try case_bool_decide; lia. Qed.

Lemma adds_nonneg k a : (0 ≤ adds k a)%Z.
Proof. destruct a; cbn; try case_bool_decide; lia. Qed.

(** What one move of a thread does. *)
Lemma step_go s i s' :
  step s (Go i) = Some s' →
  ∃ t a rest sh' f', threads s !! i = Some t ∧ todo t = a :: rest ∧
    access i (clock s) a (shared s) (filling t) = Some (sh', f') ∧
    s' = mkSystem sh' (<[i := mkThread rest f']> (threads s)) (clock s).
Proof.
  cbn. intros (t & Ht & Hs)%bind_Some. destruct (todo t) as [|a rest] eqn:Htodo; [done|].
  apply bind_Some in Hs as ([sh' f'] & Ha & Hs). simplify_eq. by exists t, a, rest, sh', f'.
Qed.

(** A counter moves by what the access adds; if it cannot overflow, it grows. *)
Lemma counted_step s mv s' :
  counted s → step s mv = Some s' →
  counted s' ∧ (ordered → ∀ k, (sm_get k (metrics (shared s)) ≤ sm_get k (metrics (shared s')))%Z).
Proof.
  intros [Hu Ht Hx] Hs. destruct mv as [i|t]; [|simplify_eq/=; by split].
  apply step_go in Hs as (t & a & rest & sh' & f' & Hi & Htodo & Ha & ->).
  pose proof (access_adds _ _ _ _ _ _ _ Ha Hu) as Hadd.
  assert (Hexact : ordered → ∀ k,
    sm_get k (metrics sh') = (sm_get k (metrics (shared s)) + adds k a)%Z).
  { intros Ho k. rewrite Hadd. apply wrap64_small. destruct (Hx Ho k) as [Heq Hmax].
    rewrite (pending_insert k i t a rest f') in Heq by done. specialize (Hu k).
    pose proof (adds_nonneg k a). pose proof (pending_nonneg k (<[i:=mkThread rest f']> (threads s) ≫= todo)).
    lia. }
  split; [constructor; cbn|].
  - intros k. rewrite Hadd. apply wrap64_bounds.
  - intros k. rewrite Hadd, wrap64_add_l, <-Z.add_assoc, <-(pending_insert k i t a rest f'); done.
  - intros Ho k. rewrite (Hexact Ho). destruct (Hx Ho k) as [Heq Hmax]. split; [|done].
    by rewrite <-Heq, (pending_insert k i t a rest f' (threads s)), Z.add_assoc.
  - intros Ho k. cbn. rewrite (Hexact Ho). pose proof (adds_nonneg k a). lia.
Qed.

(** *** The mutex *)

(** A thread that does not hold the mutex is outside the critical sections,
    and the holder is inside. *)
Lemma inv_free s i t :
  inv s → threads s !! i = Some t → last_packet_lock (shared s) ≠ Some i → free (todo t).
Proof. intros [Hth _ _ _] Hi Hl. specialize (Hth i t Hi). unfold thread_ok in Hth. by rewrite bool_decide_eq_false_2 in Hth. Qed.

Lemma inv_holds s i t :
  inv s → threads s !! i = Some t → last_packet_lock (shared s) = Some i →
  holds (clock s) (shared s) (filling t) (todo t).
Proof. intros [Hth _ _ _] Hi Hl. specialize (Hth i t Hi). unfold thread_ok in Hth. by rewrite bool_decide_eq_true_2 in Hth. Qed.

(** The mutex did not move. *)
Lemma inv_unlocked s i t a rest sh' f' :
  inv s → threads s !! i = Some t → todo t = a :: rest → unlocked a → free rest →
  last_packet_lock (shared s) ≠ Some i → later (shared s) sh' →
  inv (mkSystem sh' (<[i := mkThread rest f']> (threads s)) (clock s)).
Proof.
  intros Hinv Hi Ht Ha Hfree Hl Hlater. pose proof Hinv as [Hth Hho Hla Hre].
  pose proof Hlater as (Hlock & _). constructor; cbn.
  - intros j tj [[<- [<- _]]|[Hne Hj]]%list_lookup_insert_Some.
    + unfold thread_ok. by rewrite Hlock, bool_decide_eq_false_2.
    + eapply thread_ok_later; [done|done|by apply Hth].
  - intros j Hj. rewrite Hlock in Hj. destruct (Hho j Hj) as [tj Htj].
    rewrite list_lookup_insert_ne by congruence. by exists tj.
  - rewrite Hlock. intros. eapply later_last_ok; [done|auto].
  - by eapply returned_later.
Qed.

(** The holder moves, or a thread that becomes the holder. *)
Lemma inv_critical s i t rest sh' f' :
  inv s → threads s !! i = Some t →
  last_packet_lock (shared s) = None ∨ last_packet_lock (shared s) = Some i →
  (last_packet_lock sh' = Some i ∧ holds (clock s) sh' f' rest) ∨
  (last_packet_lock sh' = None ∧ free rest ∧ last_ok sh') →
  returned_ok (clock s) sh' →
  inv (mkSystem sh' (<[i := mkThread rest f']> (threads s)) (clock s)).
Proof.
  intros Hinv Hi Hl Hl' Hre. pose proof Hinv as [Hth Hho Hla _].
  assert (∀ j, last_packet_lock sh' = Some j → j = i) as Hsame.
  { intros j. destruct Hl' as [[-> _]|[-> _]]; naive_solver. }
  constructor; cbn; [| |by intros; destruct_or?; destruct_and?; congruence|done].
  - intros j tj [[<- [<- _]]|[Hne Hj]]%list_lookup_insert_Some; unfold thread_ok; cbn.
    + destruct Hl' as [[-> ?]|(-> & ? & ?)]; [by rewrite bool_decide_eq_true_2|by rewrite bool_decide_eq_false_2].
    + rewrite bool_decide_eq_false_2 by (intros Hj'%Hsame; congruence).
      eapply inv_free; [done..|]. destruct Hl as [->| ->]; congruence.
  - intros j ->%Hsame. 
    rewrite list_lookup_insert_eq; [done|]. by eapply lookup_lt_Some.
Qed.

Lemma inv_lock s i t rest f' :
  inv s → threads s !! i = Some t → todo t = LockLast :: rest → last_packet_lock (shared s) = None →
  inv (mkSystem (set_lock (Some i) (shared s)) (<[i := mkThread rest f']> (threads s)) (clock s)).
Proof.
  intros Hinv Hi Ht Hl. pose proof (inv_last _ Hinv Hl) as Hla.
  assert (free (LockLast :: rest)) as Hf.
  { rewrite <-Ht. eapply inv_free; [done..|]. by rewrite Hl. }
  eapply inv_critical; [done|done|by left|left|apply (inv_returned _ Hinv)]. split; [done|].
  inversion Hf as [|? ? Hu|p r Hr|r Hr]; subst; [destruct Hu| |].
  - by apply holds_source.
  - by apply (holds_snapshot _ _ _ [] snapshot_section r).
Qed.

Lemma last_known_mono marks mark source at_ :
  last_known marks source at_ → last_known (marks ++ [mark]) source at_.
Proof.
  intros [?|(p & t & Hin & ?)]; [by left|right]. exists p, t. split; [|done].
  apply elem_of_app. by left.
Qed.

Lemma StronglySorted_snoc {A : Type} (R : A → A → Prop) l x :
  StronglySorted R l → (∀ y, y ∈ l → R y x) → StronglySorted R (l ++ [x]).
Proof.
  intros Hl Hx. apply StronglySorted_app. split_and!; [|done|by repeat constructor].
  intros y z Hy ->%list_elem_of_singleton. by apply Hx.
Qed.

Lemma StronglySorted_lookup {A : Type} (R : A → A → Prop) l i j x y :
  StronglySorted R l → i < j → l !! i = Some x → l !! j = Some y → R x y.
Proof.
  intros Hl. revert i j. induction Hl as [|z l Hl IH Hz]; intros [|i] [|j] Hij Hi Hj; simplify_eq/=; try lia.
  - by eapply Forall_lookup_1.
  - eapply IH; [|done..]. lia.
Qed.

(** The section of [metrics_snapshot], cut where the thread stands. *)
Lemma snapshot_section_cut before a after :
  snapshot_section = before ++ a :: after →
  (after ≠ [] ∧ ((∃ k, a = Load k) ∨ a = ReadLast ∨ a = CaptureNow)) ∨
  (after = [] ∧ a = UnlockAndReturn ∧ ReadLast ∈ before ∧ CaptureNow ∈ before ∧ ∀ k, Load k ∈ before).
Proof.
  intros Hcut. cbn in Hcut.
  do 8 (destruct before as [|? before];
    [injection Hcut as <- <-; left; split; [done|by eauto]|injection Hcut as <- Hcut]).
  destruct before as [|? before]; [|by destruct before].
  injection Hcut as <- <-. right. split_and!; [done|done|set_solver|set_solver|]. intros []; set_solver.
Qed.

(** One access of [metrics_snapshot] achieves its part of the snapshot and
    keeps what the earlier ones achieved. *)
Lemma achieved_step i now a sh f sh' f' before :
  access i now a sh f = Some (sh', f') →
  (∃ k, a = Load k) ∨ a = ReadLast ∨ a = CaptureNow →
  returned_ok now sh → last_ok sh → Forall (achieved now sh f) before →
  sh' = sh ∧ Forall (achieved now sh f') (before ++ [a]).
Proof.
  intros Ha Hk [_ Hret] Hlast Hbefore.
  assert (sh' = sh) as -> by (destruct Hk as [[k ->]|[->| ->]]; by simplify_eq/=).
  split; [done|]. apply Forall_app. split.
  - eapply Forall_impl; [done|]. intros b Hb.
    destruct Hk as [[k ->]|[->| ->]]; simplify_eq/=; destruct b as [| | | | | | |k'| | |]; cbn in *; try done; intros Ho.
    + rewrite ss_get_set. case_bool_decide; [subst|by apply Hb].
      split; [|done]. intros e He. by apply (Hret Ho).
    + split; [|done]. intros e He. by apply (Hret Ho).
  - constructor; [|done]. destruct Hk as [[k ->]|[->| ->]]; simplify_eq/=; [|done|].
    + intros Ho. rewrite ss_get_set, bool_decide_eq_true_2 by done.
      split; [|done]. intros e He. by apply (Hret Ho).
    + intros Ho. split; [|done]. intros e He. by apply (Hret Ho).
Qed.

(** A snapshot that is complete joins the others. *)
Lemma returned_snoc now sh f before :
  returned_ok now sh → Forall (achieved now sh f) before →
  ReadLast ∈ before → CaptureNow ∈ before → (∀ k, Load k ∈ before) →
  returned_ok now (mkShared (metrics sh) None (snapshots sh ++ [f]) (stamps sh)).
Proof.
  intros [Hl Ho] Hb Hread Hcap Hload. rewrite Forall_forall in Hb.
  pose proof (Hb _ Hread) as Hread'. pose proof (Hb _ Hcap) as Hcap'. cbn in *.
  split; cbn.
  - intros e [He| ->%list_elem_of_singleton]%elem_of_app; [by apply Hl|done].
  - intros Hord. destruct (Ho Hord) as [Hs He]. destruct (Hcap' Hord) as [Hc1 Hc2].
    assert (∀ k, (∀ e, e ∈ snapshots sh → ss_get k e ≤ ss_get k f)%Z ∧ (ss_get k f ≤ sm_get k (metrics sh))%Z) as Hk.
    { intros k. by apply (Hb _ (Hload k)). }
    split.
    + apply StronglySorted_snoc; [done|]. intros e Hin. split; [by apply Hc1|].
      pose proof (λ k, proj1 (Hk k) e Hin) as Hle.
      repeat constructor; [apply (Hle PacketsReceived)|apply (Hle BytesReceived)|apply (Hle WouldBlockCount)
        |apply (Hle ReceiveErrors)|apply (Hle JoinCount)|apply (Hle LeaveCount)].
    + intros e [Hin| ->%list_elem_of_singleton]%elem_of_app; [by apply He|].
      split; [done|]. intros k. apply Hk.
Qed.

(** The holder of the mutex moves. *)
Lemma inv_holder_step s i t a rest sh' f' :
  inv s → threads s !! i = Some t → todo t = a :: rest → last_packet_lock (shared s) = Some i →
  access i (clock s) a (shared s) (filling t) = Some (sh', f') →
  inv (mkSystem sh' (<[i := mkThread rest f']> (threads s)) (clock s)).
Proof.
  intros Hinv Hi Ht Hl Ha. pose proof (inv_returned _ Hinv) as Hret.
  pose proof (inv_holds _ _ _ Hinv Hi Hl) as Hh. rewrite Ht in Hh. inversion Hh as
    [p r Hlast Hf|p r Hlast Hf|r Hlast Hf|before after r Hlast Hcut Hne Hf Hach Heq];
    clear Hh; simplify_eq/=.
  - eapply inv_critical; [done|done|by right|left|by destruct Hret; split].
    split; [done|]. by constructor.
  - eapply inv_critical; [done|done|by right|left|].
    + split; [done|]. constructor; [|done]. right. exists p, (clock s).
      split; [|done]. apply elem_of_app. right. by left.
    + destruct Hret as [Hr Ho]. split; cbn; [|done]. intros e He. by apply last_known_mono, Hr.
  - eapply inv_critical; [done|done|by right|by right|done].
  - destruct after as [|b after]; [done|]. injection Heq as -> <-.
    apply snapshot_section_cut in Hcut as Hpos.
    destruct Hpos as [[Hafter Hk]|(-> & -> & Hread & Hcap & Hload)].
    + destruct (achieved_step _ _ _ _ _ _ _ _ Ha Hk Hret Hlast Hach) as [-> Hach'].
      eapply inv_critical; [done|done|by right|left|done]. split; [done|].
      eapply holds_snapshot; [done| |done|done|done]. by rewrite <-app_assoc.
    + simplify_eq/=. eapply inv_critical; [done|done|by right|by right|]. by eapply returned_snoc.
Qed.

(** Every move keeps the two invariants; under [ordered] the clock may only
    move forward. *)
Lemma inv_step s mv s' :
  inv s → counted s → (ordered → clock s ≤ clock s')%Z → step s mv = Some s' → inv s' ∧ counted s'.
Proof.
  intros Hinv Hcount Hclock Hs. destruct (counted_step _ _ _ Hcount Hs) as [Hcount' Hgrows].
  split; [|done]. destruct mv as [i|now]; [|simplify_eq/=; by apply inv_tick].
  apply step_go in Hs as (t & a & rest & sh' & f' & Hi & Ht & Ha & ->).
  destruct (decide (last_packet_lock (shared s) = Some i)) as [Hl|Hl]; [by eapply inv_holder_step|].
  pose proof (inv_free _ _ _ Hinv Hi Hl) as Hf. rewrite Ht in Hf.
  inversion Hf as [|? ? Hu Hr|p r Hr|r Hr]; subst.
  - eapply inv_unlocked; [done..|].
    destruct a; try done; simplify_eq/=; split_and!; try done.
  - cbn in Ha. case_match; [done|]. simplify_eq. by eapply inv_lock.
  - cbn in Ha. case_match; [done|]. simplify_eq. by eapply inv_lock.
Qed.

(** The moves of the system clock go forward. *)
Fixpoint clock_forward (now : SystemTime) (moves : list Move) : bool :=
  match moves with
  | [] => true
  | Tick t :: moves => bool_decide (now ≤ t)%Z && clock_forward t moves
  | Go _ :: moves => clock_forward now moves
  end.

Lemma inv_run moves s s' :
  inv s → counted s → (ordered → clock_forward (clock s) moves = true) →
  run moves s = Some s' → inv s' ∧ counted s'.
Proof.
  revert s. induction moves as [|mv moves IH]; intros s Hinv Hcount Hclock Hrun; [by simplify_eq/=|].
  cbn [run] in Hrun. apply bind_Some in Hrun as (s1 & Hs & Hrun).
  assert (ordered → (clock s ≤ clock s1)%Z ∧ clock_forward (clock s1) moves = true) as Hclock1.
  { intros Ho. specialize (Hclock Ho). destruct mv as [i|t].
    - by apply step_go in Hs as (? & ? & ? & ? & ? & ? & ? & ? & ->).
    - simplify_eq/=. by apply andb_true_iff in Hclock as [?%bool_decide_eq_true ?]. }
  destruct (inv_step s mv s1) as [Hinv1 Hcount1]; [done|done|by intros; apply Hclock1|done|].
  apply (IH s1); [done|done|by intros; apply Hclock1|done].
Qed.

(** Nothing deadlocks: a thread that still has something to do can move, or the
    holder of the mutex can. *)
Lemma access_enabled i now a sh f :
  a ≠ LockLast ∨ last_packet_lock sh = None → is_Some (access i now a sh f).
Proof. intros [Ha|Ha]; destruct a; cbn; rewrite ?Ha; done. Qed.

Lemma inv_ready s :
  inv s → threads s ≫= todo ≠ [] →
  ∃ i t a rest, threads s !! i = Some t ∧ todo t = a :: rest ∧
    (a ≠ LockLast ∨ last_packet_lock (shared s) = None).
Proof.
  intros Hinv Hne. destruct (last_packet_lock (shared s)) as [i|] eqn:Hl.
  - destruct (inv_holder _ Hinv i Hl) as [t Hi]. pose proof (inv_holds _ _ _ Hinv Hi Hl) as Hh.
    exists i, t. inversion Hh as [p r|p r|r|before after r Hlast Hcut Hafter]; subst; cbn; eauto 10.
    destruct after as [|a after]; [done|]. cbn in *. do 2 eexists. split_and!; [done..|].
    left. apply snapshot_section_cut in Hcut. by destruct Hcut as [(_ & [[k ->]|[->| ->]])|(_ & -> & _)].
  - destruct (threads s ≫= todo) as [|a l] eqn:Ht; [done|].
    assert (a ∈ threads s ≫= todo) as Ha by (rewrite Ht; by left).
    apply list_elem_of_bind in Ha as (t & Ha & [i Hi]%list_elem_of_lookup).
    destruct (todo t) as [|b rest] eqn:Htodo; [by apply not_elem_of_nil in Ha|]. eauto 10.
Qed.

Lemma inv_progress s :
  inv s → threads s ≫= todo ≠ [] → ∃ i s', step s (Go i) = Some s'.
Proof.
  intros Hinv (i & t & a & rest & Hi & Ht & Ha)%inv_ready; [|done].
  destruct (access_enabled i (clock s) a (shared s) (filling t) Ha) as [[sh' f'] Hacc].
  exists i. eexists. cbn [step]. rewrite Hi. cbn. rewrite Ht, Hacc. reflexivity.
Qed.
End invariant.

Lemma go_shrinks s i s' :
  step s (Go i) = Some s' → length (threads s ≫= todo) = S (length (threads s' ≫= todo)).
Proof.
  intros (t & a & rest & sh' & f' & Hi & Ht & _ & ->)%step_go. cbn.
  destruct (todo_split i t a rest f' _ Hi Ht) as (l1 & l2 & -> & ->).
  rewrite !length_app. cbn. lia.
Qed.

(** ** Runs *)

Lemma start_todo m now calls : threads (start m now calls) ≫= todo = concat calls ≫= code.
Proof.
  cbn. induction calls as [|l calls IH]; [done|].
  rewrite fmap_cons, bind_cons, IH. cbn [concat todo]. by rewrite bind_app.
Qed.

(** What the calls add to a counter of [m]. *)
Definition final_total (m : SubscriptionMetricsInner) (calls : list (list SharedCall)) (k : SubCounter) : Z :=
  sm_get k m + pending k (concat calls ≫= code).

Lemma start_inv (ordered : Prop) m now calls :
  in_u64 m → (ordered → ∀ k, final_total m calls k ≤ u64_max)%Z →
  inv m ordered (start m now calls) ∧ counted (final_total m calls) ordered (start m now calls).
Proof.
  intros Hm Ho. split; constructor; try done.
  - intros i t Hi. apply list_lookup_fmap_Some in Hi as (l & -> & _). apply free_calls.
  - intros _. by left.
  - split; [by intros e ?%not_elem_of_nil|]. split; [constructor|by intros e ?%not_elem_of_nil].
  - intros k. by rewrite start_todo.
  - intros Hord k. rewrite start_todo. by split; [|apply Ho].
Qed.

Lemma run_app moves more s : run (moves ++ more) s = run moves s ≫= run more.
Proof.
  revert s. induction moves as [|mv moves IH]; intros s; [done|]. cbn.
  destruct (step s mv); cbn; [apply IH|done].
Qed.

Lemma finished_todo s : finished s ↔ threads s ≫= todo = [].
Proof.
  unfold finished. induction (threads s) as [|t ts IH]; [done|].
  rewrite Forall_cons, bind_cons, IH. split; [by intros [-> ->]|]. by intros [? ?]%app_nil.
Qed.

(** The accesses that a schedule makes. *)
Fixpoint accesses (moves : list Move) : nat :=
  match moves with
  | [] => 0
  | Go _ :: moves => S (accesses moves)
  | Tick _ :: moves => accesses moves
  end.

Lemma run_accesses moves s s' :
  run moves s = Some s' → accesses moves + length (threads s' ≫= todo) = length (threads s ≫= todo).
Proof.
  revert s. induction moves as [|mv moves IH]; intros s Hrun; [by simplify_eq/=|].
  cbn [run] in Hrun. apply bind_Some in Hrun as (s1 & Hs & Hrun). specialize (IH _ Hrun).
  destruct mv as [i|t]; [|by simplify_eq/=].
  rewrite (go_shrinks _ _ _ Hs). cbn. lia.
Qed.

(** From a state where the invariant holds, some schedule ends every call. *)
Lemma inv_finishes m total s :
  inv m False s → counted total False s → ∃ moves s', run moves s = Some s' ∧ finished s'.
Proof.
  remember (length (threads s ≫= todo)) as n eqn:Hn. revert s Hn.
  induction n as [|n IH]; intros s Hn Hinv Hcount.
  - exists [], s. split; [done|]. apply finished_todo. by apply nil_length_inv.
  - destruct (inv_progress _ _ _ Hinv) as (i & s1 & Hs); [by intros Ht; rewrite Ht in Hn|].
    destruct (inv_step _ _ _ s (Go i) s1 Hinv Hcount) as [Hinv1 Hcount1]; [done|done|].
    destruct (IH s1) as (moves & s2 & Hrun & Hfin); [|done|done|].
    { rewrite (go_shrinks _ _ _ Hs) in Hn. lia. }
    exists (Go i :: moves), s2. split; [|done]. cbn [run]. by rewrite Hs.
Qed.

(** A receive time is stamped for a packet that some thread received. *)
Lemma stamps_received moves s s' p t :
  run moves s = Some s' → (p, t) ∈ stamps (shared s') →
  (p, t) ∈ stamps (shared s) ∨ SetLastReceiveAt p ∈ threads s ≫= todo.
Proof.
  revert s. induction moves as [|mv moves IH]; intros s Hrun Hin; [simplify_eq/=; by left|].
  cbn [run] in Hrun. apply bind_Some in Hrun as (s1 & Hs & Hrun).
  specialize (IH _ Hrun Hin). destruct mv as [i|now]; [|by simplify_eq/=].
  apply step_go in Hs as (th & a & rest & sh' & f' & Hi & Ht & Ha & ->). cbn in IH.
  destruct (todo_split i th a rest f' _ Hi Ht) as (l1 & l2 & Heq & Heq'). rewrite Heq' in IH. rewrite Heq.
  destruct IH as [IH|IH]; [|right; rewrite elem_of_app in *; rewrite elem_of_cons; tauto].
  destruct a; cbn in Ha; split_cases; cbn in IH; auto.
  apply elem_of_app in IH as [IH|IH]; [by left|]. apply list_elem_of_singleton in IH as [= -> _].
  right. rewrite elem_of_app. right. by left.
Qed.

Lemma code_stamps cs p : SetLastReceiveAt p ∈ cs ≫= code → Receives p ∈ cs.
Proof.
  intros (c & Hin & Hc)%list_elem_of_bind. apply list_elem_of_In in Hin.
  destruct c; cbn in Hin; destruct_or?; try done. by simplify_eq.
Qed.

(** Both invariants, after any run from the start. *)
Lemma start_run (ordered : Prop) m now calls moves s :
  in_u64 m → (ordered → ∀ k, final_total m calls k ≤ u64_max)%Z →
  (ordered → clock_forward now moves = true) → run moves (start m now calls) = Some s →
  inv m ordered s ∧ counted (final_total m calls) ordered s.
Proof.
  intros Hm Hmax Hclock Hrun. destruct (start_inv ordered m now calls Hm Hmax) as [Hinv Hcount].
  by eapply inv_run.
Qed.

(** ** Properties *)

(** C11: threads call [try_recv] and [metrics_snapshot] on one joined
    subscription, their atomic accesses interleaved in any order. At any
    moment some schedule ends all the calls, no schedule makes more accesses
    than the calls have, and when they have ended every counter is what the
    same calls would have left in a single thread. *)
Theorem no_recording_is_lost `{Os} (sub : Subscription) (w : World) now calls moves s :
  in_u64 (sub_metrics sub) → run moves (start (sub_metrics sub) now calls) = Some s →
  (∃ more s', run more s = Some s' ∧ finished s') ∧
  accesses moves ≤ length (concat calls ≫= code) ∧
  (finished s →
     ∃ m' w', call_ops (concat calls) (sub, w) = (Ok (), (set_sub_metrics (λ _, m') sub, w')) ∧
       ∀ k, sm_get k (metrics (shared s)) = sm_get k m').
Proof.
  intros Hm Hrun. destruct (start_run False _ now calls moves s Hm) as [Hinv' Hcount']; [done..|].
  split_and!.
  - by eapply inv_finishes.
  - apply run_accesses in Hrun. rewrite start_todo in Hrun. lia.
  - intros Hfin%finished_todo. destruct (call_ops_add (concat calls) (sub, w) Hm) as (m' & w' & Hc & Hadd).
    exists m', w'. split; [done|]. intros k. rewrite Hadd.
    pose proof (counted_total _ _ _ Hcount' k) as Ht. rewrite Hfin in Ht.
    cbn in Ht. by rewrite Z.add_0_r, wrap64_small in Ht by apply (counted_u64 _ _ _ Hcount').
Qed.

(** C12: when no counter overflows and the clock is not set back, the snapshots
    that the threads take are in the order in which they return: a later one
    always has a delta since an earlier one, whichever threads took them. *)
Theorem snapshots_never_go_back m now calls moves s i j earlier self :
  in_u64 m → (∀ k, sm_get k m + pending k (concat calls ≫= code) ≤ u64_max)%Z →
  clock_forward now moves = true → run moves (start m now calls) = Some s →
  i < j → snapshots (shared s) !! i = Some earlier → snapshots (shared s) !! j = Some self →
  is_Some (subscription_delta_since self earlier).
Proof.
  intros Hm Hmax Hclock Hrun Hij Hi Hj. destruct (start_run True _ now calls moves s Hm) as [Hinv' _]; [done..|].
  destruct (inv_returned _ _ _ Hinv') as [_ Ho]. destruct (Ho I) as [Hs _].
  eexists. apply subscription_delta_Some. split; [|reflexivity].
  by eapply (StronglySorted_lookup _ _ i j).
Qed.

(** C13: in a snapshot, the source and the receive time of the last packet
    belong together: both are those that the subscription started with, or
    they are the source of one packet that a thread received and the time at
    which it recorded that packet. *)
Theorem last_packet_is_not_torn m now calls moves s e :
  in_u64 m → run moves (start m now calls) = Some s → e ∈ snapshots (shared s) →
  (ss_last_source e = sm_last_source m ∧ ss_last_receive_at e = sm_last_receive_at m) ∨
  ∃ p t, (p, t) ∈ stamps (shared s) ∧ Receives p ∈ concat calls ∧
    ss_last_source e = Some (pk_source p) ∧ ss_last_receive_at e = Some t.
Proof.
  intros Hm Hrun He. destruct (start_run False _ now calls moves s Hm) as [Hinv' _]; [done..|].
  destruct (proj1 (inv_returned _ _ _ Hinv') e He) as [?|(p & t & Hin & ?)]; [by left|right].
  exists p, t. split; [done|]. split; [|done].
  apply (stamps_received _ _ _ _ _ Hrun) in Hin as [?%not_elem_of_nil|Hin]; [done|].
  rewrite start_todo in Hin. by apply code_stamps.
Qed.

(** ** Runs of two and three threads *)

Definition len_packet (source : SocketAddr) (n : nat) : Packet :=
  mkPacket 0 source (V4 sample_group) 5000 (replicate n Byte.x00).
Definition other_source : SocketAddr := SockV4 (v4 10 0 0 9) 4000.
Definition short_packet : Packet := len_packet sample_source 1.
Definition long_packet : Packet := len_packet other_source 1200.

Definition fresh_subscription : Subscription := with_socket 0 sample_config (sample_socket 4).

Lemma fresh_in_u64 : in_u64 (sub_metrics fresh_subscription).
Proof. intros []; vm_compute; by split. Qed.

(** Two threads receive, a third takes two snapshots meanwhile. *)
Definition busy_calls : list (list SharedCall) :=
  [[Receives short_packet; Blocks]; [Receives long_packet]; [TakesSnapshot; TakesSnapshot]].
Definition busy_moves : list Move :=
  [Go 2; Go 0; Go 1] ++ replicate 5 (Go 0) ++ [Tick 7%Z; Go 0; Go 1] ++ replicate 10 (Go 2) ++
  replicate 5 (Go 1) ++ [Go 0; Tick 9%Z] ++ replicate 11 (Go 2).

Definition busy_start : System := start (sub_metrics fresh_subscription) 5%Z busy_calls.

Example no_recording_is_lost_witness :
  ∃ s m' w', run busy_moves busy_start = Some s ∧ finished s ∧
    call_ops (concat busy_calls) (fresh_subscription, 0) =
      (Ok (), (set_sub_metrics (λ _, m') fresh_subscription, w')) ∧
    (∀ k, sm_get k (metrics (shared s)) = sm_get k m') ∧ sm_bytes_received m' = 1201%Z.
Proof.
  destruct (run busy_moves busy_start) as [s|] eqn:Hs; [|by vm_compute in Hs].
  destruct (no_recording_is_lost fresh_subscription 0 5%Z busy_calls busy_moves s fresh_in_u64 Hs)
    as (_ & _ & Hlost).
  assert (finished s) as Hfin.
  { vm_compute in Hs. injection Hs as <-. by repeat constructor. }
  destruct (Hlost Hfin) as (m' & w' & Hc & Hk). exists s, m', w'. split_and!; [done..|].
  assert (sm_get BytesReceived (metrics (shared s)) = 1201%Z) as Hb.
  { vm_compute in Hs. by injection Hs as <-. }
  by rewrite Hk in Hb.
Defined.

Lemma busy_calls_fit k : (sm_get k (sub_metrics fresh_subscription) + pending k (concat busy_calls ≫= code) ≤ u64_max)%Z.
Proof. destruct k; vm_compute; discriminate. Qed.

Example snapshots_never_go_back_witness :
  ∃ s earlier self, run busy_moves busy_start = Some s ∧ snapshots (shared s) = [earlier; self] ∧
    is_Some (subscription_delta_since self earlier).
Proof.
  destruct (run busy_moves busy_start) as [s|] eqn:Hs; [|by vm_compute in Hs].
  assert (∃ earlier self, snapshots (shared s) = [earlier; self]) as (earlier & self & Hsn).
  { vm_compute in Hs. injection Hs as <-. by do 2 eexists. }
  exists s, earlier, self. split_and!; [done..|].
  apply (snapshots_never_go_back (sub_metrics fresh_subscription) 5%Z busy_calls busy_moves s 0 1 earlier self);
    [exact fresh_in_u64|exact busy_calls_fit|reflexivity|exact Hs|lia|by rewrite Hsn..].
Defined.

Example last_packet_is_not_torn_witness :
  ∃ s e, run busy_moves busy_start = Some s ∧ e ∈ snapshots (shared s) ∧ ss_last_source e = Some other_source ∧
    ∃ p t, (p, t) ∈ stamps (shared s) ∧ Receives p ∈ concat busy_calls ∧
      ss_last_source e = Some (pk_source p) ∧ ss_last_receive_at e = Some t.
Proof.
  destruct (run busy_moves busy_start) as [s|] eqn:Hs; [|by vm_compute in Hs].
  assert (∃ e, e ∈ snapshots (shared s) ∧ ss_last_source e = Some other_source) as (e & Hin & Hsrc).
  { vm_compute in Hs. injection Hs as <-. eexists. split; [right; by left|reflexivity]. }
  exists s, e. split_and!; [done..|].
  destruct (last_packet_is_not_torn (sub_metrics fresh_subscription) 5%Z busy_calls busy_moves s e fresh_in_u64 Hs Hin)
    as [[Hfresh _]|Hp]; [|exact Hp]. by rewrite Hsrc in Hfresh.
Defined.

(** [last_payload_len] is outside the mutex: two threads receive a packet each,
    both have returned, and a snapshot taken afterwards shows the length of one
    packet with the source of the other. *)
Theorem last_length_may_be_of_another_packet :
  ∃ moves s e,
    run moves (start (sub_metrics fresh_subscription) 5%Z [[Receives short_packet]; [Receives long_packet]; [TakesSnapshot]]) = Some s ∧
    finished s ∧ snapshots (shared s) = [e] ∧
    ss_last_source e = Some (pk_source short_packet) ∧
    ss_last_payload_len e = Some (Z.of_nat (payload_len long_packet)) ∧
    payload_len short_packet ≠ payload_len long_packet.
Proof.
  exists (replicate 3 (Go 0) ++ replicate 7 (Go 1) ++ replicate 4 (Go 0) ++ replicate 11 (Go 2)).
  do 2 eexists. split; [vm_compute; reflexivity|]. split; [by repeat constructor|].
  split_and!; [reflexivity..|vm_compute; discriminate].
Qed.
