(* ===== verification/Context.v ===== *)
(** * The UDP context ([src/src/context.rs])

    The set of subscriptions with its round-robin cursor and its counters. A
    method that receives into an [out] vector is an operation on the context,
    the world and the vector, so that what was pushed before an error stays
    visible. *)

From S2P Require Import Prelude Net Errors Config Packet Metrics Os SampleOs Platform Subscription.

(** [ContextMetricsInner]. *)
Record ContextMetricsInner := mkCtxMetrics {
  cm_subscriptions_added : Z;
  cm_subscriptions_removed : Z;
  cm_total_packets_received : Z;
  cm_total_bytes_received : Z;
  cm_total_would_block_count : Z;
  cm_total_receive_errors : Z;
  cm_total_join_count : Z;
  cm_total_leave_count : Z;
  cm_batch_calls : Z;
  cm_batch_packets_received : Z }.

Definition ContextMetricsInner_default : ContextMetricsInner :=
  mkCtxMetrics 0 0 0 0 0 0 0 0 0 0.

Definition MAX_DRAIN_PACKETS_PER_CALL : nat := 4096.

(** [self.metrics.<counter>.fetch_add(n)]: the other counters stay. *)
Inductive CtxCounter :=
  | SubscriptionsAdded
  | SubscriptionsRemoved
  | TotalPacketsReceived
  | TotalBytesReceived
  | TotalWouldBlockCount
  | TotalReceiveErrors
  | TotalJoinCount
  | TotalLeaveCount
  | BatchCalls
  | BatchPacketsReceived.

Definition bump (k : CtxCounter) (n : Z) (m : ContextMetricsInner) : ContextMetricsInner :=
  match m with
  | mkCtxMetrics a0 a1 a2 a3 a4 a5 a6 a7 a8 a9 =>
      match k with
      | SubscriptionsAdded => mkCtxMetrics (fetch_add a0 n) a1 a2 a3 a4 a5 a6 a7 a8 a9
      | SubscriptionsRemoved => mkCtxMetrics a0 (fetch_add a1 n) a2 a3 a4 a5 a6 a7 a8 a9
      | TotalPacketsReceived => mkCtxMetrics a0 a1 (fetch_add a2 n) a3 a4 a5 a6 a7 a8 a9
      | TotalBytesReceived => mkCtxMetrics a0 a1 a2 (fetch_add a3 n) a4 a5 a6 a7 a8 a9
      | TotalWouldBlockCount => mkCtxMetrics a0 a1 a2 a3 (fetch_add a4 n) a5 a6 a7 a8 a9
      | TotalReceiveErrors => mkCtxMetrics a0 a1 a2 a3 a4 (fetch_add a5 n) a6 a7 a8 a9
      | TotalJoinCount => mkCtxMetrics a0 a1 a2 a3 a4 a5 (fetch_add a6 n) a7 a8 a9
      | TotalLeaveCount => mkCtxMetrics a0 a1 a2 a3 a4 a5 a6 (fetch_add a7 n) a8 a9
      | BatchCalls => mkCtxMetrics a0 a1 a2 a3 a4 a5 a6 a7 (fetch_add a8 n) a9
      | BatchPacketsReceived => mkCtxMetrics a0 a1 a2 a3 a4 a5 a6 a7 a8 (fetch_add a9 n)
      end
  end.

(** [SubscriptionId(self.next_subscription_id); self.next_subscription_id += 1]
    on a [u64]: an overflow panics with overflow checks and wraps without. *)
Definition next_id `{Os} (id : Z) : Result Z :=
  match checked_add u64_max id 1 with
  | Some id => Ok id
  | None => if overflow_checks then Panic else Ok (wrap64 (id + 1))
  end.

Section context.
Context `{Os}.

Record Context := mkContext {
  subscriptions : list Subscription;
  next_subscription_id : Z;
  next_recv_index : nat;
  ctx_metrics : ContextMetricsInner }.

Abbreviation Act A := (Op (Context * World) A).

Definition set_subscriptions (l : list Subscription) (c : Context) : Context :=
  mkContext l (next_subscription_id c) (next_recv_index c) (ctx_metrics c).
Definition set_next_recv_index (i : nat) (c : Context) : Context :=
  mkContext (subscriptions c) (next_subscription_id c) i (ctx_metrics c).
Definition set_ctx_metrics (f : ContextMetricsInner → ContextMetricsInner) (c : Context) : Context :=
  mkContext (subscriptions c) (next_subscription_id c) (next_recv_index c) (f (ctx_metrics c)).

(** ** Counters *)

Definition bump_counter (k : CtxCounter) (n : Z) : Act unit :=
  on_fst (mmodify (set_ctx_metrics (bump k n))).

Definition record_received_packet (payload_len : nat) : Act unit :=
  bump_counter TotalPacketsReceived 1 ;;* bump_counter TotalBytesReceived (Z.of_nat payload_len).
Definition record_would_block : Act unit :=
  bump_counter TotalWouldBlockCount 1.
Definition record_receive_error : Act unit :=
  bump_counter TotalReceiveErrors 1.
Definition record_batch_call : Act unit :=
  bump_counter BatchCalls 1.
Definition record_batch_packets_received (packet_count : nat) : Act unit :=
  bump_counter BatchPacketsReceived (Z.of_nat packet_count).

(** ** Queries *)

Definition Context_new : Context := mkContext [] 1 0 ContextMetricsInner_default.
Definition subscription_count (c : Context) : nat := length (subscriptions c).
Definition has_id (id : SubscriptionId) (s : Subscription) : bool := bool_decide (sub_id s = id)%Z.
Definition contains_subscription (c : Context) (id : SubscriptionId) : bool :=
  existsb (has_id id) (subscriptions c).
Definition position_of (c : Context) (id : SubscriptionId) : option nat :=
  position (has_id id) (subscriptions c).
Definition get_subscription (c : Context) (id : SubscriptionId) : option Subscription :=
  i ← position_of c id; subscriptions c !! i.

Definition context_metrics_snapshot (c : Context) : Op World ContextMetricsSnapshot :=
  let m := ctx_metrics c in
  let joined := length (filter (λ s, sub_is_joined s = true) (subscriptions c)) in
  let* now := call system_time_now in
  mpure (mkCtxSnapshot (cm_subscriptions_added m) (cm_subscriptions_removed m)
    (Z.of_nat (length (subscriptions c))) (Z.of_nat joined)
    (cm_total_packets_received m) (cm_total_bytes_received m) (cm_total_would_block_count m)
    (cm_total_receive_errors m) (cm_total_join_count m) (cm_total_leave_count m)
    (cm_batch_calls m) (cm_batch_packets_received m) now).

(** ** Adding and removing *)

Definition ensure_subscription_config_is_unique (c : Context) (config : SubscriptionConfig)
    : Result unit :=
  guard (existsb (λ s, bool_decide (sub_config s = config)) (subscriptions c))
        DuplicateSubscription.

Definition insert_subscription (config : SubscriptionConfig) (rs : ReceiveSocket)
    : Act SubscriptionId :=
  let* st := mget in
  let id := next_subscription_id st.1 in
  let* next := mlift (next_id id) in
  on_fst (mmodify (λ c, mkContext (subscriptions c ++ [from_receive_socket id config rs])
                          next (next_recv_index c) (ctx_metrics c))) ;;*
  bump_counter SubscriptionsAdded 1 ;;*
  mpure id.

Definition add_subscription (config : SubscriptionConfig) : Act SubscriptionId :=
  mlift (SubscriptionConfig.validate config) ;;*
  let* st := mget in
  mlift (ensure_subscription_config_is_unique st.1 config) ;;*
  let* rs := on_snd (open_bound_socket config) in
  insert_subscription config rs.

Definition add_subscription_with_socket (config : SubscriptionConfig) (s : Socket)
    : Act SubscriptionId :=
  mlift (SubscriptionConfig.validate config) ;;*
  let* st := mget in
  mlift (ensure_subscription_config_is_unique st.1 config) ;;*
  let* rs := on_snd (prepare_existing_socket s config) in
  insert_subscription config rs.

Definition finish_subscription_removal (index : nat) : Act Subscription :=
  let* st := mget in
  match swap_remove index (subscriptions st.1) with
  | None => mpanic
  | Some (removed, rest) =>
      on_fst (mmodify (set_subscriptions rest)) ;;*
      on_fst (mmodify (λ c, set_next_recv_index
        (if bool_decide (rest = []) then 0 else next_recv_index c `mod` length rest) c)) ;;*
      bump_counter SubscriptionsRemoved 1 ;;*
      mpure removed
  end.

Definition take_subscription (id : SubscriptionId) : Act (option Subscription) :=
  let* st := mget in
  match position_of st.1 id with
  | None => mpure None
  | Some index => mmap Some (finish_subscription_removal index)
  end.

Definition remove_subscription (id : SubscriptionId) : Act bool :=
  mmap (λ o, bool_decide (is_Some o)) (take_subscription id).

(** ** Joining and leaving *)

Definition update_subscription (i : nat) (s : Subscription) : Act unit :=
  on_fst (mmodify (λ c, set_subscriptions (<[i := s]> (subscriptions c)) c)).

(** A [&mut Subscription] method called on the subscription at an index. *)
Definition with_subscription_mut {A : Type} (i : nat)
    (f : Subscription → Result A * Subscription) : Act A :=
  let* st := mget in
  match subscriptions st.1 !! i with
  | None => mpanic
  | Some s => let '(r, s') := f s in update_subscription i s' ;;* mlift r
  end.

Definition join_subscription (id : SubscriptionId) : Act unit :=
  let* st := mget in
  match position_of st.1 id with
  | None => mthrow SubscriptionNotFound
  | Some i =>
      let* s := mlift (expect (subscriptions st.1 !! i)) in
      mlift (guard (sub_is_joined s) SubscriptionAlreadyJoined) ;;*
      on_snd (join_multicast_group (sub_raw_socket s) (sub_config s)) ;;*
      with_subscription_mut i mark_joined ;;*
      bump_counter TotalJoinCount 1
  end.

Definition leave_subscription (id : SubscriptionId) : Act unit :=
  let* st := mget in
  match position_of st.1 id with
  | None => mthrow SubscriptionNotFound
  | Some i =>
      let* s := mlift (expect (subscriptions st.1 !! i)) in
      mlift (guard (negb (sub_is_joined s)) SubscriptionNotJoined) ;;*
      on_snd (leave_multicast_group (sub_raw_socket s) (sub_config s)) ;;*
      with_subscription_mut i mark_bound ;;*
      bump_counter TotalLeaveCount 1
  end.

(** ** Receiving *)

(** A [&self] method of the subscription at an index. *)
Definition on_subscription {A : Type} (i : nat) (m : Op (Subscription * World) A) : Act A := λ st,
  match subscriptions st.1 !! i with
  | None => (Panic, st)
  | Some s =>
      let '(r, (s', w')) := m (s, st.2) in
      (r, (set_subscriptions (<[i := s']> (subscriptions st.1)) st.1, w'))
  end.

(** [index += 1; if index == subscription_count { index = 0 }]. *)
Definition advance (count index : nat) : nat :=
  if bool_decide (S index = count) then 0 else S index.

Section try_recv_from_joined.
Context {T : Type} (recv : Op (Subscription * World) (option T)) (packet_len : T → nat).

Fixpoint recv_scan (n count index : nat) : Act (option T) :=
  match n with
  | O => mpure None
  | S n =>
      let* st := mget in
      let* s := mlift (expect (subscriptions st.1 !! index)) in
      if negb (sub_is_joined s) then recv_scan n count (advance count index)
      else
        let* r := mcatch (on_subscription index recv) in
        match r with
        | inl (Some packet) =>
            on_fst (mmodify (set_next_recv_index (S index `mod` count))) ;;*
            record_received_packet (packet_len packet) ;;*
            mpure (Some packet)
        | inl None => record_would_block ;;* recv_scan n count (advance count index)
        | inr err => record_receive_error ;;* mthrow err
        end
  end.

Definition try_recv_from_joined : Act (option T) :=
  let* st := mget in
  let count := subscription_count st.1 in
  if bool_decide (count = 0) then mpure None
  else recv_scan count count (next_recv_index st.1).
End try_recv_from_joined.

Definition try_recv_any : Act (option Packet) := try_recv_from_joined try_recv payload_len.
Definition try_recv_any_with_metadata : Act (option PacketWithMetadata) :=
  try_recv_from_joined try_recv_with_metadata (λ p, payload_len (pm_packet p)).

(** [try_recv_batch_into_impl] and its metadata twin. *)
Section batch.
Context {T : Type} (recv_any : Act (option T)).

Fixpoint batch_loop (n received : nat) : Op (Context * World * list T) nat :=
  match n with
  | O => mpure received
  | S n =>
      let* packet := on_fst recv_any in
      match packet with
      | Some packet =>
          on_snd (mmodify (λ out, out ++ [packet])) ;;* batch_loop n (S received)
      | None => mpure received
      end
  end.

Definition batch_into_impl (max_packets : nat) : Op (Context * World * list T) nat :=
  let* received := batch_loop max_packets 0 in
  on_fst (record_batch_packets_received received) ;;*
  mpure received.

Definition batch_into (max_packets : nat) : Op (Context * World * list T) nat :=
  on_fst record_batch_call ;;* batch_into_impl max_packets.
End batch.

Definition try_recv_batch_into (max_packets : nat) : Op (Context * World * list Packet) nat :=
  batch_into try_recv_any max_packets.
Definition try_recv_batch_with_metadata_into (max_packets : nat)
    : Op (Context * World * list PacketWithMetadata) nat :=
  batch_into try_recv_any_with_metadata max_packets.
Definition try_recv_all_into : Op (Context * World * list Packet) nat :=
  batch_into try_recv_any MAX_DRAIN_PACKETS_PER_CALL.
Definition try_recv_all_with_metadata_into : Op (Context * World * list PacketWithMetadata) nat :=
  batch_into try_recv_any_with_metadata MAX_DRAIN_PACKETS_PER_CALL.

(** ** Invariant *)

Record ctx_inv (c : Context) : Prop := {
  inv_ids : NoDup (sub_id <$> subscriptions c);
  inv_ids_issued : Forall (λ s, 1 ≤ sub_id s < next_subscription_id c)%Z (subscriptions c);
  inv_configs : NoDup (sub_config <$> subscriptions c);
  inv_valid : Forall (λ s, SubscriptionConfig.validate (sub_config s) = Ok ()) (subscriptions c);
  inv_cursor : next_recv_index c = 0 ∨ next_recv_index c < length (subscriptions c);
  inv_next : (1 ≤ next_subscription_id c)%Z }.

(** Operations that return, keep an assertion on the context, and are run
    where it holds. *)
Definition safe {A : Type} (I : Context → Prop) (m : Act A) : Prop :=
  ∀ st, I st.1 → returns (m st).1 ∧ I (m st).2.1.

Lemma safe_then {A B : Type} I (m : Act A) (k : A → Act B) :
  safe I m → (∀ a, safe I (k a)) → safe I (mthen m k).
Proof.
  intros Hm Hk st Hst. destruct (Hm st Hst) as [Hr Hi]. unfold mthen.
  destruct (m st) as [[a|e| |] st']; simpl in *; [by apply Hk|done..].
Qed.
Lemma safe_mget {A : Type} I (k : Context * World → Act A) :
  (∀ st, I st.1 → returns (k st st).1 ∧ I (k st st).2.1) → safe I (mthen mget k).
Proof. intros Hk st Hst. by apply Hk. Qed.
Lemma safe_mpure {A : Type} I (a : A) : safe I (mpure a).
Proof. by intros st. Qed.
Lemma safe_mthrow {A : Type} I e : safe I (mthrow e : Act A).
Proof. by intros st. Qed.
Lemma safe_mlift {A : Type} I (r : Result A) : returns r → safe I (mlift r).
Proof. by intros ? st. Qed.
Lemma safe_on_snd {A : Type} I (m : Op World A) : total m → safe I (on_snd m).
Proof. intros Hm [c w] HI. unfold on_snd. simpl in *. specialize (Hm w). by destruct (m w). Qed.
Lemma safe_mcatch {A : Type} I (m : Act A) : safe I m → safe I (mcatch (E := McrxError) m).
Proof.
  intros Hm st Hst. destruct (Hm st Hst) as [Hr Hi]. unfold mcatch.
  by destruct (m st) as [[a|e| |] st'].
Qed.

(** Assertions that do not look at the counters. *)
Definition counter_blind (I : Context → Prop) : Prop := ∀ c f, I c → I (set_ctx_metrics f c).
Lemma safe_bump I k n : counter_blind I → safe I (bump_counter k n).
Proof. intros HI st Hst. split; [done|]. by apply HI. Qed.

(** The invariant with the quantities a receive call leaves alone. *)
Definition inv_at (len : nat) (next : Z) (c : Context) : Prop :=
  ctx_inv c ∧ length (subscriptions c) = len ∧ next_subscription_id c = next.

Lemma inv_at_blind len next : counter_blind (inv_at len next).
Proof. intros c f ([] & ? & ?). by repeat split. Qed.

Lemma inv_at_cursor len next c i :
  inv_at len next c → i < len → inv_at len next (set_next_recv_index i c).
Proof. intros ([] & ? & ?) Hi. split_and!; [|done..]. split; try done. right. simpl. lia. Qed.

Lemma fmap_insert_same {A B : Type} (f : A → B) (l : list A) i x y :
  l !! i = Some x → f y = f x → f <$> <[i := y]> l = f <$> l.
Proof.
  intros Hl Hf. rewrite list_fmap_insert, Hf. apply list_insert_id.
  by rewrite list_lookup_fmap, Hl.
Qed.

Lemma inv_at_insert len next c i s s' :
  inv_at len next c → subscriptions c !! i = Some s →
  sub_id s' = sub_id s → sub_config s' = sub_config s →
  inv_at len next (set_subscriptions (<[i := s']> (subscriptions c)) c).
Proof.
  intros ([Hids Hiss Hcfg Hval Hcur Hnext] & Hlen & Hn) Hi Hid Hc.
  split_and!; [|by simpl; rewrite length_insert|done].
  split; simpl; rewrite ?length_insert; [by erewrite fmap_insert_same|
    |by erewrite fmap_insert_same| |done|done].
  - apply Forall_insert; [done|]. rewrite Hid. by eapply (Forall_lookup_1 _ _ _ _ Hiss).
  - apply Forall_insert; [done|]. rewrite Hc. by eapply (Forall_lookup_1 _ _ _ _ Hval).
Qed.

(** ** Safety of the receive calls *)

Lemma safe_on_subscription {T : Type} (recv : Op (Subscription * World) (option T)) len next i :
  ReceiveMethod recv → i < len → safe (inv_at len next) (on_subscription i recv).
Proof.
  intros Hrecv Hi [c w] HI. unfold on_subscription. simpl in *.
  destruct (lookup_lt_is_Some_2 (subscriptions c) i) as [s Hs]; [destruct HI as (_&?&_); lia|].
  rewrite Hs. pose proof (receive_total (s, w)) as Htot.
  destruct (receive_identity s w) as (Hid & Hcfg & _).
  destruct (recv (s, w)) as [r [s' w']]. simpl in *. split; [done|].
  by eapply inv_at_insert.
Qed.

Lemma safe_lookup {A : Type} len next i (k : Subscription → Act A) :
  i < len → (∀ s, safe (inv_at len next) (k s)) →
  safe (inv_at len next)
    (let* st := mget in let* s := mlift (expect (subscriptions st.1 !! i)) in k s).
Proof.
  intros Hi Hk. apply safe_mget. intros st HI.
  destruct (lookup_lt_is_Some_2 (subscriptions st.1) i) as [s Hs]; [destruct HI as (_&?&_); lia|].
  rewrite Hs. by apply Hk.
Qed.

Lemma advance_lt count index : 0 < count → index < count → advance count index < count.
Proof. intros. unfold advance. case_bool_decide; lia. Qed.

Lemma safe_recv_scan {T : Type} (recv : Op (Subscription * World) (option T)) packet_len len next n index :
  ReceiveMethod recv → index < len →
  safe (inv_at len next) (recv_scan recv packet_len n len index).
Proof.
  intros Hrecv. revert index. induction n as [|n IH]; intros index Hi; simpl; [apply safe_mpure|].
  apply safe_lookup; [done|]. intros sub.
  assert (Hadv : advance len index < len) by (apply advance_lt; lia).
  destruct (negb (sub_is_joined sub)); [by apply IH|].
  apply safe_then; [by apply safe_mcatch, safe_on_subscription|].
  intros [[packet|]|err].
  - apply safe_then; [|intros _; apply safe_then; [|intros _; apply safe_mpure]].
    + intros st HI. split; [done|]. apply inv_at_cursor; [done|]. apply Nat.mod_upper_bound. lia.
    + apply safe_then; [|intros _]; apply safe_bump, inv_at_blind.
  - apply safe_then; [apply safe_bump, inv_at_blind|intros _; by apply IH].
  - apply safe_then; [apply safe_bump, inv_at_blind|intros _; apply safe_mthrow].
Qed.

Lemma safe_try_recv_from_joined {T : Type} (recv : Op (Subscription * World) (option T)) packet_len len next :
  ReceiveMethod recv → safe (inv_at len next) (try_recv_from_joined recv packet_len).
Proof.
  intros Hrecv. apply safe_mget. intros st HI. unfold subscription_count.
  pose proof HI as (Hinv & Hlen & _). rewrite Hlen.
  case_bool_decide; [done|].
  apply safe_recv_scan; [done| |done]. destruct (inv_cursor _ Hinv); lia.
Qed.

(** A batch call with its [out] vector, seen as an operation on the context. *)
Definition with_out {T : Type} (m : Op (Context * World * list T) nat) : Act nat := λ st,
  let '(r, (st', _)) := m (st, []) in (r, st').

Lemma batch_loop_S {T : Type} (recv_any : Act (option T)) n received st out :
  batch_loop recv_any (S n) received (st, out) =
    match recv_any st with
    | (Ok (Some p), st') => batch_loop recv_any n (S received) (st', out ++ [p])
    | (Ok None, st') => (Ok received, (st', out))
    | (Err e, st') => (Err e, (st', out))
    | (Panic, st') => (Panic, (st', out))
    | (OutOfFuel, st') => (OutOfFuel, (st', out))
    end.
Proof.
  cbn [batch_loop]. unfold mthen at 1, on_fst. simpl.
  by destruct (recv_any st) as [[[p|]|e| |] st'].
Qed.

Lemma safe_batch_loop {T : Type} (I : Context → Prop) (recv_any : Act (option T)) n received st out :
  safe I recv_any → I st.1 →
  returns (batch_loop recv_any n received (st, out)).1 ∧
  I (batch_loop recv_any n received (st, out)).2.1.1.
Proof.
  intros Hr. revert received st out. induction n as [|n IH]; intros received st out HI; [done|].
  destruct (Hr st HI) as [Hret HI']. rewrite batch_loop_S.
  destruct (recv_any st) as [[[p|]|e| |] st']; simpl in *; try done. by apply IH.
Qed.

Lemma safe_batch_into {T : Type} I (recv_any : Act (option T)) n :
  counter_blind I → safe I recv_any → safe I (with_out (batch_into recv_any n)).
Proof.
  intros Hb Hr [c w] HI.
  pose proof (safe_batch_loop I recv_any n 0 (set_ctx_metrics (bump BatchCalls 1) c, w) [] Hr)
    as Hl. simpl in Hl. destruct Hl as [Hret HI']; [by apply Hb|].
  unfold with_out, batch_into, batch_into_impl, record_batch_call, record_batch_packets_received,
    bump_counter, mthen, on_fst, mmodify, mpure. simpl.
  destruct (batch_loop recv_any n 0 (set_ctx_metrics (bump BatchCalls 1) c, w, []))
    as [[k|e| |] [[c' w'] out]]; simpl in *; try done. split; [done|]. by apply Hb.
Qed.

(** ** Safety of the lifecycle calls *)

Lemma position_of_lookup c id i :
  position_of c id = Some i → ∃ s, subscriptions c !! i = Some s ∧ sub_id s = id.
Proof.
  intros (s & Hs & Hid & _)%position_Some. exists s. split; [done|].
  by apply bool_decide_eq_true in Hid.
Qed.

Lemma safe_with_subscription_mut len next i s (f : Subscription → Result unit * Subscription) c w :
  inv_at len next c → subscriptions c !! i = Some s →
  returns (f s).1 → sub_id (f s).2 = sub_id s → sub_config (f s).2 = sub_config s →
  returns (with_subscription_mut i f (c, w)).1 ∧
  inv_at len next (with_subscription_mut i f (c, w)).2.1.
Proof.
  intros HI Hs Hr Hid Hc. unfold with_subscription_mut, mthen at 1 3, mget. simpl. rewrite Hs.
  destruct (f s) as [r s']. split; [done|]. simpl. by eapply inv_at_insert.
Qed.

Lemma mark_joined_facts s :
  returns (mark_joined s).1 ∧ sub_id (mark_joined s).2 = sub_id s ∧
  sub_config (mark_joined s).2 = sub_config s.
Proof. unfold mark_joined. by case_bool_decide. Qed.
Lemma mark_bound_facts s :
  returns (mark_bound s).1 ∧ sub_id (mark_bound s).2 = sub_id s ∧
  sub_config (mark_bound s).2 = sub_config s.
Proof. unfold mark_bound. by case_bool_decide. Qed.

(** The shape that joining and leaving share. *)
Lemma safe_transition len next id (refuse : Subscription → bool) e
    (kernel : Subscription → Op World unit) (mark : Subscription → Result unit * Subscription) k :
  (∀ s, total (kernel s)) →
  (∀ s, returns (mark s).1 ∧ sub_id (mark s).2 = sub_id s ∧ sub_config (mark s).2 = sub_config s) →
  safe (inv_at len next)
    (let* st := mget in
     match position_of st.1 id with
     | None => mthrow SubscriptionNotFound
     | Some i =>
         let* s := mlift (expect (subscriptions st.1 !! i)) in
         mlift (guard (refuse s) e) ;;*
         on_snd (kernel s) ;;*
         with_subscription_mut i mark ;;*
         bump_counter k 1
     end).
Proof.
  intros Hk Hm. apply safe_mget. intros [c w] HI.
  destruct (position_of _ id) as [i|] eqn:Hpos; [|done].
  destruct (position_of_lookup _ _ _ Hpos) as (s & Hs & _). simpl in *. rewrite Hs.
  unfold guard, mlift, mthen, on_snd. simpl. destruct (refuse s); simpl; [done|].
  pose proof (Hk s w) as Hkw. destruct (kernel s w) as [[[]|e'| |] w']; simpl in *; try done.
  destruct (Hm s) as (Hr & Hid & Hc).
  destruct (safe_with_subscription_mut len next i s mark c w' HI Hs Hr Hid Hc) as [Hr' HI'].
  destruct (with_subscription_mut i mark (c, w')) as [[[]|e'| |] [c' w'']]; simpl in *; try done.
  split; [done|]. by apply inv_at_blind.
Qed.

Lemma total_membership_request cfg :
  OsLaws → total (membership_request cfg).
Proof.
  intros Hu. pose proof (@total_io _). pose proof (total_resolve_ipv6_interface cfg Hu).
  unfold membership_request, ipv4_membership, ipv6_membership, resolve_ipv4_source_interface_address,
    resolve_default_ipv4_interface. auto 20 with total.
Qed.

Lemma total_join_multicast_group s cfg :
  OsLaws → total (join_multicast_group s cfg).
Proof.
  intros Hu w. rewrite join_as_request. revert w.
  apply total_then; [by apply total_membership_request|]. intros []; apply total_io.
Qed.
Lemma total_leave_multicast_group s cfg :
  OsLaws → total (leave_multicast_group s cfg).
Proof.
  intros Hu w. rewrite leave_as_request. revert w.
  apply total_then; [by apply total_membership_request|]. intros []; apply total_io.
Qed.

Lemma safe_join len next id : OsLaws → safe (inv_at len next) (join_subscription id).
Proof.
  intros Hu. apply (safe_transition len next id sub_is_joined SubscriptionAlreadyJoined
    (λ s, join_multicast_group (sub_raw_socket s) (sub_config s)) mark_joined TotalJoinCount).
  - intros s. by apply total_join_multicast_group.
  - apply mark_joined_facts.
Qed.
Lemma safe_leave len next id : OsLaws → safe (inv_at len next) (leave_subscription id).
Proof.
  intros Hu. apply (safe_transition len next id (λ s, negb (sub_is_joined s)) SubscriptionNotJoined
    (λ s, leave_multicast_group (sub_raw_socket s) (sub_config s)) mark_bound TotalLeaveCount).
  - intros s. by apply total_leave_multicast_group.
  - apply mark_bound_facts.
Qed.

(** The invariant with a bound on the identifiers issued so far. *)
Definition inv_upto (bound : Z) (c : Context) : Prop :=
  ctx_inv c ∧ (next_subscription_id c ≤ bound)%Z.

Lemma safe_upto {A : Type} bound (m : Act A) :
  (∀ len next, safe (inv_at len next) m) → safe (inv_upto bound) m.
Proof.
  intros Hm st [Hi Hb].
  destruct (Hm (length (subscriptions st.1)) (next_subscription_id st.1) st) as [Hr (Hi' & _ & Hn)];
    [done|]. split; [done|]. split; [done|lia].
Qed.

Lemma finish_removal_eq index st removed rest :
  swap_remove index (subscriptions st.1) = Some (removed, rest) →
  finish_subscription_removal index st =
    (Ok removed,
     (mkContext rest (next_subscription_id st.1)
        (if bool_decide (rest = []) then 0 else next_recv_index st.1 `mod` length rest)
        (bump SubscriptionsRemoved 1 (ctx_metrics st.1)), st.2)).
Proof. intros Hsw. unfold finish_subscription_removal, mthen, mget. by rewrite Hsw. Qed.

Lemma inv_after_removal c index removed rest met :
  ctx_inv c → swap_remove index (subscriptions c) = Some (removed, rest) →
  ctx_inv (mkContext rest (next_subscription_id c)
    (if bool_decide (rest = []) then 0 else next_recv_index c `mod` length rest) met).
Proof.
  intros [Hids Hiss Hcfg Hval Hcur Hnext] Hsw%swap_remove_Permutation.
  rewrite Hsw in Hids, Hiss, Hcfg, Hval. simpl in *.
  rewrite NoDup_cons in Hids. rewrite NoDup_cons in Hcfg.
  rewrite Forall_cons in Hiss. rewrite Forall_cons in Hval. destruct_and!.
  split; simpl; try done. case_bool_decide as Hr; [by left|right].
  apply Nat.mod_upper_bound. destruct rest; simpl; [done|lia].
Qed.

Lemma safe_take bound id : safe (inv_upto bound) (take_subscription id).
Proof.
  apply safe_mget. intros st [Hi Hb]. destruct (position_of _ id) as [i|] eqn:Hpos; [|done].
  destruct (position_of_lookup _ _ _ Hpos) as (s & Hs & _).
  destruct (swap_remove_is_Some i (subscriptions st.1)) as [[removed rest] Hsw];
    [by eapply lookup_lt_Some|].
  unfold mmap, mthen. rewrite (finish_removal_eq _ _ _ _ Hsw). simpl. split; [done|].
  split; [by eapply inv_after_removal|done].
Qed.

Lemma safe_mmap {A B : Type} I (f : A → B) (m : Act A) : safe I m → safe I (mmap f m).
Proof. intros. apply safe_then; [done|intros; apply safe_mpure]. Qed.

Lemma existsb_false_not_elem {A B : Type} `{EqDecision B} (f : A → B) (l : list A) y :
  existsb (λ x, bool_decide (f x = y)) l = false → y ∉ f <$> l.
Proof.
  intros Hf (x & -> & Hx)%list_elem_of_fmap. apply not_true_iff_false in Hf. apply Hf.
  apply existsb_exists. exists x. split; [by apply list_elem_of_In|]. by apply bool_decide_eq_true.
Qed.

Lemma inv_after_insert c config rs met :
  ctx_inv c → (next_subscription_id c < u64_max)%Z →
  SubscriptionConfig.validate config = Ok () →
  ensure_subscription_config_is_unique c config = Ok () →
  ctx_inv (mkContext (subscriptions c ++ [from_receive_socket (next_subscription_id c) config rs])
             (next_subscription_id c + 1) (next_recv_index c) met).
Proof.
  intros [Hids Hiss Hcfg Hval Hcur Hnext] Hlt Hv Hu.
  apply guard_Ok, existsb_false_not_elem in Hu.
  split; simpl; rewrite ?fmap_app, ?length_app; simpl; [| | | |lia|lia].
  - apply NoDup_app. split; [done|]. split; [|apply NoDup_singleton].
    intros x (s & -> & Hs)%list_elem_of_fmap ?%list_elem_of_singleton.
    rewrite Forall_forall in Hiss. specialize (Hiss _ Hs). simpl in *. lia.
  - apply Forall_app. split; [|constructor; [simpl; lia|constructor]].
    eapply Forall_impl; [exact Hiss|]. intros s Hs. simpl in *. lia.
  - apply NoDup_app. split; [done|]. split; [|apply NoDup_singleton].
    intros x Hx ->%list_elem_of_singleton. done.
  - apply Forall_app. split; [done|]. by constructor.
Qed.

Lemma next_id_small id : (id < u64_max)%Z → next_id id = Ok (id + 1)%Z.
Proof. intros. unfold next_id, checked_add. rewrite bool_decide_true; [done|lia]. Qed.

Lemma safe_add_with bound config (mk : Op World ReceiveSocket) st :
  total mk → inv_upto bound st.1 → (bound < u64_max)%Z →
  let m := mlift (SubscriptionConfig.validate config) ;;*
           let* st := mget in
           mlift (ensure_subscription_config_is_unique st.1 config) ;;*
           let* rs := on_snd mk in
           insert_subscription config rs in
  returns (m st).1 ∧ inv_upto (bound + 1) (m st).2.1.
Proof.
  intros Hmk [Hi Hb] Hlt. cbv zeta. destruct st as [c w]. unfold mthen at 1 6, mlift at 1 3.
  pose proof (returns_validate config) as Hret.
  destruct (SubscriptionConfig.validate config) as [[]|e| |] eqn:Hv; try done;
    [|by split; [|split; [|simpl in *; lia]]].
  unfold mthen, mget, mlift, on_snd. simpl in *.
  destruct (ensure_subscription_config_is_unique c config) as [[]|e| |] eqn:Hu;
    [|by split; [|split; [|simpl in *; lia]]
     |by unfold ensure_subscription_config_is_unique, guard in Hu; case_match ..].
  specialize (Hmk w). destruct (mk w) as [[rs|e| |] w']; simpl in *; try done;
    [|by split; [|split; [|simpl in *; lia]]].
  unfold insert_subscription, mthen, mget, mlift. simpl. rewrite next_id_small by lia. simpl.
  split; [done|]. split; [|simpl; lia]. unfold set_ctx_metrics. simpl.
  apply inv_after_insert; [done|lia|done..].
Qed.

(** ** The calls of a context as a state machine *)

Inductive ContextCall :=
  | CallAdd (config : SubscriptionConfig)
  | CallAddWithSocket (config : SubscriptionConfig) (s : Socket)
  | CallRemove (id : SubscriptionId)
  | CallTake (id : SubscriptionId)
  | CallJoin (id : SubscriptionId)
  | CallLeave (id : SubscriptionId)
  | CallRecvAny
  | CallRecvAnyWithMetadata
  | CallBatch (max_packets : nat)
  | CallBatchWithMetadata (max_packets : nat)
  | CallAll
  | CallAllWithMetadata.

Definition ignore {A : Type} (m : Act A) : Act unit := mmap (λ _, ()) m.

Definition context_call (k : ContextCall) : Act unit :=
  match k with
  | CallAdd config => ignore (add_subscription config)
  | CallAddWithSocket config s => ignore (add_subscription_with_socket config s)
  | CallRemove id => ignore (remove_subscription id)
  | CallTake id => ignore (take_subscription id)
  | CallJoin id => join_subscription id
  | CallLeave id => leave_subscription id
  | CallRecvAny => ignore try_recv_any
  | CallRecvAnyWithMetadata => ignore try_recv_any_with_metadata
  | CallBatch n => ignore (with_out (try_recv_batch_into n))
  | CallBatchWithMetadata n => ignore (with_out (try_recv_batch_with_metadata_into n))
  | CallAll => ignore (with_out try_recv_all_into)
  | CallAllWithMetadata => ignore (with_out try_recv_all_with_metadata_into)
  end.

(** Calls one after the other; a call that unwinds stops the sequence. *)
Fixpoint context_run (l : list ContextCall) (st : Context * World) : Res McrxError unit * (Context * World) :=
  match l with
  | [] => (Ok (), st)
  | k :: l =>
      match context_call k st with
      | (Ok _, st') | (Err _, st') => context_run l st'
      | (Panic, st') => (Panic, st')
      | (OutOfFuel, st') => (OutOfFuel, st')
      end
  end.

Lemma inv_upto_weaken b b' c : (b ≤ b')%Z → inv_upto b c → inv_upto b' c.
Proof. intros ? [? ?]. split; [done|lia]. Qed.

Lemma ignore_at {A : Type} (J : Context → Prop) (m : Act A) st :
  returns (m st).1 ∧ J (m st).2.1 → returns (ignore m st).1 ∧ J (ignore m st).2.1.
Proof. unfold ignore, mmap, mthen. by destruct (m st) as [[] ?]. Qed.

Lemma context_call_safe bound k st :
  OsLaws → (bound < u64_max)%Z → inv_upto bound st.1 →
  returns (context_call k st).1 ∧ inv_upto (bound + 1) (context_call k st).2.1.
Proof.
  intros Hu Hb HI.
  assert (Hsafe : ∀ A (m : Act A), safe (inv_upto bound) m →
            returns (ignore m st).1 ∧ inv_upto (bound + 1) (ignore m st).2.1).
  { intros A m Hm. destruct (safe_mmap _ (λ _, ()) m Hm st HI). split; [done|].
    by eapply (inv_upto_weaken bound); [lia|]. }
  pose proof (try_recv_method Hu). pose proof (try_recv_with_metadata_method Hu).
  assert (Hany : ∀ T (recv : Op (Subscription * World) (option T)) pl, ReceiveMethod recv →
            safe (inv_upto bound) (try_recv_from_joined recv pl)).
  { intros. apply safe_upto. intros. by apply safe_try_recv_from_joined. }
  assert (Hblind : counter_blind (inv_upto bound)).
  { intros c f [[] ?]. by repeat split. }
  destruct k; simpl.
  - apply ignore_at, (safe_add_with bound config (open_bound_socket config) st); [|done..].
    apply total_open_bound_socket.
  - apply ignore_at, (safe_add_with bound config (prepare_existing_socket s config) st); [|done..].
    apply total_prepare_existing_socket.
  - apply Hsafe. apply safe_mmap, safe_take.
  - apply Hsafe. apply safe_take.
  - destruct (safe_upto bound _ (λ len next, safe_join len next id Hu) st HI) as [? ?].
    split; [done|]. by eapply (inv_upto_weaken bound); [lia|].
  - destruct (safe_upto bound _ (λ len next, safe_leave len next id Hu) st HI) as [? ?].
    split; [done|]. by eapply (inv_upto_weaken bound); [lia|].
  - by apply Hsafe, Hany.
  - by apply Hsafe, Hany.
  - by apply Hsafe, safe_batch_into, Hany.
  - by apply Hsafe, safe_batch_into, Hany.
  - by apply Hsafe, safe_batch_into, Hany.
  - by apply Hsafe, safe_batch_into, Hany.
Qed.

Lemma ctx_inv_new : ctx_inv Context_new.
Proof. split; simpl; try constructor; done. Qed.

(** ** The order of a receive call

    [poll] asks the subscriptions at a list of indices, one after the other,
    and stops at the first packet or error; [rotation] lists every index once,
    starting at the cursor. *)
Section poll.
Context {T : Type} (recv : Op (Subscription * World) (option T)) (packet_len : T → nat).

Fixpoint poll (l : list nat) : Act (option (nat * T)) :=
  match l with
  | [] => mpure None
  | i :: l =>
      let* st := mget in
      let* s := mlift (expect (subscriptions st.1 !! i)) in
      if negb (sub_is_joined s) then poll l
      else
        let* r := mcatch (on_subscription i recv) in
        match r with
        | inl (Some packet) => mpure (Some (i, packet))
        | inl None => record_would_block ;;* poll l
        | inr err => record_receive_error ;;* mthrow err
        end
  end.

(** What a call does with the packet it found. *)
Definition deliver (len : nat) (r : option (nat * T)) : Act (option T) :=
  match r with
  | None => mpure None
  | Some (i, packet) =>
      on_fst (mmodify (set_next_recv_index (S i `mod` len))) ;;*
      record_received_packet (packet_len packet) ;;*
      mpure (Some packet)
  end.

Fixpoint scan_order (n len index : nat) : list nat :=
  match n with O => [] | S n => index :: scan_order n len (advance len index) end.

Lemma recv_scan_poll n len index st :
  recv_scan recv packet_len n len index st =
    (let* r := poll (scan_order n len index) in deliver len r) st.
Proof.
  revert index st. induction n as [|n IH]; intros index st; [done|].
  cbn [recv_scan poll scan_order]. unfold mthen, mget, mlift, mcatch.
  destruct (expect (subscriptions st.1 !! index)) as [s|e| |] eqn:Hs; [|done..].
  destruct (negb (sub_is_joined s)); [apply IH|].
  destruct (on_subscription index recv st) as [[[packet|]|e| |] st'];
    [done| |done..].
  apply IH.
Qed.
End poll.

Definition rotation (len start : nat) : list nat := (λ k, (start + k) `mod` len) <$> seq 0 len.

Lemma advance_mod len index : index < len → advance len index = S index `mod` len.
Proof.
  intros. unfold advance. case_bool_decide as Heq.
  - rewrite Heq, Nat.Div0.mod_same. done.
  - rewrite Nat.mod_small; lia.
Qed.

Lemma scan_order_rotation n len start :
  0 < len → scan_order n len (start `mod` len) = (λ k, (start + k) `mod` len) <$> seq 0 n.
Proof.
  intros Hlen. revert start. induction n as [|n IH]; intros start; [done|].
  cbn [scan_order]. rewrite advance_mod by (by apply Nat.mod_upper_bound; lia).
  assert (S (start `mod` len) `mod` len = S start `mod` len) as ->.
  { rewrite <-(Nat.add_1_r (start `mod` len)), <-(Nat.add_1_r start). apply Nat.Div0.add_mod_idemp_l. }
  rewrite IH. cbn [seq fmap list_fmap]. f_equal; [by rewrite Nat.add_0_r|].
  rewrite <-fmap_S_seq, <-list_fmap_compose. apply list_fmap_ext. intros i k _. simpl. f_equal. lia.
Qed.

(** Contexts whose subscriptions differ at most in their metrics. *)
Definition same_subscriptions (c c' : Context) : Prop :=
  Forall2 same_identity (subscriptions c) (subscriptions c') ∧
  next_recv_index c' = next_recv_index c ∧
  next_subscription_id c' = next_subscription_id c.

#[global] Instance same_subscriptions_preorder : PreOrder same_subscriptions.
Proof.
  unfold same_subscriptions. split.
  - intros c. split_and!; [reflexivity|done..].
  - intros c1 c2 c3 (?&?&?) (?&?&?). split_and!; [by etrans|congruence..].
Qed.

Lemma on_subscription_same {T : Type} (recv : Op (Subscription * World) (option T)) i st :
  ReceiveMethod recv → same_subscriptions st.1 (on_subscription i recv st).2.1.
Proof.
  intros Hr. unfold on_subscription. destruct (subscriptions st.1 !! i) as [s|] eqn:Hs; [|done].
  pose proof (receive_identity s st.2) as Hid. destruct (recv (s, st.2)) as [r [s' w']].
  simpl in *. split_and!; [|done..]. simpl.
  rewrite <-(list_insert_id (subscriptions st.1) i s) at 1 by done.
  apply Forall2_insert; [reflexivity|done].
Qed.

(** A subscription that has a packet whenever it is asked. *)
Definition always_ready {T : Type} (recv : Op (Subscription * World) (option T))
    (tag : T → SubscriptionId) (s : Subscription) : Prop :=
  ∀ s' w, same_identity s s' → ∃ p, (recv (s', w)).1 = Ok (Some p) ∧ tag p = sub_id s.

(** Polling up to a ready subscription ends at it or before it. *)
Lemma poll_until_ready {T : Type} (recv : Op (Subscription * World) (option T)) tag l j l' s st r st' :
  ReceiveMethod recv → subscriptions st.1 !! j = Some s → sub_is_joined s = true →
  always_ready recv tag s → poll recv (l ++ j :: l') st = (Ok r, st') →
  same_subscriptions st.1 st'.1 ∧
  ∃ i p, r = Some (i, p) ∧
    ((∃ k, l !! k = Some i) ∨ (i = j ∧ tag p = sub_id s)).
Proof.
  intros Hm. revert st s. induction l as [|i l IH]; intros st s Hj Hjoin Hready; cbn [app poll].
  - unfold mthen at 1, mget. unfold mthen at 1, mlift. rewrite Hj. simpl. rewrite Hjoin. simpl.
    unfold mthen, mcatch. pose proof (on_subscription_same recv j st Hm) as Hsame.
    destruct (Hready s st.2) as (p & Hp & Htag); [reflexivity|].
    unfold on_subscription in *. rewrite Hj in *.
    destruct (recv (s, st.2)) as [r0 [s0 w0]]. simpl in *. subst r0.
    intros [= <- <-]. split; [done|]. exists j, p. by split; [|right].
  - unfold mthen at 1, mget. unfold mthen at 1, mlift.
    destruct (subscriptions st.1 !! i) as [si|] eqn:Hi; simpl; [|done].
    destruct (sub_is_joined si) eqn:Hji; simpl.
    + unfold mthen at 1, mcatch. pose proof (on_subscription_same recv i st Hm) as Hsame.
      destruct (on_subscription i recv st) as [[[p|]|e| |] st1]; simpl in *; try done.
      * intros [= <- <-]. split; [done|]. exists i, p. split; [done|]. left. by exists 0.
      * unfold record_would_block, bump_counter, mthen, on_fst, mmodify. simpl.
        intros Hp. destruct Hsame as (Hf2 & Hcur & Hn).
        destruct (Forall2_lookup_l _ _ _ _ _ Hf2 Hj) as (s1 & Hs1 & Hid).
        apply (IH _ s1) in Hp.
        -- destruct Hp as (Hsame & i' & p & -> & Hor). split.
           { destruct Hsame as (?&?&?). split_and!; simpl in *; [by etrans|congruence..]. }
           exists i', p. split; [done|]. destruct Hid as (Hid & _).
           destruct Hor as [[k Hk]|[-> Ht]]; [left; by exists (S k)|right; by rewrite <-Hid].
        -- done.
        -- unfold sub_is_joined in *. by destruct Hid as (_ & _ & _ & ->).
        -- intros s' w Hs'. destruct (Hready s' w) as (p & ? & Ht); [by etrans|].
           exists p. split; [done|]. by destruct Hid as (-> & _).
    + intros Hp. apply (IH _ s) in Hp as (? & i' & p & -> & Hor); try done.
      split; [done|]. exists i', p. split; [done|].
      destruct Hor as [[k Hk]|?]; [left; by exists (S k)|by right].
Qed.

Lemma try_recv_as_poll {T : Type} (recv : Op (Subscription * World) (option T)) pl st :
  ctx_inv st.1 →
  try_recv_from_joined recv pl st =
    (let* r := poll recv (rotation (length (subscriptions st.1)) (next_recv_index st.1)) in
     deliver pl (length (subscriptions st.1)) r) st.
Proof.
  intros Hi. unfold try_recv_from_joined, mthen at 1, mget, subscription_count.
  case_bool_decide as Hlen; [by rewrite Hlen|].
  rewrite recv_scan_poll. unfold rotation. rewrite <-scan_order_rotation by lia.
  rewrite (Nat.mod_small (next_recv_index st.1)); [done|].
  destruct (inv_cursor _ Hi); lia.
Qed.

Lemma rotation_lookup len start k :
  k < len → rotation len start !! k = Some ((start + k) `mod` len).
Proof.
  intros Hk. unfold rotation. rewrite list_lookup_fmap, lookup_seq_lt by done. done.
Qed.

Lemma rotation_lookup_inv len start k i :
  rotation len start !! k = Some i → k < len ∧ i = (start + k) `mod` len.
Proof.
  unfold rotation. rewrite list_lookup_fmap. intros (x & [-> Hk]%lookup_seq & ->)%fmap_Some. done.
Qed.

(** Two positions of a window of [len] numbers with the same residue. *)
Lemma mod_window_inj start len a b :
  a < len → b < len → (start + a) `mod` len = (start + b) `mod` len → a = b.
Proof.
  intros Ha Hb Heq.
  pose proof (Nat.div_mod_eq (start + a) len) as H1. pose proof (Nat.div_mod_eq (start + b) len) as H2.
  rewrite <-Heq in H2. set (q1 := (start + a) `div` len) in *. set (q2 := (start + b) `div` len) in *.
  destruct (Nat.lt_trichotomy q1 q2) as [Hq|[Hq|Hq]]; [exfalso|rewrite Hq in *; lia|exfalso].
  - assert (len * S q1 ≤ len * q2) by (apply Nat.mul_le_mono_l; lia). lia.
  - assert (len * S q2 ≤ len * q1) by (apply Nat.mul_le_mono_l; lia). lia.
Qed.

(** Successive receive calls; a failed call does not stop the caller. *)
Fixpoint attempts {T : Type} (m : Act T) (k : nat) (st : Context * World)
    : list (Result T) * (Context * World) :=
  match k with
  | O => ([], st)
  | S k => let '(r, st1) := m st in let '(rs, st2) := attempts m k st1 in (r :: rs, st2)
  end.

Lemma advance_cursor a len b : (S (a `mod` len) `mod` len + b) `mod` len = (S a + b) `mod` len.
Proof.
  rewrite (Nat.Div0.add_mod_idemp_l (S (a `mod` len)) b len).
  rewrite <-(Nat.add_1_r (a `mod` len)), <-(Nat.add_1_r a), <-!Nat.add_assoc.
  apply Nat.Div0.add_mod_idemp_l.
Qed.

(** One successful call serves the ready subscription or brings the cursor
    closer to it. *)
Lemma one_call_progress {T : Type} (recv : Op (Subscription * World) (option T)) pl tag j d s st r st' :
  ReceiveMethod recv → ctx_inv st.1 → subscriptions st.1 !! j = Some s → sub_is_joined s = true →
  always_ready recv tag s → d < length (subscriptions st.1) →
  (next_recv_index st.1 + d) `mod` length (subscriptions st.1) = j →
  try_recv_from_joined recv pl st = (Ok r, st') →
  Forall2 same_identity (subscriptions st.1) (subscriptions st'.1) ∧
  ∃ p, r = Some p ∧
    (tag p = sub_id s ∨
     ∃ d', d' < d ∧ (next_recv_index st'.1 + d') `mod` length (subscriptions st.1) = j).
Proof.
  intros Hm Hi Hj Hjoin Hready Hd Hdj Hcall. rewrite try_recv_as_poll in Hcall by done.
  set (len := length (subscriptions st.1)) in *. set (start := next_recv_index st.1) in *.
  pose proof (rotation_lookup len start d Hd) as Hrot. rewrite Hdj in Hrot.
  rewrite <-(take_drop_middle _ _ _ Hrot) in Hcall.
  unfold mthen at 1 in Hcall.
  destruct (poll recv _ st) as [[r0|e| |] st1] eqn:Hp; try done.
  destruct (poll_until_ready recv tag _ j _ s st r0 st1 Hm Hj Hjoin Hready Hp)
    as ((Hf2 & Hcur & Hn) & i & p & -> & Hor).
  cbn [deliver] in Hcall. unfold mthen, on_fst, mmodify, record_received_packet, bump_counter in Hcall.
  simpl in Hcall. injection Hcall as <- <-. split; [done|]. exists p. split; [done|]. simpl.
  destruct Hor as [[k Hk]|[_ Ht]]; [right|by left].
  apply lookup_take_Some in Hk as [Hk Hkd]. apply rotation_lookup_inv in Hk as [Hklen ->].
  exists (d - k - 1). split; [lia|].
  rewrite <-Hdj. replace (start + d) with (S (start + k) + (d - k - 1)) by lia.
  apply advance_cursor.
Qed.

Lemma attempts_serve {T : Type} (recv : Op (Subscription * World) (option T)) pl tag k j d s st rs st' :
  ReceiveMethod recv → ctx_inv st.1 → subscriptions st.1 !! j = Some s → sub_is_joined s = true →
  always_ready recv tag s → d < k → d < length (subscriptions st.1) →
  (next_recv_index st.1 + d) `mod` length (subscriptions st.1) = j →
  attempts (try_recv_from_joined recv pl) k st = (rs, st') →
  Forall (λ r, ∃ o, r = Ok o) rs →
  ∃ p, Ok (Some p) ∈ rs ∧ tag p = sub_id s.
Proof.
  intros Hm. revert d st s rs. induction k as [|k IH]; intros d st s rs Hi Hj Hjoin Hready Hdk Hd Hdj; [lia|].
  cbn [attempts]. destruct (try_recv_from_joined recv pl st) as [r st1] eqn:Hcall.
  destruct (attempts _ k st1) as [rs' st2] eqn:Hatt. intros [= <- <-] [[o ->] Hall]%Forall_cons.
  destruct (one_call_progress recv pl tag j d s st o st1) as (Hf2 & p & -> & Hor); try done.
  destruct Hor as [Ht|(d' & Hd' & Hdj')]; [exists p; split; [by left|done]|].
  destruct (safe_try_recv_from_joined recv pl (length (subscriptions st.1))
    (next_subscription_id st.1) Hm st) as [_ HI']; [done|]. rewrite Hcall in HI'.
  destruct HI' as (Hi' & Hlen' & _). simpl in *.
  destruct (Forall2_lookup_l _ _ _ _ _ Hf2 Hj) as (s1 & Hs1 & Hid).
  destruct (IH d' st1 s1 rs') as (p' & Hin & Ht); try done.
  - unfold sub_is_joined in *. by destruct Hid as (_ & _ & _ & ->).
  - intros s' w Hs'. destruct (Hready s' w) as (p' & ? & ?); [by etrans|].
    exists p'. split; [done|]. by destruct Hid as (-> & _).
  - lia.
  - rewrite Hlen'. lia.
  - by rewrite Hlen'.
  - exists p'. split; [by right|]. by destruct Hid as (<- & _).
Qed.

(** A subscription whose receive fails whenever it is asked. *)
Definition always_fails {T : Type} (recv : Op (Subscription * World) (option T)) (s : Subscription) : Prop :=
  ∀ s' w, same_identity s s' → ∃ e, (recv (s', w)).1 = Err e.

Lemma one_call_blocked {T : Type} (recv : Op (Subscription * World) (option T)) pl s st :
  ReceiveMethod recv → ctx_inv st.1 → subscriptions st.1 !! next_recv_index st.1 = Some s →
  sub_is_joined s = true → always_fails recv s →
  ∃ e st', try_recv_from_joined recv pl st = (Err e, st') ∧ same_subscriptions st.1 st'.1.
Proof.
  intros Hm Hi Hs Hjoin Hfail. unfold try_recv_from_joined, mthen at 1, mget, subscription_count.
  pose proof (lookup_lt_Some _ _ _ Hs) as Hlt. rewrite bool_decide_false by lia.
  destruct (length (subscriptions st.1)) as [|n] eqn:Hlen; [lia|].
  cbn [recv_scan]. unfold mthen at 1, mget. unfold mthen at 1, mlift. rewrite Hs. simpl.
  rewrite Hjoin. simpl. unfold mthen at 1, mcatch.
  pose proof (on_subscription_same recv (next_recv_index st.1) st Hm) as Hsame.
  destruct (Hfail s st.2) as [e He]; [reflexivity|].
  unfold on_subscription in *. rewrite Hs in *. destruct (recv (s, st.2)) as [r [s' w']].
  simpl in *. subst r. eexists _, _. split; [done|].
  destruct Hsame as (?&?&?). by split_and!.
Qed.

(** ** Outcomes of the lifecycle and batch calls *)

Definition lifecycle (k : ContextCall) : bool :=
  match k with
  | CallAdd _ | CallAddWithSocket _ _ | CallRemove _ | CallTake _ | CallJoin _ | CallLeave _ => true
  | _ => false
  end.

Lemma ignore_Err {A : Type} (m : Act A) st e st' :
  ignore m st = (Err e, st') → m st = (Err e, st').
Proof. unfold ignore, mmap, mthen. by destruct (m st) as [[] ?]; intros [=]; subst. Qed.

Lemma insert_subscription_no_error config rs st : res_err (insert_subscription config rs st).1 = None.
Proof.
  unfold insert_subscription, mthen, mget, mlift, next_id. simpl.
  destruct (checked_add _ _ _); simpl; [done|]. by destruct overflow_checks.
Qed.

Lemma add_with_atomic config (mk : Op World ReceiveSocket) st e st' :
  (mlift (SubscriptionConfig.validate config) ;;*
   let* st := mget in
   mlift (ensure_subscription_config_is_unique st.1 config) ;;*
   let* rs := on_snd mk in
   insert_subscription config rs) st = (Err e, st') → st'.1 = st.1.
Proof.
  unfold mthen at 1, mlift at 1. destruct (SubscriptionConfig.validate config); intros; simplify_eq/=; try done.
  unfold mthen at 1 2, mget, mlift at 1 in H0.
  destruct (ensure_subscription_config_is_unique st.1 config); simplify_eq/=; try done.
  unfold mthen, on_snd in H0. destruct (mk st.2) as [[rs|e'| |] w']; simplify_eq/=; try done.
  pose proof (insert_subscription_no_error config rs (st.1, w')) as Hno.
  by rewrite H0 in Hno.
Qed.

Lemma finish_removal_no_error index st : res_err (finish_subscription_removal index st).1 = None.
Proof.
  unfold finish_subscription_removal, mthen at 1, mget. by destruct (swap_remove _ _) as [[? ?]|].
Qed.

(** What joining and leaving do, by the kernel's answer. *)
Lemma transition_outcome id (refuse : Subscription → bool) e0
    (kernel : Subscription → Op World unit) (mark : Subscription → Result unit * Subscription) k c w :
  (∀ s, refuse s = false → (mark s).1 = Ok ()) →
  let m := let* st := mget in
     match position_of st.1 id with
     | None => mthrow SubscriptionNotFound
     | Some i =>
         let* s := mlift (expect (subscriptions st.1 !! i)) in
         mlift (guard (refuse s) e0) ;;*
         on_snd (kernel s) ;;*
         with_subscription_mut i mark ;;*
         bump_counter k 1
     end in
  match get_subscription c id with
  | None => m (c, w) = (Err SubscriptionNotFound, (c, w))
  | Some s =>
      sub_id s = id ∧
      if refuse s then m (c, w) = (Err e0, (c, w))
      else
        match kernel s w with
        | (Ok _, w') => ∃ i, subscriptions c !! i = Some s ∧
            m (c, w) = (Ok (), (set_ctx_metrics (bump k 1)
                                 (set_subscriptions (<[i := (mark s).2]> (subscriptions c)) c), w'))
        | (Err e, w') => m (c, w) = (Err e, (c, w'))
        | (r, w') => m (c, w) = (r, (c, w'))
        end
  end.
Proof.
  intros Hmark. cbv zeta. unfold get_subscription, mthen, mget, mlift, guard. simpl.
  destruct (position_of c id) as [i|] eqn:Hpos; simpl; [|done].
  destruct (position_of_lookup _ _ _ Hpos) as (s & Hs & Hid). rewrite Hs. split; [done|].
  simpl. destruct (refuse s) eqn:Hr; simpl; [done|].
  unfold on_snd. simpl. destruct (kernel s w) as [[[]|e| |] w']; simpl; try done.
  exists i. split; [done|]. unfold with_subscription_mut, mthen, mget. simpl. rewrite Hs.
  specialize (Hmark s Hr). destruct (mark s) as [r s']. simpl in *. by subst r.
Qed.

Lemma join_outcome id c w :
  match get_subscription c id with
  | None => join_subscription id (c, w) = (Err SubscriptionNotFound, (c, w))
  | Some s =>
      sub_id s = id ∧
      if sub_is_joined s then join_subscription id (c, w) = (Err SubscriptionAlreadyJoined, (c, w))
      else
        match join_multicast_group (sub_raw_socket s) (sub_config s) w with
        | (Ok _, w') => ∃ i, subscriptions c !! i = Some s ∧
            join_subscription id (c, w) =
              (Ok (), (set_ctx_metrics (bump TotalJoinCount 1)
                        (set_subscriptions (<[i := (mark_joined s).2]> (subscriptions c)) c), w'))
        | (Err e, w') => join_subscription id (c, w) = (Err e, (c, w'))
        | (r, w') => join_subscription id (c, w) = (r, (c, w'))
        end
  end.
Proof.
  apply (transition_outcome id sub_is_joined SubscriptionAlreadyJoined
    (λ s, join_multicast_group (sub_raw_socket s) (sub_config s)) mark_joined TotalJoinCount c w).
  intros s Hs. unfold mark_joined. rewrite bool_decide_false; [done|].
  unfold sub_is_joined in Hs. by destruct (sub_state s).
Qed.

Lemma leave_outcome id c w :
  match get_subscription c id with
  | None => leave_subscription id (c, w) = (Err SubscriptionNotFound, (c, w))
  | Some s =>
      sub_id s = id ∧
      if sub_is_joined s then
        match leave_multicast_group (sub_raw_socket s) (sub_config s) w with
        | (Ok _, w') => ∃ i, subscriptions c !! i = Some s ∧
            leave_subscription id (c, w) =
              (Ok (), (set_ctx_metrics (bump TotalLeaveCount 1)
                        (set_subscriptions (<[i := (mark_bound s).2]> (subscriptions c)) c), w'))
        | (Err e, w') => leave_subscription id (c, w) = (Err e, (c, w'))
        | (r, w') => leave_subscription id (c, w) = (r, (c, w'))
        end
      else leave_subscription id (c, w) = (Err SubscriptionNotJoined, (c, w))
  end.
Proof.
  pose proof (transition_outcome id (λ s, negb (sub_is_joined s)) SubscriptionNotJoined
    (λ s, leave_multicast_group (sub_raw_socket s) (sub_config s)) mark_bound TotalLeaveCount c w) as Ht.
  unfold leave_subscription. destruct (get_subscription c id) as [s|]; [|apply Ht].
  - destruct (sub_is_joined s) eqn:Hj; simpl in Ht; apply Ht;
      intros s' Hs'; unfold mark_bound, sub_is_joined in *; by destruct (sub_state s').
  - intros s' Hs'. unfold mark_bound, sub_is_joined in *. by destruct (sub_state s').
Qed.

(** Successive calls that all deliver a packet. *)
Definition delivered {T : Type} (m : Act (option T)) (ps : list T) (st st' : Context * World) : Prop :=
  attempts m (length ps) st = ((λ p, Ok (Some p)) <$> ps, st').

(** How a run of [batch_loop] relates to the calls it makes. *)
Lemma batch_loop_outcome {T : Type} (recv_any : Act (option T)) n received st out :
  let '(r, (st', out')) := batch_loop recv_any n received (st, out) in
  ∃ ps st1, out' = out ++ ps ∧ delivered recv_any ps st st1 ∧
    match r with
    | Ok k => k = received + length ps ∧
        (length ps = n ∧ st' = st1 ∨ length ps < n ∧ recv_any st1 = (Ok None, st'))
    | Err e => length ps < n ∧ recv_any st1 = (Err e, st')
    | Panic => length ps < n ∧ recv_any st1 = (Panic, st')
    | OutOfFuel => length ps < n ∧ recv_any st1 = (OutOfFuel, st')
    end.
Proof.
  revert received st out. induction n as [|n IH]; intros received st out.
  - simpl. exists [], st. rewrite app_nil_r. split_and!; [done..|simpl; lia|by left].
  - rewrite batch_loop_S. destruct (recv_any st) as [[[p|]|e| |] st1] eqn:Hr.
    2-5: exists [], st; rewrite app_nil_r; split_and!; simpl; (done || lia || (right; split; [lia|done])).
    specialize (IH (S received) st1 (out ++ [p])).
    destruct (batch_loop _ n _ _) as [r [st' out']]. destruct IH as (ps & st2 & -> & Hd & Hres).
    exists (p :: ps), st2. rewrite <-app_assoc. split_and!; [done| |].
    + unfold delivered in *. simpl. by rewrite Hr, Hd.
    + destruct r; simpl in *; intuition lia.
Qed.

(** ** Properties *)

(** C1: from a new context, no sequence of fewer than 2^64 - 2 calls makes
    any call unwind or hang: every call returns, and after them the identifiers
    are distinct and were all issued, the configurations are distinct and
    valid, and the round-robin cursor is a valid index. On Unix this holds
    whatever the operating system answers; on Windows it relies on [OsLaws]:
    [GetAdaptersAddresses] does not ask for a larger buffer 64 times in a row,
    and the control messages of [WSARecvMsg] end inside their buffer. *)
Theorem context_calls_are_safe (l : list ContextCall) (w : World) :
  OsLaws → (Z.of_nat (length l) < u64_max - 1)%Z →
  returns (context_run l (Context_new, w)).1 ∧ ctx_inv (context_run l (Context_new, w)).2.1.
Proof.
  intros Hu Hlen.
  assert (Hgen : ∀ bound st, inv_upto bound st.1 → (bound + Z.of_nat (length l) ≤ u64_max)%Z →
    returns (context_run l st).1 ∧ ctx_inv (context_run l st).2.1).
  { clear Hlen. induction l as [|k l IH]; intros bound st HI Hb; simpl in *; [by destruct HI|].
    destruct (context_call_safe bound k st Hu) as [Hr Hi]; [lia|done|].
    destruct (context_call k st) as [[[]|e| |] st']; simpl in *; try done;
      apply (IH (bound + 1)%Z); auto with lia. }
  apply (Hgen 1%Z); [|lia]. split; [apply ctx_inv_new|done].
Qed.

(** A receive call asks every subscription of the context at most
    once, in the cyclic order that starts at the cursor; it skips those that
    are not joined, counts each that has nothing, and stops at the first
    packet, which moves the cursor just behind its subscription, or at the
    first error, which leaves the cursor where it was. *)
Theorem try_recv_polls_in_rotation {T : Type} (recv : Op (Subscription * World) (option T))
    (pl : T → nat) (st : Context * World) :
  ctx_inv st.1 →
  let len := length (subscriptions st.1) in
  try_recv_from_joined recv pl st =
    (let* r := poll recv (rotation len (next_recv_index st.1)) in deliver pl len r) st ∧
  rotation len (next_recv_index st.1) ≡ₚ seq 0 len.
Proof.
  intros Hi. cbv zeta. split; [by apply try_recv_as_poll|].
  set (len := length (subscriptions st.1)).
  assert (Hnd : NoDup (rotation len (next_recv_index st.1))).
  { apply NoDup_alt. intros a b i [Ha ->]%rotation_lookup_inv [Hb Heq]%rotation_lookup_inv.
    by eapply mod_window_inj. }
  apply submseteq_length_Permutation.
  - apply NoDup_submseteq; [done|]. intros i [k [Hk ->]%rotation_lookup_inv]%list_elem_of_lookup.
    apply elem_of_seq. split; [lia|]. apply Nat.mod_upper_bound. lia.
  - unfold rotation. by rewrite length_fmap, length_seq.
Qed.

(** C26: a joined subscription that always has a packet is served
    within as many calls as the context has subscriptions, whatever the others
    deliver, as long as no call fails. *)
Theorem ready_subscription_is_served {T : Type} (recv : Op (Subscription * World) (option T))
    (pl : T → nat) (tag : T → SubscriptionId) (j : nat) (s : Subscription) (st : Context * World) :
  ReceiveMethod recv → ctx_inv st.1 →
  subscriptions st.1 !! j = Some s → sub_is_joined s = true → always_ready recv tag s →
  let rs := (attempts (try_recv_from_joined recv pl) (length (subscriptions st.1)) st).1 in
  Forall (λ r, ∃ o, r = Ok o) rs →
  ∃ p, Ok (Some p) ∈ rs ∧ tag p = sub_id s.
Proof.
  intros Hm Hi Hj Hjoin Hready. cbv zeta.
  destruct (attempts _ _ st) as [rs st'] eqn:Hatt. simpl. intros Hall.
  set (len := length (subscriptions st.1)) in *. pose proof (lookup_lt_Some _ _ _ Hj) as Hlt.
  assert (Hcur : next_recv_index st.1 < len) by (destruct (inv_cursor _ Hi); lia).
  destruct (decide (next_recv_index st.1 ≤ j)) as [Hle|Hgt].
  - apply (attempts_serve recv pl tag len j (j - next_recv_index st.1) s st rs st'); try done; try lia.
    replace (next_recv_index st.1 + (j - next_recv_index st.1)) with j by lia.
    by apply Nat.mod_small.
  - apply (attempts_serve recv pl tag len j (j + len - next_recv_index st.1) s st rs st'); try done; try lia.
    replace (next_recv_index st.1 + (j + len - next_recv_index st.1)) with (j + 1 * len) by lia.
    fold len. rewrite Nat.Div0.mod_add. by apply Nat.mod_small.
Qed.

(** The error path does not move the cursor, so a joined
    subscription at the cursor whose receive keeps failing makes every later
    call fail, and no other subscription is asked again, however many calls
    are made. *)
Theorem failing_subscription_blocks_the_others {T : Type}
    (recv : Op (Subscription * World) (option T)) (pl : T → nat) (s : Subscription)
    (st : Context * World) (k : nat) :
  ReceiveMethod recv → ctx_inv st.1 →
  subscriptions st.1 !! next_recv_index st.1 = Some s → sub_is_joined s = true →
  always_fails recv s →
  let '(rs, st') := attempts (try_recv_from_joined recv pl) k st in
  Forall (λ r, ∃ e, r = Err e) rs ∧ next_recv_index st'.1 = next_recv_index st.1.
Proof.
  intros Hm. revert s st. induction k as [|k IH]; intros s st Hi Hs Hjoin Hfail; simpl; [done|].
  destruct (one_call_blocked recv pl s st Hm Hi Hs Hjoin Hfail) as (e & st1 & Hcall & Hf2 & Hcur & Hn).
  destruct (safe_try_recv_from_joined recv pl (length (subscriptions st.1))
    (next_subscription_id st.1) Hm st) as [_ HI']; [done|].
  rewrite Hcall in *. destruct HI' as (Hi' & _ & _). simpl in Hi'.
  destruct (Forall2_lookup_l _ _ _ _ _ Hf2 Hs) as (s1 & Hs1 & Hid).
  specialize (IH s1 st1). destruct (attempts _ k st1) as [rs st2]. rewrite Hcur in IH.
  destruct IH as [Hall Hc]; try done.
  - unfold sub_is_joined in *. by destruct Hid as (_ & _ & _ & ->).
  - intros s' w Hs'. apply Hfail. by etrans.
  - split; [|congruence]. constructor; [by eexists|done].
Qed.

(** A call that adds, removes, joins or leaves a subscription and
    fails leaves the context exactly as it was, whatever the operating system
    did before it refused. *)
Theorem failed_lifecycle_call_changes_nothing (k : ContextCall) (e : McrxError)
    (st st' : Context * World) :
  lifecycle k = true → context_call k st = (Err e, st') → st'.1 = st.1.
Proof.
  destruct st as [c w]. destruct k; simpl; try done; intros _ Hcall.
  - apply ignore_Err in Hcall. exact (add_with_atomic config _ (c, w) e st' Hcall).
  - apply ignore_Err in Hcall. exact (add_with_atomic config _ (c, w) e st' Hcall).
  - apply ignore_Err in Hcall. unfold remove_subscription, mmap, mthen in Hcall.
    destruct (take_subscription id _) as [r s1] eqn:Ht. destruct r; simplify_eq.
    unfold take_subscription, mthen, mget in Ht. simpl in Ht. case_match; [|done].
    pose proof (finish_removal_no_error n (c, w)) as Hno. unfold mmap, mthen in Ht.
    by destruct (finish_subscription_removal n (c, w)) as [[] ?]; simplify_eq.
  - apply ignore_Err in Hcall.
    unfold take_subscription, mthen, mget in Hcall. simpl in Hcall. case_match; [|done].
    pose proof (finish_removal_no_error n (c, w)) as Hno. unfold mmap, mthen in Hcall.
    by destruct (finish_subscription_removal n (c, w)) as [[] ?]; simplify_eq.
  - pose proof (join_outcome id c w) as Ho. rewrite Hcall in Ho.
    repeat case_match; destruct_and?; naive_solver.
  - pose proof (leave_outcome id c w) as Ho. rewrite Hcall in Ho.
    repeat case_match; destruct_and?; naive_solver.
Qed.

(** Joining is refused for an unknown identifier and for a joined
    subscription, without a system call; otherwise it asks the kernel, and
    only if the kernel accepts, that subscription, and no other, becomes
    joined, and the join counter advances. *)
Theorem join_subscription_outcome (id : SubscriptionId) (c : Context) (w : World) :
  match get_subscription c id with
  | None => join_subscription id (c, w) = (Err SubscriptionNotFound, (c, w))
  | Some s =>
      sub_id s = id ∧
      if sub_is_joined s then join_subscription id (c, w) = (Err SubscriptionAlreadyJoined, (c, w))
      else
        match join_multicast_group (sub_raw_socket s) (sub_config s) w with
        | (Ok _, w') => ∃ c', join_subscription id (c, w) = (Ok (), (c', w')) ∧
            (∃ i, subscriptions c !! i = Some s ∧
               subscriptions c' = <[i := (mark_joined s).2]> (subscriptions c)) ∧
            sub_is_joined (mark_joined s).2 = true ∧
            next_recv_index c' = next_recv_index c ∧
            ctx_metrics c' = bump TotalJoinCount 1 (ctx_metrics c)
        | (Err e, w') => join_subscription id (c, w) = (Err e, (c, w'))
        | (r, w') => join_subscription id (c, w) = (r, (c, w'))
        end
  end.
Proof.
  pose proof (join_outcome id c w) as Ho. destruct (get_subscription c id) as [s|]; [|done].
  destruct Ho as [Hid Ho]. split; [done|]. destruct (sub_is_joined s) eqn:Hj; [done|].
  destruct (join_multicast_group _ _ w) as [[[]|e| |] w']; try done.
  destruct Ho as (i & Hi & Hjoin). eexists. split; [exact Hjoin|]. split_and!; [by eauto| |done..].
  unfold mark_joined, sub_is_joined in *. by destruct (sub_state s).
Qed.

(** A batch call makes receive calls until one delivers nothing, one
    fails or the bound is reached. The packets it appends are exactly those
    the calls delivered, in order; their number is returned and added to the
    batch counter, but when a call fails the packets delivered before it stay
    in the output while the counter is not advanced. *)
Theorem batch_delivers_successive_packets {T : Type} (recv_any : Act (option T)) (n : nat)
    (st : Context * World) (out : list T) :
  let '(r, (st', out')) := batch_into_impl recv_any n (st, out) in
  ∃ ps st1, out' = out ++ ps ∧ delivered recv_any ps st st1 ∧
    match r with
    | Ok k => k = length ps ∧ ∃ st2,
        (length ps = n ∧ st2 = st1 ∨ length ps < n ∧ recv_any st1 = (Ok None, st2)) ∧
        st' = (set_ctx_metrics (bump BatchPacketsReceived (Z.of_nat k)) st2.1, st2.2)
    | Err e => length ps < n ∧ recv_any st1 = (Err e, st')
    | Panic => length ps < n ∧ recv_any st1 = (Panic, st')
    | OutOfFuel => length ps < n ∧ recv_any st1 = (OutOfFuel, st')
    end.
Proof.
  pose proof (batch_loop_outcome recv_any n 0 st out) as Ho. unfold batch_into_impl, mthen at 1.
  destruct (batch_loop _ n 0 _) as [[k|e| |] [st2 out']]; simpl in *; try done.
  destruct Ho as (ps & st1 & -> & Hd & -> & Hor). exists ps, st1. split_and!; [done..|]. by exists st2.
Qed.
End context.

(** On Linux and on Windows, where the first call that looks up the interface
    is told to enlarge its buffer. *)
Example context_calls_are_safe_witness :
  let calls := [CallAdd sample_config; CallAdd sample_config; CallJoin 1; CallRecvAny;
                CallBatch 4; CallLeave 1; CallRemove 1; CallRemove 1] in
  let windows_calls := [CallAdd sample_config; CallAdd windows_config; CallJoin 2; CallJoin 1;
                        CallRecvAny] in
  let windows := context_run (H := windows_os) windows_calls (Context_new, (0 : nat)) in
  returns (context_run calls (Context_new, 0)).1 ∧
  subscription_count (context_run calls (Context_new, 0)).2.1 = 0 ∧
  returns windows.1 ∧
  sub_is_joined (H := windows_os) <$> subscriptions (H := windows_os) windows.2.1 = [true; true] ∧
  cm_total_packets_received (ctx_metrics windows.2.1) = 1%Z.
Proof.
  intros calls windows_calls windows.
  destruct (context_calls_are_safe calls 0) as [Hr _]; [apply sample_laws|vm_compute; reflexivity|].
  destruct (context_calls_are_safe (H := windows_os) windows_calls (0 : nat)) as [Hw _];
    [apply windows_laws|vm_compute; reflexivity|].
  split; [exact Hr|]. split; [vm_compute; reflexivity|]. split; [exact Hw|].
  split; vm_compute; reflexivity.
Defined.

(** A context with a joined subscription per socket; they differ in the port. *)
Definition sample_port_config (port : Z) : SubscriptionConfig :=
  mkConfig (V4 sample_group) SourceAny port None None.
Definition sample_subscription (i socket : nat) : Subscription :=
  mkSubscription (Z.of_nat (S i)) (sample_port_config (5000 + Z.of_nat i)) (sample_socket socket)
    Joined SubscriptionMetricsInner_default.
Definition sample_context (s0 s1 : nat) : Context :=
  mkContext [sample_subscription 0 s0; sample_subscription 1 s1] 3 0 ContextMetricsInner_default.

Lemma sample_context_inv s0 s1 : ctx_inv (sample_context s0 s1).
Proof.
  split; simpl.
  - apply (bool_decide_unpack _). reflexivity.
  - repeat (constructor; [simpl; lia|]). constructor.
  - apply (bool_decide_unpack _). reflexivity.
  - repeat (constructor; [reflexivity|]). constructor.
  - by left.
  - lia.
Qed.

Lemma sample_ready i : always_ready try_recv pk_subscription_id (sample_subscription i 8).
Proof.
  intros s' w (Hid & Hc & Hs & Hst). unfold try_recv. rewrite try_recv_as_result.
  unfold sub_is_joined. rewrite Hst, Hs, Hc, Hid. eexists. split; reflexivity.
Qed.

Lemma sample_fails i : always_fails try_recv (sample_subscription i 3).
Proof.
  intros s' w (Hid & Hc & Hs & Hst). unfold try_recv. rewrite try_recv_as_result.
  unfold sub_is_joined. rewrite Hst, Hs, Hc, Hid. eexists. reflexivity.
Qed.

(** The second of two busy subscriptions is served by the second call. *)
Example ready_subscription_is_served_witness :
  ∃ p, Ok (Some p) ∈ (attempts try_recv_any 2 (sample_context 4 8, 0)).1 ∧
       pk_subscription_id p = 2%Z.
Proof.
  apply (ready_subscription_is_served try_recv payload_len pk_subscription_id 1
    (sample_subscription 1 8) (sample_context 4 8, 0)).
  - apply try_recv_method, sample_laws.
  - apply sample_context_inv.
  - reflexivity.
  - reflexivity.
  - apply sample_ready.
  - vm_compute. repeat (constructor; [eexists; reflexivity|]). constructor.
Defined.

Example failing_subscription_blocks_the_others_witness :
  Forall (λ r, ∃ e, r = Err e) (attempts try_recv_any 50 (sample_context 3 8, 0)).1.
Proof.
  pose proof (failing_subscription_blocks_the_others try_recv payload_len (sample_subscription 0 3)
    (sample_context 3 8, 0) 50 (try_recv_method sample_laws) (sample_context_inv 3 8)
    eq_refl eq_refl (sample_fails 0)) as Hb.
  unfold try_recv_any. destruct (attempts _ 50 _) as [rs st']. exact (proj1 Hb).
Defined.

Example try_recv_polls_in_rotation_witness :
  try_recv_any (sample_context 2 8, 0) =
    (let* r := poll try_recv [0; 1] in deliver payload_len 2 r) (sample_context 2 8, 0).
Proof.
  exact (proj1 (try_recv_polls_in_rotation try_recv payload_len (sample_context 2 8, 0)
    (sample_context_inv 2 8))).
Defined.

Example failed_lifecycle_call_changes_nothing_witness :
  let c := mkContext [from_receive_socket 1 sample_config (sample_socket 1)] 2 0
             ContextMetricsInner_default in
  context_call (CallJoin 1) (c, 0) = (Err (MulticastJoinFailed sample_error), (c, 0)).
Proof.
  intros c.
  destruct (context_call (CallJoin 1) (c, 0)) as [r st'] eqn:Hcall.
  assert (Hr : r = Err (MulticastJoinFailed sample_error) ∧ st'.2 = 0)
    by (vm_compute in Hcall; injection Hcall as <- <-; split; reflexivity).
  destruct Hr as [-> Hw]. destruct st' as [c' w']. simpl in Hw. subst w'.
  pose proof (failed_lifecycle_call_changes_nothing (CallJoin 1) _ (c, 0) (c', 0) eq_refl Hcall) as Hc.
  simpl in Hc. rewrite Hc. reflexivity.
Defined.
