(* ===== verification/Delivery.v ===== *)
(** * From the kernel to the caller of a context

    The composition of [Platform], [Subscription] and [Context]: which
    packets a receive call of a context can hand out. *)

From S2P Require Import Prelude Hoare Net Errors Config Packet Metrics Os SampleOs Platform Subscription Context.

Local Open Scope list_scope.
Local Open Scope nat_scope.

(** ** A subscription's receive methods *)

(** A receive method that hands out only what the subscription it is called on
    accounts for, by its identity. *)
Class Accounts `{Os} {T : Type} (recv : Op (Subscription * World) (option T))
    (Q : Subscription → T → Prop) : Prop := {
  accounts_method :: ReceiveMethod recv;
  accounts_packet : ∀ s w p, (recv (s, w)).1 = Ok (Some p) → sub_is_joined s = true → Q s p;
  accounts_identity : ∀ s s' p, same_identity s s' → Q s' p → Q s p }.

Section delivery.
Context `{Os}.

(** What a packet has to do with the subscription that delivers it. *)
Definition for_subscription (s : Subscription) (p : PacketWithMetadata) : Prop :=
  addressed (sub_id s) (sub_config s) p.

Lemma for_subscription_identity s s' p : same_identity s s' → for_subscription s' p → for_subscription s p.
Proof. unfold for_subscription. by intros (-> & -> & _). Qed.

Lemma try_recv_with_metadata_accounts :
  OsLaws → Accounts try_recv_with_metadata for_subscription.
Proof.
  intros Hu. split; [by apply try_recv_with_metadata_method| |apply for_subscription_identity].
  intros s w p. unfold try_recv_with_metadata. rewrite try_recv_as_result. intros Hr Hj. rewrite Hj in Hr.
  destruct (recv_packet_with_metadata _ _ _ w) as [r w'] eqn:Hrecv. cbn in Hr. subst r.
  by apply recv_addressed in Hrecv as [_ ?].
Qed.

Lemma try_recv_accounts :
  OsLaws →
  Accounts try_recv (λ s p, ∃ md, for_subscription s (mkPacketWithMetadata p md)).
Proof.
  intros Hu. split; [by apply try_recv_method| |].
  - intros s w p. unfold try_recv. rewrite try_recv_as_result. intros Hr Hj. rewrite Hj in Hr.
    unfold recv_packet, mmap, mthen in Hr.
    destruct (recv_packet_with_metadata _ _ _ w) as [r w'] eqn:Hrecv. destruct r as [[[q md]|]|e| |]; simplify_eq/=.
    exists md. by apply recv_addressed in Hrecv as [_ ?].
  - intros s s' p Hid [md Hmd]. exists md. by eapply for_subscription_identity.
Qed.

(** ** One receive call of the context *)

Section accounts.
Context {T : Type} (recv : Op (Subscription * World) (option T)) (pl : T → nat)
  (Q : Subscription → T → Prop) `{Hacc : !Accounts recv Q}.

(** A joined subscription of the context accounts for the packet. *)
Definition accounted (c : Context) (p : T) : Prop :=
  ∃ s, s ∈ subscriptions c ∧ sub_is_joined s = true ∧ Q s p.

Lemma accounted_same c c' p :
  Forall2 same_identity (subscriptions c) (subscriptions c') → accounted c' p → accounted c p.
Proof.
  intros Hsame (s' & Hin & Hj & HQ). apply list_elem_of_lookup in Hin as [i Hi].
  destruct (Forall2_lookup_r _ _ _ _ _ Hsame Hi) as (s & Hs & Hid).
  exists s. split_and!; [by eapply list_elem_of_lookup_2| |by eapply accounts_identity].
  unfold sub_is_joined in *. by destruct Hid as (_ & _ & _ & <-).
Qed.

Lemma poll_accounted l st :
  let '(r, st') := poll recv l st in
  Forall2 same_identity (subscriptions st.1) (subscriptions st'.1) ∧
  ∀ i p, r = Ok (Some (i, p)) → accounted st.1 p.
Proof.
  revert st. induction l as [|i l IH]; intros st; [by split|].
  cbn [poll]. unfold mthen at 1, mget. unfold mthen at 1, mlift.
  destruct (subscriptions st.1 !! i) as [s|] eqn:Hi; cbn [expect]; [|by split].
  destruct (sub_is_joined s) eqn:Hj; cbn [negb]; [|apply IH].
  unfold mthen at 1, mcatch. destruct (on_subscription_same recv i st _) as (Hsame & _).
  assert (∀ p, (on_subscription i recv st).1 = Ok (Some p) → accounted st.1 p) as Hq.
  { intros p Hp. exists s. split_and!; [by eapply list_elem_of_lookup_2|done|].
    eapply accounts_packet; [|done]. unfold on_subscription in Hp. rewrite Hi in Hp.
    by destruct (recv (s, st.2)) as [? [? ?]] eqn:Hr; cbn in *; subst; rewrite Hr. }
  destruct (on_subscription i recv st) as [[[p|]|e| |] st1]; cbn in *; try by split.
  - split; [done|]. intros ? ? [= <- <-]. by apply Hq.
  - unfold record_would_block, bump_counter, on_fst, mmodify, mthen. cbn.
    match goal with |- context [poll recv l ?st2] =>
      specialize (IH st2); destruct (poll recv l st2) as [r st'] end. cbn in IH.
    destruct IH as [Hsame' Hacc']. split; [by etrans|].
    intros. eapply accounted_same; [exact Hsame|]. by eapply Hacc'.
Qed.

Lemma receive_accounted st :
  let '(r, st') := try_recv_from_joined recv pl st in
  Forall2 same_identity (subscriptions st.1) (subscriptions st'.1) ∧
  ∀ p, r = Ok (Some p) → accounted st.1 p.
Proof.
  unfold try_recv_from_joined, mthen at 1, mget. cbn. case_bool_decide; [by split|].
  rewrite recv_scan_poll. unfold mthen. 
  match goal with |- context [poll recv ?l st] => pose proof (poll_accounted l st) as Hp;
    destruct (poll recv l st) as [[[[i p]|]|e| |] st1] end; destruct Hp as [Hsame Hp]; try by split.
  split; [done|]. intros ? [= <-]. by eapply Hp.
Qed.

(** Every packet of a batch. *)
Lemma delivered_accounted ps st st' :
  delivered (try_recv_from_joined recv pl) ps st st' →
  Forall2 same_identity (subscriptions st.1) (subscriptions st'.1) ∧ Forall (accounted st.1) ps.
Proof.
  revert st. induction ps as [|p ps IH]; intros st; [intros [= ->]; by split|].
  unfold delivered. cbn [attempts length]. pose proof (receive_accounted st) as Hr.
  destruct (try_recv_from_joined recv pl st) as [r st1]. destruct Hr as [Hsame Hp].
  destruct (attempts (try_recv_from_joined recv pl) (length ps) st1) as [rs st2] eqn:Hrs. intros [= -> -> ->].
  destruct (IH st1 Hrs) as [Hsame' Hps]. split; [by etrans|].
  constructor; [by apply Hp|]. eapply Forall_impl; [exact Hps|]. intros q. by apply accounted_same.
Qed.

Lemma batch_accounted n st out :
  let '(_, (st', out')) := batch_into (try_recv_from_joined recv pl) n (st, out) in
  Forall2 same_identity (subscriptions st.1) (subscriptions st'.1) ∧
  ∃ ps, out' = out ++ ps ∧ length ps ≤ n ∧ Forall (accounted st.1) ps.
Proof.
  unfold batch_into, batch_into_impl, record_batch_call, bump_counter, mthen, on_fst, mmodify. cbn.
  match goal with |- context [batch_loop _ n 0 (?st1, out)] =>
    pose proof (batch_loop_outcome (try_recv_from_joined recv pl) n 0 st1 out) as Ho;
    destruct (batch_loop _ n 0 (st1, out)) as [r [st2 out']] end.
  destruct Ho as (ps & st3 & -> & Hd & Hr). apply delivered_accounted in Hd as [Hsame Hd].
  assert (∀ r', try_recv_from_joined recv pl st3 = (r', st2) →
    Forall2 same_identity (subscriptions st.1) (subscriptions st2.1)) as Hlast.
  { intros r' Hcall. pose proof (receive_accounted st3) as Hs. rewrite Hcall in Hs. by etrans; [|apply Hs]. }
  destruct r; cbn; (split; [|by exists ps; (split; [done|]); (split; [lia|done])]).
  1: destruct Hr as [_ [[_ ->]|[_ Hcall]]]; [done|by eapply Hlast].
  all: by eapply Hlast, Hr.
Qed.
End accounts.

(** ** By identifier *)

Lemma get_subscription_of c s :
  NoDup (sub_id <$> subscriptions c) → s ∈ subscriptions c → get_subscription c (sub_id s) = Some s.
Proof.
  unfold get_subscription, position_of. intros Hnd Hin.
  destruct (position (has_id (sub_id s)) (subscriptions c)) as [i|] eqn:Hp; cbn.
  - apply position_Some in Hp as (s' & Hi & Heq & _). rewrite Hi. f_equal.
    apply bool_decide_eq_true in Heq. apply list_elem_of_lookup in Hin as [j Hj].
    assert (i = j) as ->; [|congruence].
    eapply NoDup_lookup; [exact Hnd|rewrite list_lookup_fmap, Hi; reflexivity|].
    by rewrite list_lookup_fmap, Hj, Heq.
  - exfalso. eapply position_None in Hp; [|exact Hin]. unfold has_id in Hp.
    by rewrite bool_decide_eq_true_2 in Hp.
Qed.

(** The identifier of the packet names a joined subscription of the context,
    whose configuration admits the packet. *)
Definition belongs (c : Context) (p : PacketWithMetadata) : Prop :=
  ∃ s, get_subscription c (pk_subscription_id (pm_packet p)) = Some s ∧ sub_is_joined s = true ∧
    pk_group (pm_packet p) = cfg_group (sub_config s) ∧
    pk_dst_port (pm_packet p) = cfg_dst_port (sub_config s) ∧ admits (sub_config s) p.
Definition belongs_without_metadata (c : Context) (p : Packet) : Prop :=
  ∃ md, belongs c (mkPacketWithMetadata p md).

Lemma accounted_belongs c p : ctx_inv c → accounted for_subscription c p → belongs c p.
Proof.
  intros Hinv (s & Hin & Hj & (Hid & Hg & Hp & Ha)). exists s.
  rewrite Hid, get_subscription_of by (done || apply (inv_ids _ Hinv)). by split_and!.
Qed.

Lemma accounted_belongs_without c p :
  ctx_inv c → accounted (λ s p, ∃ md, for_subscription s (mkPacketWithMetadata p md)) c p →
  belongs_without_metadata c p.
Proof.
  intros Hinv (s & Hin & Hj & md & Hf). exists md. apply accounted_belongs; [done|]. by exists s.
Qed.

(** ** Properties *)

(** Whatever datagrams the kernel delivers (on Windows, whose control messages
    must end inside their buffer, under [OsLaws]), every packet that a receive call or a batch of a context hands out carries the
    identifier of a subscription that the context had when the call began and
    that had joined; its group and port are those of that subscription's
    configuration, and its destination, sender and ingress interface are
    those that the configuration asks for. A batch appends at most as many
    packets as it was asked for. *)
Theorem context_delivers_what_belongs (st : Context * World) (n : nat) :
  OsLaws → ctx_inv st.1 →
  (∀ p st', try_recv_any_with_metadata st = (Ok (Some p), st') → belongs st.1 p) ∧
  (∀ p st', try_recv_any st = (Ok (Some p), st') → belongs_without_metadata st.1 p) ∧
  (∀ out, let '(_, (_, out')) := try_recv_batch_with_metadata_into n (st, out) in
     ∃ ps, out' = out ++ ps ∧ length ps ≤ n ∧ Forall (belongs st.1) ps) ∧
  (∀ out, let '(_, (_, out')) := try_recv_batch_into n (st, out) in
     ∃ ps, out' = out ++ ps ∧ length ps ≤ n ∧ Forall (belongs_without_metadata st.1) ps).
Proof.
  intros Hu Hinv. pose proof (try_recv_with_metadata_accounts Hu) as Hm. pose proof (try_recv_accounts Hu) as Hp.
  pose proof (accounted_belongs st.1) as Hb. pose proof (accounted_belongs_without st.1) as Hb'.
  split_and!.
  - intros p st' Hr. apply Hb; [done|]. pose proof (receive_accounted _ (λ p, payload_len (pm_packet p)) _ st) as Ha.
    unfold try_recv_any_with_metadata in Hr. rewrite Hr in Ha. by apply Ha.
  - intros p st' Hr. apply Hb'; [done|]. pose proof (receive_accounted _ payload_len _ st) as Ha.
    unfold try_recv_any in Hr. rewrite Hr in Ha. by apply Ha.
  - intros out. pose proof (batch_accounted _ (λ p, payload_len (pm_packet p)) _ n st out) as Ha.
    unfold try_recv_batch_with_metadata_into, try_recv_any_with_metadata.
    destruct (batch_into _ n _) as [r [st' out']]. destruct Ha as (_ & ps & -> & Hlen & Hf).
    exists ps. split_and!; [done..|]. eapply Forall_impl; [exact Hf|]. auto.
  - intros out. pose proof (batch_accounted _ payload_len _ n st out) as Ha.
    unfold try_recv_batch_into, try_recv_any.
    destruct (batch_into _ n _) as [r [st' out']]. destruct Ha as (_ & ps & -> & Hlen & Hf).
    exists ps. split_and!; [done..|]. eapply Forall_impl; [exact Hf|]. auto.
Qed.
End delivery.

(** A batch of a context with two ready subscriptions. *)
Example context_delivers_what_belongs_witness :
  let '(r, (_, out')) := try_recv_batch_with_metadata_into 3 ((sample_context 4 8, 0), []) in
  r = Ok 3 ∧ length out' = 3 ∧ Forall (belongs (sample_context 4 8)) out'.
Proof.
  pose proof (context_delivers_what_belongs (sample_context 4 8, 0) 3 sample_laws (sample_context_inv 4 8))
    as (_ & _ & Hbatch & _). specialize (Hbatch []).
  destruct (try_recv_batch_with_metadata_into 3 _) as [r [st' out']] eqn:Hr.
  destruct Hbatch as (ps & -> & _ & Hps).
  vm_compute in Hr. injection Hr as <- <- Hout. split; [done|]. cbn [app] in *. rewrite <-Hout in Hps |- *. by split.
Defined.
