(* ===== verification/Register.v ===== *)
(** * What a context promises, without its internals

    A register of subscriptions: identifiers with a configuration and a state,
    and the next identifier. Sockets, order, cursors, counters and the kernel
    do not appear in it. It is the specification of both contexts, that of UDP
    packets ([ContextSpec]) and that of complete datagrams ([RawContext]), for
    their types of configurations and packets. *)

From S2P Require Import Prelude Hoare Net Errors Config Packet Metrics Os SampleOs Platform Subscription.

Local Open Scope list_scope.
Local Open Scope nat_scope.

(** ** Calls, replies and the register *)

Inductive RegisterCall (C P : Type) :=
  | Add (c : C)
  | Remove (id : SubscriptionId)
  | Take (id : SubscriptionId)
  | Join (id : SubscriptionId)
  | Leave (id : SubscriptionId)
  | Receive (bound : nat) (kind : P → bool).
Arguments Add {C P} c.
Arguments Remove {C P} id.
Arguments Take {C P} id.
Arguments Join {C P} id.
Arguments Leave {C P} id.
Arguments Receive {C P} bound kind.

(** [Received] is the reply of receive calls and batches, which may end with an
    error; [Unwound] is no reply that the register ever allows. *)
Inductive Reply (C P : Type) :=
  | Refused (e : McrxError)
  | AddedAs (id : SubscriptionId)
  | Removed (found : bool)
  | Took (entry : option (SubscriptionId * C * SubscriptionState))
  | Moved
  | Received (packets : list P) (error : option McrxError)
  | Unwound.
Arguments Refused {C P} e.
Arguments AddedAs {C P} id.
Arguments Removed {C P} found.
Arguments Took {C P} entry.
Arguments Moved {C P}.
Arguments Received {C P} packets error.
Arguments Unwound {C P}.

Record Register (C : Type) := mkRegister {
  entries : gmap SubscriptionId (C * SubscriptionState);
  next_entry : SubscriptionId }.
Arguments mkRegister {C} entries next_entry.
Arguments entries {C} r.
Arguments next_entry {C} r.

Definition empty_register {C : Type} : Register C := mkRegister ∅ 1%Z.
Definition set_entry {C : Type} (id : SubscriptionId) (e : C * SubscriptionState) (g : Register C) : Register C :=
  mkRegister (<[id := e]> (entries g)) (next_entry g).
Definition delete_entry {C : Type} (id : SubscriptionId) (g : Register C) : Register C :=
  mkRegister (delete id (entries g)) (next_entry g).
Definition registered {C : Type} (c : C) (g : Register C) : Prop := ∃ id st, entries g !! id = Some (c, st).

Section register.
Context {C P : Type} (validate : C → Result unit) (packet_id : P → SubscriptionId) (admitted_by : C → P → Prop).

(** A packet that a joined entry with its identifier admits. *)
Definition register_admits (g : Register C) (p : P) : Prop :=
  ∃ c, entries g !! packet_id p = Some (c, Joined) ∧ admitted_by c p.

(** An invalid configuration and one that is registered are refused; otherwise
    the next identifier is handed out, or the kernel refuses. *)
Definition adds_entry (c : C) (g : Register C) (r : Reply C P) (g' : Register C) : Prop :=
  match validate c with
  | Ok _ =>
      (registered c g ∧ r = Refused DuplicateSubscription ∧ g' = g) ∨
      (¬ registered c g ∧
         ((∃ e, r = Refused e ∧ g' = g) ∨
          (r = AddedAs (next_entry g) ∧ entries g !! next_entry g = None ∧
           g' = mkRegister (<[next_entry g := (c, Bound)]> (entries g)) (next_entry g + 1))))
  | Err e => r = Refused e ∧ g' = g
  | _ => False
  end.

(** The kernel may refuse a membership change; a wrong state is always refused. *)
Definition moves_entry (id : SubscriptionId) (from to : SubscriptionState) (wrong_state : McrxError)
    (g : Register C) (r : Reply C P) (g' : Register C) : Prop :=
  match entries g !! id with
  | None => r = Refused SubscriptionNotFound ∧ g' = g
  | Some (c, st) =>
      if decide (st = from) then (∃ e, r = Refused e ∧ g' = g) ∨ (r = Moved ∧ g' = set_entry id (c, to) g)
      else r = Refused wrong_state ∧ g' = g
  end.

Definition receives_packets (bound : nat) (kind : P → bool) (g : Register C) (r : Reply C P) (g' : Register C)
    : Prop :=
  g' = g ∧ ∃ ps error, r = Received ps error ∧ length ps ≤ bound ∧
    Forall (λ p, register_admits g p ∧ kind p = true) ps.

Definition register_step (k : RegisterCall C P) (g : Register C) (r : Reply C P) (g' : Register C) : Prop :=
  match k with
  | Add c => adds_entry c g r g'
  | Remove id => r = Removed (bool_decide (is_Some (entries g !! id))) ∧ g' = delete_entry id g
  | Take id => r = Took ((λ e, (id, e.1, e.2)) <$> entries g !! id) ∧ g' = delete_entry id g
  | Join id => moves_entry id Bound Joined SubscriptionAlreadyJoined g r g'
  | Leave id => moves_entry id Joined Bound SubscriptionNotJoined g r g'
  | Receive bound kind => receives_packets bound kind g r g'
  end.

Inductive register_run : list (RegisterCall C P) → Register C → list (Reply C P) → Register C → Prop :=
  | register_done g : register_run [] g [] g
  | register_call k l g r g1 rs g2 :
      register_step k g r g1 → register_run l g1 rs g2 → register_run (k :: l) g (r :: rs) g2.

(** ** Histories *)

(** A call that ends the membership of a subscription. *)
Definition ends_membership (id : SubscriptionId) (e : RegisterCall C P * Reply C P) : Prop :=
  match e.1 with
  | Leave id' => id' = id ∧ e.2 = Moved
  | Remove id' | Take id' => id' = id
  | _ => False
  end.

(** Why an entry is in the register: the call that added it was answered with
    its identifier; and if it is joined, a later join was granted that nothing
    has ended since. *)
Definition explained (h : list (RegisterCall C P * Reply C P)) (id : SubscriptionId) (c : C)
    (st : SubscriptionState) : Prop :=
  ∃ h1 h2, h = h1 ++ (Add c, AddedAs id) :: h2 ∧
    (st = Joined → ∃ h3 h4, h2 = h3 ++ (Join id, Moved) :: h4 ∧ Forall (λ e, ¬ ends_membership id e) h4).

Lemma explained_snoc h id c st e :
  explained h id c st → (st = Joined → ¬ ends_membership id e) → explained (h ++ [e]) id c st.
Proof.
  intros (h1 & h2 & -> & Hj) He. exists h1, (h2 ++ [e]).
  split; [by rewrite <-app_assoc|]. intros Hst. destruct (Hj Hst) as (h3 & h4 & -> & Hall).
  exists h3, (h4 ++ [e]). split; [by rewrite <-app_assoc|]. apply Forall_app. split; [done|].
  constructor; [by apply He|done].
Qed.

Definition all_explained (h : list (RegisterCall C P * Reply C P)) (g : Register C) : Prop :=
  ∀ id c st, entries g !! id = Some (c, st) → explained h id c st.

Lemma all_explained_same h g e :
  all_explained h g → (∀ id, ¬ ends_membership id e) → all_explained (h ++ [e]) g.
Proof. intros Hall He id c st Hid. apply explained_snoc; [by apply Hall|]. intros _. apply He. Qed.

Lemma adds_explained h c g r g' :
  adds_entry c g r g' → all_explained h g → all_explained (h ++ [(Add c, r)]) g'.
Proof.
  intros Hstep Hall. assert (Hne : ∀ r id, ¬ ends_membership id (Add c, r)) by (by intros r' id []).
  unfold adds_entry in Hstep. destruct (validate c); try done; [|].
  - destruct Hstep as [(_ & _ & ->)|[_ [(e & _ & ->)|(-> & Hnew & ->)]]]; [by apply all_explained_same..|].
    intros id c' st Hid. cbn in Hid. apply lookup_insert_Some in Hid as [[<- [= <- <-]]|[Hid Hold]].
    + by exists h, [].
    + apply explained_snoc; [by apply Hall|]. intros _. apply Hne.
  - destruct Hstep as [_ ->]. by apply all_explained_same.
Qed.

Lemma delete_explained h k id r g :
  (∀ id', id' ≠ id → ¬ ends_membership id' (k, r)) → all_explained h g →
  all_explained (h ++ [(k, r)]) (delete_entry id g).
Proof.
  intros Hne Hall id' c st Hid. cbn in Hid. apply lookup_delete_Some in Hid as [Hid Hold].
  apply explained_snoc; [by apply Hall|]. intros _. by apply Hne.
Qed.

Lemma join_explained h id g r g' :
  moves_entry id Bound Joined SubscriptionAlreadyJoined g r g' → all_explained h g →
  all_explained (h ++ [(Join id, r)]) g'.
Proof.
  intros Hstep Hall.
  assert (Hrefused : ∀ e, all_explained (h ++ [(Join id, Refused e)]) g).
  { intros e. apply all_explained_same; [done|]. by intros id' []. }
  unfold moves_entry in Hstep. destruct (entries g !! id) as [[c0 st0]|] eqn:Hid.
  2: { by destruct Hstep as [-> ->]. }
  destruct (decide _) as [->|]; [|by destruct Hstep as [-> ->]].
  destruct Hstep as [(e & -> & ->)|[-> ->]]; [done|].
  intros id' c st Hid'. cbn in Hid'. apply lookup_insert_Some in Hid' as [[<- [= <- <-]]|[Hne Hold]];
    [|by apply explained_snoc; [apply Hall|intros _ []]].
  destruct (Hall _ _ _ Hid) as (h1 & h2 & -> & _). exists h1, (h2 ++ [(Join id, Moved)]).
  split; [by rewrite <-app_assoc|]. intros _. by exists h2, [].
Qed.

Lemma leave_explained h id g r g' :
  moves_entry id Joined Bound SubscriptionNotJoined g r g' → all_explained h g →
  all_explained (h ++ [(Leave id, r)]) g'.
Proof.
  intros Hstep Hall.
  assert (Hrefused : ∀ e, all_explained (h ++ [(Leave id, Refused e)]) g).
  { intros e. apply all_explained_same; [done|]. by intros id' []. }
  unfold moves_entry in Hstep. destruct (entries g !! id) as [[c0 st0]|] eqn:Hid.
  2: { by destruct Hstep as [-> ->]. }
  destruct (decide _) as [->|]; [|by destruct Hstep as [-> ->]].
  destruct Hstep as [(e & -> & ->)|[-> ->]]; [done|].
  intros id' c st Hid'. cbn in Hid'. apply lookup_insert_Some in Hid' as [[<- [= <- <-]]|[Hne Hold]].
  - apply explained_snoc; [|done]. destruct (Hall _ _ _ Hid) as (h1 & h2 & -> & _). by exists h1, h2.
  - apply explained_snoc; [by apply Hall|]. intros _ [Heq _]. by apply Hne.
Qed.

Lemma step_explained h k g r g' :
  register_step k g r g' → all_explained h g → all_explained (h ++ [(k, r)]) g'.
Proof.
  intros Hstep Hall. destruct k; cbn [register_step] in Hstep;
    try (destruct Hstep as [-> _]; apply all_explained_same; [done|]; by intros id' []).
  - by eapply adds_explained.
  - destruct Hstep as [-> ->]. apply delete_explained; [|done]. intros id' Hne Heq. by apply Hne.
  - destruct Hstep as [-> ->]. apply delete_explained; [|done]. intros id' Hne Heq. by apply Hne.
  - by apply (join_explained h id g r g').
  - by apply (leave_explained h id g r g').
Qed.

(** Only receive calls answer with packets, and the register admits them. *)
Lemma step_received k g ps error g' p :
  register_step k g (Received ps error) g' → p ∈ ps → register_admits g p.
Proof.
  assert (Hrec : ∀ n md, receives_packets n md g (Received ps error) g' → p ∈ ps → register_admits g p).
  { intros n md (_ & ps' & error' & [= <- <-] & _ & Hall) Hin. rewrite Forall_forall in Hall. by apply Hall. }
  destruct k; cbn [register_step]; try (by apply Hrec); unfold adds_entry, moves_entry; intros Hstep _;
    repeat first [case_match | progress destruct_and? | progress destruct_or?
                 | match goal with Hex : ∃ _, _ |- _ => destruct Hex end]; congruence.
Qed.

Lemma run_explained l g rs g' h i ps error p :
  register_run l g rs g' → all_explained h g → rs !! i = Some (Received ps error) → p ∈ ps →
  ∃ c, explained (h ++ take i (zip l rs)) (packet_id p) c Joined ∧ admitted_by c p.
Proof.
  intros Hrun. revert h i. induction Hrun as [g|k l g r g1 rs g2 Hstep Hrun IH]; intros h i Hall Hi Hp; [done|].
  destruct i as [|i].
  - injection Hi as ->. destruct (step_received _ _ _ _ _ _ Hstep Hp) as (c & Hid & Hrest).
    exists c. cbn. rewrite app_nil_r. by split; [apply Hall|].
  - cbn [zip zip_with take]. destruct (IH (h ++ [(k, r)]) i) as (c & Hex & Hrest);
      [by eapply step_explained|done|done|]. exists c. by rewrite <-app_assoc in Hex.
Qed.

End register.

(** ** The register of a list of subscriptions *)
Section list.
Context {C S : Type} (sid : S → SubscriptionId) (config : S → C) (state : S → SubscriptionState).

Definition entry (s : S) : SubscriptionId * (C * SubscriptionState) := (sid s, (config s, state s)).
Definition register_of (l : list S) (next : SubscriptionId) : Register C :=
  mkRegister (list_to_map (entry <$> l)) next.

Lemma entry_ids l : (entry <$> l).*1 = sid <$> l.
Proof. by rewrite <-list_fmap_compose. Qed.

Lemma register_of_elem l next s :
  NoDup (sid <$> l) → s ∈ l → entries (register_of l next) !! sid s = Some (config s, state s).
Proof.
  intros Hnd Hs. apply elem_of_list_to_map_1; [by rewrite entry_ids|].
  apply list_elem_of_fmap. by exists s.
Qed.

Lemma register_of_none l next id : id ∉ sid <$> l → entries (register_of l next) !! id = None.
Proof. intros Hid. apply not_elem_of_list_to_map_1. by rewrite entry_ids. Qed.

Lemma register_of_Some l next id c st :
  NoDup (sid <$> l) → entries (register_of l next) !! id = Some (c, st) →
  ∃ s, s ∈ l ∧ sid s = id ∧ config s = c ∧ state s = st.
Proof.
  intros Hnd Hid. apply elem_of_list_to_map_2, list_elem_of_fmap in Hid as (s & [= -> -> ->] & Hs).
  by exists s.
Qed.

Lemma registered_iff l next c : NoDup (sid <$> l) → registered c (register_of l next) ↔ c ∈ config <$> l.
Proof.
  intros Hnd. rewrite list_elem_of_fmap. split.
  - intros (id & st & Hid). apply register_of_Some in Hid as (s & ? & ? & <- & ?); [|done]. by exists s.
  - intros (s & -> & Hs). exists (sid s), (state s). by apply register_of_elem.
Qed.

(** One subscription set apart from the others. *)
Lemma register_split l next s rest :
  NoDup (sid <$> l) → l ≡ₚ s :: rest →
  register_of l next = set_entry (sid s) (config s, state s) (register_of rest next) ∧
  entries (register_of rest next) !! sid s = None.
Proof.
  intros Hnd Hperm. pose proof Hnd as Hnd'. rewrite Hperm in Hnd'. apply NoDup_cons in Hnd' as [Hnew _]. split.
  - unfold register_of, set_entry. cbn [entries next_entry]. f_equal.
    rewrite (list_to_map_proper (entry <$> l) (entry <$> s :: rest)); [done| |by rewrite Hperm].
    by rewrite entry_ids.
  - by apply register_of_none.
Qed.

Lemma register_insert l next i s s' :
  NoDup (sid <$> l) → l !! i = Some s → sid s' = sid s →
  register_of (<[i := s']> l) next = set_entry (sid s) (config s', state s') (register_of l next).
Proof.
  intros Hnd Hi Hid. pose proof (lookup_lt_Some _ _ _ Hi) as Hlt.
  set (rest := take i l ++ drop (Datatypes.S i) l).
  destruct (register_split l next s rest) as [-> _]; [done| |].
  { rewrite <-(take_drop_middle _ _ _ Hi) at 1. by rewrite <-Permutation_middle. }
  destruct (register_split (<[i := s']> l) next s' rest) as [-> _].
  - rewrite list_fmap_insert, Hid, list_insert_id; [done|]. by rewrite list_lookup_fmap, Hi.
  - rewrite insert_take_drop by done. by rewrite <-Permutation_middle.
  - unfold set_entry. cbn. by rewrite Hid, insert_insert_eq.
Qed.

Lemma register_moved l next i s s' st :
  NoDup (sid <$> l) → l !! i = Some s → sid s' = sid s → config s' = config s → state s' = st →
  register_of (<[i := s']> l) next = set_entry (sid s) (config s, st) (register_of l next).
Proof. intros Hnd Hi Hid <- <-. by apply register_insert. Qed.

Lemma register_remove l next i s rest :
  NoDup (sid <$> l) → swap_remove i l = Some (s, rest) →
  register_of rest next = delete_entry (sid s) (register_of l next).
Proof.
  intros Hnd Hsw%swap_remove_Permutation. destruct (register_split l next s rest Hnd Hsw) as [-> Hnone].
  unfold delete_entry, set_entry. cbn. rewrite delete_insert_id by done. done.
Qed.

Lemma register_snoc l next s :
  NoDup (sid <$> (l ++ [s])) →
  register_of (l ++ [s]) next = set_entry (sid s) (config s, state s) (register_of l next) ∧
  entries (register_of l next) !! sid s = None.
Proof. intros Hnd. apply register_split; [done|]. by rewrite (comm (++)). Qed.

Lemma register_same l l' next :
  Forall2 (λ s s', sid s' = sid s ∧ config s' = config s ∧ state s' = state s) l l' →
  register_of l' next = register_of l next.
Proof.
  intros Hsame. unfold register_of. do 2 f_equal.
  induction Hsame as [|s s' l l' (Hid & Hc & Hst) Hsame IH]; [done|].
  cbn. rewrite IH. unfold entry. by rewrite Hid, Hc, Hst.
Qed.

(** An identifier that is not there. *)
Lemma register_delete_unknown l next id :
  id ∉ sid <$> l → delete_entry id (register_of l next) = register_of l next.
Proof.
  intros Hid. unfold delete_entry. rewrite delete_id by by apply register_of_none. done.
Qed.
End list.
