(* ===== verification/ContextSpec.v ===== *)
(** * A UDP context refines a register of subscriptions

    The replies of [Context] to any sequence of calls are replies that the
    register of [Register] allows, so what holds of the histories of a register
    holds of the packets that a context hands out. *)

From S2P Require Import Prelude Hoare Net Errors Config Packet Metrics Os SampleOs Platform Subscription Context.
From S2P Require Import Delivery Register.

Local Open Scope list_scope.
Local Open Scope nat_scope.

(** ** The register of a UDP context *)

(** A packet as it is handed out: with its metadata when the call returns it. *)
Definition Handed : Type := Packet * option ReceiveMetadata.
Definition handed_id (p : Handed) : SubscriptionId := pk_subscription_id p.1.
Definition handed_admitted (c : SubscriptionConfig) (p : Handed) : Prop :=
  ∃ md, (∀ md', p.2 = Some md' → md' = md) ∧ pk_group p.1 = cfg_group c ∧ pk_dst_port p.1 = cfg_dst_port c ∧
    admits c (mkPacketWithMetadata p.1 md).
Definition without_metadata (p : Handed) : bool := negb (bool_decide (is_Some p.2)).
Definition has_metadata (p : Handed) : bool := bool_decide (is_Some p.2).

Abbreviation CtxReply := (Reply SubscriptionConfig Handed).
Abbreviation ctx_register_step := (register_step SubscriptionConfig.validate handed_id handed_admitted).
Abbreviation ctx_register_run := (register_run SubscriptionConfig.validate handed_id handed_admitted).

Section refinement.
Context `{Os}.

Abbreviation Act A := (Op (Context * World) A).

Definition registry (c : Context) : Register SubscriptionConfig :=
  register_of sub_id sub_config sub_state (subscriptions c) (next_subscription_id c).

(** What a call asks of the register. *)
Definition register_call (k : ContextCall) : RegisterCall SubscriptionConfig Handed :=
  match k with
  | CallAdd c | CallAddWithSocket c _ => Add c
  | CallRemove id => Remove id
  | CallTake id => Take id
  | CallJoin id => Join id
  | CallLeave id => Leave id
  | CallRecvAny => Receive 1 without_metadata
  | CallRecvAnyWithMetadata => Receive 1 has_metadata
  | CallBatch n => Receive n without_metadata
  | CallBatchWithMetadata n => Receive n has_metadata
  | CallAll => Receive MAX_DRAIN_PACKETS_PER_CALL without_metadata
  | CallAllWithMetadata => Receive MAX_DRAIN_PACKETS_PER_CALL has_metadata
  end.

(** ** The replies of a context *)

Definition reply_of {A : Type} (f : A → CtxReply) (r : Result A) : CtxReply :=
  match r with
  | Ok a => f a
  | Err e => Refused e
  | Panic | OutOfFuel => Unwound
  end.

Definition replied {A : Type} (f : A → CtxReply) (m : Act A) (st : Context * World) : CtxReply * (Context * World) :=
  let '(r, st') := m st in (reply_of f r, st').

Definition plain (p : Packet) : Handed := (p, None).
Definition with_md (p : PacketWithMetadata) : Handed := (pm_packet p, Some (pm_metadata p)).

(** The packets of a receive call or of a batch, with the error that ended it. *)
Definition received_one {T : Type} (f : T → Handed) (m : Act (option T))
    (st : Context * World) : CtxReply * (Context * World) :=
  let '(r, st') := m st in
  (match r with
   | Ok o => Received (f <$> option_list o) None
   | Err e => Received [] (Some e)
   | _ => Unwound
   end, st').
Definition received_many {T : Type} (f : T → Handed)
    (m : Op (Context * World * list T) nat) (st : Context * World) : CtxReply * (Context * World) :=
  let '(r, (st', out)) := m (st, []) in
  (match r with
   | Ok _ => Received (f <$> out) None
   | Err e => Received (f <$> out) (Some e)
   | _ => Unwound
   end, st').

Definition observe (k : ContextCall) : Context * World → CtxReply * (Context * World) :=
  match k with
  | CallAdd c => replied AddedAs (add_subscription c)
  | CallAddWithSocket c s => replied AddedAs (add_subscription_with_socket c s)
  | CallRemove id => replied Removed (remove_subscription id)
  | CallTake id => replied (λ o, Took ((λ s, (sub_id s, sub_config s, sub_state s)) <$> o)) (take_subscription id)
  | CallJoin id => replied (λ _, Moved) (join_subscription id)
  | CallLeave id => replied (λ _, Moved) (leave_subscription id)
  | CallRecvAny => received_one plain try_recv_any
  | CallRecvAnyWithMetadata => received_one with_md try_recv_any_with_metadata
  | CallBatch n => received_many plain (try_recv_batch_into n)
  | CallBatchWithMetadata n => received_many with_md (try_recv_batch_with_metadata_into n)
  | CallAll => received_many plain try_recv_all_into
  | CallAllWithMetadata => received_many with_md try_recv_all_with_metadata_into
  end.

Fixpoint observe_run (l : list ContextCall) (st : Context * World) : list CtxReply * (Context * World) :=
  match l with
  | [] => ([], st)
  | k :: l => let '(r, st1) := observe k st in let '(rs, st2) := observe_run l st1 in (r :: rs, st2)
  end.

(** ** Each call refines its step *)

Lemma registry_get c id :
  ctx_inv c →
  match get_subscription c id with
  | Some s => s ∈ subscriptions c ∧ sub_id s = id ∧ entries (registry c) !! id = Some (sub_config s, sub_state s)
  | None => id ∉ sub_id <$> subscriptions c
  end.
Proof.
  intros Hinv. destruct (get_subscription c id) as [s|] eqn:Hs.
  - unfold get_subscription in Hs. apply bind_Some in Hs as (i & Hi & Hs).
    destruct (position_of_lookup _ _ _ Hi) as (s' & Hs' & <-). rewrite Hs in Hs'. injection Hs' as <-.
    apply list_elem_of_lookup_2 in Hs. split_and!; [done..|]. by apply register_of_elem; [apply (inv_ids _ Hinv)|].
  - intros (s & -> & Hin)%list_elem_of_fmap. by rewrite get_subscription_of in Hs by (done || apply (inv_ids _ Hinv)).
Qed.

Lemma unique_cases c config :
  ctx_inv c →
  (ensure_subscription_config_is_unique c config = Err DuplicateSubscription ∧ registered config (registry c)) ∨
  (ensure_subscription_config_is_unique c config = Ok () ∧ ¬ registered config (registry c)).
Proof.
  intros Hinv. unfold registry. rewrite registered_iff by apply (inv_ids _ Hinv).
  unfold ensure_subscription_config_is_unique, guard.
  destruct (existsb _ _) eqn:He; [left|right]; (split; [done|]).
  - apply existsb_exists in He as (s & Hs%list_elem_of_In & Heq%bool_decide_eq_true).
    apply list_elem_of_fmap. by exists s.
  - by apply existsb_false_not_elem.
Qed.

Lemma add_refines config (mk : Op World ReceiveSocket) c w :
  total mk → ctx_inv c → (next_subscription_id c < u64_max)%Z →
  let m := mlift (SubscriptionConfig.validate config) ;;*
           let* st := mget in
           mlift (ensure_subscription_config_is_unique st.1 config) ;;*
           let* rs := on_snd mk in
           insert_subscription config rs in
  let '(r, st') := replied AddedAs m (c, w) in ctx_register_step (Add config) (registry c) r (registry st'.1).
Proof.
  intros Hmk Hinv Hlt. cbv zeta. cbn [register_step]. unfold replied, adds_entry, mthen at 1, mlift at 1.
  pose proof (returns_validate config) as Hret.
  destruct (SubscriptionConfig.validate config) as [[]|e| |] eqn:Hv; try done.
  unfold mthen at 1, mget at 1. unfold mthen at 1, mlift at 1. cbn [fst].
  destruct (unique_cases c config Hinv) as [[-> Hreg]|[Huniq Hreg]]; [by left|]. rewrite Huniq.
  unfold mthen at 1, on_snd. cbn [fst snd].
  specialize (Hmk w). destruct (mk w) as [[rs|e| |] w']; try done; [|by right; split; [done|left; exists e]].
  unfold insert_subscription, mthen, mget, mlift. cbn -[registry]. rewrite next_id_small by done.
  pose proof (inv_after_insert c config rs (ctx_metrics c) Hinv Hlt Hv Huniq) as Hinv'.
  destruct (register_snoc sub_id sub_config sub_state (subscriptions c) (next_subscription_id c + 1)
    (from_receive_socket (next_subscription_id c) config rs) (inv_ids _ Hinv')) as [Heq Hnone].
  right. split; [done|]. right. split; [done|]. split; [exact Hnone|exact Heq].
Qed.

Lemma take_refines id c w :
  ctx_inv c →
  let '(r, st') := take_subscription id (c, w) in
  ∃ o, r = Ok o ∧ ((λ s, (sub_id s, sub_config s, sub_state s)) <$> o) =
      ((λ e, (id, e.1, e.2)) <$> entries (registry c) !! id) ∧
    bool_decide (is_Some o) = bool_decide (is_Some (entries (registry c) !! id)) ∧
    registry st'.1 = delete_entry id (registry c).
Proof.
  intros Hinv. pose proof (registry_get c id Hinv) as Hget. unfold get_subscription in Hget.
  unfold take_subscription, mthen at 1, mget. cbn [fst].
  destruct (position_of c id) as [i|] eqn:Hpos; cbn [mbind option_bind] in Hget.
  - destruct (position_of_lookup _ _ _ Hpos) as (s & Hs & <-). rewrite Hs in Hget. destruct Hget as (_ & _ & ->).
    destruct (swap_remove_is_Some i (subscriptions c)) as [[removed rest] Hsw]; [by eapply lookup_lt_Some|].
    assert (removed = s) as ->.
    { unfold swap_remove in Hsw. rewrite Hs in Hsw. by case_match; simplify_eq. }
    unfold mmap, mthen. rewrite (finish_removal_eq _ (c, w) _ _ Hsw). exists (Some s). split_and!; [done..|].
    exact (register_remove sub_id sub_config sub_state _ _ i s rest (inv_ids _ Hinv) Hsw).
  - exists None. unfold registry. rewrite register_of_none, register_delete_unknown by done. done.
Qed.

Lemma join_refines id c w :
  OsLaws → ctx_inv c →
  let '(r, st') := replied (λ _, Moved) (join_subscription id) (c, w) in
  ctx_register_step (Join id) (registry c) r (registry st'.1).
Proof.
  intros Hu Hinv. cbn [register_step]. unfold replied, moves_entry. pose proof (registry_get c id Hinv) as Hget.
  pose proof (join_outcome id c w) as Ho. destruct (get_subscription c id) as [s|].
  2: { unfold registry. by rewrite register_of_none, Ho. }
  destruct Hget as (_ & <- & ->). destruct Ho as [_ Ho]. unfold sub_is_joined in Ho.
  destruct (sub_state s) eqn:Hst; [|by rewrite Ho].
  pose proof (total_join_multicast_group (sub_raw_socket s) (sub_config s) Hu w) as Ht.
  destruct (join_multicast_group _ _ w) as [[[]|e| |] w']; try done;
    [|rewrite Ho; cbn -[registry]; rewrite decide_True by done; left; by exists e].
  destruct Ho as (i & Hi & ->). cbn -[registry mark_joined]. rewrite decide_True by done. right. split; [done|].
  unfold mark_joined. rewrite Hst, bool_decide_eq_false_2 by done. unfold registry. cbn.
  by apply (register_moved _ _ _ _ _ i s _ _ (inv_ids _ Hinv) Hi).
Qed.

Lemma leave_refines id c w :
  OsLaws → ctx_inv c →
  let '(r, st') := replied (λ _, Moved) (leave_subscription id) (c, w) in
  ctx_register_step (Leave id) (registry c) r (registry st'.1).
Proof.
  intros Hu Hinv. cbn [register_step]. unfold replied, moves_entry. pose proof (registry_get c id Hinv) as Hget.
  pose proof (leave_outcome id c w) as Ho. destruct (get_subscription c id) as [s|].
  2: { unfold registry. by rewrite register_of_none, Ho. }
  destruct Hget as (_ & <- & ->). destruct Ho as [_ Ho]. unfold sub_is_joined in Ho.
  destruct (sub_state s) eqn:Hst; [by rewrite Ho|].
  pose proof (total_leave_multicast_group (sub_raw_socket s) (sub_config s) Hu w) as Ht.
  destruct (leave_multicast_group _ _ w) as [[[]|e| |] w']; try done;
    [|rewrite Ho; cbn -[registry]; rewrite decide_True by done; left; by exists e].
  destruct Ho as (i & Hi & ->). cbn -[registry mark_bound]. rewrite decide_True by done. right. split; [done|].
  unfold mark_bound. rewrite Hst, bool_decide_eq_false_2 by done. unfold registry. cbn.
  by apply (register_moved _ _ _ _ _ i s _ _ (inv_ids _ Hinv) Hi).
Qed.

Lemma registry_same c c' :
  Forall2 same_identity (subscriptions c) (subscriptions c') →
  next_subscription_id c' = next_subscription_id c → registry c' = registry c.
Proof.
  intros Hsame Hn. unfold registry. rewrite Hn. apply register_same.
  eapply Forall2_impl; [exact Hsame|]. by intros s s' (? & ? & _ & ?).
Qed.

(** Packets that belong to the context are admitted by its register. *)
Lemma belongs_admitted c p o :
  ctx_inv c → belongs c p → o = None ∨ o = Some (pm_metadata p) →
  register_admits handed_id handed_admitted (registry c) (pm_packet p, o).
Proof.
  intros Hinv (s & Hs & Hj & Hg & Hp & Ha) Ho. exists (sub_config s). unfold handed_id. cbn [fst].
  pose proof (registry_get c (pk_subscription_id (pm_packet p)) Hinv) as Hget. rewrite Hs in Hget.
  destruct Hget as (_ & _ & ->). unfold sub_is_joined in Hj. destruct p as [p md]. split; [by destruct (sub_state s)|].
  exists md. split; [|done]. cbn in *. intros md' Hmd. destruct Ho as [->| ->]; congruence.
Qed.

Section receiving.
Context {T : Type} (recv : Op (Subscription * World) (option T)) (pl : T → nat) (Q : Subscription → T → Prop)
  `{Hacc : !Accounts recv Q} (f : T → Handed) (kind : Handed → bool).
Hypothesis admitted : ∀ c p, ctx_inv c → accounted Q c p →
  register_admits handed_id handed_admitted (registry c) (f p) ∧ kind (f p) = true.

Lemma receive_refines st :
  ctx_inv st.1 →
  let '(r, st') := received_one f (try_recv_from_joined recv pl) st in
  ctx_register_step (Receive 1 kind) (registry st.1) r (registry st'.1).
Proof.
  intros Hinv. unfold received_one. pose proof (receive_accounted recv pl Q st) as Ha.
  destruct (safe_try_recv_from_joined recv pl (length (subscriptions st.1)) (next_subscription_id st.1)
    accounts_method st) as [Hr (_ & _ & Hn)]; [done|].
  destruct (try_recv_from_joined recv pl st) as [r st']. destruct Ha as [Hsame Hp]. cbn [fst snd] in *.
  split; [by apply registry_same|].
  destruct r as [[p|]|e| |]; try done; do 2 eexists; (split; [reflexivity|]); (split; [simpl; lia|]);
    [|constructor..]. apply Forall_singleton, admitted; [done|by apply Hp].
Qed.

Lemma batch_refines n st :
  ctx_inv st.1 →
  let '(r, st') := received_many f (batch_into (try_recv_from_joined recv pl) n) st in
  ctx_register_step (Receive n kind) (registry st.1) r (registry st'.1).
Proof.
  intros Hinv. unfold received_many. pose proof (batch_accounted recv pl Q n st []) as Ha.
  assert (Hsafe : safe (inv_at (length (subscriptions st.1)) (next_subscription_id st.1))
    (with_out (batch_into (try_recv_from_joined recv pl) n))).
  { apply safe_batch_into; [apply inv_at_blind|apply safe_try_recv_from_joined, accounts_method]. }
  destruct (Hsafe st) as [Hr (_ & _ & Hn)]; [done|]. unfold with_out in Hr, Hn.
  destruct (batch_into _ n (st, [])) as [r [st' out']]. destruct Ha as (Hsame & ps & -> & Hlen & Hps). cbn [fst snd] in *.
  split; [by apply registry_same|].
  destruct r; try done; do 2 eexists; (split; [reflexivity|]); (split; [by rewrite length_fmap|]);
    apply Forall_fmap; (eapply Forall_impl; [exact Hps|]); intros; by apply admitted.
Qed.
End receiving.

Lemma admitted_plain c p :
  ctx_inv c → accounted (λ s p, ∃ md, for_subscription s (mkPacketWithMetadata p md)) c p →
  register_admits handed_id handed_admitted (registry c) (plain p) ∧ without_metadata (plain p) = true.
Proof.
  intros Hinv [md Hb]%accounted_belongs_without; [|done]. split; [|done].
  by apply (belongs_admitted c (mkPacketWithMetadata p md)); [done| |left].
Qed.

Lemma admitted_with_md c p :
  ctx_inv c → accounted for_subscription c p →
  register_admits handed_id handed_admitted (registry c) (with_md p) ∧ has_metadata (with_md p) = true.
Proof.
  intros Hinv Hb%accounted_belongs; [|done]. split; [|done].
  by apply belongs_admitted; [done| |right].
Qed.

(** One call of the context, seen through its reply, is a call of the register. *)
Lemma observe_refines k st :
  OsLaws → ctx_inv st.1 → (next_subscription_id st.1 < u64_max)%Z →
  let '(r, st') := observe k st in ctx_register_step (register_call k) (registry st.1) r (registry st'.1).
Proof.
  intros Hu Hinv Hlt. destruct st as [c w]. cbn [fst] in *.
  pose proof (try_recv_accounts Hu) as Hp. pose proof (try_recv_with_metadata_accounts Hu) as Hm.
  destruct k; cbn [observe register_call].
  - apply add_refines; [apply total_open_bound_socket|done..].
  - apply add_refines; [apply total_prepare_existing_socket|done..].
  - unfold replied, remove_subscription, mmap, mthen. pose proof (take_refines id c w Hinv) as Ht.
    destruct (take_subscription id (c, w)) as [r st']. destruct Ht as (o & -> & _ & Ho & Hreg).
    split; [cbn; by rewrite Ho|exact Hreg].
  - unfold replied. pose proof (take_refines id c w Hinv) as Ht.
    destruct (take_subscription id (c, w)) as [r st']. destruct Ht as (o & -> & Ho & _ & Hreg). 
    split; [cbn; by rewrite Ho|exact Hreg].
  - by apply join_refines.
  - by apply leave_refines.
  - exact (receive_refines _ _ _ _ _ admitted_plain (c, w) Hinv).
  - exact (receive_refines _ _ _ _ _ admitted_with_md (c, w) Hinv).
  - exact (batch_refines _ _ _ _ _ admitted_plain _ (c, w) Hinv).
  - exact (batch_refines _ _ _ _ _ admitted_with_md _ (c, w) Hinv).
  - exact (batch_refines _ _ _ _ _ admitted_plain _ (c, w) Hinv).
  - exact (batch_refines _ _ _ _ _ admitted_with_md _ (c, w) Hinv).
Qed.

(** Looking at the reply does not change what the call does. *)
Lemma observe_state k st : (observe k st).2 = (context_call k st).2.
Proof.
  destruct k; cbn [observe context_call]; unfold replied, received_one, received_many, ignore, mmap, with_out, mthen;
    match goal with |- context [let '(_, _) := ?m ?x in _] => destruct (m x) as [r st1] end;
    try (destruct st1); by destruct r.
Qed.

Lemma observe_run_refines l w bound st :
  OsLaws → inv_upto bound st.1 → (bound + Z.of_nat (length l) ≤ u64_max)%Z → st.2 = w →
  let '(rs, st') := observe_run l st in ctx_register_run (register_call <$> l) (registry st.1) rs (registry st'.1).
Proof.
  intros Hu. revert w bound st. induction l as [|k l IH]; intros w bound st HI Hb Hw; cbn [observe_run]; [constructor|].
  cbn [length] in Hb. pose proof HI as [Hinv Hn].
  pose proof (observe_refines k st Hu Hinv ltac:(lia)) as Hstep. pose proof (observe_state k st) as Hstate.
  destruct (context_call_safe bound k st Hu) as [_ HI']; [lia|done|]. rewrite <-Hstate in HI'.
  destruct (observe k st) as [r st1]. cbn [fst snd] in *.
  specialize (IH st1.2 (bound + 1)%Z st1 HI' ltac:(lia) eq_refl). destruct (observe_run l st1) as [rs st2].
  by econstructor.
Qed.

(** ** Properties *)

(** C2: from a new context and for every sequence of fewer than
    2^64 - 2 calls, the replies are those of a run of the register, and the
    subscriptions of the context are the entries of the register that the run
    reaches. Nothing is assumed of the operating system on Unix; on Windows the
    theorem relies on [OsLaws]. *)
Theorem context_refines_register (l : list ContextCall) (w : World) :
  OsLaws → (Z.of_nat (length l) < u64_max - 1)%Z →
  let '(rs, st) := observe_run l (Context_new, w) in ctx_register_run (register_call <$> l) empty_register rs (registry st.1).
Proof.
  intros Hu Hlen. apply (observe_run_refines l w 1 (Context_new, w)); [done| |lia|done].
  split; [apply ctx_inv_new|done].
Qed.

(** C3: a packet that any call of a sequence of fewer than 2^64 - 2 calls
    answers with has a history: an earlier call added a subscription and was
    answered with the identifier that the packet carries, the packet has the
    group and port of that call's configuration and is admitted by it, and
    between the two a join of this subscription was granted, after which it was
    neither left nor removed. Nothing is assumed of the operating system on
    Unix; on Windows the theorem relies on [OsLaws]. *)
Theorem packets_come_after_add_and_join (l : list ContextCall) (w : World) i ps error p :
  OsLaws → (Z.of_nat (length l) < u64_max - 1)%Z →
  (observe_run l (Context_new, w)).1 !! i = Some (Received ps error) → p ∈ ps →
  ∃ c, explained (take i (zip (register_call <$> l) (observe_run l (Context_new, w)).1)) (handed_id p) c Joined ∧
    handed_admitted c p.
Proof.
  intros Hu Hlen Hi Hp.
  assert (HI : inv_upto 1 (Context_new, w).1) by (split; [apply ctx_inv_new|done]).
  pose proof (observe_run_refines l w 1 (Context_new, w) Hu HI ltac:(lia) eq_refl) as Hrun.
  destruct (observe_run l (Context_new, w)) as [rs st].
  by apply (run_explained _ _ _ _ empty_register rs (registry st.1) [] i ps error p Hrun).
Qed.
End refinement.

(** ** A context in use *)

Definition sample_context_calls : list ContextCall :=
  [CallJoin 1; CallAdd sample_config; CallAdd sample_config; CallRecvAny; CallJoin 1; CallJoin 1;
   CallBatchWithMetadata 2; CallLeave 1; CallRecvAny; CallTake 1; CallRemove 1].

Abbreviation sample_history := (observe_run sample_context_calls (@pair Context World Context_new 0)).

Example context_refines_register_witness :
  ctx_register_run (register_call <$> sample_context_calls) empty_register sample_history.1 (registry sample_history.2.1) ∧
  sample_history.1 !! 1 = Some (AddedAs 1) ∧ sample_history.1 !! 2 = Some (Refused DuplicateSubscription) ∧
  sample_history.1 !! 4 = Some Moved ∧ sample_history.1 !! 8 = Some (Received [] None) ∧
  sample_history.1 !! 10 = Some (Removed false).
Proof.
  split; [|split_and!; vm_compute; reflexivity].
  pose proof (context_refines_register sample_context_calls 0 sample_laws eq_refl) as Hrun.
  destruct (observe_run sample_context_calls _) as [rs st]. exact Hrun.
Defined.

Definition answer_packets (r : option CtxReply) : list Handed :=
  match r with Some (Received ps _) => ps | _ => [] end.

Example packets_come_after_add_and_join_witness :
  let ps := answer_packets (sample_history.1 !! 6) in
  length ps = 2 ∧
  Forall (λ p, ∃ c, explained (take 6 (zip (register_call <$> sample_context_calls) sample_history.1))
    (handed_id p) c Joined ∧ handed_admitted c p) ps.
Proof.
  intros ps. split; [vm_compute; reflexivity|]. apply Forall_forall. intros p Hp.
  assert (Hi : sample_history.1 !! 6 = Some (Received ps None)) by (vm_compute; reflexivity).
  exact (packets_come_after_add_and_join sample_context_calls 0 6 ps None p sample_laws eq_refl Hi Hp).
Defined.
