(* ===== verification/IpDatagram.v ===== *)
(** * IP datagrams of the raw receive path ([src/src/platform/raw.rs])

    The parser of IPv4 and IPv6 headers, the match of a parsed datagram
    against a configuration, the construction of a [RawPacket], and the removal
    of an Ethernet header with its VLAN tags. Indexing is by operations that
    panic out of range, so that the bounds are a theorem. *)

From S2P Require Import Prelude Net Errors Config Packet.

(** [ParsedIpDatagram]. *)
Record ParsedIpDatagram := mkParsed {
  pi_source_ip : IpAddr;
  pi_destination_ip : IpAddr;
  pi_protocol : Z;
  pi_datagram_len : nat }.

#[global] Instance ParsedIpDatagram_eq_dec : EqDecision ParsedIpDatagram.
Proof. solve_decision. Defined.

(** [bytes[i]] and [&bytes[lo..hi]]. *)
Definition index {A : Type} (l : list A) (i : nat) : Result A := expect (l !! i).
Definition index_range {A : Type} (l : list A) (lo hi : nat) : Result (list A) :=
  expect (slice l lo hi).

(** [u16::from_be_bytes([hi, lo]) as usize]. *)
Definition u16_from_be_bytes (hi lo : byte) : nat := Z.to_nat (be16 hi lo).

(** ** The parser *)

Definition parse_ipv4_datagram (datagram : list byte) : Result (option ParsedIpDatagram) :=
  if bool_decide (length datagram < 20) then Ok None
  else
    let? b0 := index datagram 0 in
    let ihl := Z.to_nat (Z.land (u8 b0) 15) * 4 in
    if bool_decide (ihl < 20) || bool_decide (length datagram < ihl) then Ok None
    else
      let? b2 := index datagram 2 in
      let? b3 := index datagram 3 in
      let datagram_len := u16_from_be_bytes b2 b3 in
      if bool_decide (datagram_len < ihl) || bool_decide (length datagram < datagram_len)
      then Ok None
      else
        let? s0 := index datagram 12 in
        let? s1 := index datagram 13 in
        let? s2 := index datagram 14 in
        let? s3 := index datagram 15 in
        let? d0 := index datagram 16 in
        let? d1 := index datagram 17 in
        let? d2 := index datagram 18 in
        let? d3 := index datagram 19 in
        let? protocol := index datagram 9 in
        Ok (Some (mkParsed (V4 (Ipv4 s0 s1 s2 s3)) (V4 (Ipv4 d0 d1 d2 d3)) (u8 protocol)
                    datagram_len)).

Definition parse_ipv6_datagram (datagram : list byte) : Result (option ParsedIpDatagram) :=
  if bool_decide (length datagram < 40) then Ok None
  else
    let? source := index_range datagram 8 24 in
    match v6_of_octets source with
    | None => Ok None
    | Some source =>
        let? destination := index_range datagram 24 40 in
        match v6_of_octets destination with
        | None => Ok None
        | Some destination =>
            let? b4 := index datagram 4 in
            let? b5 := index datagram 5 in
            let payload_len := u16_from_be_bytes b4 b5 in
            let? b6 := index datagram 6 in
            if bool_decide (payload_len = 0) && bool_decide (u8 b6 = 0)%Z then Ok None
            else
              match checked_add usize_max 40 (Z.of_nat payload_len) with
              | None => Ok None
              | Some datagram_len =>
                  if bool_decide (Z.of_nat (length datagram) < datagram_len)%Z then Ok None
                  else Ok (Some (mkParsed (V6 source) (V6 destination) (u8 b6)
                                   (Z.to_nat datagram_len)))
              end
        end
    end.

Definition parse_ip_datagram (datagram : list byte) : Result (option ParsedIpDatagram) :=
  match head datagram with
  | None => Ok None
  | Some b =>
      let version := Z.shiftr (u8 b) 4 in
      if bool_decide (version = 4)%Z then parse_ipv4_datagram datagram
      else if bool_decide (version = 6)%Z then parse_ipv6_datagram datagram
      else Ok None
  end.

(** ** Matching and packets *)

Definition same_ip_family (family : SubscriptionAddressFamily) (a : IpAddr) : bool :=
  match family, a with
  | Ipv4Family, V4 _ | Ipv6Family, V6 _ => true
  | _, _ => false
  end.

Definition packet_matches_config (parsed : ParsedIpDatagram) (c : RawSubscriptionConfig) : bool :=
  if negb (same_ip_family (RawSubscriptionConfig.family c) (pi_destination_ip parsed)) then false
  else if negb (bool_decide (pi_destination_ip parsed = raw_group c)) then false
  else
    match raw_source c with
    | SourceAny => true
    | Source source => bool_decide (pi_source_ip parsed = source)
    end.

Definition raw_packet_from_parts (subscription_id : SubscriptionId) (datagram : list byte)
    (parsed : ParsedIpDatagram) (metadata : ReceiveMetadata) : Result RawPacket :=
  let? bytes := index_range datagram 0 (pi_datagram_len parsed) in
  Ok (mkRawPacket subscription_id bytes (Some (pi_source_ip parsed))
        (Some (pi_destination_ip parsed)) (Some (pi_protocol parsed)) metadata).

(** What a receive loop does with a parsed datagram, and with the bytes of a
    datagram: [None] to go on. *)
Definition packet_of_parsed (datagram : list byte) (parsed : ParsedIpDatagram)
    (interface_index : option Z) (subscription_id : SubscriptionId) (c : RawSubscriptionConfig)
    : Result (option RawPacket) :=
  if packet_matches_config parsed c then
    let metadata :=
      mkMetadata None (raw_interface c) (raw_interface_index c)
        (Some (pi_destination_ip parsed)) interface_index in
    let? packet := raw_packet_from_parts subscription_id datagram parsed metadata in
    Ok (Some packet)
  else Ok None.

Definition packet_of_datagram (datagram : list byte) (interface_index : option Z)
    (subscription_id : SubscriptionId) (c : RawSubscriptionConfig) : Result (option RawPacket) :=
  let? parsed := parse_ip_datagram datagram in
  match parsed with
  | None => Ok None
  | Some parsed => packet_of_parsed datagram parsed interface_index subscription_id c
  end.

(** ** Ethernet

    [while] over the VLAN tags; each round consumes four bytes of the frame. *)
Definition is_vlan_tag (ethertype : Z) : bool :=
  bool_decide (ethertype = 0x8100 ∨ ethertype = 0x88a8 ∨ ethertype = 0x9100)%Z.
Definition is_ip_ethertype (ethertype : Z) : bool :=
  bool_decide (ethertype = 0x0800 ∨ ethertype = 0x86dd)%Z.

Fixpoint strip_vlan_tags (fuel : nat) (frame : list byte) (ethertype : Z) (payload_offset : nat)
    : Result (option (Z * nat)) :=
  if is_vlan_tag ethertype then
    match fuel with
    | O => OutOfFuel
    | S fuel =>
        if bool_decide (length frame < payload_offset + 4) then Ok None
        else
          let? hi := index frame (payload_offset + 2) in
          let? lo := index frame (payload_offset + 3) in
          strip_vlan_tags fuel frame (be16 hi lo) (payload_offset + 4)
    end
  else Ok (Some (ethertype, payload_offset)).

Definition strip_ethernet_link_layer (frame : list byte) : Result (option (list byte)) :=
  if bool_decide (length frame < 14) then Ok None
  else
    let? hi := index frame 12 in
    let? lo := index frame 13 in
    let? stripped := strip_vlan_tags (length frame) frame (be16 hi lo) 14 in
    match stripped with
    | None => Ok None
    | Some (ethertype, payload_offset) =>
        if is_ip_ethertype ethertype then Ok (slice frame payload_offset (length frame))
        else Ok None
    end.

(** ** The wire format

    [ip_wire bytes p]: the bytes are an IP datagram with the fields [p],
    followed by padding. The header fields that the parser ignores are
    arbitrary. *)
Definition be16_bytes (n : nat) : list byte := [byte_of (Z.of_nat (n / 256)); byte_of (Z.of_nat n)].

Inductive ip_wire : list byte → ParsedIpDatagram → Prop :=
  | wire4 (tos id0 id1 f0 f1 ttl proto c0 c1 : byte) (src dst : Ipv4Addr)
      (options payload padding : list byte) (words : nat) :
      length options = 4 * words → words ≤ 10 →
      (Z.of_nat (20 + length options + length payload) ≤ u16_max)%Z →
      ip_wire
        (byte_of (64 + 5 + Z.of_nat words) :: tos ::
         be16_bytes (20 + length options + length payload) ++
         [id0; id1; f0; f1; ttl; proto; c0; c1] ++ v4_octets src ++ v4_octets dst ++
         options ++ payload ++ padding)
        (mkParsed (V4 src) (V4 dst) (u8 proto) (20 + length options + length payload))
  | wire6 (tc : nat) (f1 f2 f3 next hop : byte) (src dst : Ipv6Addr)
      (payload padding : list byte) :
      tc < 16 → (Z.of_nat (length payload) ≤ u16_max)%Z → ¬ (payload = [] ∧ next = Byte.x00) →
      ip_wire
        (byte_of (96 + Z.of_nat tc) :: f1 :: f2 :: f3 :: be16_bytes (length payload) ++
         [next; hop] ++ v6_octets src ++ v6_octets dst ++ payload ++ padding)
        (mkParsed (V6 src) (V6 dst) (u8 next) (40 + length payload)).

Lemma u16_be16_bytes n :
  (Z.of_nat n ≤ u16_max)%Z → u16_from_be_bytes (byte_of (Z.of_nat (n / 256))) (byte_of (Z.of_nat n)) = n.
Proof.
  unfold u16_max. intros Hn. unfold u16_from_be_bytes, be16.
  assert (n / 256 < 256) by (apply Nat.Div0.div_lt_upper_bound; lia).
  rewrite (u8_byte_of (Z.of_nat (n / 256))) by lia.
  pose proof (Nat.div_mod_eq n 256) as Hd. pose proof (Nat.mod_upper_bound n 256).
  assert (u8 (byte_of (Z.of_nat n)) = Z.of_nat (n mod 256)) as ->.
  { transitivity (u8 (byte_of (Z.of_nat (n mod 256)))).
    - f_equal. unfold byte_of. rewrite Nat2Z.inj_mod. by rewrite Z.mod_mod by lia.
    - apply u8_byte_of. lia. }
  lia.
Qed.

Lemma be16_bytes_u16 hi lo : be16_bytes (u16_from_be_bytes hi lo) = [hi; lo].
Proof.
  unfold be16_bytes, u16_from_be_bytes.
  pose proof (be16_bounds hi lo). pose proof (u8_bounds hi). pose proof (u8_bounds lo).
  rewrite Nat2Z.inj_div, !Z2Nat.id by lia. unfold be16. f_equal; [|f_equal].
  - rewrite <-(byte_of_u8 hi) at 2. f_equal. zlia.
  - rewrite <-(byte_of_u8 lo) at 2. unfold byte_of. do 3 f_equal.
    rewrite Z.add_comm, Z.mod_add by lia. done.
Qed.

Lemma nibbles b : u8 b = (16 * Z.shiftr (u8 b) 4 + Z.land (u8 b) 15)%Z.
Proof.
  rewrite Z.shiftr_div_pow2 by lia. change 15%Z with (Z.ones 4). rewrite Z.land_ones by lia.
  change (2 ^ 4)%Z with 16%Z. pose proof (Z.div_mod (u8 b) 16). lia.
Qed.

Lemma low_nibble_bounds b : (0 ≤ Z.land (u8 b) 15 < 16)%Z.
Proof.
  change 15%Z with (Z.ones 4). rewrite Z.land_ones by lia.
  change (2 ^ 4)%Z with 16%Z. apply Z.mod_pos_bound. lia.
Qed.

Lemma nibbles_of hi lo :
  (0 ≤ hi < 16)%Z → (0 ≤ lo < 16)%Z →
  Z.shiftr (u8 (byte_of (16 * hi + lo))) 4 = hi ∧ Z.land (u8 (byte_of (16 * hi + lo))) 15 = lo.
Proof.
  intros. rewrite u8_byte_of by lia. rewrite Z.shiftr_div_pow2 by lia.
  change 15%Z with (Z.ones 4). rewrite Z.land_ones by lia.
  change (2 ^ 4)%Z with 16%Z. zlia.
Qed.

Lemma u16_bound hi lo : (Z.of_nat (u16_from_be_bytes hi lo) ≤ u16_max)%Z.
Proof. unfold u16_from_be_bytes. pose proof (be16_bounds hi lo). unfold u16_max in *. lia. Qed.

(** The parsers on a datagram that has a whole fixed header. *)
Lemma parse_ipv4_eq b0 tos b2 b3 id0 id1 f0 f1 ttl proto c0 c1 src dst rest :
  let ihl := Z.to_nat (Z.land (u8 b0) 15) * 4 in
  let datagram_len := u16_from_be_bytes b2 b3 in
  parse_ipv4_datagram (b0 :: tos :: b2 :: b3 :: [id0; id1; f0; f1; ttl; proto; c0; c1] ++
                       v4_octets src ++ v4_octets dst ++ rest) =
    Ok (if bool_decide (20 ≤ ihl ≤ datagram_len ∧ datagram_len ≤ 20 + length rest)
        then Some (mkParsed (V4 src) (V4 dst) (u8 proto) datagram_len) else None).
Proof.
  cbv zeta. destruct src as [s0 s1 s2 s3], dst as [d0 d1 d2 d3].
  unfold parse_ipv4_datagram. rewrite bool_decide_false by (simpl; lia).
  cbn [index lookup list_lookup expect res_bind app v4_octets v4_a v4_b v4_c v4_d].
  assert (Hlen : ∀ l : list byte, length (b0 :: tos :: b2 :: b3 :: id0 :: id1 :: f0 :: f1 :: ttl ::
    proto :: c0 :: c1 :: s0 :: s1 :: s2 :: s3 :: d0 :: d1 :: d2 :: d3 :: l) = 20 + length l) by done.
  rewrite Hlen. set (ihl := Z.to_nat _ * 4). set (dl := u16_from_be_bytes b2 b3).
  repeat case_bool_decide; simpl; try done; lia.
Qed.

(** A datagram with at least the fixed header splits into its fields. *)
Lemma split_ipv4 b0 l :
  19 ≤ length l →
  ∃ tos b2 b3 id0 id1 f0 f1 ttl proto c0 c1 src dst rest,
    l = tos :: b2 :: b3 :: [id0; id1; f0; f1; ttl; proto; c0; c1] ++
        v4_octets src ++ v4_octets dst ++ rest ∧
    length (b0 :: l) = 20 + length rest.
Proof.
  intros Hl. do 19 (destruct l as [|? l]; [simpl in Hl; lia|]).
  do 11 eexists. eexists (Ipv4 _ _ _ _), (Ipv4 _ _ _ _), l. split; reflexivity.
Qed.

Lemma parse_ipv4_spec b0 l :
  Z.shiftr (u8 b0) 4 = 4%Z →
  (∃ o, parse_ipv4_datagram (b0 :: l) = Ok o) ∧
  (∀ p, parse_ipv4_datagram (b0 :: l) = Ok (Some p) → ip_wire (b0 :: l) p).
Proof.
  intros Hv. destruct (decide (19 ≤ length l)) as [Hl|Hl].
  2: { unfold parse_ipv4_datagram. rewrite bool_decide_true by (simpl; lia). by split; [eexists|]. }
  destruct (split_ipv4 b0 l Hl) as (tos & b2 & b3 & id0 & id1 & f0 & f1 & ttl & proto & c0 & c1 &
    src & dst & rest & -> & _).
  rewrite parse_ipv4_eq. split; [by eexists|].
  set (ihl := Z.to_nat _ * 4). set (dl := u16_from_be_bytes b2 b3).
  case_bool_decide as Hb; [|done]. intros ? [= <-]. destruct Hb as [[Hi1 Hi2] Hd].
  pose proof (low_nibble_bounds b0) as Hlow. pose proof (nibbles b0) as Hn. rewrite Hv in Hn.
  set (words := Z.to_nat (Z.land (u8 b0) 15) - 5).
  assert (Hihl : ihl = 20 + 4 * words) by lia.
  pose proof (u16_bound b2 b3) as Hu. fold dl in Hu.
  rewrite <-(take_drop (4 * words) rest), <-(take_drop (dl - ihl) (drop (4 * words) rest)).
  assert (Hlo : length (take (4 * words) rest) = 4 * words) by (rewrite length_take; lia).
  assert (Hlp : length (take (dl - ihl) (drop (4 * words) rest)) = dl - ihl)
    by (rewrite length_take, length_drop; lia).
  assert (Hdl : 20 + length (take (4 * words) rest)
                + length (take (dl - ihl) (drop (4 * words) rest)) = dl) by lia.
  pose proof (wire4 tos id0 id1 f0 f1 ttl proto c0 c1 src dst _ _
    (drop (dl - ihl) (drop (4 * words) rest)) words Hlo ltac:(lia)
    ltac:(rewrite Hdl; exact Hu)) as Hw.
  rewrite Hdl in Hw. unfold dl in Hw at 1. rewrite be16_bytes_u16 in Hw.
  replace (64 + 5 + Z.of_nat words)%Z with (u8 b0) in Hw by lia.
  rewrite byte_of_u8 in Hw. exact Hw.
Qed.

Lemma wire4_parses b p :
  ip_wire b p → (∃ a, pi_destination_ip p = V4 a) → parse_ip_datagram b = Ok (Some p).
Proof.
  intros Hw [a Ha]. destruct Hw as [tos id0 id1 f0 f1 ttl proto c0 c1 src dst options payload padding
    words Hlo Hwords Htot|]; [|done].
  replace (64 + 5 + Z.of_nat words)%Z with (16 * 4 + (5 + Z.of_nat words))%Z by lia.
  destruct (nibbles_of 4 (5 + Z.of_nat words)) as [Hhi Hlow]; [lia..|].
  unfold parse_ip_datagram. cbn [head]. rewrite Hhi. rewrite bool_decide_true by done.
  set (total := 20 + length options + length payload) in *.
  change (be16_bytes total ++ ?x) with (byte_of (Z.of_nat (total / 256)) :: byte_of (Z.of_nat total) :: x).
  rewrite parse_ipv4_eq, Hlow, u16_be16_bytes by done.
  rewrite bool_decide_true; [done|]. rewrite !length_app. lia.
Qed.

Lemma index_range_middle {A : Type} (l1 l2 l3 : list A) lo hi :
  lo = length l1 → hi = length l1 + length l2 → index_range (l1 ++ l2 ++ l3) lo hi = Ok l2.
Proof.
  intros -> ->. unfold index_range, slice.
  rewrite bool_decide_true by (rewrite !length_app; lia). simpl.
  rewrite drop_app_length, take_app_length'; [done|lia].
Qed.

Lemma parse_ipv6_eq b0 f1 f2 f3 b4 b5 next hop src dst rest :
  let payload_len := u16_from_be_bytes b4 b5 in
  parse_ipv6_datagram ([b0; f1; f2; f3; b4; b5; next; hop] ++
                       v6_octets src ++ v6_octets dst ++ rest) =
    Ok (if bool_decide (¬ (payload_len = 0 ∧ next = Byte.x00) ∧ payload_len ≤ length rest)
        then Some (mkParsed (V6 src) (V6 dst) (u8 next) (40 + payload_len)) else None).
Proof.
  cbv zeta. unfold parse_ipv6_datagram.
  set (hdr := [b0; f1; f2; f3; b4; b5; next; hop]).
  assert (Hlen : length (hdr ++ v6_octets src ++ v6_octets dst ++ rest) = 40 + length rest).
  { rewrite !length_app, !length_v6_octets. simpl. lia. }
  rewrite Hlen, bool_decide_false by lia.
  rewrite index_range_middle by done. cbn [res_bind]. rewrite v6_of_octets_octets.
  replace (hdr ++ v6_octets src ++ v6_octets dst ++ rest)
    with ((hdr ++ v6_octets src) ++ v6_octets dst ++ rest) by by rewrite <-app_assoc.
  rewrite index_range_middle by done. cbn [res_bind]. rewrite v6_of_octets_octets.
  cbn [hdr app index lookup list_lookup expect res_bind].
  pose proof (u16_bound b4 b5) as Hu. set (pl := u16_from_be_bytes b4 b5) in *.
  assert (Hzero : u8 next = 0%Z ↔ next = Byte.x00).
  { split; [|by intros ->]. intros Hz. apply u8_inj. by rewrite Hz. }
  unfold checked_add, usize_max, u64_max, u16_max in *. rewrite (bool_decide_true (_ + _ ≤ _)%Z) by lia.
  replace (Z.to_nat (40 + Z.of_nat pl)) with (40 + pl) by lia.
  repeat case_bool_decide; simpl; try done; naive_solver lia.
Qed.

Lemma split_ipv6 (b0 : byte) l :
  39 ≤ length l →
  ∃ f1 f2 f3 b4 b5 next hop src dst rest,
    b0 :: l = [b0; f1; f2; f3; b4; b5; next; hop] ++ v6_octets src ++ v6_octets dst ++ rest.
Proof.
  intros Hl. do 39 (destruct l as [|? l]; [simpl in Hl; lia|]).
  do 7 eexists. eexists (Ipv6 _ _ _ _ _ _ _ _ _ _ _ _ _ _ _ _), (Ipv6 _ _ _ _ _ _ _ _ _ _ _ _ _ _ _ _), l.
  reflexivity.
Qed.

Lemma parse_ipv6_spec b0 l :
  Z.shiftr (u8 b0) 4 = 6%Z →
  (∃ o, parse_ipv6_datagram (b0 :: l) = Ok o) ∧
  (∀ p, parse_ipv6_datagram (b0 :: l) = Ok (Some p) → ip_wire (b0 :: l) p).
Proof.
  intros Hv. destruct (decide (39 ≤ length l)) as [Hl|Hl].
  2: { unfold parse_ipv6_datagram. rewrite bool_decide_true by (simpl; lia). by split; [eexists|]. }
  destruct (split_ipv6 b0 l Hl) as (f1 & f2 & f3 & b4 & b5 & next & hop & src & dst & rest & ->).
  rewrite parse_ipv6_eq. split; [by eexists|]. set (pl := u16_from_be_bytes b4 b5).
  case_bool_decide as Hb; [|done]. intros ? [= <-]. destruct Hb as [Hz Hpl].
  pose proof (low_nibble_bounds b0) as Hlow. pose proof (nibbles b0) as Hn. rewrite Hv in Hn.
  rewrite <-(take_drop pl rest).
  assert (Hlp : length (take pl rest) = pl) by (rewrite length_take; lia).
  pose proof (u16_bound b4 b5) as Hu. fold pl in Hu.
  assert (Hz' : ¬ (take pl rest = [] ∧ next = Byte.x00)).
  { intros [Ht ->]. apply Hz. split; [|done]. rewrite Ht in Hlp. by simpl in Hlp. }
  pose proof (wire6 (Z.to_nat (Z.land (u8 b0) 15)) f1 f2 f3 next hop src dst (take pl rest)
    (drop pl rest) ltac:(lia) ltac:(rewrite Hlp; exact Hu) Hz') as Hw.
  rewrite Hlp in Hw. unfold pl in Hw at 1. rewrite be16_bytes_u16 in Hw.
  rewrite Z2Nat.id in Hw by lia. change 96%Z with (16 * 6)%Z in Hw.
  rewrite <-Hn, byte_of_u8 in Hw. exact Hw.
Qed.

Lemma wire6_parses b p :
  ip_wire b p → (∃ a, pi_destination_ip p = V6 a) → parse_ip_datagram b = Ok (Some p).
Proof.
  intros Hw [a Ha]. destruct Hw as [|tc f1 f2 f3 next hop src dst payload padding Htc Hpl Hz]; [done|].
  change 96%Z with (16 * 6)%Z. destruct (nibbles_of 6 (Z.of_nat tc)) as [Hhi Hlow]; [lia..|].
  unfold parse_ip_datagram. cbn [head]. rewrite Hhi.
  rewrite (bool_decide_false (6 = 4)%Z) by done. rewrite bool_decide_true by done.
  set (b0 := byte_of (16 * 6 + Z.of_nat tc)).
  etransitivity; [apply (parse_ipv6_eq b0 f1 f2 f3 (byte_of (Z.of_nat (length payload / 256)))
             (byte_of (Z.of_nat (length payload))) next hop src dst (payload ++ padding))|].
  rewrite u16_be16_bytes by done. rewrite bool_decide_true; [done|].
  rewrite length_app. split; [|lia]. intros [Hl ->]. apply Hz. by apply nil_length_inv in Hl.
Qed.

Lemma parse_spec b :
  (∃ o, parse_ip_datagram b = Ok o) ∧
  (∀ p, parse_ip_datagram b = Ok (Some p) ↔ ip_wire b p) ∧
  (∀ p, parse_ip_datagram b = Ok (Some p) → 20 ≤ pi_datagram_len p ≤ length b).
Proof.
  assert (Hspec : (∃ o, parse_ip_datagram b = Ok o) ∧
    ∀ p, parse_ip_datagram b = Ok (Some p) → ip_wire b p).
  { unfold parse_ip_datagram. destruct b as [|b0 l]; [by split; [eexists|]|]. cbn [head].
    destruct (bool_decide_reflect (Z.shiftr (u8 b0) 4 = 4%Z)) as [H4|_].
    { by apply parse_ipv4_spec. }
    destruct (bool_decide_reflect (Z.shiftr (u8 b0) 4 = 6%Z)) as [H6|_]; [|by split; [eexists|]].
    by apply parse_ipv6_spec. }
  destruct Hspec as [Hret Hsound]. split_and!; [done| |].
  - intros p. split; [apply Hsound|]. intros Hw.
    destruct (pi_destination_ip p) as [a|a] eqn:Hd; [apply wire4_parses|apply wire6_parses]; by eauto.
  - intros p Hp%Hsound. destruct Hp; simpl; rewrite !length_app; simpl; rewrite ?length_app; simpl; lia.
Qed.

(** The datagram without its padding has the same fields. *)
Lemma take_padded {A : Type} (n : nat) (l l' padding : list A) :
  l = l' ++ padding → length l' = n → take n l = l'.
Proof. intros -> <-. apply take_app_length. Qed.

Lemma ip_wire_trim b p : ip_wire b p → ip_wire (take (pi_datagram_len p) b) p.
Proof.
  intros Hw. destruct Hw as [tos id0 id1 f0 f1 ttl proto c0 c1 src dst options payload padding
    words Hlo Hwords Htot|tc f1 f2 f3 next hop src dst payload padding Htc Hpl Hz]; cbn [pi_datagram_len].
  - erewrite (take_padded _ _ _ padding); [eapply (wire4 _ _ _ _ _ _ _ _ _ src dst options payload []); done| |].
    + cbn [app be16_bytes v4_octets]. by rewrite <-!app_assoc, app_nil_l.
    + cbn [app be16_bytes v4_octets length]. rewrite !length_app. simpl. lia.
  - erewrite (take_padded _ _ _ padding); [eapply (wire6 _ _ _ _ _ _ src dst payload []); done| |].
    + cbn [app be16_bytes v6_octets]. by rewrite <-!app_assoc, app_nil_l.
    + cbn [app be16_bytes v6_octets length]. rewrite !length_app. simpl. lia.
Qed.

(** ** Ethernet frames

    From the ethertype on: tags of four bytes, then an IP ethertype and the
    payload. *)
Inductive eth_wire : list byte → list byte → Prop :=
  | eth_ip hi lo payload :
      is_ip_ethertype (be16 hi lo) = true → eth_wire (hi :: lo :: payload) payload
  | eth_tag hi lo t0 t1 rest payload :
      is_vlan_tag (be16 hi lo) = true → eth_wire rest payload →
      eth_wire (hi :: lo :: t0 :: t1 :: rest) payload.

Lemma vlan_not_ip ethertype : is_vlan_tag ethertype = true → is_ip_ethertype ethertype = false.
Proof. unfold is_vlan_tag, is_ip_ethertype. rewrite bool_decide_eq_true, bool_decide_eq_false. lia. Qed.

(** What the loop computes when it starts behind an ethertype. *)
Definition strips_to (r : Result (option (Z * nat))) (frame payload : list byte) : Prop :=
  ∃ e off, r = Ok (Some (e, off)) ∧ is_ip_ethertype e = true ∧ drop off frame = payload.

Lemma eth_wire_no_tag hi lo rest payload :
  is_vlan_tag (be16 hi lo) = false →
  eth_wire (hi :: lo :: rest) payload ↔ is_ip_ethertype (be16 hi lo) = true ∧ rest = payload.
Proof.
  intros Hv. split; [|intros [? ->]; by apply eth_ip].
  intros Hw. inversion Hw; subst; [done|congruence].
Qed.

Lemma eth_wire_tag hi lo rest payload :
  is_vlan_tag (be16 hi lo) = true →
  eth_wire (hi :: lo :: rest) payload ↔ ∃ t0 t1 rest', rest = t0 :: t1 :: rest' ∧ eth_wire rest' payload.
Proof.
  intros Hv. split; [|intros (? & ? & ? & -> & ?); by apply eth_tag].
  intros Hw. inversion Hw; subst; [|eauto]. apply vlan_not_ip in Hv. congruence.
Qed.

Lemma eth_wire_length l payload : eth_wire l payload → 2 ≤ length l.
Proof. intros []; simpl; lia. Qed.

Lemma drop_4 {A : Type} (l : list A) off :
  off + 4 ≤ length l →
  ∃ a b c d, drop off l = a :: b :: c :: d :: drop (off + 4) l ∧
    l !! (off + 2) = Some c ∧ l !! (off + 3) = Some d.
Proof.
  intros Hl. rewrite <-!lookup_drop, <-drop_drop.
  assert (Hd : 4 ≤ length (drop off l)) by (rewrite length_drop; lia).
  destruct (drop off l) as [|a [|b [|c [|d l']]]]; simpl in Hd; try lia.
  by exists a, b, c, d.
Qed.

Lemma strip_vlan_tags_spec fuel frame hi lo off :
  off ≤ length frame → length frame < off + 4 * fuel →
  let r := strip_vlan_tags fuel frame (be16 hi lo) off in
  (∃ o, r = Ok o ∧ ∀ e off', o = Some (e, off') → off' ≤ length frame) ∧
  ∀ payload, strips_to r frame payload ↔ eth_wire (hi :: lo :: drop off frame) payload.
Proof.
  cbv zeta. revert hi lo off. induction fuel as [|fuel IH]; intros hi lo off Hoff Hlen; [lia|].
  cbn [strip_vlan_tags]. destruct (is_vlan_tag (be16 hi lo)) eqn:Hv.
  2: { split; [eexists; split; [done|]; by intros ? ? [= <- <-]|]. intros payload.
       rewrite eth_wire_no_tag by done. unfold strips_to. naive_solver. }
  case_bool_decide as Hshort.
  - split; [by eexists|]. intros payload. split; [by intros (? & ? & [=] & _)|].
    rewrite eth_wire_tag by done. intros (t0 & t1 & rest & Hd & Hw%eth_wire_length).
    apply (f_equal length) in Hd. rewrite length_drop in Hd. simpl in Hd. lia.
  - destruct (drop_4 frame off) as (t0 & t1 & hi' & lo' & Hd & Hhi & Hlo); [lia|].
    unfold index. rewrite Hhi, Hlo. cbn [expect res_bind].
    destruct (IH hi' lo' (off + 4)) as [Hret Hiff]; [lia..|]. split; [done|].
    intros payload. rewrite Hiff, (eth_wire_tag hi lo) by done. rewrite Hd. naive_solver.
Qed.

Lemma strip_ethernet_spec frame :
  (∃ o, strip_ethernet_link_layer frame = Ok o) ∧
  (∀ payload, strip_ethernet_link_layer frame = Ok (Some payload) ↔
     ∃ addresses rest, frame = addresses ++ rest ∧ length addresses = 12 ∧ eth_wire rest payload).
Proof.
  unfold strip_ethernet_link_layer. case_bool_decide as Hlen.
  - split; [by eexists|]. intros payload. split; [done|].
    intros (addresses & rest & -> & Ha & Hw%eth_wire_length). rewrite length_app in Hlen. lia.
  - assert (Hd : ∃ hi lo, drop 12 frame = hi :: lo :: drop 14 frame ∧
                          frame !! 12 = Some hi ∧ frame !! 13 = Some lo).
    { do 14 (destruct frame as [|? frame]; [simpl in Hlen; lia|]). by do 2 eexists. }
    destruct Hd as (hi & lo & Hd & Hhi & Hlo).
    unfold index. rewrite Hhi, Hlo. cbn [expect res_bind].
    destruct (strip_vlan_tags_spec (length frame) frame hi lo 14) as [(o & Ho & Hin) Hiff]; [lia..|].
    rewrite Ho in *. cbn [res_bind].
    assert (Hval : ∀ payload, (match o with
        | None => Ok None
        | Some (e, off) => if is_ip_ethertype e then Ok (slice frame off (length frame)) else Ok None
        end : Result (option (list byte))) = Ok (Some payload) ↔ strips_to (Ok o) frame payload).
    { intros payload. unfold strips_to. destruct o as [[e off]|]; [|by split; [|intros (? & ? & [=] & _)]].
      specialize (Hin e off eq_refl). destruct (is_ip_ethertype e) eqn:He;
        [|split; [done|intros (? & ? & [= <- <-] & ? & _); congruence]].
      unfold slice. rewrite bool_decide_true by lia.
      rewrite take_ge by (rewrite length_drop; lia).
      split; [intros [= <-]; by exists e, off|by intros (? & ? & [= <- <-] & _ & ->)]. }
    split; [destruct o as [[e off]|]; [destruct (is_ip_ethertype e)|]; by eexists|].
    intros payload. rewrite Hval, Hiff, <-Hd. split.
    + intros Hw. exists (take 12 frame), (drop 12 frame). rewrite take_drop, length_take. split_and!; [done|lia|done].
    + intros (addresses & rest & -> & Ha & Hw). by rewrite <-Ha, drop_app_length.
Qed.

Lemma packet_of_parsed_returns d p i id c :
  parse_ip_datagram d = Ok (Some p) → returns (packet_of_parsed d p i id c).
Proof.
  intros Hp. unfold packet_of_parsed. destruct (packet_matches_config p c); [|done].
  unfold raw_packet_from_parts, index_range, slice. destruct (parse_spec d) as (_ & _ & Hlen).
  rewrite bool_decide_true; [done|]. specialize (Hlen p Hp). lia.
Qed.

Lemma packet_of_datagram_returns d i id c : returns (packet_of_datagram d i id c).
Proof.
  unfold packet_of_datagram. destruct (parse_spec d) as ([[p|] Hp] & _); rewrite Hp; [|done].
  by apply packet_of_parsed_returns.
Qed.

(** A delivered raw packet holds a whole datagram that matches. *)
Definition raw_admits (c : RawSubscriptionConfig) (id : SubscriptionId) (packet : RawPacket) : Prop :=
  rp_subscription_id packet = id ∧
  ∃ p, parse_ip_datagram (rp_datagram packet) = Ok (Some p) ∧
    datagram_len packet = pi_datagram_len p ∧ packet_matches_config p c = true ∧
    rp_source_ip packet = Some (pi_source_ip p) ∧ rp_group packet = Some (raw_group c) ∧
    rp_ip_protocol packet = Some (pi_protocol p) ∧
    md_destination_local_ip (rp_metadata packet) = Some (raw_group c).

Lemma packet_matches_group p c : packet_matches_config p c = true → pi_destination_ip p = raw_group c.
Proof. unfold packet_matches_config. repeat case_bool_decide; simpl; try done; by case_match. Qed.

Lemma packet_of_parsed_admitted d p i id c packet :
  parse_ip_datagram d = Ok (Some p) →
  packet_of_parsed d p i id c = Ok (Some packet) → raw_admits c id packet.
Proof.
  intros Hp. unfold packet_of_parsed. destruct (packet_matches_config p c) eqn:Hm; [|done].
  unfold raw_packet_from_parts, index_range, slice. destruct (parse_spec d) as (_ & Hiff & Hlen).
  rewrite bool_decide_true by (specialize (Hlen p Hp); lia). specialize (Hlen p Hp).
  rewrite drop_0, Nat.sub_0_r. cbn [expect res_bind]. intros [= <-].
  split; [done|]. exists p. unfold datagram_len. simpl. rewrite length_take.
  rewrite (packet_matches_group p c Hm). split_and!; [|lia|done..].
  apply (parse_spec (take _ _)). apply Hiff in Hp. by apply ip_wire_trim.
Qed.

Lemma packet_of_datagram_admitted d i id c packet :
  packet_of_datagram d i id c = Ok (Some packet) → raw_admits c id packet.
Proof.
  unfold packet_of_datagram. destruct (parse_spec d) as ([[p|] Hp] & _); rewrite Hp; [|done].
  by apply packet_of_parsed_admitted.
Qed.

(** ** Properties *)

(** C15: the parser returns without indexing out of range on every byte
    string, and it accepts exactly the byte strings that are an IP datagram
    with padding, with exactly the fields of that datagram: addresses,
    protocol, and a length within the bytes received. An IPv6 datagram with a
    zero payload length and a hop-by-hop header is refused. *)
Theorem parse_accepts_exactly_the_wire_format (b : list byte) :
  (∃ o, parse_ip_datagram b = Ok o) ∧
  (∀ p, parse_ip_datagram b = Ok (Some p) ↔ ip_wire b p) ∧
  (∀ p, parse_ip_datagram b = Ok (Some p) → 20 ≤ pi_datagram_len p ≤ length b).
Proof. apply parse_spec. Qed.

(** The loop over VLAN tags ends and stays inside the frame, and
    the payload of a frame is found exactly when the two addresses are
    followed by any number of tags and an IP ethertype. *)
Theorem strip_ethernet_finds_the_payload (frame : list byte) :
  (∃ o, strip_ethernet_link_layer frame = Ok o) ∧
  (∀ payload, strip_ethernet_link_layer frame = Ok (Some payload) ↔
     ∃ addresses rest, frame = addresses ++ rest ∧ length addresses = 12 ∧ eth_wire rest payload).
Proof. apply strip_ethernet_spec. Qed.

(** A packet built from a parsed datagram holds exactly the
    datagram without the bytes behind it, and building it never reads out of
    range. *)
Theorem raw_packet_is_the_datagram (id : SubscriptionId) (b : list byte) (p : ParsedIpDatagram)
    (m : ReceiveMetadata) :
  parse_ip_datagram b = Ok (Some p) →
  ∃ packet rest, raw_packet_from_parts id b p m = Ok packet ∧
    b = rp_datagram packet ++ rest ∧ datagram_len packet = pi_datagram_len p ∧
    parse_ip_datagram (rp_datagram packet) = Ok (Some p) ∧
    rp_source_ip packet = Some (pi_source_ip p) ∧ rp_group packet = Some (pi_destination_ip p) ∧
    rp_subscription_id packet = id ∧ rp_metadata packet = m.
Proof.
  intros Hp. destruct (parse_spec b) as (_ & Hiff & Hlen). pose proof (Hlen p Hp) as [_ Hle].
  unfold raw_packet_from_parts, index_range, slice. rewrite bool_decide_true by lia.
  rewrite drop_0, Nat.sub_0_r. cbn [expect res_bind]. eexists _, (drop (pi_datagram_len p) b).
  split; [done|]. unfold datagram_len. cbn [rp_datagram rp_source_ip rp_group rp_subscription_id rp_metadata].
  rewrite take_drop, length_take. split_and!; [done|lia| |done..].
  destruct (parse_spec (take (pi_datagram_len p) b)) as (_ & -> & _).
  apply Hiff in Hp. by apply ip_wire_trim.
Qed.

Example raw_packet_is_the_datagram_witness :
  let header := [byte_of 69; byte_of 0; byte_of 0; byte_of 22; byte_of 0; byte_of 0; byte_of 0;
                 byte_of 0; byte_of 1; byte_of 17; byte_of 0; byte_of 0] in
  let b := header ++ v4_octets (v4 10 0 0 1) ++ v4_octets (v4 239 1 2 3) ++
           [byte_of 104; byte_of 105] ++ [byte_of 0; byte_of 0; byte_of 0] in
  ∃ packet rest, b = rp_datagram packet ++ rest ∧ datagram_len packet = 22.
Proof.
  intros header b.
  destruct (raw_packet_is_the_datagram 1 b
    (mkParsed (V4 (v4 10 0 0 1)) (V4 (v4 239 1 2 3)) 17 22) ReceiveMetadata_empty)
    as (packet & rest & _ & Hb & Hl & _); [vm_compute; reflexivity|].
  exists packet, rest. split; [exact Hb|exact Hl].
Defined.
