(* ===== verification/Bpf.v ===== *)
(** * The kernel packet filters of the raw receive path ([src/src/platform/raw.rs])

    The classic BPF programs that the crate generates. The machine that runs
    them is the kernel's: it is the class [BpfMachine], with the documented
    meaning of the instructions that the programs use as its laws, so that a
    filter's theorem is about every machine that obeys them. *)

From S2P Require Import Prelude Net Errors Config IpDatagram.

(** [ClassicBpfInstruction]. *)
Record ClassicBpfInstruction := mkInsn { bi_code : Z; bi_jt : Z; bi_jf : Z; bi_k : Z }.

#[global] Instance ClassicBpfInstruction_eq_dec : EqDecision ClassicBpfInstruction.
Proof. solve_decision. Defined.

Definition BPF_LD : Z := 0x00.
Definition BPF_W : Z := 0x00.
Definition BPF_H : Z := 0x08.
Definition BPF_B : Z := 0x10.
Definition BPF_ABS : Z := 0x20.
Definition BPF_ALU : Z := 0x04.
Definition BPF_AND : Z := 0x50.
Definition BPF_JMP : Z := 0x05.
Definition BPF_JEQ : Z := 0x10.
Definition BPF_K : Z := 0x00.
Definition BPF_RET : Z := 0x06.

Abbreviation LD_W_ABS := (Z.lor (Z.lor BPF_LD BPF_W) BPF_ABS).
Abbreviation LD_H_ABS := (Z.lor (Z.lor BPF_LD BPF_H) BPF_ABS).
Abbreviation LD_B_ABS := (Z.lor (Z.lor BPF_LD BPF_B) BPF_ABS).
Abbreviation ALU_AND_K := (Z.lor (Z.lor BPF_ALU BPF_AND) BPF_K).
Abbreviation JMP_JEQ_K := (Z.lor (Z.lor BPF_JMP BPF_JEQ) BPF_K).
Abbreviation RET_K := (Z.lor BPF_RET BPF_K).

Definition bpf_statement (code value : Z) : ClassicBpfInstruction := mkInsn code 0 0 value.

(** ** The programs *)

(** [bytes.chunks_exact(4)] with [u32::from_be_bytes]. *)
Fixpoint address_words (l : list byte) : list Z :=
  match l with a :: b :: c :: d :: l => be32 a b c d :: address_words l | _ => [] end.

(** [for comparison_index in rejects { instructions[comparison_index].jf = ... }]. *)
Definition set_jf (jf : Z) (i : ClassicBpfInstruction) : ClassicBpfInstruction :=
  mkInsn (bi_code i) (bi_jt i) jf (bi_k i).
Fixpoint patch_rejects (reject_index : nat) (rejects : list nat) (l : list ClassicBpfInstruction)
    : Result (list ClassicBpfInstruction) :=
  match rejects with
  | [] => Ok l
  | i :: rejects =>
      let? insn := index l i in
      let jf := wrap8 (Z.of_nat reject_index - Z.of_nat i - 1) in
      patch_rejects reject_index rejects (<[i := set_jf jf insn]> l)
  end.

(** [add_comparison], for each word of an address. *)
Definition add_comparison (st : list ClassicBpfInstruction * list nat) (offset expected : Z)
    : list ClassicBpfInstruction * list nat :=
  let '(instructions, rejects) := st in
  let instructions := instructions ++ [bpf_statement LD_W_ABS offset] in
  let rejects := rejects ++ [length instructions] in
  (instructions ++ [bpf_statement JMP_JEQ_K expected], rejects).

Definition add_comparisons (st : list ClassicBpfInstruction * list nat) (offset : Z)
    (words : list Z) : list ClassicBpfInstruction * list nat :=
  (foldl (λ '(st, word) expected,
     (add_comparison st (offset + word * 4)%Z expected, word + 1)%Z) (st, 0%Z) words).1.

(** Offsets are [u32]; the callers pass an [ip_offset] of 0, 4 or 14. *)
Definition bpf_ip_filter (c : RawSubscriptionConfig) (ip_offset : Z)
    : Result (list ClassicBpfInstruction) :=
  let v4 := RawSubscriptionConfig.is_ipv4 c in
  let instructions := [bpf_statement LD_B_ABS ip_offset; bpf_statement ALU_AND_K 0xf0] in
  let rejects := [length instructions] in
  let instructions := instructions ++
        [bpf_statement JMP_JEQ_K (if v4 then 0x40 else 0x60)] in
  let '(source_offset, destination_offset) :=
    (if v4 then (ip_offset + 12, ip_offset + 16) else (ip_offset + 8, ip_offset + 24))%Z in
  let st := add_comparisons (instructions, rejects) destination_offset
              (address_words (ip_octets (raw_group c))) in
  let '(instructions, rejects) :=
    match raw_source c with
    | Source source => add_comparisons st source_offset (address_words (ip_octets source))
    | SourceAny => st
    end in
  let instructions := instructions ++ [bpf_statement RET_K u32_max] in
  let reject_index := length instructions in
  let instructions := instructions ++ [bpf_statement RET_K 0] in
  patch_rejects reject_index rejects instructions.

Definition bpf_ip_multicast_family_filter (family : SubscriptionAddressFamily) (ip_offset : Z)
    : Result (list ClassicBpfInstruction) :=
  let '(version, destination_offset, destination_mask, destination_value) :=
    match family with
    | Ipv4Family => (0x40, (ip_offset + 16)%Z, Some 0xf0, 0xe0)
    | Ipv6Family => (0x60, (ip_offset + 24)%Z, None, 0xff)
    end%Z in
  let instructions := [bpf_statement LD_B_ABS ip_offset; bpf_statement ALU_AND_K 0xf0] in
  let rejects := [length instructions] in
  let instructions := instructions ++ [bpf_statement JMP_JEQ_K version] in
  let instructions := instructions ++ [bpf_statement LD_B_ABS destination_offset] in
  let instructions :=
    match destination_mask with
    | Some mask => instructions ++ [bpf_statement ALU_AND_K mask]
    | None => instructions
    end in
  let rejects := rejects ++ [length instructions] in
  let instructions := instructions ++ [bpf_statement JMP_JEQ_K destination_value] in
  let instructions := instructions ++ [bpf_statement RET_K u32_max] in
  let reject_index := length instructions in
  let instructions := instructions ++ [bpf_statement RET_K 0] in
  patch_rejects reject_index rejects instructions.

(** The datalink types of [libc] that the macOS backend knows. *)
Class AppleDatalink := {
  DLT_RAW : Z;
  DLT_NULL : Z;
  DLT_LOOP : Z;
  DLT_EN10MB : Z }.

Definition unsupported_datalink (datalink : Z) : McrxError :=
  RawPacketReceiveUnsupported
    ("macOS BPF datalink type " +:+ display_Z datalink +:+ " is not supported yet").

Definition apple_subscription_filter `{AppleDatalink} (datalink : Z) (c : RawSubscriptionConfig)
    : Result (list ClassicBpfInstruction) :=
  if bool_decide (datalink = DLT_RAW) then bpf_ip_filter c 0
  else if bool_decide (datalink = DLT_NULL ∨ datalink = DLT_LOOP) then bpf_ip_filter c 4
  else if bool_decide (datalink = DLT_EN10MB) then
    let expected_ethertype :=
      (if RawSubscriptionConfig.is_ipv4 c then 0x0800 else 0x86dd)%Z in
    let instructions :=
      [bpf_statement LD_H_ABS 12;
       mkInsn JMP_JEQ_K 7 0 expected_ethertype;
       mkInsn JMP_JEQ_K 0 1 0x8100;
       bpf_statement RET_K u32_max;
       mkInsn JMP_JEQ_K 0 1 0x88a8;
       bpf_statement RET_K u32_max;
       mkInsn JMP_JEQ_K 0 1 0x9100;
       bpf_statement RET_K u32_max;
       bpf_statement RET_K 0] in
    let? filter := bpf_ip_filter c 14 in
    Ok (instructions ++ filter)
  else Err (unsupported_datalink datalink).

(** ** The machine

    [bpf_run program packet pc acc] is what the program returns from
    instruction [pc] on with [acc] in the accumulator: the number of bytes to
    keep. A load outside of the packet ends the program with 0. *)
Definition load8 (packet : list byte) (k : Z) : option Z := u8 <$> packet !! Z.to_nat k.
Definition load16 (packet : list byte) (k : Z) : option Z :=
  a ← packet !! Z.to_nat k; b ← packet !! (Z.to_nat k + 1); Some (be16 a b).
Definition load32 (packet : list byte) (k : Z) : option Z :=
  a ← packet !! Z.to_nat k; b ← packet !! (Z.to_nat k + 1);
  c ← packet !! (Z.to_nat k + 2); d ← packet !! (Z.to_nat k + 3); Some (be32 a b c d).

Class BpfMachine := bpf_run : list ClassicBpfInstruction → list byte → nat → Z → Z.

Class BpfLaws (m : BpfMachine) : Prop := {
  run_load program packet pc acc i load :
    program !! pc = Some i →
    (bi_code i = LD_W_ABS ∧ load = load32 packet (bi_k i) ∨
     bi_code i = LD_H_ABS ∧ load = load16 packet (bi_k i) ∨
     bi_code i = LD_B_ABS ∧ load = load8 packet (bi_k i)) →
    bpf_run program packet pc acc =
      match load with Some v => bpf_run program packet (S pc) v | None => 0%Z end;
  run_and program packet pc acc i :
    program !! pc = Some i → bi_code i = ALU_AND_K →
    bpf_run program packet pc acc = bpf_run program packet (S pc) (Z.land acc (bi_k i));
  run_jeq program packet pc acc i :
    program !! pc = Some i → bi_code i = JMP_JEQ_K →
    bpf_run program packet pc acc =
      bpf_run program packet
        (S pc + Z.to_nat (if bool_decide (acc = bi_k i)%Z then bi_jt i else bi_jf i)) acc;
  run_ret program packet pc acc i :
    program !! pc = Some i → bi_code i = RET_K → bpf_run program packet pc acc = bi_k i }.

(** A machine that obeys the laws: jumps go forward, so the distance to the
    end of the program bounds the steps. *)
Fixpoint interpret (fuel : nat) (program : list ClassicBpfInstruction) (packet : list byte)
    (pc : nat) (acc : Z) : Z :=
  match fuel with
  | O => 0%Z
  | S fuel =>
      match program !! pc with
      | None => 0%Z
      | Some i =>
          let load o := match o with
                        | Some v => interpret fuel program packet (S pc) v
                        | None => 0%Z
                        end in
          if bool_decide (bi_code i = LD_W_ABS) then load (load32 packet (bi_k i))
          else if bool_decide (bi_code i = LD_H_ABS) then load (load16 packet (bi_k i))
          else if bool_decide (bi_code i = LD_B_ABS) then load (load8 packet (bi_k i))
          else if bool_decide (bi_code i = ALU_AND_K) then
            interpret fuel program packet (S pc) (Z.land acc (bi_k i))
          else if bool_decide (bi_code i = JMP_JEQ_K) then
            interpret fuel program packet
              (S pc + Z.to_nat (if bool_decide (acc = bi_k i)%Z then bi_jt i else bi_jf i)) acc
          else if bool_decide (bi_code i = RET_K) then bi_k i
          else 0%Z
      end
  end.

Definition bpf_interpreter : BpfMachine := λ program packet pc acc,
  interpret (length program - pc) program packet pc acc.

Lemma interpret_fuel fuel fuel' program packet pc acc :
  length program - pc ≤ fuel → length program - pc ≤ fuel' →
  interpret fuel program packet pc acc = interpret fuel' program packet pc acc.
Proof.
  assert (Hnone : ∀ f, length program ≤ pc → interpret f program packet pc acc = 0%Z).
  { intros [|f] Hl; [done|]. simpl. by rewrite lookup_ge_None_2. }
  revert fuel' pc acc Hnone. induction fuel as [|fuel IH]; intros fuel' pc acc Hnone Hf Hf'.
  { by rewrite !Hnone by lia. }
  destruct fuel' as [|fuel']; [by rewrite !Hnone by lia|]. cbn [interpret].
  destruct (program !! pc) as [i|] eqn:Hi; [|done]. apply lookup_lt_Some in Hi.
  assert (Hstep : ∀ pc' acc', pc < pc' →
    interpret fuel program packet pc' acc' = interpret fuel' program packet pc' acc').
  { intros pc' acc' Hpc. apply IH; [|lia..]. intros [|f] Hl; [done|]. simpl.
    by rewrite lookup_ge_None_2. }
  repeat case_match; try done; apply Hstep; lia.
Qed.

#[export] Instance bpf_interpreter_laws : BpfLaws bpf_interpreter.
Proof.
  assert (Hstep : ∀ program packet pc pc' acc i, program !! pc = Some i → pc < pc' →
    bpf_interpreter program packet pc' acc =
      interpret (length program - S pc) program packet pc' acc).
  { intros program packet pc pc' acc i Hi%lookup_lt_Some Hpc.
    apply interpret_fuel; lia. }
  assert (Hunfold : ∀ program packet pc acc i, program !! pc = Some i →
    bpf_interpreter program packet pc acc =
      interpret (S (length program - S pc)) program packet pc acc).
  { intros program packet pc acc i Hi%lookup_lt_Some. unfold bpf_interpreter. f_equal. lia. }
  split; unfold bpf_run; intros program packet pc acc i.
  - intros load Hi Hload. rewrite (Hunfold _ _ _ _ i) by done. cbn [interpret]. rewrite Hi.
    destruct Hload as [[-> ->]|[[-> ->]|[-> ->]]]; simpl; destruct (load32 _ _) || destruct (load16 _ _)
      || destruct (load8 _ _); by rewrite ?(Hstep _ _ pc (S pc) _ i) by (done || lia).
  - intros Hi Hc. rewrite (Hunfold _ _ _ _ i), (Hstep _ _ pc (S pc) _ i) by (done || lia).
    cbn [interpret]. by rewrite Hi, Hc.
  - intros Hi Hc. rewrite (Hunfold _ _ _ _ i) by done.
    rewrite (Hstep _ _ pc (S pc + _) _ i) by (done || lia). cbn [interpret]. by rewrite Hi, Hc.
  - intros Hi Hc. rewrite (Hunfold _ _ _ _ i) by done. cbn [interpret]. by rewrite Hi, Hc.
Qed.

(** ** Running the generated programs *)
Section run.
Context (m : BpfMachine) (laws : BpfLaws m).

(** A chain of word comparisons from [pc] that rejects at [reject]. *)
Fixpoint checks_at (program : list ClassicBpfInstruction) (pc reject : nat) (checks : list (Z * Z)) : Prop :=
  match checks with
  | [] => True
  | (offset, expected) :: checks =>
      program !! pc = Some (mkInsn LD_W_ABS 0 0 offset) ∧
      program !! S pc = Some (mkInsn JMP_JEQ_K 0 (Z.of_nat (reject - pc - 2)) expected) ∧
      pc + 2 ≤ reject ∧ checks_at program (S (S pc)) reject checks
  end.

Definition checks_hold (packet : list byte) (checks : list (Z * Z)) : Prop :=
  Forall (λ '(offset, expected), load32 packet offset = Some expected) checks.

Lemma run_checks program packet pc reject checks acc :
  checks_at program pc reject checks → program !! reject = Some (mkInsn RET_K 0 0 0) →
  program !! (pc + 2 * length checks) = Some (mkInsn RET_K 0 0 u32_max) →
  bpf_run program packet pc acc ≠ 0%Z ↔ checks_hold packet checks.
Proof.
  intros Hat Hrej. revert pc acc Hat.
  induction checks as [|[offset expected] checks IH]; intros pc acc Hat Hacc; simpl in Hat.
  - rewrite Nat.mul_0_r, Nat.add_0_r in Hacc.
    rewrite (run_ret _ _ _ _ _ Hacc) by done. split; [by constructor|done].
  - destruct Hat as (Hld & Hjeq & Hle & Hat).
    rewrite (run_load _ _ _ _ _ _ Hld) by (by left).
    unfold checks_hold. rewrite Forall_cons. cbn [bi_k].
    destruct (load32 packet offset) as [v|] eqn:Hv; [|split; [by intros []|by intros [[=] _]]].
    rewrite (run_jeq _ _ _ _ _ Hjeq) by done. simpl.
    case_bool_decide as Hexp.
    + rewrite Nat.add_0_r. rewrite IH; [|done|]. { unfold checks_hold. subst. naive_solver. }
      replace (S (S pc) + 2 * length checks) with (pc + 2 * S (length checks)) by lia. exact Hacc.
    + rewrite Nat2Z.id. replace (S (S (pc + (reject - pc - 2)))) with reject by lia.
      rewrite (run_ret _ _ _ _ _ Hrej) by done. split; [by intros []|]. intros [[= ->] _]. done.
Qed.

(** The first three instructions of every filter. *)
Lemma run_version program packet off version jf acc pc :
  program !! pc = Some (mkInsn LD_B_ABS 0 0 off) →
  program !! (S pc) = Some (mkInsn ALU_AND_K 0 0 0xf0) →
  program !! (S (S pc)) = Some (mkInsn JMP_JEQ_K 0 jf version) →
  program !! (S (S (S pc)) + Z.to_nat jf) = Some (mkInsn RET_K 0 0 0) →
  bpf_run program packet pc acc ≠ 0%Z ↔
  ∃ b, packet !! Z.to_nat off = Some b ∧ Z.land (u8 b) 0xf0 = version ∧
       bpf_run program packet (S (S (S pc))) version ≠ 0%Z.
Proof.
  intros H0 H1 H2 Hrej. rewrite (run_load _ _ _ _ _ _ H0) by (by right; right).
  unfold load8. simpl. destruct (packet !! Z.to_nat off) as [b|]; [|split; [by intros []|by intros (? & [=] & _)]]. simpl.
  rewrite (run_and _ _ _ _ _ H1) by done. rewrite (run_jeq _ _ _ _ _ H2) by done. simpl.
  case_bool_decide as Hv.
  - rewrite Nat.add_0_r, Hv. split; [by eauto|by intros (? & _ & _ & ?)].
  - rewrite (run_ret _ _ _ _ _ Hrej) by done. split; [by intros []|by intros (? & [= <-] & ? & _)].
Qed.
End run.

(** ** The layout of the generated filter *)

Definition word_checks (offset : Z) (words : list Z) : list (Z * Z) :=
  imap (λ i w, (offset + Z.of_nat i * 4, w)%Z) words.

Definition filter_checks (c : RawSubscriptionConfig) (off : Z) : list (Z * Z) :=
  let v4 := RawSubscriptionConfig.is_ipv4 c in
  word_checks (off + if v4 then 16 else 24) (address_words (ip_octets (raw_group c))) ++
  match raw_source c with
  | Source source => word_checks (off + if v4 then 12 else 8) (address_words (ip_octets source))
  | SourceAny => []
  end.

Definition filter_version (c : RawSubscriptionConfig) : Z :=
  if RawSubscriptionConfig.is_ipv4 c then 0x40 else 0x60.

(** A filter that starts at [base]: three instructions that test the version,
    the comparisons, and the two ways out. *)
Record filter_at (program : list ClassicBpfInstruction) (base : nat) (off version : Z)
    (checks : list (Z * Z)) : Prop := {
  fa_load : program !! base = Some (mkInsn LD_B_ABS 0 0 off);
  fa_mask : program !! S base = Some (mkInsn ALU_AND_K 0 0 0xf0);
  fa_version : program !! S (S base) =
    Some (mkInsn JMP_JEQ_K 0 (Z.of_nat (2 * length checks + 1)) version);
  fa_checks : checks_at program (S (S (S base))) (base + 4 + 2 * length checks) checks;
  fa_accept : program !! (base + 3 + 2 * length checks) = Some (mkInsn RET_K 0 0 u32_max);
  fa_reject : program !! (base + 4 + 2 * length checks) = Some (mkInsn RET_K 0 0 0) }.

Lemma ip_filter_layout c off :
  ∃ program, bpf_ip_filter c off = Ok program ∧
    filter_at program 0 off (filter_version c) (filter_checks c off).
Proof.
  destruct c as [[g|g] [|[s|s]] i x]; destruct g; try destruct s;
    (eexists; split; [reflexivity|split; [reflexivity..| |reflexivity|reflexivity]];
     repeat (split; [reflexivity|]; split; [reflexivity|]; split; [simpl; lia|]); exact I).
Qed.

Lemma lookup_app_plus {A : Type} (pre l : list A) n : (pre ++ l) !! (length pre + n) = l !! n.
Proof. rewrite lookup_app_r by lia. f_equal. lia. Qed.

Lemma checks_at_app pre program pc reject checks :
  checks_at program pc reject checks →
  checks_at (pre ++ program) (length pre + pc) (length pre + reject) checks.
Proof.
  revert pc. induction checks as [|[o e] checks IH]; intros pc; simpl; [done|].
  intros (H0 & H1 & Hle & Hat%IH). rewrite <-!Nat.add_succ_r, !lookup_app_plus.
  split_and!; [done| |lia|done]. rewrite H1. do 3 f_equal. lia.
Qed.

Lemma filter_at_app pre program off version checks :
  filter_at program 0 off version checks →
  filter_at (pre ++ program) (length pre) off version checks.
Proof.
  assert (Hl : ∀ n k o, k = length pre + n → program !! n = o → (pre ++ program) !! k = o).
  { intros n k o -> <-. apply lookup_app_plus. }
  intros [H0 H1 H2 Hc Ha Hr]. split.
  - apply (Hl 0); [lia|exact H0].
  - apply (Hl 1); [lia|exact H1].
  - apply (Hl 2); [lia|exact H2].
  - replace (S (S (S (length pre)))) with (length pre + 3) by lia.
    replace (length pre + 4 + 2 * length checks) with (length pre + (0 + 4 + 2 * length checks)) by lia.
    apply checks_at_app, Hc.
  - eapply Hl; [|exact Ha]. lia.
  - eapply Hl; [|exact Hr]. lia.
Qed.

Section filter.
Context (m : BpfMachine) (laws : BpfLaws m).

Lemma run_filter program base off version checks packet acc :
  filter_at program base off version checks →
  bpf_run program packet base acc ≠ 0%Z ↔
  (∃ b, packet !! Z.to_nat off = Some b ∧ Z.land (u8 b) 0xf0 = version) ∧ checks_hold packet checks.
Proof.
  intros []. rewrite (run_version m laws _ _ off version _ _ _ fa_load0 fa_mask0 fa_version0).
  2: { rewrite Nat2Z.id. rewrite <-fa_reject0. f_equal. lia. }
  setoid_rewrite (run_checks m laws _ _ _ _ _ _ fa_checks0 fa_reject0).
  2: { rewrite <-fa_accept0. f_equal. lia. }
  naive_solver.
Qed.
End filter.

(** ** Comparisons and addresses *)

Lemma word_checks_cons offset w words :
  word_checks offset (w :: words) = (offset, w) :: word_checks (offset + 4) words.
Proof.
  unfold word_checks. rewrite imap_cons. f_equal; [f_equal; lia|].
  apply imap_ext. intros i x _. simpl. f_equal. lia.
Qed.

Lemma load32_take packet k a b c d :
  load32 packet (Z.of_nat k) = Some (be32 a b c d) ↔ take 4 (drop k packet) = [a; b; c; d].
Proof.
  unfold load32. rewrite Nat2Z.id, <-!(lookup_drop packet k). rewrite <-(Nat.add_0_r k) at 1.
  rewrite <-lookup_drop. destruct (drop k packet) as [|a' [|b' [|c' [|d' l]]]]; simpl; try by split.
  split; [intros [= (-> & -> & -> & ->)%be32_inj]|intros [= -> -> -> ->]]; done.
Qed.

Lemma checks_hold_app packet l l' :
  checks_hold packet (l ++ l') ↔ checks_hold packet l ∧ checks_hold packet l'.
Proof. apply Forall_app. Qed.

Lemma checks_hold_nil packet : checks_hold packet [] ↔ True.
Proof. split; [done|by constructor]. Qed.

Lemma checks_hold_address packet k l n :
  length l = 4 * n →
  checks_hold packet (word_checks (Z.of_nat k) (address_words l)) ↔ take (length l) (drop k packet) = l.
Proof.
  revert k l. induction n as [|n IH]; intros k l Hl.
  - destruct l; [|done]. split; [done|by constructor].
  - destruct l as [|a [|b [|c [|d l]]]]; simpl in Hl; try lia. cbn [address_words].
    rewrite word_checks_cons. unfold checks_hold. rewrite Forall_cons.
    replace (Z.of_nat k + 4)%Z with (Z.of_nat (k + 4)) by lia.
    rewrite load32_take. fold (checks_hold packet (word_checks (Z.of_nat (k + 4)) (address_words l))).
    rewrite IH by lia. rewrite <-drop_drop.
    destruct (drop k packet) as [|a' [|b' [|c' [|d' r]]]]; simpl;
      (split; [intros [H1 H2]|intros H1]; simplify_eq; try done). by do 4 f_equal.
Qed.

Lemma land_f0 b : Z.land (u8 b) 0xf0 = (16 * Z.shiftr (u8 b) 4)%Z.
Proof. by destruct b. Qed.

(** Where the fields of a parsed datagram are. *)
Definition fields_at (b : list byte) (p : ParsedIpDatagram) : Prop :=
  match pi_source_ip p, pi_destination_ip p with
  | V4 src, V4 dst =>
      (∃ b0, b !! 0 = Some b0 ∧ Z.land (u8 b0) 0xf0 = 0x40%Z) ∧
      take 4 (drop 12 b) = v4_octets src ∧ take 4 (drop 16 b) = v4_octets dst
  | V6 src, V6 dst =>
      (∃ b0, b !! 0 = Some b0 ∧ Z.land (u8 b0) 0xf0 = 0x60%Z) ∧
      take 16 (drop 8 b) = v6_octets src ∧ take 16 (drop 24 b) = v6_octets dst
  | _, _ => False
  end.

Lemma parsed_fields_at b p : parse_ip_datagram b = Ok (Some p) → fields_at b p.
Proof.
  intros Hp. apply (proj1 (proj2 (parse_spec b))) in Hp.
  destruct Hp as [tos id0 id1 f0 f1 ttl proto c0 c1 src dst options payload padding words _ Hw _
    |tc f1 f2 f3 next hop src dst payload padding Htc _ _]; unfold fields_at; simpl.
  - split; [|by destruct src, dst]. eexists. split; [done|]. rewrite land_f0.
    replace (64 + 5 + Z.of_nat words)%Z with (16 * 4 + (5 + Z.of_nat words))%Z by lia.
    by destruct (nibbles_of 4 (5 + Z.of_nat words)) as [-> _]; [lia..|].
  - split; [|by destruct src, dst]. eexists. split; [done|]. rewrite land_f0.
    change 96%Z with (16 * 6)%Z. by destruct (nibbles_of 6 (Z.of_nat tc)) as [-> _]; [lia..|].
Qed.

(** The source of a valid configuration is of the group's family. *)
Lemma valid_source_family c s :
  RawSubscriptionConfig.validate c = Ok () → raw_source c = Source s →
  same_family (raw_group c) s = true.
Proof. intros Hv Hs. apply validate_selection_Ok in Hv. destruct Hv as [_ Hsrc _ _]. rewrite Hs in Hsrc. by apply same_family_bits, Hsrc. Qed.

Lemma lookup_drop_0 {A : Type} (l : list A) k : drop k l !! 0 = l !! k.
Proof. by rewrite lookup_drop, Nat.add_0_r. Qed.

(** The filter's tests on a packet whose datagram parses. *)
Lemma filter_tests_parsed c off packet p :
  RawSubscriptionConfig.validate c = Ok () →
  parse_ip_datagram (drop off packet) = Ok (Some p) →
  ((∃ b, packet !! off = Some b ∧ Z.land (u8 b) 0xf0 = filter_version c) ∧
   checks_hold packet (filter_checks c (Z.of_nat off))) ↔ packet_matches_config p c = true.
Proof.
  intros Hv Hp%parsed_fields_at. pose proof (valid_source_family c) as Hfam.
  unfold fields_at in Hp. rewrite lookup_drop_0, !drop_drop in Hp.
  destruct p as [[src|src] [dst|dst] proto len], c as [[g|g] source i x];
    cbn [pi_source_ip pi_destination_ip raw_group raw_source] in *; try done;
    unfold filter_version, filter_checks, packet_matches_config, RawSubscriptionConfig.is_ipv4,
      RawSubscriptionConfig.family;
    cbn [raw_group raw_source family_of_group pi_source_ip pi_destination_ip same_ip_family negb ip_octets];
    rewrite ?(bool_decide_true (Ipv4Family = Ipv4Family)), ?(bool_decide_false (Ipv6Family = Ipv4Family))
      by done.
  2, 3: destruct Hp as [(b0 & Hb & Hver) _]; split; [|done];
        intros [(b & Hb' & Hver') _]; rewrite Hb in Hb'; injection Hb' as ->; congruence.
  - destruct Hp as (Hb & Hsrc & Hdst). rewrite checks_hold_app.
    replace (Z.of_nat off + 16)%Z with (Z.of_nat (off + 16)) by lia.
    rewrite (checks_hold_address _ _ _ 1) by done. rewrite length_v4_octets.
    rewrite Hdst. destruct source as [|[s|s]]; [| |by specialize (Hfam _ Hv eq_refl)].
    + rewrite (inj_iff v4_octets), checks_hold_nil. case_bool_decide; simpl; naive_solver.
    + replace (Z.of_nat off + 12)%Z with (Z.of_nat (off + 12)) by lia.
      rewrite (checks_hold_address _ _ _ 1) by done. cbn [ip_octets]. rewrite length_v4_octets, Hsrc.
      rewrite !(inj_iff v4_octets). repeat case_bool_decide; simpl; naive_solver.
  - destruct Hp as (Hb & Hsrc & Hdst). rewrite checks_hold_app.
    replace (Z.of_nat off + 24)%Z with (Z.of_nat (off + 24)) by lia.
    rewrite (checks_hold_address _ _ _ 4) by done. rewrite length_v6_octets.
    rewrite Hdst. destruct source as [|[s|s]]; [|by specialize (Hfam _ Hv eq_refl)|].
    + rewrite (inj_iff v6_octets), checks_hold_nil. case_bool_decide; simpl; naive_solver.
    + replace (Z.of_nat off + 8)%Z with (Z.of_nat (off + 8)) by lia.
      rewrite (checks_hold_address _ _ _ 4) by done. cbn [ip_octets]. rewrite length_v6_octets, Hsrc.
      rewrite !(inj_iff v6_octets). repeat case_bool_decide; simpl; naive_solver.
Qed.

(** ** The multicast family filter *)
Section family_filter.
Context (m : BpfMachine) (laws : BpfLaws m).

Definition family_first_byte (family : SubscriptionAddressFamily) (off : nat) : nat :=
  match family with Ipv4Family => off + 16 | Ipv6Family => off + 24 end.

Definition family_version (family : SubscriptionAddressFamily) : Z :=
  match family with Ipv4Family => 0x40 | Ipv6Family => 0x60 end.

Definition multicast_first_byte (family : SubscriptionAddressFamily) (b : byte) : Prop :=
  match family with
  | Ipv4Family => Z.land (u8 b) 0xf0 = 0xe0
  | Ipv6Family => u8 b = 0xff
  end%Z.

Lemma run_family_filter family off packet :
  ∃ program, bpf_ip_multicast_family_filter family (Z.of_nat off) = Ok program ∧
    (bpf_run program packet 0 0 ≠ 0%Z ↔
     (∃ b, packet !! off = Some b ∧ Z.land (u8 b) 0xf0 = family_version family) ∧
     ∃ b, packet !! family_first_byte family off = Some b ∧ multicast_first_byte family b).
Proof.
  destruct family; (eexists; split; [reflexivity|]);
    rewrite (run_version m laws) by reflexivity; rewrite Nat2Z.id; simpl.
  - setoid_rewrite (run_version m laws _ _ (Z.of_nat off + 16) 0xe0 1); [|reflexivity..].
    setoid_rewrite (run_ret (m := m) _ _ _ _ (mkInsn RET_K 0 0 u32_max)); [|reflexivity..].
    replace (Z.to_nat (Z.of_nat off + 16)) with (off + 16) by lia.
    unfold u32_max. simpl. naive_solver lia.
  - setoid_rewrite (run_load (m := m) _ _ 3 _ _ (load8 packet (Z.of_nat off + 24))); [|reflexivity|by right; right].
    unfold load8. replace (Z.to_nat (Z.of_nat off + 24)) with (off + 24) by lia.
    destruct (packet !! (off + 24)) as [b|]; simpl.
    2: { split; [by intros (? & _ & _ & [])|by intros [_ (? & [=] & _)]]. }
    rewrite (run_jeq (m := m) _ _ 4 _ (mkInsn JMP_JEQ_K 0 1 0xff)) by reflexivity. simpl.
    case_bool_decide as Hb; simpl.
    + rewrite (run_ret (m := m) _ _ 5 _ (mkInsn RET_K 0 0 u32_max)) by reflexivity. simpl.
      unfold u32_max. naive_solver lia.
    + rewrite (run_ret (m := m) _ _ 6 _ (mkInsn RET_K 0 0 0)) by reflexivity. simpl. naive_solver.
Qed.
End family_filter.

(** ** Properties *)

(** C16: for every valid configuration the generated program is well
    formed, and on every packet whose datagram parses at the given offset it
    accepts exactly the datagrams that the receive path would deliver: those
    of the configured group, family and source. *)
Theorem ip_filter_agrees_with_the_parser (m : BpfMachine) (laws : BpfLaws m)
    (c : RawSubscriptionConfig) (off : nat) (packet : list byte) (p : ParsedIpDatagram) :
  RawSubscriptionConfig.validate c = Ok () →
  parse_ip_datagram (drop off packet) = Ok (Some p) →
  ∃ program, bpf_ip_filter c (Z.of_nat off) = Ok program ∧
    (bpf_run program packet 0 0 ≠ 0%Z ↔ packet_matches_config p c = true).
Proof.
  intros Hv Hp. destruct (ip_filter_layout c (Z.of_nat off)) as (program & Hprog & Hat).
  exists program. split; [done|].
  rewrite (run_filter m laws _ _ _ _ _ _ _ Hat), Nat2Z.id. by apply filter_tests_parsed.
Qed.

(** On every packet whose datagram parses, the filter of a
    shared capture socket accepts exactly the datagrams of its family with a
    multicast destination. *)
Theorem family_filter_accepts_multicast (m : BpfMachine) (laws : BpfLaws m)
    (family : SubscriptionAddressFamily) (off : nat) (packet : list byte) (p : ParsedIpDatagram) :
  parse_ip_datagram (drop off packet) = Ok (Some p) →
  ∃ program, bpf_ip_multicast_family_filter family (Z.of_nat off) = Ok program ∧
    (bpf_run program packet 0 0 ≠ 0%Z ↔
     family_of_group (pi_destination_ip p) = family ∧ is_multicast (pi_destination_ip p) = true).
Proof.
  intros Hp%parsed_fields_at. destruct (run_family_filter m laws family off packet) as (program & Hprog & Hrun).
  exists program. split; [done|]. rewrite Hrun. clear Hrun Hprog program.
  unfold fields_at in Hp. rewrite lookup_drop_0, !drop_drop in Hp.
  destruct p as [[src|src] [dst|dst] proto len]; simpl in *; try done;
    destruct Hp as ((b0 & Hb & Hver) & _ & Hdst); rewrite Hb;
    apply (f_equal (lookup 0)) in Hdst; rewrite lookup_take_lt, lookup_drop_0 in Hdst by lia;
    destruct family; simpl; simpl in Hdst; try (split; [|by intros []]; intros [(? & [= <-] & ?) _]; congruence).
  - rewrite Hdst. split.
    + intros [_ (b & [= <-] & Hm)]. split; [done|]. by destruct dst as [[] ? ? ?].
    + intros [_ Hm]. split; [by eauto|]. eexists. split; [done|]. by destruct dst as [[] ? ? ?].
  - rewrite Hdst. unfold v6_is_multicast. rewrite bool_decide_eq_true. naive_solver.
Qed.

Definition sample_ipv6_datagram : list byte :=
  map byte_of [96; 0; 0; 0; 0; 1; 17; 1]%Z ++ v6_octets (v6 0x2001 0xdb8 0 0 0 0 0 1) ++
  v6_octets (v6 0xff3e 0 0 0 0 0 0 0x1234) ++ [byte_of 7].
Definition sample_ipv6_parsed : ParsedIpDatagram :=
  mkParsed (V6 (v6 0x2001 0xdb8 0 0 0 0 0 1)) (V6 (v6 0xff3e 0 0 0 0 0 0 0x1234)) 17 41.

Example ip_filter_agrees_with_the_parser_witness :
  let c := RawSubscriptionConfig.ssm_v6 (v6 0xff3e 0 0 0 0 0 0 0x1234) (v6 0x2001 0xdb8 0 0 0 0 0 1) in
  ∃ program, bpf_ip_filter c 0 = Ok program ∧
    @bpf_run bpf_interpreter program sample_ipv6_datagram 0 0 ≠ 0%Z.
Proof.
  intros c.
  destruct (ip_filter_agrees_with_the_parser bpf_interpreter bpf_interpreter_laws c 0
    sample_ipv6_datagram sample_ipv6_parsed) as (program & Hprog & Hrun); [vm_compute; reflexivity..|].
  exists program. split; [exact Hprog|]. apply Hrun. vm_compute. reflexivity.
Defined.

Example family_filter_accepts_multicast_witness :
  ∃ program, bpf_ip_multicast_family_filter Ipv6Family 0 = Ok program ∧
    @bpf_run bpf_interpreter program sample_ipv6_datagram 0 0 ≠ 0%Z.
Proof.
  destruct (family_filter_accepts_multicast bpf_interpreter bpf_interpreter_laws Ipv6Family 0
    sample_ipv6_datagram sample_ipv6_parsed) as (program & Hprog & Hrun); [vm_compute; reflexivity|].
  exists program. split; [exact Hprog|]. apply Hrun. split; vm_compute; reflexivity.
Defined.
