(* ===== verification/AppleBpf.v ===== *)
(** * The macOS BPF receive path ([src/src/platform/raw.rs])

    A read from a BPF device returns a block of records, each a header, the
    captured frame and padding. The layout of the header, the alignment and
    the datalink numbers belong to the system headers and are the class
    [AppleBpf]. *)

From S2P Require Import Prelude Net Errors Config Packet Os SampleOs Ancillary IpDatagram Bpf.

Local Open Scope Z_scope.

Class AppleBpf := {
  apple_datalink :: AppleDatalink;
  bh_caplen_offset : Z;
  bh_hdrlen_offset : Z;
  BPF_ALIGNMENT : Z }.

(** What the system headers promise: the alignment is a small power of two. *)
Class AppleBpfLaws (a : AppleBpf) : Prop := {
  alignment_pow2 : ∃ k, 0 ≤ k ≤ 12 ∧ BPF_ALIGNMENT = 2 ^ k;
  offsets_nonneg : 0 ≤ bh_caplen_offset ∧ 0 ≤ bh_hdrlen_offset ≤ u16_max }.

(** [bytes.get(lo..hi)] with [usize] bounds. *)
Definition zslice {A : Type} (l : list A) (lo hi : Z) : option (list A) :=
  if bool_decide (0 ≤ lo ∧ lo ≤ hi ∧ hi ≤ Z.of_nat (length l))
  then slice l (Z.to_nat lo) (Z.to_nat hi) else None.

Section apple.
Context `{Os, AppleBpf}.

(** [+] on [usize]. *)
Definition add_usize (x y : Z) : Result Z :=
  match checked_add usize_max x y with
  | Some z => Ok z
  | None => if overflow_checks then Panic else Ok (wrap64 (x + y))
  end.

Definition APPLE_BPF_HEADER_FIELDS_LEN : Z := bh_hdrlen_offset + 2.

Definition bpf_word_align (value : Z) : Result Z :=
  let? sum := add_usize value BPF_ALIGNMENT in
  Ok (Z.land (sum - 1) (Z.lnot (BPF_ALIGNMENT - 1))).

Definition read_apple_bpf_record_header (bytes : list byte) (offset : Z) : option (Z * Z) :=
  end_offset ← checked_add usize_max offset APPLE_BPF_HEADER_FIELDS_LEN;
  header ← zslice bytes offset end_offset;
  caplen ← zslice header bh_caplen_offset (bh_caplen_offset + 4);
  hdrlen ← zslice header bh_hdrlen_offset (bh_hdrlen_offset + 2);
  Some (ne_val hdrlen, ne_val caplen).

Definition strip_apple_link_layer (frame : list byte) (datalink : Z) : Result (option (list byte)) :=
  if bool_decide (datalink = DLT_RAW) then Ok (Some frame)
  else if bool_decide (datalink = DLT_NULL ∨ datalink = DLT_LOOP) then
    Ok (slice frame 4 (length frame))
  else if bool_decide (datalink = DLT_EN10MB) then strip_ethernet_link_layer frame
  else Err (unsupported_datalink datalink).

(** What the loop does with one captured frame: [None] to go on. *)
Definition packet_of_frame (frame : list byte) (datalink : Z) (interface_index : option Z)
    (subscription_id : SubscriptionId) (c : RawSubscriptionConfig) : Result (option RawPacket) :=
  let? datagram := strip_apple_link_layer frame datalink in
  match datagram with
  | None => Ok None
  | Some datagram => packet_of_datagram datagram interface_index subscription_id c
  end.

(** The [while] loop; a corrupt record ends the block. *)
Fixpoint next_matching_loop (fuel : nat) (packet_block : list byte) (offset datalink : Z)
    (interface_index : option Z) (subscription_id : SubscriptionId) (c : RawSubscriptionConfig)
    : Result (option RawPacket * Z) :=
  let block_len := Z.of_nat (length packet_block) in
  let? header_end := add_usize offset APPLE_BPF_HEADER_FIELDS_LEN in
  if bool_decide (header_end ≤ block_len) then
    match fuel with
    | O => OutOfFuel
    | S fuel =>
        match read_apple_bpf_record_header packet_block offset with
        | None => Ok (None, block_len)
        | Some (header_len, captured_len) =>
            match checked_add usize_max header_len captured_len with
            | None => Ok (None, block_len)
            | Some record_len =>
                let? aligned := bpf_word_align record_len in
                let next_offset := default block_len (checked_add usize_max offset aligned) in
                if bool_decide (header_len < APPLE_BPF_HEADER_FIELDS_LEN) then Ok (None, block_len)
                else
                  match checked_add usize_max offset header_len with
                  | None => Ok (None, block_len)
                  | Some data_start =>
                      match checked_add usize_max data_start captured_len with
                      | None => Ok (None, block_len)
                      | Some data_end =>
                          if bool_decide (block_len < data_end) then Ok (None, block_len)
                          else
                            let? frame := expect (zslice packet_block data_start data_end) in
                            let? packet := packet_of_frame frame datalink interface_index
                                             subscription_id c in
                            match packet with
                            | Some packet => Ok (Some packet, next_offset)
                            | None =>
                                next_matching_loop fuel packet_block next_offset datalink
                                  interface_index subscription_id c
                            end
                      end
                  end
            end
        end
    end
  else Ok (None, offset).

Definition next_matching_apple_bpf_packet (packet_block : list byte) (start_offset datalink : Z)
    (interface_index : option Z) (subscription_id : SubscriptionId) (c : RawSubscriptionConfig)
    : Result (option RawPacket * Z) :=
  next_matching_loop (S (length packet_block)) packet_block start_offset datalink
    interface_index subscription_id c.

(** ** Specification of the walk *)

Definition align_up (v : Z) : Z := (v + BPF_ALIGNMENT - 1) / BPF_ALIGNMENT * BPF_ALIGNMENT.

(** A record with a whole header and frame at an offset, and where the next
    record starts. *)
Definition record_at (block : list byte) (offset : Z) (frame : list byte) (next : Z) : Prop :=
  ∃ header_len captured_len,
    read_apple_bpf_record_header block offset = Some (header_len, captured_len) ∧
    APPLE_BPF_HEADER_FIELDS_LEN ≤ header_len ∧
    zslice block (offset + header_len) (offset + header_len + captured_len) = Some frame ∧
    next = offset + align_up (header_len + captured_len).

Section scan.
Context (block : list byte) (packet : list byte → Result (option RawPacket)).

Inductive scan (offset : Z) : Result (option RawPacket * Z) → Prop :=
  | scan_end :
      Z.of_nat (length block) < offset + APPLE_BPF_HEADER_FIELDS_LEN → scan offset (Ok (None, offset))
  | scan_corrupt :
      (∀ frame next, ¬ record_at block offset frame next) →
      scan offset (Ok (None, Z.of_nat (length block)))
  | scan_packet frame next p :
      record_at block offset frame next → packet frame = Ok (Some p) → scan offset (Ok (Some p, next))
  | scan_error frame next e :
      record_at block offset frame next → packet frame = Err e → scan offset (Err e)
  | scan_skip frame next r :
      record_at block offset frame next → packet frame = Ok None → scan next r → scan offset r.
End scan.

Lemma checked_add_small max x y : x + y ≤ max → checked_add max x y = Some (x + y).
Proof. intros. unfold checked_add. by rewrite bool_decide_true. Qed.
Lemma add_usize_small x y : x + y ≤ usize_max → add_usize x y = Ok (x + y).
Proof. intros. unfold add_usize, checked_add. by rewrite bool_decide_true. Qed.

(** Every packet of a block is one that matches. *)
Lemma packet_of_frame_admitted frame datalink i id c packet :
  packet_of_frame frame datalink i id c = Ok (Some packet) → raw_admits c id packet.
Proof.
  unfold packet_of_frame. destruct (strip_apple_link_layer frame datalink) as [[d|]|e| |]; try done.
  apply packet_of_datagram_admitted.
Qed.

Lemma next_matching_loop_admitted fuel block offset datalink i id c packet next :
  next_matching_loop fuel block offset datalink i id c = Ok (Some packet, next) →
  raw_admits c id packet.
Proof.
  revert offset. induction fuel as [|fuel IH]; intros offset; cbn [next_matching_loop];
    destruct (add_usize offset _) as [he|e| |]; cbn [res_bind]; try done; case_bool_decide; try done.
  destruct (read_apple_bpf_record_header block offset) as [[h cl]|]; [|done].
  destruct (checked_add usize_max h cl) as [rl|]; [|done].
  destruct (bpf_word_align rl) as [al|e| |]; cbn [res_bind]; try done. case_bool_decide; [done|].
  destruct (checked_add usize_max offset h) as [ds|]; [|done].
  destruct (checked_add usize_max ds cl) as [de|]; [|done]. case_bool_decide; [done|].
  destruct (zslice block ds de) as [frame|]; cbn [expect res_bind]; [|done].
  destruct (packet_of_frame frame datalink i id c) as [[p|]|e| |] eqn:Hp; cbn [res_bind]; try done.
  - intros [= <- _]. by eapply packet_of_frame_admitted.
  - apply IH.
Qed.

Context `{!AppleBpfLaws _}.

Lemma alignment_bounds : 1 ≤ BPF_ALIGNMENT ≤ 4096.
Proof.
  destruct alignment_pow2 as (k & Hk & ->). split.
  - pose proof (Z.pow_pos_nonneg 2 k). lia.
  - change 4096 with (2 ^ 12). apply Z.pow_le_mono_r; lia.
Qed.

Lemma word_align_small v : 0 ≤ v → v + 4096 ≤ usize_max → bpf_word_align v = Ok (align_up v).
Proof.
  intros Hv Hmax. pose proof alignment_bounds as Ha. unfold bpf_word_align.
  rewrite add_usize_small by lia. cbn [res_bind]. f_equal. unfold align_up.
  destruct alignment_pow2 as (k & Hk & Hp). rewrite Hp.
  replace (2 ^ k - 1) with (Z.ones k) by (rewrite Z.ones_equiv; lia).
  rewrite <-Z.ldiff_land, Z.ldiff_ones_r, Z.shiftr_div_pow2, Z.shiftl_mul_pow2 by lia. done.
Qed.

Lemma align_up_bounds v : v ≤ align_up v < v + BPF_ALIGNMENT.
Proof.
  pose proof alignment_bounds. unfold align_up.
  pose proof (Z.div_mod (v + BPF_ALIGNMENT - 1) BPF_ALIGNMENT).
  pose proof (Z.mod_pos_bound (v + BPF_ALIGNMENT - 1) BPF_ALIGNMENT). lia.
Qed.

Lemma ne_val_bounds l : 0 ≤ ne_val l < 256 ^ Z.of_nat (length l).
Proof.
  unfold ne_val. destruct little_endian.
  - induction l as [|b l IH]; [simpl; lia|]. pose proof (u8_bounds b).
    cbn [le_val foldr length]. fold (le_val l). rewrite Nat2Z.inj_succ, Z.pow_succ_r by lia. lia.
  - unfold be_val. induction l as [|b l IH] using rev_ind; [simpl; lia|]. pose proof (u8_bounds b).
    rewrite foldl_app, length_app, Nat2Z.inj_add. simpl. rewrite Z.pow_add_r by lia. lia.
Qed.

Lemma zslice_Some {A : Type} (l : list A) lo hi x :
  zslice l lo hi = Some x ↔
  0 ≤ lo ∧ lo ≤ hi ∧ hi ≤ Z.of_nat (length l) ∧ x = take (Z.to_nat (hi - lo)) (drop (Z.to_nat lo) l).
Proof.
  unfold zslice. case_bool_decide; [|naive_solver]. rewrite slice_Some.
  replace (Z.to_nat hi - Z.to_nat lo)%nat with (Z.to_nat (hi - lo)) by lia. naive_solver lia.
Qed.

Lemma zslice_length {A : Type} (l : list A) lo hi x :
  zslice l lo hi = Some x → Z.of_nat (length x) = hi - lo.
Proof. intros (? & ? & ? & ->)%zslice_Some. rewrite length_take, length_drop. lia. Qed.

Lemma read_header_bounds block offset h cl :
  read_apple_bpf_record_header block offset = Some (h, cl) →
  0 ≤ offset ∧ 0 ≤ h ≤ u16_max ∧ 0 ≤ cl ≤ u32_max.
Proof.
  unfold read_apple_bpf_record_header. intros Hr.
  apply bind_Some in Hr as (e & _ & Hr). apply bind_Some in Hr as (hd & Hhd & Hr).
  apply bind_Some in Hr as (c & Hc & Hr). apply bind_Some in Hr as (hl & Hhl & [= <- <-]).
  apply zslice_Some in Hhd as (? & _). apply zslice_length in Hc, Hhl.
  pose proof (ne_val_bounds c) as Hb1. pose proof (ne_val_bounds hl) as Hb2.
  replace (Z.of_nat (length c)) with 4 in Hb1 by lia.
  replace (Z.of_nat (length hl)) with 2 in Hb2 by lia.
  unfold u16_max, u32_max. change (256 ^ 4) with 4294967296 in Hb1. change (256 ^ 2) with 65536 in Hb2. lia.
Qed.

Lemma packet_of_frame_returns frame datalink i id c :
  returns (packet_of_frame frame datalink i id c).
Proof.
  pose proof packet_of_datagram_returns. unfold packet_of_frame, strip_apple_link_layer.
  repeat case_bool_decide; cbn [res_bind]; try done.
  - by destruct (slice frame 4 (length frame)).
  - destruct (strip_ethernet_spec frame) as [[[d|] ->] _]; by cbn [res_bind].
Qed.

(** The length of a Rust slice. *)
Definition isize_max : Z := 2 ^ 63 - 1.

Lemma next_matching_loop_scan fuel block offset datalink i id c :
  Z.of_nat (length block) ≤ isize_max → 0 ≤ offset ≤ isize_max + 2 ^ 33 →
  Z.of_nat (length block) - offset < Z.of_nat fuel →
  let r := next_matching_loop fuel block offset datalink i id c in
  returns r ∧ scan block (λ frame, packet_of_frame frame datalink i id c) offset r.
Proof.
  cbv zeta. pose proof offsets_nonneg as Hoff. pose proof alignment_bounds as Hal.
  unfold isize_max. intros Hblock.
  change (2 ^ 63 - 1) with 9223372036854775807 in *. change (2 ^ 33) with 8589934592.
  revert offset. induction fuel as [|fuel IH]; intros offset Hofs Hfuel; cbn [next_matching_loop];
    rewrite add_usize_small by (unfold usize_max, u64_max, APPLE_BPF_HEADER_FIELDS_LEN, u16_max in *; lia);
    cbn [res_bind];
    (case_bool_decide as Hend; [|split; [done|apply scan_end; lia]]).
  { unfold APPLE_BPF_HEADER_FIELDS_LEN in *. lia. }
  unfold usize_max, u64_max, u16_max, u32_max in *.
  destruct (read_apple_bpf_record_header block offset) as [[h cl]|] eqn:Hread.
  2: { split; [done|]. apply scan_corrupt. intros frame next (? & ? & Hr & _). congruence. }
  pose proof (read_header_bounds _ _ _ _ Hread) as (_ & Hh & Hcl). unfold u16_max, u32_max in *.
  unfold usize_max, u64_max, APPLE_BPF_HEADER_FIELDS_LEN in *.
  rewrite (checked_add_small _ h cl) by lia.
  pose proof (align_up_bounds (h + cl)) as Hau.
  rewrite word_align_small by (unfold usize_max, u64_max; lia). cbn [res_bind].
  rewrite !checked_add_small by lia. cbn [default].
  case_bool_decide as Hhdr.
  { split; [done|]. apply scan_corrupt. intros frame next (h' & cl' & Hr & Hle & _).
    rewrite Hread in Hr. injection Hr as <- <-. unfold APPLE_BPF_HEADER_FIELDS_LEN in Hle. lia. }
  case_bool_decide as Hdata.
  { split; [done|]. apply scan_corrupt. intros frame next (h' & cl' & Hr & _ & Hz & _).
    rewrite Hread in Hr. injection Hr as <- <-. apply zslice_Some in Hz. lia. }
  destruct (zslice block (offset + h) (offset + h + cl)) as [frame|] eqn:Hz.
  2: { unfold zslice, slice in Hz. rewrite !bool_decide_true in Hz by lia. done. }
  cbn [expect res_bind].
  assert (Hrec : record_at block offset frame (offset + align_up (h + cl))).
  { exists h, cl. unfold APPLE_BPF_HEADER_FIELDS_LEN. split_and!; [done|lia|done|done]. }
  pose proof (packet_of_frame_returns frame datalink i id c) as Hpr.
  destruct (packet_of_frame frame datalink i id c) as [[p|]|e| |] eqn:Hp; try done; cbn [res_bind].
  - split; [done|]. by eapply scan_packet.
  - destruct (IH (offset + align_up (h + cl))) as [Hret Hscan]; [lia..|]. split; [done|].
    by eapply scan_skip.
  - split; [done|]. by eapply scan_error.
Qed.

Lemma record_at_next block offset frame next : record_at block offset frame next → offset < next.
Proof.
  intros (h & cl & Hread & Hle & _ & ->). pose proof offsets_nonneg.
  pose proof (read_header_bounds _ _ _ _ Hread). pose proof (align_up_bounds (h + cl)).
  unfold APPLE_BPF_HEADER_FIELDS_LEN in Hle. lia.
Qed.

Lemma scan_offset block packet offset r :
  scan block packet offset r → 0 ≤ offset → ∀ p next, r = Ok (Some p, next) → offset < next.
Proof.
  induction 1 as [| |off frame n p' Hrec|off frame n e|off frame n r Hrec _ _ IH]; intros Ho p next Hr;
    simplify_eq; apply record_at_next in Hrec; [done|]. specialize (IH ltac:(lia) p next eq_refl). lia.
Qed.

(** ** The subscription filter *)

Definition family_ethertype (c : RawSubscriptionConfig) : Z :=
  if RawSubscriptionConfig.is_ipv4 c then 0x0800 else 0x86dd.

Lemma run_matching_filter (m : BpfMachine) (laws : BpfLaws m) c off program frame p pre base acc :
  RawSubscriptionConfig.validate c = Ok () →
  bpf_ip_filter c (Z.of_nat off) = Ok program → base = length pre →
  parse_ip_datagram (drop off frame) = Ok (Some p) → packet_matches_config p c = true →
  bpf_run (pre ++ program) frame base acc ≠ 0.
Proof.
  intros Hv Hprog -> Hp Hm. destruct (ip_filter_layout c (Z.of_nat off)) as (program' & Hprog' & Hat).
  rewrite Hprog in Hprog'. injection Hprog' as <-.
  apply (run_filter m laws _ _ _ _ _ _ _ (filter_at_app pre _ _ _ _ Hat)).
  rewrite Nat2Z.id. by apply (filter_tests_parsed c off frame p).
Qed.

(** The dispatch on the ethertype in front of the filter. *)
Lemma run_ethernet_filter (m : BpfMachine) (laws : BpfLaws m) c program frame e :
  load16 frame 12 = Some e →
  is_vlan_tag e = true ∨
  e = family_ethertype c ∧
    (∀ acc pre, length pre = 9%nat → bpf_run (pre ++ program) frame 9 acc ≠ 0) →
  bpf_ip_filter c 14 = Ok program →
  ∃ whole, (let? filter := bpf_ip_filter c 14 in
    Ok ([bpf_statement LD_H_ABS 12;
       mkInsn JMP_JEQ_K 7 0 (family_ethertype c);
       mkInsn JMP_JEQ_K 0 1 0x8100;
       bpf_statement RET_K u32_max;
       mkInsn JMP_JEQ_K 0 1 0x88a8;
       bpf_statement RET_K u32_max;
       mkInsn JMP_JEQ_K 0 1 0x9100;
       bpf_statement RET_K u32_max;
       bpf_statement RET_K 0] ++ filter)) = Ok whole ∧ bpf_run whole frame 0 0 ≠ 0.
Proof.
  intros Hload Hcase ->. cbn [res_bind]. eexists. split; [done|].
  rewrite (run_load (m := m) _ _ 0 _ (bpf_statement LD_H_ABS 12) (load16 frame 12));
    [|done|by right; left]. rewrite Hload.
  rewrite (run_jeq (m := m) _ _ 1 _ (mkInsn JMP_JEQ_K 7 0 (family_ethertype c))) by done.
  cbn [bi_k bi_jt bi_jf]. case_bool_decide as He.
  { destruct Hcase as [Hvlan|[_ Hrun]].
    - exfalso. apply vlan_not_ip in Hvlan. unfold is_ip_ethertype in Hvlan.
      rewrite bool_decide_eq_false in Hvlan. apply Hvlan. rewrite He. unfold family_ethertype.
      destruct (RawSubscriptionConfig.is_ipv4 c); auto.
    - apply (Hrun e [_; _; _; _; _; _; _; _; _]). done. }
  destruct Hcase as [Hvlan|[? _]]; [|done].
  unfold is_vlan_tag in Hvlan. rewrite bool_decide_eq_true in Hvlan.
  rewrite (run_jeq (m := m) _ _ _ _ (mkInsn JMP_JEQ_K 0 1 0x8100)) by done.
  cbn [bi_k bi_jt bi_jf]. case_bool_decide.
  { by rewrite (run_ret (m := m) _ _ _ _ (bpf_statement RET_K u32_max)). }
  rewrite (run_jeq (m := m) _ _ _ _ (mkInsn JMP_JEQ_K 0 1 0x88a8)) by done.
  cbn [bi_k bi_jt bi_jf]. case_bool_decide.
  { by rewrite (run_ret (m := m) _ _ _ _ (bpf_statement RET_K u32_max)). }
  rewrite (run_jeq (m := m) _ _ _ _ (mkInsn JMP_JEQ_K 0 1 0x9100)) by done.
  cbn [bi_k bi_jt bi_jf]. case_bool_decide; [|lia].
  by rewrite (run_ret (m := m) _ _ _ _ (bpf_statement RET_K u32_max)).
Qed.

(** ** Properties *)

(** C30: reading the next packet of a BPF block returns, never reads
    outside of the block and refines the declarative scan over its records: a
    record whose frame holds no matching datagram is skipped, the first match
    is delivered with the offset of the record behind it, which is further on,
    and the block ends at its end or at its first corrupt record. *)
Theorem apple_walk_refines_scan (block : list byte) (start_offset datalink : Z)
    (interface_index : option Z) (id : SubscriptionId) (c : RawSubscriptionConfig) :
  Z.of_nat (length block) ≤ isize_max → 0 ≤ start_offset ≤ Z.of_nat (length block) →
  let r := next_matching_apple_bpf_packet block start_offset datalink interface_index id c in
  returns r ∧
  scan block (λ frame, packet_of_frame frame datalink interface_index id c) start_offset r ∧
  (∀ p next, r = Ok (Some p, next) → start_offset < next).
Proof.
  intros Hb Hs. cbv zeta. unfold next_matching_apple_bpf_packet.
  destruct (next_matching_loop_scan (S (length block)) block start_offset datalink interface_index id c)
    as [Hr Hscan]; [done|lia..|]. split_and!; [done..|].
  intros p next Hp. by eapply scan_offset; [|apply Hs|].
Qed.

(** The filter that macOS installs never hides a packet of the
    subscription: it accepts every frame from which the receive path would
    deliver one, provided an untagged Ethernet frame's ethertype names the IP
    version of the subscription. *)
Theorem apple_filter_keeps_matching_frames (m : BpfMachine) (laws : BpfLaws m)
    (datalink : Z) (c : RawSubscriptionConfig) (frame datagram : list byte) (p : ParsedIpDatagram) :
  RawSubscriptionConfig.validate c = Ok () →
  strip_apple_link_layer frame datalink = Ok (Some datagram) →
  parse_ip_datagram datagram = Ok (Some p) → packet_matches_config p c = true →
  (∀ e, load16 frame 12 = Some e → is_ip_ethertype e = true → e = family_ethertype c) →
  ∃ program, apple_subscription_filter datalink c = Ok program ∧ bpf_run program frame 0 0 ≠ 0.
Proof.
  intros Hv Hstrip Hp Hm Het. unfold strip_apple_link_layer, apple_subscription_filter in *.
  case_bool_decide.
  { destruct (ip_filter_layout c 0) as (program & Hprog & _). exists program. split; [done|].
    injection Hstrip as ->. by apply (run_matching_filter m laws c 0 program datagram p [] 0). }
  case_bool_decide.
  { destruct (ip_filter_layout c 4) as (program & Hprog & _). exists program. split; [done|].
    injection Hstrip as Hs. apply slice_Some in Hs as (Hlen & _ & ->).
    rewrite take_ge in Hp by (rewrite length_drop; lia).
    by apply (run_matching_filter m laws c 4 program frame p [] 0). }
  case_bool_decide; [|done].
  apply strip_ethernet_spec in Hstrip as (addresses & rest & -> & Ha & Hw).
  destruct (ip_filter_layout c 14) as (program & Hprog & _).
  assert (Hload : ∃ hi lo rest', rest = hi :: lo :: rest' ∧
            load16 (addresses ++ rest) 12 = Some (be16 hi lo)).
  { assert (Hl : 2 ≤ Z.of_nat (length rest)) by (apply eth_wire_length in Hw; lia).
    destruct rest as [|hi [|lo rest']]; simpl in Hl; try lia. exists hi, lo, rest'. split; [done|].
    unfold load16. change (Z.to_nat 12) with 12%nat.
    rewrite (lookup_app_r _ _ 12), (lookup_app_r _ _ (12 + 1)) by lia. by rewrite Ha. }
  destruct Hload as (hi & lo & rest' & -> & Hload).
  apply (run_ethernet_filter m laws c program _ (be16 hi lo)); [done| |done].
  destruct (is_vlan_tag (be16 hi lo)) eqn:Hvlan; [by left|right].
  apply eth_wire_no_tag in Hw as [Hip ->]; [|done]. split; [by apply (Het (be16 hi lo))|].
  intros acc pre Hpre. apply (run_matching_filter m laws c 14 program _ p pre 9); try done.
  rewrite <-Hp. f_equal. rewrite drop_app_ge by lia. by rewrite Ha.
Qed.
End apple.

(** The macOS layout, and a block with one raw record. *)
#[export] Instance sample_apple_bpf : AppleBpf := {|
  apple_datalink := {| DLT_RAW := 12; DLT_NULL := 0; DLT_LOOP := 108; DLT_EN10MB := 1 |};
  bh_caplen_offset := 8;
  bh_hdrlen_offset := 16;
  BPF_ALIGNMENT := 4 |}.

#[export] Instance sample_apple_laws : AppleBpfLaws sample_apple_bpf.
Proof. split; [exists 2; split; [lia|done]|unfold u16_max; simpl; lia]. Qed.

Definition sample_datagram : list byte :=
  [byte_of 69; byte_of 0; byte_of 0; byte_of 22; byte_of 0; byte_of 0; byte_of 0; byte_of 0;
   byte_of 1; byte_of 17; byte_of 0; byte_of 0] ++ v4_octets (v4 10 0 0 1) ++
  v4_octets sample_group ++ [byte_of 104; byte_of 105].
Definition sample_raw_config : RawSubscriptionConfig := RawSubscriptionConfig.asm sample_group.
Definition sample_parsed : ParsedIpDatagram :=
  mkParsed (V4 (v4 10 0 0 1)) (V4 sample_group) 17 22.
Definition sample_block : list byte :=
  repeat Byte.x00 8 ++ map byte_of [22; 0; 0; 0; 22; 0; 0; 0; 18; 0] ++ sample_datagram.

Example apple_walk_refines_scan_witness :
  ∃ p, next_matching_apple_bpf_packet sample_block 0 12 None 1 sample_raw_config = Ok (Some p, 40) ∧
       rp_datagram p = sample_datagram.
Proof.
  pose proof (apple_walk_refines_scan sample_block 0 12 None 1 sample_raw_config
    ltac:(vm_compute; discriminate) ltac:(split; vm_compute; discriminate)) as (Hr & _ & _).
  destruct (next_matching_apple_bpf_packet sample_block 0 12 None 1 sample_raw_config)
    as [[[p|] n]|e| |] eqn:Hw; vm_compute in Hw; try discriminate Hw.
  injection Hw as <- <-. eexists. split; reflexivity.
Defined.

Example apple_filter_keeps_matching_frames_witness :
  let frame := repeat Byte.x01 12 ++ [Byte.x08; Byte.x00] ++ sample_datagram in
  ∃ program, apple_subscription_filter 1 sample_raw_config = Ok program ∧
    @bpf_run bpf_interpreter program frame 0 0 ≠ 0.
Proof.
  intros frame.
  apply (apple_filter_keeps_matching_frames bpf_interpreter bpf_interpreter_laws 1 sample_raw_config
    frame sample_datagram sample_parsed); try (vm_compute; reflexivity).
  intros e He _. vm_compute in He. injection He as <-. reflexivity.
Defined.
