(* ===== verification/RawPlatform.v ===== *)
(** * The raw platform layer ([src/src/platform/raw.rs])

    Opening raw receive sockets, joining and leaving their groups, and the raw
    receive loops on Linux, macOS and Windows. The system calls that only this
    layer makes are the class [RawOs], next to [Os]. *)

From S2P Require Import Prelude Net Errors Config Packet Os SampleOs Ancillary Platform.
From S2P Require Import IpDatagram Bpf AppleBpf.

Class RawOs `{Os} := {
  raw_apple :: AppleBpf;
  (* Linux packet sockets *)
  packet_socket_new : Io World Socket;
  attach_packet_filter : Socket → list ClassicBpfInstruction → Io World unit;
  bind_packet_socket : Socket → Z → Io World unit;
  recvfrom_packet : Socket → nat → Io World (list byte * Z);
  (* macOS BPF devices *)
  open_bpf_device : Z → Io World Socket;
  EBUSY : Z;
  IFNAMSIZ : nat;
  O_NONBLOCK : Z;
  BIOCIMMEDIATE : Z;
  BIOCSSEESENT : Z;
  BIOCGBLEN : Z;
  BIOCGDLT : Z;
  fcntl_getfl : Socket → Io World Z;
  fcntl_setfl : Socket → Z → Io World unit;
  ioctl_bind_interface : Socket → string → Io World unit;
  ioctl_set_u32 : Socket → Z → Z → Io World unit;
  ioctl_get_u32 : Socket → Z → Io World Z;
  ioctl_set_filter : Socket → list ClassicBpfInstruction → Io World unit;
  if_indextoname : Z → Call World (option string);
  read_bpf : Socket → nat → Io World (list byte);
  (* Windows raw sockets *)
  IPPROTO_UDP : Z;
  SIO_RCVALL : Z;
  SIO_RCVALL_MCAST : Z;
  windows_raw_socket_new : Z → Io World Socket;
  windows_capture_ioctl : Socket → Z → Io World unit;
  windows_recv : Socket → nat → Io World (list byte) }.

Section raw_platform.
Context `{RawOs}.

Abbreviation Eff A := (Op World A).

(** ** State *)

(** [AppleBpfState] behind its [Mutex]: the read buffer, the filled prefix and
    the next record. *)
Record AppleBpfState := mkBpfState {
  bs_buffer : list byte;
  bs_filled_len : nat;
  bs_next_offset : Z }.

(** The fields of [RawReceiveSocket] that depend on the target. *)
Inductive RawBackend :=
  | LinuxBackend
  | AppleBackend (state : AppleBpfState) (poisoned : bool) (datalink : Z) (interface_index : option Z)
  | WindowsBackend (udp_receive_socket : Socket).

Record RawReceiveSocket := mkRawSocket {
  rr_receive_socket : Socket;
  rr_membership_socket : option Socket;
  rr_backend : RawBackend }.

(** ** Interface resolution *)

Definition is_inet (interface : Ipv4Addr) (a : IfSockAddr) : bool :=
  match a with IfInet x => bool_decide (x = interface) | _ => false end.

Definition resolve_ipv4_interface_index (interface : Ipv4Addr) : Eff Z :=
  let* ifaddrs := io (λ e, InterfaceDiscoveryFailed (io_text e)) getifaddrs in
  let* matched := find_interface_index (is_inet interface) ifaddrs in
  mlift (ok_or matched (InterfaceDiscoveryFailed ("failed to resolve IPv4 interface address " +:+
    v4_display interface +:+ " to an interface index"))).

Definition resolve_packet_interface_index (c : RawSubscriptionConfig) : Eff (option Z) :=
  match raw_interface_index c, raw_interface c with
  | Some interface_index, _ => mpure (Some interface_index)
  | None, Some (V6 interface) =>
      if v6_is_unspecified interface then mpure None
      else mmap Some (resolve_ipv6_interface_index interface)
  | None, Some (V4 interface) =>
      if v4_is_unspecified interface then mpure None
      else mmap Some (resolve_ipv4_interface_index interface)
  | None, None => mpure None
  end.

Definition resolve_linux_packet_interface_index (c : RawSubscriptionConfig) : Eff Z :=
  mmap (default 0%Z) (resolve_packet_interface_index c).

(** ** Opening *)

Definition open_membership_socket (family : SubscriptionAddressFamily) : Eff Socket :=
  let* s :=
    match family with
    | Ipv4Family => io SocketCreateFailed (socket_new_udp Ipv4Family)
    | Ipv6Family =>
        let* s := io SocketCreateFailed (socket_new_udp Ipv6Family) in
        io SocketOptionFailed (set_only_v6 s true) ;;* mpure s
    end in
  io SocketOptionFailed (set_nonblocking s true) ;;*
  io SocketBindFailed (bind_socket s
    (match family with
     | Ipv4Family => SockV4 v4_unspecified 0
     | Ipv6Family => SockV6 v6_unspecified 0 0 0
     end)) ;;*
  mpure s.

Definition attach_linux_filter (s : Socket) (instructions : list ClassicBpfInstruction) : Eff unit :=
  io SocketOptionFailed (attach_packet_filter s instructions).

(** [interface_index as i32]. *)
Definition as_i32 (z : Z) : Z := if bool_decide (z < 2 ^ 31)%Z then z else (z - 2 ^ 32)%Z.

Definition open_linux_packet_socket_with_filter (interface_index : Z)
    (instructions : list ClassicBpfInstruction) : Eff Socket :=
  let* s := io RawSocketCreateFailed packet_socket_new in
  attach_linux_filter s instructions ;;*
  io RawSocketBindFailed (bind_packet_socket s (as_i32 interface_index)) ;;*
  mpure s.

Definition open_linux_packet_socket (c : RawSubscriptionConfig) : Eff Socket :=
  let* interface_index := resolve_linux_packet_interface_index c in
  let* instructions := mlift (bpf_ip_filter c 0) in
  open_linux_packet_socket_with_filter interface_index instructions.

Definition open_raw_socket_linux (c : RawSubscriptionConfig) : Eff RawReceiveSocket :=
  mlift (RawSubscriptionConfig.validate c) ;;*
  let* packet_socket := open_linux_packet_socket c in
  let* membership_socket := open_membership_socket (RawSubscriptionConfig.family c) in
  mpure (mkRawSocket packet_socket (Some membership_socket) LinuxBackend).

Definition interface_name_from_index (interface_index : Z) : Eff string :=
  let* name := call (if_indextoname interface_index) in
  mlift (ok_or name (InterfaceDiscoveryFailed ("failed to resolve interface index " +:+
    display_Z interface_index +:+ " to an interface name"))).

(** [for index in 0..256]: the first device that opens; a busy or missing
    device is skipped. *)
Fixpoint open_bpf_from (n : nat) (index : Z) : Eff Socket :=
  match n with
  | O => mthrow (RawSocketCreateFailed (io_error_new NotFound "no available /dev/bpf device found"))
  | S n =>
      let* r := try_io (open_bpf_device index) in
      match r with
      | inl s => mpure s
      | inr e =>
          if bool_decide (io_kind e = PermissionDenied) then mthrow (RawSocketCreateFailed e)
          else if negb (bool_decide (io_raw_os_error e = Some EBUSY)) &&
                  negb (bool_decide (io_kind e = NotFound))
          then mthrow (RawSocketCreateFailed e)
          else open_bpf_from n (index + 1)
      end
  end.
Definition open_available_bpf_device : Eff Socket := open_bpf_from 256 0.

Definition set_fd_nonblocking (s : Socket) : Eff unit :=
  let* flags := io SocketOptionFailed (fcntl_getfl s) in
  io SocketOptionFailed (fcntl_setfl s (Z.lor flags O_NONBLOCK)).

Definition bind_bpf_to_interface (s : Socket) (interface_name : string) : Eff unit :=
  mlift (guard (bool_decide (IFNAMSIZ < String.length interface_name + 1))
    (InterfaceDiscoveryFailed ("interface name " +:+ interface_name +:+ " is too long for BPF"))) ;;*
  io RawSocketBindFailed (ioctl_bind_interface s interface_name).

Definition set_bpf_u32 (s : Socket) (request value : Z) : Eff unit :=
  io SocketOptionFailed (ioctl_set_u32 s request value).
Definition get_bpf_u32 (s : Socket) (request : Z) : Eff Z :=
  io SocketOptionFailed (ioctl_get_u32 s request).

Definition attach_apple_subscription_filter (s : Socket) (datalink : Z) (c : RawSubscriptionConfig)
    : Eff unit :=
  let* instructions := mlift (apple_subscription_filter datalink c) in
  io SocketOptionFailed (ioctl_set_filter s instructions).

(** [AppleBpfSocket]. *)
Record AppleBpfSocket := mkAppleBpfSocket {
  abs_socket : Socket; abs_buffer_len : Z; abs_datalink : Z }.

Definition open_apple_bpf_socket (interface_index : Z) (c : RawSubscriptionConfig) : Eff AppleBpfSocket :=
  let* interface_name := interface_name_from_index interface_index in
  let* s := open_available_bpf_device in
  set_fd_nonblocking s ;;*
  bind_bpf_to_interface s interface_name ;;*
  set_bpf_u32 s BIOCIMMEDIATE 1 ;;*
  set_bpf_u32 s BIOCSSEESENT 1 ;;*
  let* buffer_len := get_bpf_u32 s BIOCGBLEN in
  let* datalink := get_bpf_u32 s BIOCGDLT in
  attach_apple_subscription_filter s datalink c ;;*
  mpure (mkAppleBpfSocket s buffer_len datalink).

Definition open_raw_socket_macos (c : RawSubscriptionConfig) : Eff RawReceiveSocket :=
  mlift (RawSubscriptionConfig.validate c) ;;*
  let* resolved := resolve_packet_interface_index c in
  let* interface_index := mlift (ok_or resolved (RawPacketReceiveUnsupported
    "macOS raw multicast receive requires an explicit interface address or index")) in
  let* bpf := open_apple_bpf_socket interface_index c in
  let* membership_socket := open_membership_socket (RawSubscriptionConfig.family c) in
  mpure (mkRawSocket (abs_socket bpf) (Some membership_socket)
    (AppleBackend (mkBpfState (repeat Byte.x00 (Z.to_nat (abs_buffer_len bpf))) 0 0) false
       (abs_datalink bpf) (Some interface_index))).

Definition windows_raw_capture_ioctl (s : Socket) (code : Z) : Eff unit :=
  io SocketIoctlFailed (windows_capture_ioctl s code).
Definition enable_windows_raw_capture (s : Socket) : Eff unit :=
  let* r := mcatch (F := McrxError) (windows_raw_capture_ioctl s SIO_RCVALL_MCAST) in
  match r with
  | inl _ => mpure ()
  | inr _ => windows_raw_capture_ioctl s SIO_RCVALL
  end.

Definition open_windows_raw_socket (interface : Ipv4Addr) : Eff Socket :=
  let* s := io RawSocketCreateFailed (windows_raw_socket_new 0 (* IPPROTO_IP *)) in
  io RawSocketBindFailed (bind_socket s (SockV4 interface 0)) ;;*
  io SocketOptionFailed (set_nonblocking s true) ;;*
  enable_windows_raw_capture s ;;*
  mpure s.

Definition open_windows_udp_raw_socket (interface : Ipv4Addr) : Eff Socket :=
  let* s := io RawSocketCreateFailed (windows_raw_socket_new IPPROTO_UDP) in
  io RawSocketBindFailed (bind_socket s (SockV4 interface 0)) ;;*
  io SocketOptionFailed (set_nonblocking s true) ;;*
  mpure s.

Definition open_raw_socket_windows (c : RawSubscriptionConfig) : Eff RawReceiveSocket :=
  mlift (RawSubscriptionConfig.validate c) ;;*
  mlift (guard (RawSubscriptionConfig.is_ipv6 c) (RawPacketReceiveUnsupported
    "Windows raw multicast receive currently supports IPv4 only")) ;;*
  let unsupported := RawPacketReceiveUnsupported
    "Windows raw IPv4 receive requires an explicit local IPv4 interface address" in
  let* interface := mlift
    (match raw_interface c with
     | Some (V4 interface) => if v4_is_unspecified interface then Err unsupported else Ok interface
     | _ => Err unsupported
     end) in
  let* raw_socket := open_windows_raw_socket interface in
  let* udp_raw_socket := open_windows_udp_raw_socket interface in
  let* membership_socket := open_membership_socket (RawSubscriptionConfig.family c) in
  mpure (mkRawSocket raw_socket (Some membership_socket) (WindowsBackend udp_raw_socket)).

Definition raw_receive_unsupported : McrxError :=
  RawPacketReceiveUnsupported
    "raw multicast receive is currently implemented on Linux, macOS, and Windows".

Definition open_raw_socket (c : RawSubscriptionConfig) : Eff RawReceiveSocket :=
  match target with
  | Linux => open_raw_socket_linux c
  | MacOs => open_raw_socket_macos c
  | Windows => open_raw_socket_windows c
  | _ => mthrow raw_receive_unsupported
  end.

(** ** Memberships *)

Definition no_membership_socket : McrxError :=
  RawPacketReceiveUnsupported "raw multicast membership sockets are not available on this platform".

(** [join_windows_raw_receive_sockets]: the second join rolls the first one
    back, ignoring the outcome of the rollback. *)
Definition join_windows_raw_receive_sockets (receive udp : Socket) (c : SubscriptionConfig) : Eff unit :=
  match SubscriptionConfig.family c with
  | Ipv6Family => mpure ()
  | Ipv4Family =>
      join_multicast_group receive c ;;*
      let* r := mcatch (F := McrxError) (join_multicast_group udp c) in
      match r with
      | inl _ => mpure ()
      | inr err =>
          mcatch (F := McrxError) (leave_multicast_group receive c) ;;*
          mthrow err
      end
  end.

Definition leave_windows_raw_receive_sockets (receive udp : Socket) (c : SubscriptionConfig) : Eff unit :=
  match SubscriptionConfig.family c with
  | Ipv6Family => mpure ()
  | Ipv4Family =>
      let* primary := mcatch (F := McrxError) (leave_multicast_group receive c) in
      let* second := mcatch (F := McrxError) (leave_multicast_group udp c) in
      match primary, second with
      | inr err, _ | inl _, inr err => mthrow err
      | inl _, inl _ => mpure ()
      end
  end.

Definition join_raw_multicast_group (rs : RawReceiveSocket) (c : RawSubscriptionConfig) : Eff unit :=
  let* membership_socket := mlift (ok_or (rr_membership_socket rs) no_membership_socket) in
  let compat_config := RawSubscriptionConfig.membership_compat_config c in
  join_multicast_group membership_socket compat_config ;;*
  match rr_backend rs with
  | WindowsBackend udp =>
      let* r := mcatch (F := McrxError)
        (join_windows_raw_receive_sockets (rr_receive_socket rs) udp compat_config) in
      match r with
      | inl _ => mpure ()
      | inr err =>
          mcatch (F := McrxError) (leave_multicast_group membership_socket compat_config) ;;*
          mthrow err
      end
  | _ => mpure ()
  end.

Definition leave_raw_multicast_group (rs : RawReceiveSocket) (c : RawSubscriptionConfig) : Eff unit :=
  let* membership_socket := mlift (ok_or (rr_membership_socket rs) no_membership_socket) in
  let compat_config := RawSubscriptionConfig.membership_compat_config c in
  leave_multicast_group membership_socket compat_config ;;*
  match rr_backend rs with
  | WindowsBackend udp =>
      leave_windows_raw_receive_sockets (rr_receive_socket rs) udp compat_config
  | _ => mpure ()
  end.

(** ** Receiving *)

Definition MAX_RAW_FILTERED_READS_PER_RECV : nat := 256.
Definition MAX_IP_DATAGRAM_SIZE : nat := 40 + N.to_nat 65535.

Definition raw_filter_budget_exhausted (filtered_reads : nat) : nat * bool :=
  (S filtered_reads, bool_decide (MAX_RAW_FILTERED_READS_PER_RECV ≤ S filtered_reads)).

(** One non-blocking read: [None] when it would block. *)
Definition nonblocking {A : Type} (m : Io World A) : Eff (option A) :=
  let* r := try_io m in
  match r with
  | inl a => mpure (Some a)
  | inr err => if bool_decide (io_kind err = WouldBlock) then mpure None else mthrow (ReceiveFailed err)
  end.

(** The [loop] that the Linux, Windows and shared-capture receive functions
    share: a read that [deliver] refuses is charged to the budget. *)
Fixpoint raw_recv_loop {A B : Type} (read : Eff (option B)) (deliver : B → Result (option A))
    (fuel filtered_reads : nat) : Eff (option A) :=
  match fuel with
  | O => mfuel
  | S fuel =>
      let* datagram := read in
      match datagram with
      | None => mpure None
      | Some datagram =>
          let* packet := mlift (deliver datagram) in
          match packet with
          | Some packet => mpure (Some packet)
          | None =>
              let '(filtered_reads, exhausted) := raw_filter_budget_exhausted filtered_reads in
              if exhausted then mpure None
              else raw_recv_loop read deliver fuel filtered_reads
          end
      end
  end.

(** [(addr.sll_ifindex > 0).then_some(addr.sll_ifindex as u32)]. *)
Definition ingress_of_ifindex (sll_ifindex : Z) : option Z :=
  if bool_decide (0 < sll_ifindex)%Z then Some sll_ifindex else None.

Definition recv_raw_packet_linux (rs : RawReceiveSocket) (id : SubscriptionId)
    (c : RawSubscriptionConfig) : Eff (option RawPacket) :=
  raw_recv_loop (nonblocking (recvfrom_packet (rr_receive_socket rs) MAX_IP_DATAGRAM_SIZE))
    (λ '(datagram, sll_ifindex),
       packet_of_datagram datagram (ingress_of_ifindex sll_ifindex) id c)
    MAX_RAW_FILTERED_READS_PER_RECV 0.

Definition recv_raw_packet_from_windows_socket (receive_socket : Socket) (id : SubscriptionId)
    (c : RawSubscriptionConfig) (excluded_protocol : option Z) : Eff (option RawPacket) :=
  raw_recv_loop (nonblocking (windows_recv receive_socket MAX_IP_DATAGRAM_SIZE))
    (λ datagram,
       let? parsed := parse_ip_datagram datagram in
       match parsed with
       | None => Ok None
       | Some parsed =>
           if bool_decide (excluded_protocol = Some (pi_protocol parsed)) then Ok None
           else packet_of_parsed datagram parsed None id c
       end)
    MAX_RAW_FILTERED_READS_PER_RECV 0.

Definition recv_raw_packet_windows (rs : RawReceiveSocket) (udp : Socket) (id : SubscriptionId)
    (c : RawSubscriptionConfig) : Eff (option RawPacket) :=
  let* packet := recv_raw_packet_from_windows_socket (rr_receive_socket rs) id c
                   (Some (wrap8 IPPROTO_UDP)) in
  match packet with
  | Some packet => mpure (Some packet)
  | None => recv_raw_packet_from_windows_socket udp id c None
  end.

(** The macOS loop: the rest of the block is searched before the device is
    read again. A read that returns nothing is not charged to the budget, so
    the loop may run as long as the device returns empty reads; [fuel] bounds
    the rounds. The device writes over the front of the buffer. *)
Fixpoint apple_recv_loop (fuel filtered_reads : nat) (s : Socket) (datalink : Z)
    (interface_index : option Z) (id : SubscriptionId) (c : RawSubscriptionConfig)
    : Op (AppleBpfState * World) (option RawPacket) :=
  match fuel with
  | O => mfuel
  | S fuel =>
      let* st := mget in
      let state := st.1 in
      if bool_decide (bs_next_offset state < Z.of_nat (bs_filled_len state))%Z then
        let* block := mlift (expect (slice (bs_buffer state) 0 (bs_filled_len state))) in
        let* (packet, next_offset) := mlift (next_matching_apple_bpf_packet block
                (bs_next_offset state) datalink interface_index id c) in
        on_fst (mmodify (λ st, mkBpfState (bs_buffer st) (bs_filled_len st) next_offset)) ;;*
        match packet with
        | Some packet => mpure (Some packet)
        | None =>
            on_fst (mmodify (λ st, mkBpfState (bs_buffer st) 0 0)) ;;*
            let '(filtered_reads, exhausted) := raw_filter_budget_exhausted filtered_reads in
            if exhausted then mpure None
            else apple_recv_loop fuel filtered_reads s datalink interface_index id c
        end
      else
        let* bytes := on_snd (nonblocking (read_bpf s (length (bs_buffer state)))) in
        match bytes with
        | None => mpure None
        | Some bytes =>
            on_fst (mmodify (λ st, mkBpfState (bytes ++ drop (length bytes) (bs_buffer st))
                                     (length bytes) 0)) ;;*
            apple_recv_loop fuel filtered_reads s datalink interface_index id c
        end
  end.

(** Rounds enough for every budget when no read is empty. *)
Definition apple_recv_fuel : nat := 2 * MAX_RAW_FILTERED_READS_PER_RECV + 1.

(** [recv_raw_packet] on the state behind the socket's lock. *)
Definition recv_raw_packet (id : SubscriptionId) (c : RawSubscriptionConfig)
    : Op (RawReceiveSocket * World) (option RawPacket) := λ st,
  let '(rs, w) := st in
  match rr_backend rs with
  | LinuxBackend => on_snd (recv_raw_packet_linux rs id c) (rs, w)
  | WindowsBackend udp => on_snd (recv_raw_packet_windows rs udp id c) (rs, w)
  | AppleBackend state poisoned datalink interface_index =>
      if poisoned then
        (Err (ReceiveFailed (io_error_other "macOS BPF buffer mutex is poisoned")), (rs, w))
      else
        let '(r, (state', w')) :=
          apple_recv_loop apple_recv_fuel 0 (rr_receive_socket rs) datalink interface_index id c (state, w) in
        let unwound := match r with Panic => true | _ => false end in
        (r, (mkRawSocket (rr_receive_socket rs) (rr_membership_socket rs)
               (AppleBackend state' unwound datalink interface_index), w'))
  end.

(** ** Shared capture (Linux, [raw-shared-capture]) *)

Record RawSharedCaptureKey := mkCaptureKey {
  ck_family : SubscriptionAddressFamily; ck_interface_index : Z }.

Record RawCapturedDatagram := mkCaptured {
  cd_datagram : list byte;
  cd_source_ip : IpAddr;
  cd_group : IpAddr;
  cd_ip_protocol : Z;
  cd_ingress_interface_index : option Z }.

Definition shared_capture_unsupported : McrxError :=
  RawPacketReceiveUnsupported "shared raw capture is currently implemented on Linux only".

Definition shared_raw_capture_key (c : RawSubscriptionConfig) : Eff RawSharedCaptureKey :=
  if bool_decide (target = Linux) then
    mlift (RawSubscriptionConfig.validate c) ;;*
    let* interface_index := resolve_linux_packet_interface_index c in
    mpure (mkCaptureKey (RawSubscriptionConfig.family c) interface_index)
  else mthrow shared_capture_unsupported.

Definition open_shared_raw_socket (key : RawSharedCaptureKey) : Eff RawReceiveSocket :=
  if bool_decide (target = Linux) then
    let* instructions := mlift (bpf_ip_multicast_family_filter (ck_family key) 0) in
    let* packet_socket := open_linux_packet_socket_with_filter (ck_interface_index key) instructions in
    let* membership_socket := open_membership_socket (ck_family key) in
    mpure (mkRawSocket packet_socket (Some membership_socket) LinuxBackend)
  else mthrow shared_capture_unsupported.

Definition captured_of_datagram (key : RawSharedCaptureKey) (datagram : list byte) (sll_ifindex : Z)
    : Result (option RawCapturedDatagram) :=
  let? parsed := parse_ip_datagram datagram in
  match parsed with
  | None => Ok None
  | Some parsed =>
      if negb (same_ip_family (ck_family key) (pi_destination_ip parsed)) then Ok None
      else
        let? bytes := index_range datagram 0 (pi_datagram_len parsed) in
        Ok (Some (mkCaptured bytes (pi_source_ip parsed) (pi_destination_ip parsed)
                    (pi_protocol parsed) (ingress_of_ifindex sll_ifindex)))
  end.

Definition recv_shared_raw_datagram (rs : RawReceiveSocket) (key : RawSharedCaptureKey)
    : Eff (option RawCapturedDatagram) :=
  if bool_decide (target = Linux) then
    raw_recv_loop (nonblocking (recvfrom_packet (rr_receive_socket rs) MAX_IP_DATAGRAM_SIZE))
      (λ '(datagram, sll_ifindex), captured_of_datagram key datagram sll_ifindex)
      MAX_RAW_FILTERED_READS_PER_RECV 0
  else mthrow shared_capture_unsupported.

(** ** Totality of the set-up and membership calls *)

#[local] Hint Resolve total_io total_try_io total_call total_find_interface_index
  total_resolve_ipv6_interface_index : total.

Lemma total_resolve_packet_interface_index c :
  cfg_unix target = true → total (resolve_packet_interface_index c).
Proof.
  intros Hu. pose proof (λ i, total_resolve_ipv6_interface_index i (unix_laws Hu)).
  unfold resolve_packet_interface_index, resolve_ipv4_interface_index. auto 12 with total.
Qed.
#[local] Hint Resolve total_resolve_packet_interface_index : total.

Lemma total_open_membership_socket family : total (open_membership_socket family).
Proof. unfold open_membership_socket. auto 12 with total. Qed.
#[local] Hint Resolve total_open_membership_socket : total.

Lemma total_open_linux_packet_socket_with_filter i l : total (open_linux_packet_socket_with_filter i l).
Proof. unfold open_linux_packet_socket_with_filter, attach_linux_filter. auto 12 with total. Qed.
#[local] Hint Resolve total_open_linux_packet_socket_with_filter : total.

Lemma returns_raw_validate c : returns (RawSubscriptionConfig.validate c).
Proof. apply validate_selection_returns. Qed.
#[local] Hint Resolve returns_raw_validate : total.

Lemma returns_bpf_ip_filter c off : returns (bpf_ip_filter c off).
Proof. by destruct (ip_filter_layout c off) as (program & -> & _). Qed.
#[local] Hint Resolve returns_bpf_ip_filter : total.

Lemma returns_family_filter family off : returns (bpf_ip_multicast_family_filter family off).
Proof. by destruct family. Qed.
#[local] Hint Resolve returns_family_filter : total.

Lemma total_shared_raw_capture_key c : total (shared_raw_capture_key c).
Proof.
  unfold shared_raw_capture_key. case_bool_decide as Ht; [|apply total_mthrow].
  assert (Hu : cfg_unix target = true) by by rewrite Ht.
  pose proof (λ c, total_resolve_packet_interface_index c Hu).
  unfold resolve_linux_packet_interface_index. auto 12 with total.
Qed.

Lemma total_open_shared_raw_socket key : total (open_shared_raw_socket key).
Proof. unfold open_shared_raw_socket. auto 12 with total. Qed.

Lemma total_open_bpf_from n i : total (open_bpf_from n i).
Proof. revert i. induction n; intros i; simpl; auto 12 with total. Qed.
Lemma total_open_available_bpf_device : total open_available_bpf_device.
Proof. apply total_open_bpf_from. Qed.
#[local] Hint Resolve total_open_available_bpf_device : total.
#[local] Opaque open_available_bpf_device.

Lemma returns_apple_subscription_filter datalink c : returns (apple_subscription_filter datalink c).
Proof. unfold apple_subscription_filter. auto 12 with total. Qed.
#[local] Hint Resolve returns_apple_subscription_filter : total.

Lemma total_open_apple_bpf_socket i c : total (open_apple_bpf_socket i c).
Proof.
  unfold open_apple_bpf_socket, interface_name_from_index,
    set_fd_nonblocking, bind_bpf_to_interface, set_bpf_u32, get_bpf_u32, attach_apple_subscription_filter.
  repeat first [apply total_then; [|intros]|apply total_mpure|apply total_mlift]; auto 8 with total.
Qed.
#[local] Hint Resolve total_open_apple_bpf_socket : total.

Lemma total_open_windows_sockets i :
  total (open_windows_raw_socket i) ∧ total (open_windows_udp_raw_socket i).
Proof.
  unfold open_windows_raw_socket, open_windows_udp_raw_socket, enable_windows_raw_capture,
    windows_raw_capture_ioctl. split; auto 12 with total.
Qed.

Lemma total_open_raw_socket c : total (open_raw_socket c).
Proof.
  unfold open_raw_socket. destruct target eqn:Ht; try apply total_mthrow.
  - assert (Hu : cfg_unix target = true) by by rewrite Ht.
    pose proof (λ c, total_resolve_packet_interface_index c Hu).
    unfold open_raw_socket_linux, open_linux_packet_socket, resolve_linux_packet_interface_index.
    auto 12 with total.
  - assert (Hu : cfg_unix target = true) by by rewrite Ht.
    pose proof (λ c, total_resolve_packet_interface_index c Hu).
    unfold open_raw_socket_macos. auto 12 with total.
  - unfold open_raw_socket_windows.
    repeat first [apply total_open_windows_sockets|apply total_then; [|intros]|apply total_mpure
                 |apply total_mlift]; auto 8 with total.
Qed.

(** ** The receive loop

    As in the UDP layer: a run skips fewer than 256 reads and ends with the
    first event that is not a skip, or it skips 256. *)
Section raw_run.
Context {A B : Type} (read : Eff (option B)) (deliver : B → Result (option A)).

Inductive raw_skips : nat → World → World → Prop :=
  | raw_skips_O w : raw_skips 0 w w
  | raw_skips_S n w w1 w2 datagram :
      raw_skips n w w1 → read w1 = (Ok (Some datagram), w2) → deliver datagram = Ok None →
      raw_skips (S n) w w2.

Inductive raw_event (w : World) : Result (option A) → World → Prop :=
  | raw_event_packet w' datagram packet :
      read w = (Ok (Some datagram), w') → deliver datagram = Ok (Some packet) →
      raw_event w (Ok (Some packet)) w'
  | raw_event_would_block w' : read w = (Ok None, w') → raw_event w (Ok None) w'
  | raw_event_error w' e : read w = (Err e, w') → raw_event w (Err e) w'.

Inductive raw_run (w : World) : Result (option A) → World → Prop :=
  | raw_run_event n w1 r w2 :
      n < MAX_RAW_FILTERED_READS_PER_RECV → raw_skips n w w1 → raw_event w1 r w2 → raw_run w r w2
  | raw_run_budget w1 :
      raw_skips MAX_RAW_FILTERED_READS_PER_RECV w w1 → raw_run w (Ok None) w1.

Lemma raw_recv_loop_run fuel filtered w0 w :
  total read → (∀ d, ∃ o, deliver d = Ok o) → raw_skips filtered w0 w →
  fuel + filtered = MAX_RAW_FILTERED_READS_PER_RECV → 0 < fuel →
  let '(r, w') := raw_recv_loop read deliver fuel filtered w in returns r ∧ raw_run w0 r w'.
Proof.
  intros Htot Hdel. revert filtered w. induction fuel as [|fuel IH]; intros filtered w Hs Hf Hpos; [lia|].
  cbn [raw_recv_loop]. unfold mthen at 1. pose proof (Htot w) as Hret.
  destruct (read w) as [[[d|]|e| |] w1] eqn:Hr; try contradiction.
  - unfold mthen, mlift. destruct (Hdel d) as [[p|] Hp]; rewrite Hp.
    + split; [done|]. eapply raw_run_event; [|done|by eapply raw_event_packet]. lia.
    + assert (Hs' : raw_skips (S filtered) w0 w1) by by econstructor.
      unfold raw_filter_budget_exhausted. case_bool_decide.
      * split; [done|]. apply raw_run_budget.
        by assert (MAX_RAW_FILTERED_READS_PER_RECV = S filtered) as -> by lia.
      * apply IH; [done|lia..].
  - split; [done|]. eapply raw_run_event; [|done|by apply raw_event_would_block]. lia.
  - split; [done|]. eapply raw_run_event; [|done|by apply raw_event_error]. lia.
Qed.

Lemma raw_recv_run w :
  total read → (∀ d, ∃ o, deliver d = Ok o) →
  let '(r, w') := raw_recv_loop read deliver MAX_RAW_FILTERED_READS_PER_RECV 0 w in
  returns r ∧ raw_run w r w'.
Proof.
  intros Hr Hd.
  apply raw_recv_loop_run; try done; [constructor|unfold MAX_RAW_FILTERED_READS_PER_RECV; lia].
Qed.

Lemma raw_run_packet w p w' :
  raw_run w (Ok (Some p)) w' → ∃ d, deliver d = Ok (Some p).
Proof. inversion 1 as [n w1 r w2 _ _ Hev|]; subst. inversion Hev; subst. eauto. Qed.
End raw_run.

Lemma total_nonblocking {A : Type} (m : Io World A) : total (nonblocking m).
Proof. unfold nonblocking. auto 10 with total. Qed.

Lemma packet_of_datagram_ok d i id c : ∃ o, packet_of_datagram d i id c = Ok o.
Proof.
  unfold packet_of_datagram. destruct (parse_spec d) as ([[p|] Hp] & _ & Hlen); rewrite Hp; [|by eexists].
  cbn [res_bind]. unfold packet_of_parsed. destruct (packet_matches_config p c); [|by eexists].
  unfold raw_packet_from_parts, index_range, slice. rewrite bool_decide_true; [by eexists|].
  specialize (Hlen p Hp). lia.
Qed.

(** ** What the receive functions deliver *)

Lemma windows_deliver_ok excluded datagram id c :
  ∃ o, (let? parsed := parse_ip_datagram datagram in
        match parsed with
        | None => Ok None
        | Some parsed =>
            if bool_decide (excluded = Some (pi_protocol parsed)) then Ok None
            else packet_of_parsed datagram parsed None id c
        end) = Ok o ∧ ∀ p, o = Some p → raw_admits c id p.
Proof.
  destruct (packet_of_datagram_ok datagram None id c) as [o Ho]. unfold packet_of_datagram in Ho.
  destruct (parse_spec datagram) as ([[p|] Hp] & _); rewrite Hp in *; [|by exists None].
  cbn [res_bind] in *. case_bool_decide; [by exists None|]. exists o. split; [done|].
  intros q ->. by eapply packet_of_parsed_admitted.
Qed.

Lemma windows_socket_run s id c excluded w :
  let '(r, w') := recv_raw_packet_from_windows_socket s id c excluded w in
  returns r ∧ ∀ p, r = Ok (Some p) → raw_admits c id p.
Proof.
  unfold recv_raw_packet_from_windows_socket.
  match goal with |- context [raw_recv_loop ?read ?deliver] =>
    pose proof (raw_recv_run read deliver w (total_nonblocking _)) as Hrun;
    pose proof (raw_run_packet read deliver w) as Hpkt
  end.
  destruct (raw_recv_loop _ _ _ _ w) as [r w'].
  destruct Hrun as [Hret Hrun].
  { intros d. destruct (windows_deliver_ok excluded d id c) as (o & Ho & _). by exists o. }
  split; [done|]. intros p ->. destruct (Hpkt _ _ Hrun) as [d Hd].
  destruct (windows_deliver_ok excluded d id c) as (o & Ho & Hadm).
  rewrite Ho in Hd. injection Hd as ->. by apply Hadm.
Qed.

Lemma linux_run rs id c w :
  let '(r, w') := recv_raw_packet_linux rs id c w in
  returns r ∧
  raw_run (nonblocking (recvfrom_packet (rr_receive_socket rs) MAX_IP_DATAGRAM_SIZE))
    (λ '(datagram, sll_ifindex), packet_of_datagram datagram (ingress_of_ifindex sll_ifindex) id c) w r w'.
Proof.
  apply raw_recv_run; [apply total_nonblocking|]. intros [d i]. apply packet_of_datagram_ok.
Qed.

Lemma apple_recv_loop_admitted fuel filtered s datalink i id c st p st' :
  apple_recv_loop fuel filtered s datalink i id c st = (Ok (Some p), st') → raw_admits c id p.
Proof.
  revert filtered st. induction fuel as [|fuel IH]; intros filtered st; [done|].
  cbn [apple_recv_loop]. unfold mthen at 1, mget. case_bool_decide.
  - unfold mthen at 1, mlift. destruct (expect _) as [block|e| |]; try done.
    unfold mthen at 1, mlift.
    destruct (next_matching_apple_bpf_packet _ _ _ _ _ _) as [[[q|] n]|e| |] eqn:Hn; try done;
      unfold mthen, on_fst, mmodify; simpl.
    + intros [= <- _]. by eapply next_matching_loop_admitted.
    + unfold raw_filter_budget_exhausted. case_bool_decide; [done|]. apply IH.
  - unfold mthen at 1, on_snd. destruct (nonblocking _ _) as [[[b|]|e| |] w]; try done.
    unfold mthen, on_fst, mmodify. simpl. apply IH.
Qed.

(** ** Joining on Windows

    [joined w s]: socket [s] holds a given membership. *)

(** The kernel calls of a membership on a target other than Apple's. *)
Definition kernel_join (m : Ipv4Membership) (s : Socket) : Io World unit :=
  let interface := default v4_unspecified (m4_interface m) in
  match m4_source m with
  | None => join_multicast_v4 s (m4_group m) interface
  | Some source => join_ssm_v4 s source (m4_group m) interface
  end.
Definition kernel_leave_membership (m : Ipv4Membership) (s : Socket) : Io World unit :=
  let interface := default v4_unspecified (m4_interface m) in
  match m4_source m with
  | None => leave_multicast_v4 s (m4_group m) interface
  | Some source => leave_ssm_v4 s source (m4_group m) interface
  end.

(** What the kernel does with the membership calls: an accepted call changes
    the membership of its socket only, a refused one changes nothing, and
    dropping a membership that is held is accepted. *)
Record kernel_membership_laws (m : Ipv4Membership) (joined : World → Socket → Prop) : Prop := {
  kernel_join_ok s w w' : kernel_join m s w = (inl (), w') → ∀ s', joined w' s' ↔ joined w s' ∨ s' = s;
  kernel_join_refused s w w' e : kernel_join m s w = (inr e, w') → ∀ s', joined w' s' ↔ joined w s';
  kernel_leave_ok s w w' :
    kernel_leave_membership m s w = (inl (), w') → ∀ s', joined w' s' ↔ joined w s' ∧ s' ≠ s;
  kernel_leave_refused s w w' e :
    kernel_leave_membership m s w = (inr e, w') → ∀ s', joined w' s' ↔ joined w s';
  kernel_leave_held s w : joined w s → ∃ w', kernel_leave_membership m s w = (inl (), w') }.

Lemma membership_family c m :
  SubscriptionConfig.ipv4_membership c = Some m → SubscriptionConfig.family c = Ipv4Family.
Proof.
  unfold SubscriptionConfig.ipv4_membership, SubscriptionConfig.family, family_of_group.
  by destruct (cfg_group c).
Qed.

Lemma membership_calls c m s w :
  cfg_apple target = false → SubscriptionConfig.ipv4_membership c = Some m →
  join_multicast_group s c w = io MulticastJoinFailed (kernel_join m s) w ∧
  leave_multicast_group s c w = io MulticastLeaveFailed (kernel_leave_membership m s) w.
Proof.
  intros Ht Hm. pose proof (membership_family c m Hm) as Hf.
  unfold join_multicast_group, leave_multicast_group, join_source_multicast_v4, leave_source_multicast_v4,
    kernel_join, kernel_leave_membership, resolve_ipv4_interface, ipv4_membership, mthen, mlift.
  rewrite Hf, Hm, Ht. simpl. by destruct (m4_source m).
Qed.

Section membership.
Context (c : RawSubscriptionConfig) (m : Ipv4Membership) (joined : World → Socket → Prop).

Let compat := RawSubscriptionConfig.membership_compat_config c.

Context (not_apple : cfg_apple target = false)
  (membership : SubscriptionConfig.ipv4_membership compat = Some m)
  (laws : kernel_membership_laws m joined).

Lemma law_join s w w' :
  join_multicast_group s compat w = (Ok (), w') → ∀ s', joined w' s' ↔ joined w s' ∨ s' = s.
Proof.
  rewrite (proj1 (membership_calls compat m s w not_apple membership)). unfold io.
  destruct (kernel_join m s w) as [[[]|e] w1] eqn:Hk; intros [= <-]. by apply (kernel_join_ok _ _ laws).
Qed.

Lemma law_join_error s w w' e :
  join_multicast_group s compat w = (Err e, w') → ∀ s', joined w' s' ↔ joined w s'.
Proof.
  rewrite (proj1 (membership_calls compat m s w not_apple membership)). unfold io.
  destruct (kernel_join m s w) as [[[]|e'] w1] eqn:Hk; intros [= _ <-].
  by apply (kernel_join_refused _ _ laws _ _ _ _ Hk).
Qed.

Lemma law_leave s w w' :
  leave_multicast_group s compat w = (Ok (), w') → ∀ s', joined w' s' ↔ joined w s' ∧ s' ≠ s.
Proof.
  rewrite (proj2 (membership_calls compat m s w not_apple membership)). unfold io.
  destruct (kernel_leave_membership m s w) as [[[]|e] w1] eqn:Hk; intros [= <-].
  by apply (kernel_leave_ok _ _ laws).
Qed.

Lemma law_leave_error s w w' e :
  leave_multicast_group s compat w = (Err e, w') → ∀ s', joined w' s' ↔ joined w s'.
Proof.
  rewrite (proj2 (membership_calls compat m s w not_apple membership)). unfold io.
  destruct (kernel_leave_membership m s w) as [[[]|e'] w1] eqn:Hk; intros [= _ <-].
  by apply (kernel_leave_refused _ _ laws _ _ _ _ Hk).
Qed.

Lemma law_leave_held s w : joined w s → ∃ w', leave_multicast_group s compat w = (Ok (), w').
Proof.
  intros Hs. rewrite (proj2 (membership_calls compat m s w not_apple membership)). unfold io.
  destruct (kernel_leave_held _ _ laws s w Hs) as [w' ->]. by exists w'.
Qed.


Lemma windows_join_rollback receive udp w e w' :
  join_windows_raw_receive_sockets receive udp compat w = (Err e, w') →
  ∀ s, joined w' s → joined w s.
Proof.
  unfold join_windows_raw_receive_sockets. destruct (SubscriptionConfig.family compat); [|done].
  unfold mthen at 1.
  destruct (join_multicast_group receive compat w) as [[[]|e1| |] w1] eqn:H1; intros Heq; simplify_eq.
  - pose proof (law_join _ _ _ H1) as Hw1. unfold mthen at 1, mcatch at 1 in Heq.
    destruct (join_multicast_group udp compat w1) as [[[]|e2| |] w2] eqn:H2; simplify_eq.
    pose proof (law_join_error _ _ _ _ H2) as Hw2.
    destruct (law_leave_held receive w2) as [w3 H3]; [rewrite Hw2, Hw1; by right|].
    pose proof (law_leave _ _ _ H3) as Hw3.
    unfold mthen, mcatch in Heq. rewrite H3 in Heq. injection Heq as _ <-.
    intros s Hs. rewrite Hw3, Hw2, Hw1 in Hs. tauto.
  - intros s. by rewrite (law_join_error _ _ _ _ H1).
Qed.

Lemma windows_join_success receive udp w w' :
  SubscriptionConfig.family compat = Ipv4Family →
  join_windows_raw_receive_sockets receive udp compat w = (Ok (), w') →
  ∀ s, joined w' s ↔ joined w s ∨ s = receive ∨ s = udp.
Proof.
  intros Hf. unfold join_windows_raw_receive_sockets. rewrite Hf. unfold mthen at 1.
  destruct (join_multicast_group receive compat w) as [[[]|e1| |] w1] eqn:H1; intros Heq; simplify_eq.
  unfold mthen at 1, mcatch at 1 in Heq.
  destruct (join_multicast_group udp compat w1) as [[[]|e2| |] w2] eqn:H2; simplify_eq.
  - injection Heq as <-. intros s.
    rewrite (law_join _ _ _ H2), (law_join _ _ _ H1). tauto.
  - unfold mthen, mcatch in Heq. by destruct (leave_multicast_group _ _ _) as [[] ?].
Qed.

Lemma raw_join_rollback rs udp w e w' :
  rr_backend rs = WindowsBackend udp → (∀ s, ¬ joined w s) →
  join_raw_multicast_group rs c w = (Err e, w') → ∀ s, ¬ joined w' s.
Proof.
  intros Hb Hnone. unfold join_raw_multicast_group, mthen at 1, mlift, ok_or. rewrite Hb.
  destruct (rr_membership_socket rs) as [ms|]; [|by intros [= _ <-]].
  fold compat. unfold mthen at 1.
  destruct (join_multicast_group ms compat w) as [[[]|e1| |] w1] eqn:H1; intros Heq; simplify_eq.
  2: { intros s. by rewrite (law_join_error _ _ _ _ H1). }
  pose proof (law_join _ _ _ H1) as Hw1. unfold mthen at 1, mcatch at 1 in Heq.
  destruct (join_windows_raw_receive_sockets _ udp compat w1) as [[[]|e2| |] w2] eqn:H2; simplify_eq.
  pose proof (windows_join_rollback _ _ _ _ _ H2) as Hw2. unfold mthen, mcatch in Heq.
  destruct (leave_multicast_group ms compat w2) as [[[]|e3| |] w3] eqn:H3; simplify_eq;
    injection Heq as _ <-; intros s Hs.
  - apply (law_leave _ _ _ H3) in Hs as [Hs Hne]. apply Hw2, Hw1 in Hs as [Hs|Hs]; [|done].
    by eapply Hnone.
  - apply (law_leave_error _ _ _ _ H3) in Hs.
    destruct (Hw1 s) as [Hs' _]. destruct (Hs' (Hw2 s Hs)) as [Hs'' | ->]; [by eapply Hnone|].
    destruct (law_leave_held ms w2 Hs) as [w4 H4]. congruence.
Qed.
End membership.

(** An IPv4 membership needs no interface lookup, so its calls return on every
    target. *)
Lemma total_membership_ipv4 s c :
  SubscriptionConfig.family c = Ipv4Family →
  total (join_multicast_group s c) ∧ total (leave_multicast_group s c).
Proof.
  intros Hf. assert (Hreq : total (membership_request c)).
  { unfold membership_request, ipv4_membership, resolve_ipv4_source_interface_address,
      resolve_default_ipv4_interface. rewrite Hf. auto 20 with total. }
  split; intros w; [rewrite join_as_request|rewrite leave_as_request]; revert w;
    (apply total_then; [done|intros []; apply total_io]).
Qed.

Lemma total_join_raw_ipv4 rs c :
  RawSubscriptionConfig.family c = Ipv4Family → total (join_raw_multicast_group rs c).
Proof.
  intros Hf. pose proof (λ s, proj1 (total_membership_ipv4 s (RawSubscriptionConfig.membership_compat_config c) Hf)).
  pose proof (λ s, proj2 (total_membership_ipv4 s (RawSubscriptionConfig.membership_compat_config c) Hf)).
  unfold join_raw_multicast_group, join_windows_raw_receive_sockets. auto 14 with total.
Qed.

(** ** Termination of the macOS loop *)

Definition bpf_state_wf (st : AppleBpfState) : Prop :=
  bs_filled_len st ≤ length (bs_buffer st) ∧ (Z.of_nat (length (bs_buffer st)) ≤ isize_max)%Z ∧
  (0 ≤ bs_next_offset st)%Z.

(** A successful read fills some of the buffer. *)
Definition reads_some : Prop := ∀ s n w b w', read_bpf s n w = (inl b, w') → 0 < length b ≤ n.

Lemma apple_recv_loop_returns fuel filtered s datalink i id c st w :
  AppleBpfLaws raw_apple → reads_some → bpf_state_wf st →
  filtered < MAX_RAW_FILTERED_READS_PER_RECV →
  2 * (MAX_RAW_FILTERED_READS_PER_RECV - filtered) ≤
    fuel + (if bool_decide (bs_next_offset st < Z.of_nat (bs_filled_len st))%Z then 1 else 0) →
  let '(r, (st', w')) := apple_recv_loop fuel filtered s datalink i id c (st, w) in
  returns r ∧ bpf_state_wf st'.
Proof.
  intros Hlaws Hreads. revert filtered st w. unfold MAX_RAW_FILTERED_READS_PER_RECV.
  induction fuel as [|fuel IH]; intros filtered st w (Hfill & Hbuf & Hnext) Hf Hfuel.
  { case_bool_decide; lia. }
  cbn [apple_recv_loop]. unfold mthen at 1, mget. cbn [fst]. case_bool_decide as Hin.
  - unfold slice. rewrite bool_decide_true by lia. rewrite drop_0, Nat.sub_0_r.
    unfold mthen at 1, mlift, expect. unfold mthen at 1, mlift.
    set (block := take (bs_filled_len st) (bs_buffer st)).
    assert (Hlen : length block = bs_filled_len st) by (unfold block; rewrite length_take; lia).
    destruct (next_matching_loop_scan (S (length block)) block (bs_next_offset st) datalink i id c)
      as [Hret Hscan]; [lia|unfold isize_max in *; lia|lia|].
    unfold next_matching_apple_bpf_packet.
    destruct (next_matching_loop _ _ _ _ _ _ _) as [[[p|] n]|e| |]; try done;
      unfold mthen, on_fst, mmodify; simpl.
    + split; [done|]. split_and!; simpl; [done|done|].
      pose proof (scan_offset _ _ _ _ Hscan Hnext _ _ eq_refl). lia.
    + unfold raw_filter_budget_exhausted, MAX_RAW_FILTERED_READS_PER_RECV. case_bool_decide.
      * split; [done|]. split_and!; simpl; [lia|done|done].
      * apply IH; [split_and!; simpl; [lia|done|done]|lia|].
        cbn [bs_next_offset bs_filled_len]. rewrite bool_decide_false by lia. lia.
  - unfold mthen at 1, on_snd. cbn [fst snd]. pose proof (total_nonblocking (read_bpf s (length (bs_buffer st))) w) as Hret.
    destruct (nonblocking _ w) as [[[b|]|e| |] w1] eqn:Hread; try done.
    assert (Hb : 0 < length b ≤ length (bs_buffer st)).
    { unfold nonblocking, mthen, try_io in Hread. destruct (read_bpf _ _ w) as [[b'|e'] w'] eqn:Hr.
      - injection Hread as <- <-. by eapply Hreads.
      - case_bool_decide; simplify_eq. }
    unfold mthen, on_fst, mmodify. simpl.
    apply IH; [split_and!; simpl|done|].
    + rewrite length_app, length_drop. lia.
    + rewrite length_app, length_drop. lia.
    + done.
    + cbn [bs_next_offset bs_filled_len]. rewrite bool_decide_true by lia. lia.
Qed.

Lemma recv_raw_admitted rs id c w p st' :
  recv_raw_packet id c (rs, w) = (Ok (Some p), st') → raw_admits c id p.
Proof.
  unfold recv_raw_packet, on_snd. destruct (rr_backend rs) as [|state poisoned datalink i|udp].
  - pose proof (linux_run rs id c w) as Hl. cbn [fst snd].
    destruct (recv_raw_packet_linux rs id c w) as [r w']. intros [= -> <-].
    destruct Hl as [_ Hrun]. apply raw_run_packet in Hrun as [[d i] Hd].
    by eapply packet_of_datagram_admitted.
  - destruct poisoned; [done|].
    destruct (apple_recv_loop _ _ _ _ _ _ _ _) as [r [state' w']] eqn:Hl. intros [= -> <-].
    by eapply apple_recv_loop_admitted.
  - unfold recv_raw_packet_windows, mthen at 1. cbn [fst snd].
    pose proof (windows_socket_run (rr_receive_socket rs) id c (Some (wrap8 IPPROTO_UDP)) w) as H1.
    destruct (recv_raw_packet_from_windows_socket _ _ _ _ w) as [[[q|]|e| |] w1]; try done.
    + intros [= -> <-]. by apply H1.
    + pose proof (windows_socket_run udp id c None w1) as H2.
      destruct (recv_raw_packet_from_windows_socket _ _ _ _ w1) as [r w2].
      intros [= -> <-]. by apply H2.
Qed.

(** ** Properties *)

(** C17: on every target, a packet that the raw receive call hands
    out is a whole IP datagram: its bytes parse, the parsed length is their
    number, the destination is the configured group and the sender the
    configured source, and the packet's fields are those of the datagram. *)
Theorem raw_packet_is_admitted (rs : RawReceiveSocket) (id : SubscriptionId)
    (c : RawSubscriptionConfig) (w : World) (p : RawPacket) (st' : RawReceiveSocket * World) :
  recv_raw_packet id c (rs, w) = (Ok (Some p), st') → raw_admits c id p.
Proof. apply recv_raw_admitted. Qed.

(** The Linux raw receive call returns and refines its
    specification: it drops fewer than 256 captured frames that hold no
    matching datagram and ends with the first event that is not one, or it
    drops exactly 256 and reports that nothing is ready. *)
Theorem raw_recv_linux_refines_raw_run (rs : RawReceiveSocket) (id : SubscriptionId)
    (c : RawSubscriptionConfig) (w : World) :
  let '(r, w') := recv_raw_packet_linux rs id c w in
  returns r ∧
  raw_run (nonblocking (recvfrom_packet (rr_receive_socket rs) MAX_IP_DATAGRAM_SIZE))
    (λ '(datagram, sll_ifindex), packet_of_datagram datagram (ingress_of_ifindex sll_ifindex) id c)
    w r w'.
Proof. apply linux_run. Qed.

(** When every successful read of the BPF device fills some of
    the buffer, the macOS receive call returns, whatever the blocks contain,
    and leaves its buffer state well formed and its lock usable. *)
Theorem raw_recv_macos_returns (s : Socket) (ms : option Socket) (state : AppleBpfState)
    (datalink : Z) (i : option Z) (id : SubscriptionId) (c : RawSubscriptionConfig) (w : World) :
  AppleBpfLaws raw_apple → reads_some → bpf_state_wf state →
  let rs := mkRawSocket s ms (AppleBackend state false datalink i) in
  ∃ r state' w', recv_raw_packet id c (rs, w) =
      (r, (mkRawSocket s ms (AppleBackend state' false datalink i), w')) ∧
    returns r ∧ bpf_state_wf state'.
Proof.
  intros Hlaws Hreads Hwf. cbv zeta. unfold recv_raw_packet. cbn [rr_backend rr_receive_socket rr_membership_socket].
  pose proof (apple_recv_loop_returns apple_recv_fuel 0 s datalink i id c state w Hlaws Hreads Hwf) as Hl.
  destruct (apple_recv_loop _ _ _ _ _ _ _ _) as [r [state' w']].
  destruct Hl as [Hret Hwf'].
  - unfold MAX_RAW_FILTERED_READS_PER_RECV. lia.
  - unfold apple_recv_fuel, MAX_RAW_FILTERED_READS_PER_RECV. lia.
  - exists r, state', w'. split_and!; [|done..]. by destruct r.
Qed.

(** C28: under the kernel's laws for memberships, and from a world in which no
    socket has the IPv4 membership, a Windows join returns; one that fails
    leaves no membership behind on any of its three sockets, and one that
    succeeds holds it on all three. *)
Theorem windows_raw_join_is_atomic (c : RawSubscriptionConfig) (m : Ipv4Membership)
    (joined : World → Socket → Prop) (rs : RawReceiveSocket) (ms udp : Socket) (w w' : World) (r : Result unit) :
  cfg_apple target = false →
  SubscriptionConfig.ipv4_membership (RawSubscriptionConfig.membership_compat_config c) = Some m →
  kernel_membership_laws m joined →
  rr_membership_socket rs = Some ms → rr_backend rs = WindowsBackend udp →
  (∀ s, ¬ joined w s) →
  join_raw_multicast_group rs c w = (r, w') →
  match r with
  | Ok _ => ∀ s, joined w' s ↔ s = ms ∨ s = rr_receive_socket rs ∨ s = udp
  | Err _ => ∀ s, ¬ joined w' s
  | Panic | OutOfFuel => False
  end.
Proof.
  intros Ht Hm laws Hms Hb Hnone Hj. pose proof (membership_family _ _ Hm) as Hf. pose proof (total_join_raw_ipv4 rs c Hf w) as Hret. rewrite Hj in Hret.
  destruct r as [[]|e| |]; try done.
  2: { by eapply (raw_join_rollback c m joined Ht Hm laws). }
  unfold join_raw_multicast_group, mthen at 1, mlift, ok_or in Hj. rewrite Hb, Hms in Hj.
  unfold mthen at 1 in Hj.
  destruct (join_multicast_group ms _ w) as [[[]|e1| |] w1] eqn:H1; simplify_eq.
  unfold mthen at 1, mcatch at 1 in Hj.
  destruct (join_windows_raw_receive_sockets _ udp _ w1) as [[[]|e2| |] w2] eqn:H2; simplify_eq.
  - injection Hj as <-. intros s.
    rewrite (windows_join_success c m joined Ht Hm laws _ _ _ _ Hf H2 s),
      (law_join c m joined Ht Hm laws _ _ _ H1 s).
    pose proof (Hnone s). tauto.
  - unfold mthen, mcatch in Hj. by destruct (leave_multicast_group _ _ _) as [[] ?].
Qed.
End raw_platform.

(** Raw receive on an operating system of the samples. The calls on packet
    sockets are given; every other read delivers the sample datagram, or as much
    of the sample block as fits. *)
Definition quiet_raw_os (os : Os) (raw_socket : Io World Socket) (attach : Io World unit)
    (bind : Z → Io World unit) (recvfrom : Io World (list byte * Z)) : @RawOs os := {|
  raw_apple := sample_apple_bpf;
  packet_socket_new := raw_socket;
  attach_packet_filter _ _ := attach;
  bind_packet_socket _ := bind;
  recvfrom_packet _ _ := recvfrom;
  open_bpf_device _ := raw_socket;
  EBUSY := 16;
  IFNAMSIZ := 16;
  O_NONBLOCK := 4;
  BIOCIMMEDIATE := 1;
  BIOCSSEESENT := 2;
  BIOCGBLEN := 3;
  BIOCGDLT := 4;
  fcntl_getfl _ := io_ok 0%Z;
  fcntl_setfl _ _ := io_ok ();
  ioctl_bind_interface _ _ := io_ok ();
  ioctl_set_u32 _ _ _ := io_ok ();
  ioctl_get_u32 _ _ := io_ok 4096%Z;
  ioctl_set_filter _ _ := io_ok ();
  if_indextoname _ := λ w, (Some "en0", w);
  read_bpf _ n := if bool_decide (0 < n) then io_ok (take n sample_block) else io_fail sample_error;
  IPPROTO_UDP := 17;
  SIO_RCVALL := 1;
  SIO_RCVALL_MCAST := 2;
  windows_raw_socket_new _ := raw_socket;
  windows_capture_ioctl _ _ := io_ok ();
  windows_recv _ _ := io_ok sample_datagram |}.

#[export] Instance sample_raw_os : @RawOs sample_os := 
  quiet_raw_os sample_os (io_ok 6) (io_ok ()) (λ _, io_ok ()) (io_ok (sample_datagram, 3%Z)).

Definition sample_raw_packet : RawPacket :=
  mkRawPacket 1 sample_datagram (Some (V4 (v4 10 0 0 1))) (Some (V4 sample_group)) (Some 17%Z)
    (mkMetadata None None None (Some (V4 sample_group)) (Some 3%Z)).

Example raw_packet_is_admitted_witness :
  (recv_raw_packet 1 sample_raw_config (mkRawSocket 6 None LinuxBackend, 0)).1
    = Ok (Some sample_raw_packet) ∧
  raw_admits sample_raw_config 1 sample_raw_packet.
Proof.
  assert (Hr : recv_raw_packet 1 sample_raw_config (mkRawSocket 6 None LinuxBackend, 0)
    = (Ok (Some sample_raw_packet), (mkRawSocket 6 None LinuxBackend, 0))) by (vm_compute; reflexivity).
  split; [rewrite Hr; reflexivity|]. exact (raw_packet_is_admitted _ _ _ _ _ _ Hr).
Defined.

Example raw_recv_macos_returns_witness :
  ∃ r state' w', recv_raw_packet 1 sample_raw_config
      (mkRawSocket 6 None (AppleBackend (mkBpfState (repeat Byte.x00 64) 0 0) false 12 (Some 2%Z)), 0) =
      (r, (mkRawSocket 6 None (AppleBackend state' false 12 (Some 2%Z)), w')) ∧
    returns r ∧ bpf_state_wf state'.
Proof.
  apply (@raw_recv_macos_returns sample_os sample_raw_os 6 None (mkBpfState (repeat Byte.x00 64) 0 0) 12 (Some 2%Z) 1
    sample_raw_config 0).
  - exact sample_apple_laws.
  - intros s n w b w'. cbn [read_bpf sample_raw_os quiet_raw_os]. case_bool_decide as Hn; [|discriminate].
    intros [= <- <-]. rewrite length_take. change (length sample_block) with 40. lia.
  - split_and!; [vm_compute; lia|vm_compute; discriminate|discriminate].
Defined.

Definition sample_membership : Ipv4Membership := mkMembership4 sample_group None None.

Lemma ledger_laws : @kernel_membership_laws ledger_os sample_membership (λ w s, s ∈ w).
Proof.
  split.
  - intros s w w'. cbn -[filter bool_decide]. unfold ledger_join. case_bool_decide; [done|].
    intros [= <-] s'. rewrite elem_of_cons. tauto.
  - intros s w w' e. cbn -[filter bool_decide]. unfold ledger_join. by case_bool_decide; intros [= _ <-].
  - intros s w w'. cbn -[filter bool_decide]. unfold ledger_leave. case_bool_decide; [|done].
    intros [= <-] s'. rewrite list_elem_of_filter. tauto.
  - intros s w w' e. cbn -[filter bool_decide]. unfold ledger_leave. by case_bool_decide; intros [= _ <-].
  - intros s w Hs. cbn -[filter bool_decide]. unfold ledger_leave.
    rewrite bool_decide_true by done. by eexists.
Qed.

Definition ledger_socket (udp : nat) : @RawReceiveSocket ledger_os :=
  @mkRawSocket ledger_os 6 (Some 4) (@WindowsBackend ledger_os udp).

Example windows_raw_join_is_atomic_witness :
  (@join_raw_multicast_group ledger_os
     (ledger_socket 3) sample_raw_config []).2 = [] ∧
  (∀ s, s ∈ (@join_raw_multicast_group ledger_os
     (ledger_socket 5) sample_raw_config []).2 ↔ s = 4 ∨ s = 6 ∨ s = 5).
Proof.
  split; [vm_compute; reflexivity|].
  destruct (@join_raw_multicast_group ledger_os
    (ledger_socket 5) sample_raw_config []) as [r w'] eqn:Hj.
  pose proof (@windows_raw_join_is_atomic ledger_os sample_raw_config sample_membership (λ w s, s ∈ w)
    (ledger_socket 5) 4 5 [] w' r eq_refl eq_refl ledger_laws eq_refl eq_refl
    ltac:(intros s Hs; inversion Hs) Hj) as Hres.
  vm_compute in Hj. injection Hj as <- <-. exact Hres.
Defined.
