(* ===== verification/RawContext.v ===== *)
(** * Raw subscriptions and the raw context ([src/src/raw/subscription.rs], [src/src/raw/context.rs])

    What the context needs of the platform layer is the interface
    [RawTransport]: opening, joining, leaving and receiving on an abstract
    receive socket, with laws that say which sockets are usable and that every
    call on a usable socket returns. The context's theorems hold over every
    transport; the Linux and macOS platform layers are instances. *)

From S2P Require Import Prelude Hoare Net Errors Config Packet Os SampleOs Ancillary Platform.
From S2P Require Import Subscription Context IpDatagram AppleBpf RawPlatform.

Class RawTransport `{Os} := {
  transport_socket : Type;
  transport_open : RawSubscriptionConfig → Op World transport_socket;
  transport_join : transport_socket → RawSubscriptionConfig → Op World unit;
  transport_leave : transport_socket → RawSubscriptionConfig → Op World unit;
  transport_recv : SubscriptionId → RawSubscriptionConfig →
    Op (transport_socket * World) (option RawPacket);
  transport_ok : transport_socket → Prop }.

Class RawTransportLaws `{Os} (t : RawTransport) : Prop := {
  law_open c : hoare (λ _, True) (transport_open c) (λ s _, transport_ok s) (λ _, True);
  law_transport_join s c : transport_ok s → total (transport_join s c);
  law_transport_leave s c : transport_ok s → total (transport_leave s c);
  law_recv id c :
    hoare (λ st, transport_ok st.1) (transport_recv id c)
      (λ r st, transport_ok st.1 ∧ ∀ p, r = Some p → raw_admits c id p) (λ st, transport_ok st.1) }.

Section raw_context.
Context `{RawTransport}.

(** ** Subscriptions *)

Record RawSubscription := mkRawSubscription {
  rsub_id : SubscriptionId;
  rsub_config : RawSubscriptionConfig;
  rsub_socket : transport_socket;
  rsub_state : SubscriptionState }.

Definition RawSubscription_new (id : SubscriptionId) (c : RawSubscriptionConfig)
    (s : transport_socket) : RawSubscription :=
  mkRawSubscription id c s Bound.

Definition rsub_is_joined (s : RawSubscription) : bool :=
  match rsub_state s with Joined => true | Bound => false end.

Definition set_rsub_state (state : SubscriptionState) (s : RawSubscription) : RawSubscription :=
  mkRawSubscription (rsub_id s) (rsub_config s) (rsub_socket s) state.
Definition set_rsub_socket (socket : transport_socket) (s : RawSubscription) : RawSubscription :=
  mkRawSubscription (rsub_id s) (rsub_config s) socket (rsub_state s).

Definition rsub_try_recv : Op (RawSubscription * World) (option RawPacket) := λ '(s, w),
  if negb (rsub_is_joined s) then (Err SubscriptionNotJoined, (s, w))
  else
    let '(r, (socket, w')) := transport_recv (rsub_id s) (rsub_config s) (rsub_socket s, w) in
    (r, (set_rsub_socket socket s, w')).

Definition rsub_join : Op (RawSubscription * World) unit :=
  let* st := mget in
  mlift (guard (rsub_is_joined st.1) SubscriptionAlreadyJoined) ;;*
  on_snd (transport_join (rsub_socket st.1) (rsub_config st.1)) ;;*
  on_fst (mmodify (set_rsub_state Joined)).

Definition rsub_leave : Op (RawSubscription * World) unit :=
  let* st := mget in
  mlift (guard (negb (rsub_is_joined st.1)) SubscriptionNotJoined) ;;*
  on_snd (transport_leave (rsub_socket st.1) (rsub_config st.1)) ;;*
  on_fst (mmodify (set_rsub_state Bound)).

(** ** The context *)

Record RawContext := mkRawContext {
  rc_subscriptions : list RawSubscription;
  rc_next_subscription_id : Z;
  rc_next_recv_index : nat }.

Abbreviation Act A := (Op (RawContext * World) A).

Definition set_rc_subscriptions (l : list RawSubscription) (c : RawContext) : RawContext :=
  mkRawContext l (rc_next_subscription_id c) (rc_next_recv_index c).
Definition set_rc_next_recv_index (i : nat) (c : RawContext) : RawContext :=
  mkRawContext (rc_subscriptions c) (rc_next_subscription_id c) i.

Definition RawContext_new : RawContext := mkRawContext [] 1 0.
Definition rc_subscription_count (c : RawContext) : nat := length (rc_subscriptions c).
Definition rc_has_id (id : SubscriptionId) (s : RawSubscription) : bool :=
  bool_decide (rsub_id s = id)%Z.
Definition rc_contains_subscription (c : RawContext) (id : SubscriptionId) : bool :=
  existsb (rc_has_id id) (rc_subscriptions c).
Definition rc_position_of (c : RawContext) (id : SubscriptionId) : option nat :=
  position (rc_has_id id) (rc_subscriptions c).
Definition rc_get_subscription (c : RawContext) (id : SubscriptionId) : option RawSubscription :=
  i ← rc_position_of c id; rc_subscriptions c !! i.

Definition rc_ensure_subscription_config_is_unique (c : RawContext) (config : RawSubscriptionConfig)
    : Result unit :=
  guard (existsb (λ s, bool_decide (rsub_config s = config)) (rc_subscriptions c))
        DuplicateSubscription.

Definition rc_add_subscription (config : RawSubscriptionConfig) : Act SubscriptionId :=
  mlift (RawSubscriptionConfig.validate config) ;;*
  let* st := mget in
  mlift (rc_ensure_subscription_config_is_unique st.1 config) ;;*
  let* socket := on_snd (transport_open config) in
  let id := rc_next_subscription_id st.1 in
  let* next := mlift (next_id id) in
  on_fst (mmodify (λ c, mkRawContext
    (rc_subscriptions c ++ [RawSubscription_new id config socket]) next (rc_next_recv_index c))) ;;*
  mpure id.

Definition rc_remove_subscription (id : SubscriptionId) : Act bool :=
  let* st := mget in
  match rc_position_of st.1 id with
  | None => mpure false
  | Some index =>
      match swap_remove index (rc_subscriptions st.1) with
      | None => mpanic
      | Some (_, rest) =>
          on_fst (mmodify (set_rc_subscriptions rest)) ;;*
          on_fst (mmodify (λ c, set_rc_next_recv_index
            (if bool_decide (rest = []) then 0 else rc_next_recv_index c `mod` length rest) c)) ;;*
          mpure true
      end
  end.

(** A method of the subscription at an index. *)
Definition on_raw_subscription {A : Type} (i : nat) (m : Op (RawSubscription * World) A) : Act A := λ st,
  match rc_subscriptions st.1 !! i with
  | None => (Panic, st)
  | Some s =>
      let '(r, (s', w')) := m (s, st.2) in
      (r, (set_rc_subscriptions (<[i := s']> (rc_subscriptions st.1)) st.1, w'))
  end.

Definition rc_on_id {A : Type} (id : SubscriptionId) (m : Op (RawSubscription * World) A) : Act A :=
  let* st := mget in
  match rc_position_of st.1 id with
  | None => mthrow SubscriptionNotFound
  | Some i => on_raw_subscription i m
  end.

Definition rc_join_subscription (id : SubscriptionId) : Act unit := rc_on_id id rsub_join.
Definition rc_leave_subscription (id : SubscriptionId) : Act unit := rc_on_id id rsub_leave.

Fixpoint rc_recv_scan (n count index : nat) : Act (option RawPacket) :=
  match n with
  | O => mpure None
  | S n =>
      let* st := mget in
      let* s := mlift (expect (rc_subscriptions st.1 !! index)) in
      if negb (rsub_is_joined s) then rc_recv_scan n count (advance count index)
      else
        let* packet := on_raw_subscription index rsub_try_recv in
        match packet with
        | Some packet =>
            on_fst (mmodify (set_rc_next_recv_index (S index `mod` count))) ;;*
            mpure (Some packet)
        | None => rc_recv_scan n count (advance count index)
        end
  end.

Definition rc_try_recv_any : Act (option RawPacket) :=
  let* st := mget in
  let count := rc_subscription_count st.1 in
  if bool_decide (count = 0) then mpure None
  else rc_recv_scan count count (rc_next_recv_index st.1).

(** ** Invariant *)

Record rc_inv (budget : nat) (c : RawContext) : Prop := {
  rci_ids : NoDup (rsub_id <$> rc_subscriptions c);
  rci_issued : Forall (λ s, 1 ≤ rsub_id s < rc_next_subscription_id c)%Z (rc_subscriptions c);
  rci_configs : NoDup (rsub_config <$> rc_subscriptions c);
  rci_valid : Forall (λ s, RawSubscriptionConfig.validate (rsub_config s) = Ok ()) (rc_subscriptions c);
  rci_sockets : Forall (λ s, transport_ok (rsub_socket s)) (rc_subscriptions c);
  rci_cursor : rc_next_recv_index c = 0 ∨ rc_next_recv_index c < length (rc_subscriptions c);
  rci_next : (1 ≤ rc_next_subscription_id c ∧ rc_next_subscription_id c + Z.of_nat budget ≤ u64_max)%Z }.

Definition rc_holds (budget : nat) (st : RawContext * World) : Prop := rc_inv budget st.1.

Context {laws : RawTransportLaws _}.

(** A method that returns and keeps the subscription's identity and a usable
    socket. *)
Definition keeps_identity {A : Type} (m : Op (RawSubscription * World) A) : Prop :=
  ∀ s, hoare (λ st, st.1 = s ∧ transport_ok (rsub_socket s)) m
    (λ _ st, rsub_id st.1 = rsub_id s ∧ rsub_config st.1 = rsub_config s ∧ transport_ok (rsub_socket st.1))
    (λ st, rsub_id st.1 = rsub_id s ∧ rsub_config st.1 = rsub_config s ∧ transport_ok (rsub_socket st.1)).

Lemma rsub_join_identity : keeps_identity rsub_join.
Proof.
  intros s [s' w] [Hs Hok]. cbn in Hs. subst s'. unfold rsub_join, mthen, mget, mlift, guard, on_snd. cbn [fst snd].
  destruct (rsub_is_joined s); [done|]. pose proof (law_transport_join s.(rsub_socket) (rsub_config s) Hok w) as Ht.
  by destruct (transport_join _ _ w) as [[[]|e| |] w'].
Qed.

Lemma rsub_leave_identity : keeps_identity rsub_leave.
Proof.
  intros s [s' w] [Hs Hok]. cbn in Hs. subst s'. unfold rsub_leave, mthen, mget, mlift, guard, on_snd. cbn [fst snd].
  destruct (rsub_is_joined s); [|done]. cbn [negb].
  pose proof (law_transport_leave s.(rsub_socket) (rsub_config s) Hok w) as Ht.
  by destruct (transport_leave _ _ w) as [[[]|e| |] w'].
Qed.

Lemma rsub_try_recv_spec s w :
  transport_ok (rsub_socket s) →
  match rsub_try_recv (s, w) with
  | (Ok r, (s', _)) =>
      (rsub_id s' = rsub_id s ∧ rsub_config s' = rsub_config s ∧ transport_ok (rsub_socket s')) ∧
      rsub_state s' = rsub_state s ∧ ∀ p, r = Some p → raw_admits (rsub_config s) (rsub_id s) p
  | (Err _, (s', _)) =>
      rsub_id s' = rsub_id s ∧ rsub_config s' = rsub_config s ∧ transport_ok (rsub_socket s')
  | _ => False
  end.
Proof.
  intros Hok. unfold rsub_try_recv. destruct (rsub_is_joined s); [|done]. cbn [negb].
  pose proof (law_recv (rsub_id s) (rsub_config s) (rsub_socket s, w) Hok) as Hr.
  destruct (transport_recv _ _ _) as [[r|e| |] [k w']]; try done. by destruct Hr.
Qed.

Lemma rc_inv_update budget c i s s' :
  rc_inv budget c → rc_subscriptions c !! i = Some s →
  rsub_id s' = rsub_id s → rsub_config s' = rsub_config s → transport_ok (rsub_socket s') →
  rc_inv budget (set_rc_subscriptions (<[i := s']> (rc_subscriptions c)) c).
Proof.
  intros [] Hs Hid Hc Hok. split; simpl; rewrite ?length_insert; try done.
  - by rewrite (fmap_insert_same _ _ _ s).
  - apply Forall_insert; [done|]. rewrite Hid. by eapply (Forall_lookup_1 _ _ _ _ rci_issued0).
  - by rewrite (fmap_insert_same _ _ _ s).
  - apply Forall_insert; [done|]. rewrite Hc. by eapply (Forall_lookup_1 _ _ _ _ rci_valid0).
  - by apply Forall_insert.
Qed.

Lemma rc_position_lookup c id i :
  rc_position_of c id = Some i → ∃ s, rc_subscriptions c !! i = Some s ∧ rsub_id s = id.
Proof.
  intros (s & Hs & Hid & _)%position_Some. exists s. split; [done|]. by apply bool_decide_eq_true in Hid.
Qed.

Lemma rc_on_id_keeps {A : Type} budget id (m : Op (RawSubscription * World) A) :
  keeps_identity m → keeps (rc_holds budget) (rc_on_id id m).
Proof.
  intros Hm [c w] HI. unfold rc_on_id, mthen, mget. cbn [fst].
  destruct (rc_position_of c id) as [i|] eqn:Hpos; [|done].
  destruct (rc_position_lookup _ _ _ Hpos) as (s & Hs & _). unfold on_raw_subscription. cbn [fst snd].
  rewrite Hs. pose proof (Forall_lookup_1 _ _ _ _ (rci_sockets _ _ HI) Hs) as Hok.
  specialize (Hm s (s, w) (conj eq_refl Hok)).
  destruct (m (s, w)) as [[a|e| |] [s' w']]; try done; destruct Hm as (? & ? & ?);
    by eapply rc_inv_update.
Qed.

Lemma rc_add_keeps budget config :
  hoare (rc_holds (S budget)) (rc_add_subscription config) (λ _, rc_holds budget) (rc_holds budget).
Proof.
  assert (Hweak : ∀ c, rc_inv (S budget) c → rc_inv budget c).
  { intros c []. split; try done. lia. }
  unfold rc_add_subscription. apply hoare_lift; [apply returns_raw_validate|intros; by apply Hweak|].
  intros [] Hv. apply hoare_get. intros [c w] HI. cbn [fst].
  apply hoare_lift; [apply returns_guard|intros e _ s ->; by apply Hweak|].
  intros [] Huniq. apply guard_Ok in Huniq.
  intros [c' w'] [= -> ->]. unfold mthen at 1, on_snd at 1. cbn [fst snd].
  pose proof (law_open config w I) as Hopen.
  destruct (transport_open config w) as [[socket|e| |] w1]; try done; [|by apply Hweak].
  unfold mthen at 1, mlift. destruct HI as [Hids Hissued Hconf Hval Hsock Hcur [Hn Hb]].
  cbn [fst] in *. rewrite next_id_small by lia. unfold mthen, on_fst, mmodify, mpure. cbn [fst snd].
  split; simpl.
  - rewrite fmap_app. apply NoDup_app. split_and!; [done| |by apply NoDup_singleton].
    simpl. intros x Hx Hin%list_elem_of_singleton. subst x. apply list_elem_of_fmap in Hx as (s & Hid & Hs).
    rewrite Forall_forall in Hissued. specialize (Hissued s Hs). lia.
  - apply Forall_app. split; [|constructor; [simpl; lia|constructor]].
    eapply Forall_impl; [exact Hissued|]. intros s Hs. simpl in *. lia.
  - rewrite fmap_app. apply NoDup_app. split_and!; [done| |by apply NoDup_singleton].
    simpl. intros x Hx Hin%list_elem_of_singleton. subst x.
    by eapply (existsb_false_not_elem rsub_config).
  - apply Forall_app. split; [done|by repeat constructor].
  - apply Forall_app. split; [done|by repeat constructor].
  - rewrite length_app. simpl. destruct Hcur; [by left|right; lia].
  - lia.
Qed.

Lemma rc_remove_keeps budget id : keeps (rc_holds budget) (rc_remove_subscription id).
Proof.
  intros [c w] HI. unfold rc_remove_subscription, mthen at 1, mget. cbn [fst].
  destruct (rc_position_of c id) as [i|] eqn:Hpos; [|done].
  destruct (rc_position_lookup _ _ _ Hpos) as (s & Hs%lookup_lt_Some & _).
  destruct (swap_remove_is_Some _ _ Hs) as [[removed rest] Hrest]. rewrite Hrest.
  unfold mthen, on_fst, mmodify, mpure. cbn [fst snd].
  apply swap_remove_Permutation in Hrest. destruct HI as [Hids Hissued Hconf Hval Hsock Hcur Hn].
  rewrite Hrest in Hids, Hissued, Hconf, Hval, Hsock. simpl in *.
  apply NoDup_cons in Hids as [_ ?], Hconf as [_ ?].
  apply Forall_cons in Hissued as [_ ?], Hval as [_ ?], Hsock as [_ ?]. split; simpl; try done.
  case_bool_decide as Hnil; [by left|right]. apply Nat.mod_upper_bound.
  by destruct rest.
Qed.

(** A packet of one of the context's joined subscriptions. *)
Definition rc_delivers (c : RawContext) (p : RawPacket) : Prop :=
  ∃ s, s ∈ rc_subscriptions c ∧ rsub_is_joined s = true ∧ raw_admits (rsub_config s) (rsub_id s) p.

Lemma rc_inv_cursor budget c i :
  rc_inv budget c → i < length (rc_subscriptions c) → rc_inv budget (set_rc_next_recv_index i c).
Proof. intros [] Hi. split; try done. by right. Qed.

Lemma rc_recv_scan_spec budget n count index :
  index < count →
  hoare (λ st, rc_holds budget st ∧ length (rc_subscriptions st.1) = count) (rc_recv_scan n count index)
    (λ r st, rc_holds budget st ∧ ∀ p, r = Some p → rc_delivers st.1 p) (rc_holds budget).
Proof.
  revert index. induction n as [|n IH]; intros index Hidx; [by intros st [? _]|].
  intros [c w] [HI Hlen]. cbn [rc_recv_scan]. cbn [fst] in Hlen.
  unfold mthen at 1, mget. unfold mthen at 1, mlift. cbn [fst].
  destruct (lookup_lt_is_Some_2 (rc_subscriptions c) index) as [s Hs]; [lia|]. rewrite Hs. cbn [expect].
  destruct (rsub_is_joined s) eqn:Hj; cbn [negb].
  2: { apply (IH (advance count index)); [apply advance_lt; lia|done]. }
  pose proof (Forall_lookup_1 _ _ _ _ (rci_sockets _ _ HI) Hs) as Hok. unfold mthen at 1, on_raw_subscription.
  cbn [fst snd]. rewrite Hs. pose proof (rsub_try_recv_spec s w Hok) as Hr.
  destruct (rsub_try_recv (s, w)) as [[[p|]|e| |] [s' w']]; try done.
  - destruct Hr as ((Hid & Hc & Hok') & Hst & Hadm). unfold mthen, on_fst, mmodify, mpure. cbn [fst snd].
    assert (Hlt : index < length (rc_subscriptions c)) by lia. split.
    + apply rc_inv_cursor; [by eapply rc_inv_update|]. simpl. rewrite length_insert, Hlen.
      apply Nat.mod_upper_bound. lia.
    + intros q [= <-]. exists s'. split_and!.
      * simpl. apply list_elem_of_lookup. exists index. by apply list_lookup_insert_eq.
      * unfold rsub_is_joined in *. by rewrite Hst.
      * rewrite Hc, Hid. by apply Hadm.
  - destruct Hr as ((Hid & Hc & Hok') & _ & _). apply (IH (advance count index)); [apply advance_lt; lia|].
    split; [by eapply rc_inv_update|]. simpl. by rewrite length_insert.
  - destruct Hr as (Hid & Hc & Hok'). by eapply rc_inv_update.
Qed.

Lemma rc_try_recv_any_spec budget :
  hoare (rc_holds budget) rc_try_recv_any
    (λ r st, rc_holds budget st ∧ ∀ p, r = Some p → rc_delivers st.1 p) (rc_holds budget).
Proof.
  apply hoare_get. intros st HI. unfold rc_subscription_count. case_bool_decide as Hlen.
  - apply hoare_pure. by intros s ->.
  - eapply hoare_conseq; [eapply (rc_recv_scan_spec budget)| |done|done].
    + destruct (rci_cursor _ _ HI); lia.
    + by intros s ->.
Qed.

(** ** Calls *)
Inductive RawContextCall :=
  | RawAdd (config : RawSubscriptionConfig)
  | RawRemove (id : SubscriptionId)
  | RawJoin (id : SubscriptionId)
  | RawLeave (id : SubscriptionId)
  | RawRecvAny.

Definition raw_context_call (k : RawContextCall) : Act unit :=
  match k with
  | RawAdd config => mmap (λ _, ()) (rc_add_subscription config)
  | RawRemove id => mmap (λ _, ()) (rc_remove_subscription id)
  | RawJoin id => rc_join_subscription id
  | RawLeave id => rc_leave_subscription id
  | RawRecvAny => mmap (λ _, ()) rc_try_recv_any
  end.

Lemma raw_context_call_keeps k budget :
  hoare (rc_holds (S budget)) (raw_context_call k) (λ _, rc_holds budget) (rc_holds budget).
Proof.
  assert (Hkeeps : ∀ A (m : Act A), keeps (rc_holds budget) m →
    hoare (rc_holds (S budget)) m (λ _, rc_holds budget) (rc_holds budget)).
  { intros A m Hm. eapply hoare_conseq; [exact Hm| |done|done].
    intros [c w] []. split; try done. lia. }
  destruct k; simpl.
  - eapply hoare_then; [apply rc_add_keeps|]. intros a. by apply hoare_pure.
  - by apply Hkeeps, keeps_mmap, rc_remove_keeps.
  - by apply Hkeeps, rc_on_id_keeps, rsub_join_identity.
  - by apply Hkeeps, rc_on_id_keeps, rsub_leave_identity.
  - apply Hkeeps, keeps_mmap. eapply hoare_conseq; [apply (rc_try_recv_any_spec budget)|done| |done].
    by intros a s [? _].
Qed.

(** ** Properties *)

(** Over every transport that obeys its laws, no sequence of
    fewer than 2^64 - 1 calls of a new raw context makes any call unwind or
    hang, and afterwards the identifiers are distinct and issued, the
    configurations distinct and valid, the sockets usable and the round-robin
    cursor a valid index. *)
Theorem raw_context_calls_are_safe (l : list RawContextCall) (w : World) :
  (Z.of_nat (length l) < u64_max)%Z →
  let '(r, st) := run_calls raw_context_call l (RawContext_new, w) in
  returns r ∧ rc_inv 0 st.1.
Proof.
  intros Hlen. pose proof (run_calls_keeps raw_context_call rc_holds l (RawContext_new, w)) as Hrun.
  destruct (run_calls _ l _) as [r st]. apply Hrun.
  - intros k n. apply raw_context_call_keeps.
  - unfold rc_holds. split; simpl; try constructor; try done; lia.
Qed.

(** Whatever the context's state, a packet that a raw receive
    call hands out is a whole datagram that one of its joined subscriptions
    admits, and carries that subscription's identifier. *)
Theorem raw_context_delivers_admitted_packets (budget : nat) (st st' : RawContext * World) (p : RawPacket) :
  rc_inv budget st.1 → rc_try_recv_any st = (Ok (Some p), st') →
  rc_inv budget st'.1 ∧ rc_delivers st'.1 p.
Proof.
  intros HI Hr. pose proof (rc_try_recv_any_spec budget st HI) as Hs. rewrite Hr in Hs.
  destruct Hs as [HI' Hd]. split; [exact HI'|by apply Hd].
Qed.
End raw_context.

(** ** The platform layers as transports *)
Section platform_transport.
Context `{RawOs}.

(** The sockets that the target's platform layer opens and keeps usable. *)
Definition usable_socket (rs : RawReceiveSocket) : Prop :=
  match rr_backend rs with
  | LinuxBackend => target = Linux
  | AppleBackend state poisoned _ _ => target = MacOs ∧ poisoned = false ∧ bpf_state_wf state
  | WindowsBackend _ => False
  end.

#[export] Instance platform_transport : RawTransport := {|
  transport_socket := RawReceiveSocket;
  transport_open := open_raw_socket;
  transport_join := join_raw_multicast_group;
  transport_leave := leave_raw_multicast_group;
  transport_recv := recv_raw_packet;
  transport_ok := usable_socket |}.

Lemma usable_unix rs : usable_socket rs → cfg_unix target = true.
Proof. unfold usable_socket. by destruct (rr_backend rs); [intros ->|intros [-> _]|]. Qed.

Lemma total_join_raw rs c : usable_socket rs → total (join_raw_multicast_group rs c).
Proof.
  intros Hu w. pose proof (unix_laws (usable_unix rs Hu)) as Hlaws.
  unfold join_raw_multicast_group, mthen at 1, mlift, ok_or.
  destruct (rr_membership_socket rs) as [ms|]; [|done]. unfold mthen at 1.
  pose proof (total_join_multicast_group ms (RawSubscriptionConfig.membership_compat_config c) Hlaws w) as Hj.
  destruct (join_multicast_group ms _ w) as [[[]|e| |] w1]; try done.
  unfold usable_socket in Hu. by destruct (rr_backend rs).
Qed.

Lemma total_leave_raw rs c : usable_socket rs → total (leave_raw_multicast_group rs c).
Proof.
  intros Hu w. pose proof (unix_laws (usable_unix rs Hu)) as Hlaws.
  unfold leave_raw_multicast_group, mthen at 1, mlift, ok_or.
  destruct (rr_membership_socket rs) as [ms|]; [|done]. unfold mthen at 1.
  pose proof (total_leave_multicast_group ms (RawSubscriptionConfig.membership_compat_config c) Hlaws w) as Hj.
  destruct (leave_multicast_group ms _ w) as [[[]|e| |] w1]; try done.
  unfold usable_socket in Hu. by destruct (rr_backend rs).
Qed.

Lemma mthen_Ok_inv {S E A B : Type} (m : M S E A) (k : A → M S E B) s b s' :
  mthen m k s = (Ok b, s') → ∃ a s1, m s = (Ok a, s1) ∧ k a s1 = (Ok b, s').
Proof. unfold mthen. destruct (m s) as [[a|e| |] s1]; intros Hk; try done. eauto. Qed.

#[local] Ltac peel H :=
  repeat (let a := fresh "a" in let s1 := fresh "s" in let Ha := fresh "Ha" in
          apply mthen_Ok_inv in H as (a & s1 & Ha & H)).

(** What a platform promises so that its sockets stay usable. *)
Definition supported_platform : Prop :=
  target = Linux ∨
  target = MacOs ∧ AppleBpfLaws raw_apple ∧ reads_some ∧
    (∀ s request w v w', ioctl_get_u32 s request w = (inl v, w') → (0 ≤ v ≤ u32_max)%Z).

Lemma get_bpf_u32_bound s request w v w' :
  (∀ s request w v w', ioctl_get_u32 s request w = (inl v, w') → (0 ≤ v ≤ u32_max)%Z) →
  get_bpf_u32 s request w = (Ok v, w') → (0 ≤ v ≤ u32_max)%Z.
Proof.
  intros Hb. unfold get_bpf_u32, io. destruct (ioctl_get_u32 s request w) as [[x|e] w1] eqn:Hg; [|done].
  intros [= <- <-]. by eapply Hb.
Qed.

Lemma open_usable c w rs w' :
  supported_platform → open_raw_socket c w = (Ok rs, w') → usable_socket rs.
Proof.
  unfold open_raw_socket, usable_socket. intros [Ht|(Ht & _ & _ & Hget)]; rewrite Ht; intros Ho.
  - unfold open_raw_socket_linux in Ho. peel Ho. by injection Ho as <- _.
  - unfold open_raw_socket_macos in Ho. peel Ho. injection Ho as <- _. cbn [rr_backend].
    split_and!; [done|done|]. unfold open_apple_bpf_socket in Ha2. peel Ha2. injection Ha2 as <- _.
    cbn [abs_buffer_len]. apply (get_bpf_u32_bound _ _ _ _ _ Hget) in Ha10.
    unfold u32_max in *. split_and!; simpl; [lia| |done]. rewrite repeat_length. unfold isize_max. lia.
Qed.

Lemma recv_raw_packet_on_linux s ms id c w :
  let rs := mkRawSocket s ms LinuxBackend in
  recv_raw_packet id c (rs, w) =
    let '(r, w') := recv_raw_packet_linux rs id c w in (r, (rs, w')).
Proof. done. Qed.

Lemma platform_recv id c :
  supported_platform →
  hoare (λ st, usable_socket st.1) (recv_raw_packet id c)
    (λ r st, usable_socket st.1 ∧ ∀ p, r = Some p → raw_admits c id p) (λ st, usable_socket st.1).
Proof.
  intros Hsup [rs w] Hu. cbn [fst] in Hu.
  assert (Hadm : ∀ p st', recv_raw_packet id c (rs, w) = (Ok (Some p), st') → raw_admits c id p).
  { intros p st'. apply recv_raw_admitted. }
  destruct rs as [s ms [|state poisoned datalink i|udp]]; unfold usable_socket in Hu; cbn [rr_backend] in Hu;
    [| |done].
  - rewrite recv_raw_packet_on_linux in *. cbv zeta in *.
    pose proof (linux_run (mkRawSocket s ms LinuxBackend) id c w) as Hl.
    destruct (recv_raw_packet_linux _ id c w) as [r w1]. destruct Hl as [Hret _].
    destruct r; try done. split; [done|]. intros p ->. by eapply Hadm.
  - destruct Hu as (Ht & -> & Hwf). destruct Hsup as [Ht'|(_ & Hlaws & Hreads & _)]; [congruence|].
    destruct (raw_recv_macos_returns s ms state datalink i id c w Hlaws Hreads Hwf)
      as (r & state' & w1 & Hrecv & Hret & Hwf').
    rewrite Hrecv in *. destruct r; try done. split; [by split_and!|]. intros p ->. by eapply Hadm.
Qed.

Lemma platform_transport_laws : supported_platform → RawTransportLaws platform_transport.
Proof.
  intros Hsup. split.
  - intros c w _. pose proof (total_open_raw_socket c w) as Hret.
    cbn [transport_open platform_transport]. destruct (open_raw_socket c w) as [[rs|e| |] w'] eqn:Ho; try done.
    by eapply open_usable.
  - intros rs c. apply total_join_raw.
  - intros rs c. apply total_leave_raw.
  - intros id c. by apply platform_recv.
Qed.
End platform_transport.

#[export] Instance sample_transport_laws : RawTransportLaws (@platform_transport sample_os sample_raw_os).
Proof. apply platform_transport_laws. by left. Qed.

Example raw_context_calls_are_safe_witness :
  let '(r, st) := run_calls raw_context_call
    [RawAdd sample_raw_config; RawAdd sample_raw_config; RawJoin 1; RawRecvAny; RawRemove 1]
    (RawContext_new, 0) in
  returns r ∧ rc_inv 0 st.1.
Proof.
  exact (raw_context_calls_are_safe
    [RawAdd sample_raw_config; RawAdd sample_raw_config; RawJoin 1; RawRecvAny; RawRemove 1] 0
    ltac:(vm_compute; reflexivity)).
Defined.

Definition sample_raw_context : RawContext :=
  mkRawContext [mkRawSubscription 1 sample_raw_config (mkRawSocket 6 None LinuxBackend) Joined] 2 0.

Example raw_context_delivers_admitted_packets_witness :
  (rc_try_recv_any (sample_raw_context, 0)).1 = Ok (Some sample_raw_packet) ∧
  rc_delivers (rc_try_recv_any (sample_raw_context, 0)).2.1 sample_raw_packet.
Proof.
  assert (Hinv : rc_inv 5 sample_raw_context).
  { split; [apply NoDup_singleton|repeat constructor; simpl; lia|apply NoDup_singleton|
      repeat constructor|repeat constructor|by left|vm_compute; split; discriminate]. }
  assert (Hr : (rc_try_recv_any (sample_raw_context, 0)).1 = Ok (Some sample_raw_packet))
    by (vm_compute; reflexivity).
  split; [exact Hr|].
  destruct (rc_try_recv_any (sample_raw_context, 0)) as [r st'] eqn:Hcall. simpl in Hr. subst r.
  exact (proj2 (raw_context_delivers_admitted_packets 5 (sample_raw_context, 0) st' sample_raw_packet
    Hinv Hcall)).
Defined.
