(* ===== verification/RawContextSpec.v ===== *)
(** * A raw context refines a register of subscriptions

    As [ContextSpec] does for UDP packets: over every transport that obeys its
    laws, the replies of [RawContext] are replies that the register of
    [Register] allows. *)

From S2P Require Import Prelude Hoare Net Errors Config Packet Metrics Os SampleOs Ancillary Platform Subscription Context.
From S2P Require Import IpDatagram AppleBpf RawPlatform RawContext Register.

Local Open Scope list_scope.
Local Open Scope nat_scope.

Definition raw_packet_admitted (c : RawSubscriptionConfig) (p : RawPacket) : Prop :=
  raw_admits c (rp_subscription_id p) p.

Abbreviation RawReply := (Reply RawSubscriptionConfig RawPacket).
Abbreviation raw_register_step := (register_step RawSubscriptionConfig.validate rp_subscription_id raw_packet_admitted).
Abbreviation raw_register_run := (register_run RawSubscriptionConfig.validate rp_subscription_id raw_packet_admitted).

Section refinement.
Context `{RawTransport} {laws : RawTransportLaws _}.

Abbreviation Act A := (Op (RawContext * World) A).

Definition raw_registry (c : RawContext) : Register RawSubscriptionConfig :=
  register_of rsub_id rsub_config rsub_state (rc_subscriptions c) (rc_next_subscription_id c).

(** ** The replies *)

Definition raw_register_call (k : RawContextCall) : RegisterCall RawSubscriptionConfig RawPacket :=
  match k with
  | RawAdd c => Add c
  | RawRemove id => Remove id
  | RawJoin id => Join id
  | RawLeave id => Leave id
  | RawRecvAny => Receive 1 (λ _, true)
  end.

Definition raw_replied {A : Type} (f : Result A → RawReply) (m : Act A) (st : RawContext * World)
    : RawReply * (RawContext * World) :=
  let '(r, st') := m st in (f r, st').
Definition answer {A : Type} (f : A → RawReply) (r : Result A) : RawReply :=
  match r with
  | Ok a => f a
  | Err e => Refused e
  | Panic | OutOfFuel => Unwound
  end.
Definition raw_received (r : Result (option RawPacket)) : RawReply :=
  match r with
  | Ok o => Received (option_list o) None
  | Err e => Received [] (Some e)
  | Panic | OutOfFuel => Unwound
  end.

Definition raw_observe (k : RawContextCall) : RawContext * World → RawReply * (RawContext * World) :=
  match k with
  | RawAdd c => raw_replied (answer AddedAs) (rc_add_subscription c)
  | RawRemove id => raw_replied (answer Removed) (rc_remove_subscription id)
  | RawJoin id => raw_replied (answer (λ _, Moved)) (rc_join_subscription id)
  | RawLeave id => raw_replied (answer (λ _, Moved)) (rc_leave_subscription id)
  | RawRecvAny => raw_replied raw_received rc_try_recv_any
  end.

Fixpoint raw_observe_run (l : list RawContextCall) (st : RawContext * World) : list RawReply * (RawContext * World) :=
  match l with
  | [] => ([], st)
  | k :: l => let '(r, st1) := raw_observe k st in let '(rs, st2) := raw_observe_run l st1 in (r :: rs, st2)
  end.

(** ** Each call refines its step *)

Lemma raw_position budget c id :
  rc_inv budget c →
  match rc_position_of c id with
  | Some i => ∃ s, rc_subscriptions c !! i = Some s ∧ rsub_id s = id ∧ transport_ok (rsub_socket s) ∧
      entries (raw_registry c) !! id = Some (rsub_config s, rsub_state s)
  | None => id ∉ rsub_id <$> rc_subscriptions c
  end.
Proof.
  intros Hinv. destruct (rc_position_of c id) as [i|] eqn:Hpos.
  - destruct (rc_position_lookup _ _ _ Hpos) as (s & Hs & <-). exists s. split_and!; [done..| |].
    + by eapply (Forall_lookup_1 _ _ _ _ (rci_sockets _ _ Hinv)).
    + apply register_of_elem; [apply (rci_ids _ _ Hinv)|by eapply list_elem_of_lookup_2].
  - intros (s & -> & Hs)%list_elem_of_fmap. eapply position_None in Hpos; [|exact Hs].
    unfold rc_has_id in Hpos. by rewrite bool_decide_eq_true_2 in Hpos.
Qed.

Lemma raw_unique_cases budget c config :
  rc_inv budget c →
  (rc_ensure_subscription_config_is_unique c config = Err DuplicateSubscription ∧ registered config (raw_registry c)) ∨
  (rc_ensure_subscription_config_is_unique c config = Ok () ∧ ¬ registered config (raw_registry c)).
Proof.
  intros Hinv. unfold raw_registry. rewrite registered_iff by apply (rci_ids _ _ Hinv).
  unfold rc_ensure_subscription_config_is_unique, guard.
  destruct (existsb _ _) eqn:He; [left|right]; (split; [done|]).
  - apply existsb_exists in He as (s & Hs%list_elem_of_In & Heq%bool_decide_eq_true).
    apply list_elem_of_fmap. by exists s.
  - by apply existsb_false_not_elem.
Qed.

Lemma raw_add_refines budget config c w :
  rc_inv (S budget) c →
  let '(r, st') := raw_observe (RawAdd config) (c, w) in
  raw_register_step (Add config) (raw_registry c) r (raw_registry st'.1).
Proof.
  intros Hinv. cbn [register_step raw_observe]. unfold raw_replied, adds_entry, rc_add_subscription.
  unfold mthen at 1, mlift at 1. pose proof (returns_raw_validate config) as Hret.
  destruct (RawSubscriptionConfig.validate config) as [[]|e| |] eqn:Hv; try done.
  unfold mthen at 1, mget at 1. unfold mthen at 1, mlift at 1. cbn [fst].
  destruct (raw_unique_cases _ c config Hinv) as [[-> Hreg]|[Huniq Hreg]]; [by left|]. rewrite Huniq.
  unfold mthen at 1, on_snd. cbn [fst snd]. pose proof (law_open config w I) as Hopen.
  destruct (transport_open config w) as [[socket|e| |] w1]; try done; [|by right; split; [done|left; exists e]].
  destruct (rci_next _ _ Hinv) as [Hn Hb].
  unfold mthen at 1, mlift. rewrite next_id_small by lia. unfold mthen, on_fst, mmodify, mpure. cbn -[raw_registry].
  assert (Hnd : NoDup (rsub_id <$> (rc_subscriptions c ++
    [RawSubscription_new (rc_next_subscription_id c) config socket]))).
  { rewrite fmap_app. apply NoDup_app. split_and!; [apply (rci_ids _ _ Hinv)| |apply NoDup_singleton].
    intros x (s & -> & Hs)%list_elem_of_fmap Hin%list_elem_of_singleton.
    pose proof (rci_issued _ _ Hinv) as Hissued. rewrite Forall_forall in Hissued. specialize (Hissued s Hs).
    cbn in Hin. lia. }
  destruct (register_snoc rsub_id rsub_config rsub_state _ (rc_next_subscription_id c + 1) _ Hnd) as [Heq Hnone].
  right. split; [done|]. right. split; [done|]. split; [exact Hnone|exact Heq].
Qed.

Lemma raw_remove_refines budget id c w :
  rc_inv budget c →
  let '(r, st') := raw_observe (RawRemove id) (c, w) in
  raw_register_step (Remove id) (raw_registry c) r (raw_registry st'.1).
Proof.
  intros Hinv. cbn [register_step raw_observe]. unfold raw_replied, rc_remove_subscription, mthen at 1, mget. cbn [fst].
  pose proof (raw_position budget c id Hinv) as Hpos. destruct (rc_position_of c id) as [i|].
  - destruct Hpos as (s & Hs & <- & _ & ->).
    destruct (swap_remove_is_Some i (rc_subscriptions c)) as [[removed rest] Hsw]; [by eapply lookup_lt_Some|].
    rewrite Hsw. assert (removed = s) as ->.
    { unfold swap_remove in Hsw. rewrite Hs in Hsw. by case_match; simplify_eq. }
    split; [done|]. exact (register_remove rsub_id rsub_config rsub_state _ _ i s rest (rci_ids _ _ Hinv) Hsw).
  - unfold raw_registry. by rewrite register_of_none, register_delete_unknown.
Qed.

(** A join or a leave, by the answer of the transport. *)
Lemma raw_move_refines budget id c w m from to e0 kernel :
  (∀ s w, rsub_state s ≠ from → m (s, w) = (Err e0, (s, w))) →
  (∀ s w, rsub_state s = from → transport_ok (rsub_socket s) →
     m (s, w) = match kernel s w with
                | (Ok _, w') => (Ok (), (set_rsub_state to s, w'))
                | (Err e, w') => (Err e, (s, w'))
                | (r, w') => (r, (s, w'))
                end ∧ returns (kernel s w : Result unit * World).1) →
  rc_inv budget c →
  let '(r, st') := raw_replied (answer (λ _, Moved)) (rc_on_id id m) (c, w) in
  moves_entry id from to e0 (raw_registry c) r (raw_registry st'.1).
Proof.
  intros Hwrong Hright Hinv. unfold raw_replied, moves_entry, rc_on_id, mthen at 1, mget. cbn [fst].
  pose proof (raw_position budget c id Hinv) as Hpos. destruct (rc_position_of c id) as [i|].
  2: { unfold raw_registry. by rewrite register_of_none. }
  destruct Hpos as (s & Hs & <- & Hok & ->). unfold on_raw_subscription. cbn [fst snd]. rewrite Hs.
  assert (Hsame : set_rc_subscriptions (<[i := s]> (rc_subscriptions c)) c = c).
  { unfold set_rc_subscriptions. rewrite list_insert_id by done. by destruct c. }
  destruct (decide (rsub_state s = from)) as [Hst|Hst].
  - destruct (Hright s w Hst Hok) as [-> Hret].
    destruct (kernel s w) as [[[]|e| |] w']; try done.
    + right. split; [done|].
      by apply (register_moved rsub_id rsub_config rsub_state _ _ i s _ _ (rci_ids _ _ Hinv) Hs).
    + left. exists e. cbn [fst]. by rewrite Hsame.
  - rewrite Hwrong by done. cbn [fst]. by rewrite Hsame.
Qed.

Lemma raw_join_refines budget id c w :
  rc_inv budget c →
  let '(r, st') := raw_observe (RawJoin id) (c, w) in
  raw_register_step (Join id) (raw_registry c) r (raw_registry st'.1).
Proof.
  cbn [register_step raw_observe].
  apply (raw_move_refines budget id c w rsub_join Bound Joined SubscriptionAlreadyJoined
    (λ s, transport_join (rsub_socket s) (rsub_config s))).
  - intros s w' Hst. unfold rsub_join, mthen, mget, mlift, guard, rsub_is_joined. cbn. by destruct (rsub_state s).
  - intros s w' Hst Hok. unfold rsub_join, mthen, mget, mlift, guard, rsub_is_joined, on_snd. cbn. rewrite Hst.
    pose proof (law_transport_join (rsub_socket s) (rsub_config s) Hok w') as Ht. split; [|done].
    by destruct (transport_join _ _ w') as [[[]|e| |] w1].
Qed.

Lemma raw_leave_refines budget id c w :
  rc_inv budget c →
  let '(r, st') := raw_observe (RawLeave id) (c, w) in
  raw_register_step (Leave id) (raw_registry c) r (raw_registry st'.1).
Proof.
  cbn [register_step raw_observe].
  apply (raw_move_refines budget id c w rsub_leave Joined Bound SubscriptionNotJoined
    (λ s, transport_leave (rsub_socket s) (rsub_config s))).
  - intros s w' Hst. unfold rsub_leave, mthen, mget, mlift, guard, rsub_is_joined. cbn. by destruct (rsub_state s).
  - intros s w' Hst Hok. unfold rsub_leave, mthen, mget, mlift, guard, rsub_is_joined, on_snd. cbn. rewrite Hst.
    pose proof (law_transport_leave (rsub_socket s) (rsub_config s) Hok w') as Ht. split; [|done].
    by destruct (transport_leave _ _ w') as [[[]|e| |] w1].
Qed.

(** A receive call moves sockets and the cursor, nothing the register has. *)
Lemma raw_receive_same i st : raw_registry (on_raw_subscription i rsub_try_recv st).2.1 = raw_registry st.1.
Proof.
  unfold on_raw_subscription. destruct (rc_subscriptions st.1 !! i) as [s|] eqn:Hs; [|done].
  destruct (rsub_try_recv (s, st.2)) as [r [s' w']] eqn:Hr.
  assert (Hid : rsub_id s' = rsub_id s ∧ rsub_config s' = rsub_config s ∧ rsub_state s' = rsub_state s).
  { unfold rsub_try_recv in Hr. destruct (negb _); [by simplify_eq|].
    destruct (transport_recv _ _ _) as [r1 [k w1]]. by simplify_eq/=. }
  unfold raw_registry. cbn. apply register_same.
  rewrite <-(list_insert_id (rc_subscriptions st.1) i s) at 1 by done.
  apply Forall2_insert; [|done]. apply Forall_Forall2_diag, Forall_true. by intros.
Qed.

Lemma raw_scan_same n count index st : raw_registry (rc_recv_scan n count index st).2.1 = raw_registry st.1.
Proof.
  revert index st. induction n as [|n IH]; intros index st; [done|].
  cbn [rc_recv_scan]. unfold mthen at 1, mget. unfold mthen at 1, mlift.
  destruct (rc_subscriptions st.1 !! index) as [s|]; cbn [expect]; [|done].
  destruct (negb _); [apply IH|]. unfold mthen at 1. pose proof (raw_receive_same index st) as Hsame.
  destruct (on_raw_subscription index rsub_try_recv st) as [[[p|]|e| |] st1]; cbn [snd] in Hsame; try done.
  etrans; [apply IH|done].
Qed.

Lemma raw_recv_refines budget c w :
  rc_inv budget c →
  let '(r, st') := raw_observe RawRecvAny (c, w) in
  raw_register_step (Receive 1 (λ _, true)) (raw_registry c) r (raw_registry st'.1).
Proof.
  intros Hinv. cbn [register_step raw_observe]. unfold raw_replied.
  pose proof (rc_try_recv_any_spec budget (c, w) Hinv) as Hspec.
  assert (Hsame : raw_registry (rc_try_recv_any (c, w)).2.1 = raw_registry c).
  { unfold rc_try_recv_any, mthen at 1, mget. case_bool_decide; [done|]. apply raw_scan_same. }
  destruct (rc_try_recv_any (c, w)) as [r st']. cbn [snd] in Hsame.
  split; [done|]. destruct r as [[p|]|e| |]; try done; do 2 eexists; (split; [reflexivity|]);
    (split; [cbn; lia|]); [|constructor..]. apply Forall_singleton. split; [|done].
  destruct Hspec as [Hinv' Hd]. destruct (Hd p eq_refl) as (s & Hs & Hj & Hadm).
  pose proof (proj1 Hadm) as Hid. exists (rsub_config s). rewrite <-Hsame, Hid. split.
  - unfold raw_registry. rewrite register_of_elem; [|apply (rci_ids _ _ Hinv')|done].
    unfold rsub_is_joined in Hj. by destruct (rsub_state s).
  - unfold raw_packet_admitted. by rewrite Hid.
Qed.

Lemma raw_observe_refines budget k st :
  rc_inv (S budget) st.1 →
  let '(r, st') := raw_observe k st in raw_register_step (raw_register_call k) (raw_registry st.1) r (raw_registry st'.1).
Proof.
  destruct st as [c w]. cbn [fst]. intros Hinv. destruct k.
  - by eapply raw_add_refines.
  - by eapply raw_remove_refines.
  - by eapply raw_join_refines.
  - by eapply raw_leave_refines.
  - by eapply raw_recv_refines.
Qed.

Lemma raw_observe_state k st : (raw_observe k st).2 = (raw_context_call k st).2.
Proof.
  destruct k; cbn [raw_observe raw_context_call]; unfold raw_replied, mmap, mthen;
    match goal with |- context [let '(_, _) := ?m ?x in _] => destruct (m x) as [r st1] end; by destruct r.
Qed.

Lemma raw_observe_run_refines l st :
  rc_inv (length l) st.1 →
  let '(rs, st') := raw_observe_run l st in
  raw_register_run (raw_register_call <$> l) (raw_registry st.1) rs (raw_registry st'.1).
Proof.
  revert st. induction l as [|k l IH]; intros st Hinv; cbn [raw_observe_run]; [constructor|].
  pose proof (raw_observe_refines _ k st Hinv) as Hstep. pose proof (raw_observe_state k st) as Hstate.
  pose proof (raw_context_call_keeps k (length l) st Hinv) as Hkeeps.
  destruct (raw_observe k st) as [r st1]. destruct (raw_context_call k st) as [r0 st0]. cbn [snd] in Hstate. subst st0.
  assert (Hinv1 : rc_inv (length l) st1.1) by (destruct r0; done).
  specialize (IH st1 Hinv1). destruct (raw_observe_run l st1) as [rs st2]. cbn [fmap list_fmap]. by econstructor.
Qed.

(** ** Properties *)

(** C32: over every transport that obeys its laws, from a new raw context
    and for every sequence of fewer than 2^64 - 1 calls, the replies are those of a run of
    the register, and the subscriptions are the entries that it reaches; and
    a datagram that a call answers with is admitted by the configuration of an earlier
    add that was answered with its identifier, was joined since and neither
    left nor removed. *)
Theorem raw_context_refines_register (l : list RawContextCall) (w : World) :
  (Z.of_nat (length l) < u64_max)%Z →
  let '(rs, st) := raw_observe_run l (RawContext_new, w) in
  raw_register_run (raw_register_call <$> l) empty_register rs (raw_registry st.1) ∧
  ∀ i ps error p, rs !! i = Some (Received ps error) → p ∈ ps →
    ∃ c, explained (take i (zip (raw_register_call <$> l) rs)) (rp_subscription_id p) c Joined ∧
      raw_packet_admitted c p.
Proof.
  intros Hlen. assert (Hinv : rc_inv (length l) RawContext_new).
  { split; simpl; try constructor; try done; lia. }
  pose proof (raw_observe_run_refines l (RawContext_new, w) Hinv) as Hrun.
  destruct (raw_observe_run l (RawContext_new, w)) as [rs st]. split; [exact Hrun|].
  intros i ps error p Hi Hp. by apply (run_explained _ _ _ _ empty_register rs (raw_registry st.1) [] i ps error p Hrun).
Qed.
End refinement.

Definition sample_raw_calls : list RawContextCall :=
  [RawJoin 1; RawAdd sample_raw_config; RawAdd sample_raw_config; RawJoin 1; RawRecvAny; RawLeave 1; RawRecvAny;
   RawRemove 1; RawRemove 1].

Abbreviation sample_raw_history := (raw_observe_run sample_raw_calls (@pair RawContext World RawContext_new 0)).

Example raw_context_refines_register_witness :
  raw_register_run (raw_register_call <$> sample_raw_calls) empty_register sample_raw_history.1
    (raw_registry sample_raw_history.2.1) ∧
  sample_raw_history.1 = [Refused SubscriptionNotFound; AddedAs 1; Refused DuplicateSubscription; Moved;
    Received [sample_raw_packet] None; Moved; Received [] None; Removed true; Removed false] ∧
  ∃ c, explained (take 4 (zip (raw_register_call <$> sample_raw_calls) sample_raw_history.1)) 1 c Joined ∧
    raw_packet_admitted c sample_raw_packet.
Proof.
  pose proof (raw_context_refines_register sample_raw_calls 0 eq_refl) as Hrun.
  assert (Hrs : sample_raw_history.1 = [Refused SubscriptionNotFound; AddedAs 1; Refused DuplicateSubscription; Moved;
    Received [sample_raw_packet] None; Moved; Received [] None; Removed true; Removed false])
    by (vm_compute; reflexivity).
  destruct (raw_observe_run sample_raw_calls _) as [rs st]. destruct Hrun as [Hrun Hex]. cbn [fst snd] in *.
  split; [exact Hrun|]. split; [exact Hrs|].
  apply (Hex 4 [sample_raw_packet] None sample_raw_packet); [by rewrite Hrs|by left].
Defined.
