(* ===== verification/Demux.v ===== *)
(** * The demultiplexer of the shared raw capture ([src/src/raw/shared.rs])

    Sorted lists of subscription identifiers, and the index from a group and a
    source to the subscriptions that want it. [HashMap] is [gmap]. *)

From Stdlib Require Import Sorting.Sorted.
From S2P Require Import Prelude Net Errors Config Packet IpDatagram.

Local Open Scope Z_scope.

(** ** Sorted identifier lists *)

(** [slice::binary_search_by_key] on a sorted slice: the index of the key, or
    where to insert it. *)
Fixpoint binary_search (ids : list SubscriptionId) (id : SubscriptionId) : nat + nat :=
  match ids with
  | [] => inr 0%nat
  | x :: ids =>
      if bool_decide (x = id) then inl 0%nat
      else if bool_decide (id < x) then inr 0%nat
      else match binary_search ids id with inl i => inl (S i) | inr i => inr (S i) end
  end.

(** [Vec::insert] and [Vec::remove], which panic out of range. *)
Definition vec_insert {A : Type} (i : nat) (x : A) (l : list A) : Result (list A) :=
  if bool_decide (i ≤ length l)%nat then Ok (take i l ++ x :: drop i l) else Panic.
Definition vec_remove {A : Type} (i : nat) (l : list A) : Result (list A) :=
  if bool_decide (i < length l)%nat then Ok (take i l ++ drop (S i) l) else Panic.

Definition insert_id (ids : list SubscriptionId) (id : SubscriptionId)
    : Result (list SubscriptionId) :=
  match binary_search ids id with
  | inl _ => Ok ids
  | inr index => vec_insert index id ids
  end.

Definition remove_id (ids : list SubscriptionId) (id : SubscriptionId)
    : Result (list SubscriptionId) :=
  match binary_search ids id with
  | inl index => vec_remove index ids
  | inr _ => Ok ids
  end.

(** [merge_ids]: the indices of the source are the suffixes still to merge. *)
Fixpoint merge_ids (first : list SubscriptionId) : list SubscriptionId → list SubscriptionId :=
  match first with
  | [] => λ second, second
  | x :: first' =>
      fix merge_second (second : list SubscriptionId) : list SubscriptionId :=
        match second with
        | [] => x :: first'
        | y :: second' =>
            if bool_decide (x < y) then x :: merge_ids first' (y :: second')
            else if bool_decide (y < x) then y :: merge_second second'
            else x :: merge_ids first' second'
        end
  end.

(** ** [MatchingSubscriptionIds] *)
Inductive MatchingSubscriptionIds :=
  | One (id : SubscriptionId)
  | Many (ids : list SubscriptionId).

Definition as_slice (m : MatchingSubscriptionIds) : list SubscriptionId :=
  match m with One id => [id] | Many ids => ids end.

Definition from_sorted_slices (first second : list SubscriptionId)
    : Result (option MatchingSubscriptionIds) :=
  match (length first + length second)%nat with
  | O => Ok None
  | S O =>
      let? id := match first with
                 | id :: _ => Ok id
                 | [] => index second 0
                 end in
      Ok (Some (One id))
  | _ => Ok (Some (Many (merge_ids first second)))
  end.

Definition matching_first (m : MatchingSubscriptionIds) : Result SubscriptionId :=
  index (as_slice m) 0.

Definition remove_existing (i : nat) (m : MatchingSubscriptionIds) : Result MatchingSubscriptionIds :=
  match m with
  | One _ => Panic
  | Many ids =>
      let? ids := vec_remove i ids in
      match ids with
      | [id] => Ok (One id)
      | _ => Ok (Many ids)
      end
  end.

(** ** [GroupDemultiplexer] *)
Record GroupDemultiplexer := mkGroupDemux {
  gd_any_source : list SubscriptionId;
  gd_sources : gmap IpAddr (list SubscriptionId) }.

Definition GroupDemultiplexer_default : GroupDemultiplexer := mkGroupDemux [] ∅.

Definition group_insert (d : GroupDemultiplexer) (id : SubscriptionId) (source : option IpAddr)
    : Result GroupDemultiplexer :=
  match source with
  | Some source =>
      let? ids := insert_id (default [] (gd_sources d !! source)) id in
      Ok (mkGroupDemux (gd_any_source d) (<[source := ids]> (gd_sources d)))
  | None =>
      let? ids := insert_id (gd_any_source d) id in
      Ok (mkGroupDemux ids (gd_sources d))
  end.

Definition group_remove (d : GroupDemultiplexer) (id : SubscriptionId) (source : option IpAddr)
    : Result GroupDemultiplexer :=
  match source with
  | Some source =>
      match gd_sources d !! source with
      | None => Ok d
      | Some ids =>
          let? ids := remove_id ids id in
          Ok (mkGroupDemux (gd_any_source d)
                (if bool_decide (ids = []) then delete source (gd_sources d)
                 else <[source := ids]> (gd_sources d)))
      end
  | None =>
      let? ids := remove_id (gd_any_source d) id in
      Ok (mkGroupDemux ids (gd_sources d))
  end.

Definition group_is_empty (d : GroupDemultiplexer) : bool :=
  bool_decide (gd_any_source d = []) && bool_decide (gd_sources d = ∅).

Definition group_matches (d : GroupDemultiplexer) (source : IpAddr)
    : Result (option MatchingSubscriptionIds) :=
  from_sorted_slices (gd_any_source d) (default [] (gd_sources d !! source)).

(** ** [CaptureDemultiplexer] *)
Abbreviation CaptureDemultiplexer := (gmap IpAddr GroupDemultiplexer) (only parsing).

Definition capture_insert (d : CaptureDemultiplexer) (id : SubscriptionId) (c : RawSubscriptionConfig)
    : Result CaptureDemultiplexer :=
  let? group := group_insert (default GroupDemultiplexer_default (d !! raw_group c)) id
                  (RawSubscriptionConfig.source_addr c) in
  Ok (<[raw_group c := group]> d).

Definition capture_remove (d : CaptureDemultiplexer) (id : SubscriptionId) (c : RawSubscriptionConfig)
    : Result CaptureDemultiplexer :=
  match d !! raw_group c with
  | None => Ok d
  | Some group =>
      let? group := group_remove group id (RawSubscriptionConfig.source_addr c) in
      Ok (if group_is_empty group then delete (raw_group c) d else <[raw_group c := group]> d)
  end.

Definition capture_matches (d : CaptureDemultiplexer) (group source : IpAddr)
    : Result (option MatchingSubscriptionIds) :=
  match d !! group with
  | None => Ok None
  | Some g => group_matches g source
  end.

(** ** Sorted lists *)

Definition sorted (l : list SubscriptionId) : Prop := StronglySorted Z.lt l.

Lemma sorted_nil : sorted [].
Proof. constructor. Qed.
Lemma sorted_cons x l : sorted (x :: l) ↔ Forall (Z.lt x) l ∧ sorted l.
Proof. split; [by intros [? ?]%StronglySorted_inv|intros []; by constructor]. Qed.
Lemma sorted_singleton x : sorted [x].
Proof. rewrite sorted_cons. split; [constructor|apply sorted_nil]. Qed.

Lemma sorted_head_lt x l y : sorted (x :: l) → y ∈ l → x < y.
Proof. rewrite sorted_cons, Forall_forall. intros [Hx _]. apply Hx. Qed.

Lemma sorted_NoDup l : sorted l → NoDup l.
Proof.
  induction l as [|x l IH]; [constructor|]. intros Hs. constructor.
  - intros Hin. pose proof (sorted_head_lt _ _ _ Hs Hin). lia.
  - apply sorted_cons in Hs as [_ Hs]. by apply IH.
Qed.

(** A sorted list is determined by its elements. *)
Lemma sorted_ext l l' : sorted l → sorted l' → (∀ x, x ∈ l ↔ x ∈ l') → l = l'.
Proof.
  revert l'. induction l as [|x l IH]; intros [|y l'] Hl Hl' Hext; [done| | |].
  - exfalso. by apply (not_elem_of_nil y), Hext; left.
  - exfalso. by apply (not_elem_of_nil x), Hext; left.
  - assert (x = y) as ->.
    { assert (x ∈ y :: l') as [?|Hx]%elem_of_cons by (apply Hext; left); [done|].
      assert (y ∈ x :: l) as [?|Hy]%elem_of_cons by (apply Hext; left); [done|].
      pose proof (sorted_head_lt _ _ _ Hl' Hx). pose proof (sorted_head_lt _ _ _ Hl Hy). lia. }
    f_equal.
    apply IH; [by apply sorted_cons in Hl as []|by apply sorted_cons in Hl' as []|].
    intros z. specialize (Hext z). rewrite !elem_of_cons in Hext.
    split; intros Hz; destruct Hext as [H1 H2].
    + destruct H1 as [->|?]; [by right| |done]. pose proof (sorted_head_lt _ _ _ Hl Hz). lia.
    + destruct H2 as [->|?]; [by right| |done]. pose proof (sorted_head_lt _ _ _ Hl' Hz). lia.
Qed.

Lemma insert_id_cons x ids id :
  x < id → insert_id (x :: ids) id = res_map (cons x) (insert_id ids id).
Proof.
  intros Hlt. unfold insert_id. cbn [binary_search]. rewrite !bool_decide_false by lia.
  destruct (binary_search ids id) as [i|i]; [done|]. unfold vec_insert. simpl.
  rewrite (bool_decide_ext (S i ≤ S (length ids))%nat (i ≤ length ids)%nat) by lia.
  by case_bool_decide.
Qed.

Lemma remove_id_cons x ids id :
  x < id → remove_id (x :: ids) id = res_map (cons x) (remove_id ids id).
Proof.
  intros Hlt. unfold remove_id. cbn [binary_search]. rewrite !bool_decide_false by lia.
  destruct (binary_search ids id) as [i|i]; [|done]. unfold vec_remove. simpl.
  rewrite (bool_decide_ext (S i < S (length ids))%nat (i < length ids)%nat) by lia.
  by case_bool_decide.
Qed.

Lemma insert_id_spec ids id :
  sorted ids →
  ∃ ids', insert_id ids id = Ok ids' ∧ sorted ids' ∧ (∀ x, x ∈ ids' ↔ x = id ∨ x ∈ ids).
Proof.
  induction ids as [|x ids IH]; intros Hs.
  { exists [id]. split_and!; [done|apply sorted_singleton|set_solver]. }
  destruct (Z.lt_trichotomy x id) as [Hlt|[->|Hgt]].
  - apply sorted_cons in Hs as [Hx Hs]. destruct (IH Hs) as (ids' & Hins & Hs' & Hin).
    exists (x :: ids'). rewrite insert_id_cons, Hins by done. split_and!; [done| |set_solver].
    apply sorted_cons. split; [|done]. apply Forall_forall. intros y Hy%Hin.
    rewrite Forall_forall in Hx. destruct Hy as [->|?]; [done|by apply Hx].
  - exists (id :: ids). unfold insert_id. cbn [binary_search]. rewrite bool_decide_true by done.
    split_and!; [done|done|set_solver].
  - exists (id :: x :: ids). unfold insert_id. cbn [binary_search].
    rewrite bool_decide_false, bool_decide_true by lia. split_and!; [done| |set_solver].
    apply sorted_cons. split; [|done]. constructor; [done|].
    apply sorted_cons in Hs as [Hx _]. eapply Forall_impl; [exact Hx|]. simpl. lia.
Qed.

Lemma remove_id_spec ids id :
  sorted ids →
  ∃ ids', remove_id ids id = Ok ids' ∧ sorted ids' ∧ (∀ x, x ∈ ids' ↔ x ≠ id ∧ x ∈ ids).
Proof.
  induction ids as [|x ids IH]; intros Hs.
  { exists []. split_and!; [done|done|set_solver]. }
  pose proof Hs as [Hx Hs']%sorted_cons. rewrite Forall_forall in Hx.
  destruct (Z.lt_trichotomy x id) as [Hlt|[->|Hgt]].
  - destruct (IH Hs') as (ids' & Hrem & Hs'' & Hin).
    exists (x :: ids'). rewrite remove_id_cons, Hrem by done. split_and!; [done| |].
    + apply sorted_cons. split; [|done]. apply Forall_forall. intros y [_ Hy]%Hin. by apply Hx.
    + intros y. rewrite !elem_of_cons, Hin. naive_solver lia.
  - exists ids. unfold remove_id. cbn [binary_search]. rewrite bool_decide_true by done.
    split_and!; [done|done|]. intros y. rewrite elem_of_cons. split.
    + intros Hy. specialize (Hx y Hy). split; [lia|by right].
    + intros [? [?|?]]; [done|done].
  - exists (x :: ids). unfold remove_id. cbn [binary_search].
    rewrite bool_decide_false, bool_decide_true by lia.
    assert (Hni : id ∉ x :: ids).
    { intros [?|Hin]%elem_of_cons; [lia|]. specialize (Hx id Hin). lia. }
    split_and!; [done|done|]. intros y. split; [intros Hy; split; [by intros ->|done]|by intros []].
Qed.

Lemma merge_ids_cons x first y second :
  merge_ids (x :: first) (y :: second) =
    if bool_decide (x < y) then x :: merge_ids first (y :: second)
    else if bool_decide (y < x) then y :: merge_ids (x :: first) second
    else x :: merge_ids first second.
Proof. done. Qed.

Lemma merge_ids_spec first second :
  sorted first → sorted second →
  sorted (merge_ids first second) ∧ ∀ z, z ∈ merge_ids first second ↔ z ∈ first ∨ z ∈ second.
Proof.
  revert second. induction first as [|x first IH]; intros second Hf.
  { simpl. intros. split; [done|]. set_solver. }
  pose proof Hf as [Hx Hf']%sorted_cons. rewrite Forall_forall in Hx.
  induction second as [|y second IHs]; intros Hs; [split; [done|set_solver]|].
  pose proof Hs as [Hy Hs']%sorted_cons. rewrite Forall_forall in Hy. rewrite merge_ids_cons.
  repeat case_bool_decide.
  - destruct (IH (y :: second) Hf' Hs) as [Hms Hin]. split.
    + apply sorted_cons. split; [|done]. apply Forall_forall. intros z [Hz|[->|Hz]%elem_of_cons]%Hin.
      * by apply Hx.
      * done.
      * specialize (Hy z Hz). lia.
    + intros z. rewrite !elem_of_cons, Hin, elem_of_cons. tauto.
  - destruct (IHs Hs') as [Hms Hin]. split.
    + apply sorted_cons. split; [|done]. apply Forall_forall. intros z [[->|Hz]%elem_of_cons|Hz]%Hin.
      * done.
      * specialize (Hx z Hz). lia.
      * by apply Hy.
    + intros z. rewrite elem_of_cons, Hin, !elem_of_cons. tauto.
  - assert (x = y) as -> by lia. destruct (IH second Hf' Hs') as [Hms Hin]. split.
    + apply sorted_cons. split; [|done]. apply Forall_forall. intros z [Hz|Hz]%Hin; auto.
    + intros z. rewrite !elem_of_cons, Hin. tauto.
Qed.

(** [Vec::remove] at a position that a search found. *)
Lemma vec_remove_position {A : Type} `{EqDecision A} (l : list A) x i :
  position (λ y, bool_decide (y = x)) l = Some i →
  ∃ l', vec_remove i l = Ok l' ∧ l' `sublist_of` l ∧ l ≡ₚ x :: l'.
Proof.
  intros (y & Hi & ->%bool_decide_eq_true & _)%position_Some. pose proof (lookup_lt_Some _ _ _ Hi).
  exists (take i l ++ drop (S i) l). unfold vec_remove. rewrite bool_decide_true by done.
  pose proof (take_drop_middle l i x Hi) as Hl. split_and!; [done| |].
  - rewrite <-Hl at 3. apply sublist_app; [done|]. by apply sublist_cons.
  - rewrite <-Hl at 1. symmetry. apply Permutation_middle.
Qed.

Lemma position_elem_of {A : Type} `{EqDecision A} (l : list A) x :
  match position (λ y, bool_decide (y = x)) l with Some _ => x ∈ l | None => x ∉ l end.
Proof.
  destruct (position _ l) as [i|] eqn:Hi.
  - apply position_Some in Hi as (y & Hi & ->%bool_decide_eq_true & _). by eapply list_elem_of_lookup_2.
  - rewrite position_None in Hi. intros Hin. specialize (Hi x Hin). by rewrite bool_decide_true in Hi.
Qed.

Lemma sublist_sorted l l' : l' `sublist_of` l → sorted l → sorted l'.
Proof.
  induction 1 as [|x l' l Hsub IH|x l' l Hsub IH]; intros Hs; [done| |].
  - apply sorted_cons in Hs as [Hx Hs]. apply sorted_cons. split; [|by apply IH].
    rewrite Forall_forall in *. intros y Hy. apply Hx. by eapply elem_of_sublist.
  - apply sorted_cons in Hs as [_ Hs]. by apply IH.
Qed.

(** The identifiers of an optional match. *)
Definition ids_of (m : option MatchingSubscriptionIds) : list SubscriptionId :=
  match m with Some m => as_slice m | None => [] end.

Lemma from_sorted_slices_spec first second :
  sorted first → sorted second →
  ∃ m, from_sorted_slices first second = Ok m ∧ sorted (ids_of m) ∧
    (∀ x, x ∈ ids_of m ↔ x ∈ first ∨ x ∈ second) ∧ (∀ i, m = Some i → as_slice i ≠ []).
Proof.
  intros Hf Hs. unfold from_sorted_slices.
  destruct (length first + length second)%nat as [|[|n]] eqn:Hlen.
  - destruct first, second; try done. exists None. split_and!; [done|apply sorted_nil|set_solver|done].
  - destruct first as [|x [|]], second as [|y [|]]; simpl in Hlen; try lia; cbn [index res_bind].
    + exists (Some (One y)). split_and!; [done|done|set_solver|by intros ? [= <-]].
    + exists (Some (One x)). split_and!; [done|done|set_solver|by intros ? [= <-]].
  - exists (Some (Many (merge_ids first second))). destruct (merge_ids_spec first second Hf Hs) as [Hm Hin].
    split_and!; [done|done|done|]. intros i [= <-] Hnil. simpl in Hnil.
    destruct first as [|x first]; [destruct second as [|y second]; [done|]|].
    + by apply (not_elem_of_nil y); rewrite <-Hnil, Hin; right; left.
    + by apply (not_elem_of_nil x); rewrite <-Hnil, Hin; left; left.
Qed.

(** ** The demultiplexer as an index of a set of memberships *)

(** A membership: a subscription, its group and its source. *)
Abbreviation Membership := (SubscriptionId * IpAddr * option IpAddr)%type (only parsing).

Definition membership_of (id : SubscriptionId) (c : RawSubscriptionConfig) : Membership :=
  (id, raw_group c, RawSubscriptionConfig.source_addr c).

Definition group_ids (g : GroupDemultiplexer) (source : option IpAddr) : list SubscriptionId :=
  match source with
  | None => gd_any_source g
  | Some a => default [] (gd_sources g !! a)
  end.

Definition demux_ids (d : CaptureDemultiplexer) (group : IpAddr) (source : option IpAddr)
    : list SubscriptionId :=
  match d !! group with Some g => group_ids g source | None => [] end.

Definition group_wf (g : GroupDemultiplexer) : Prop :=
  sorted (gd_any_source g) ∧ map_Forall (λ _ ids, sorted ids ∧ ids ≠ []) (gd_sources g).

(** The index holds exactly the memberships of a set, and nothing empty. *)
Record demux_refines (d : CaptureDemultiplexer) (X : gset Membership) : Prop := {
  dr_wf : map_Forall (λ _ g, group_wf g ∧ group_is_empty g = false) d;
  dr_ids : ∀ id group source, id ∈ demux_ids d group source ↔ (id, group, source) ∈ X }.

Lemma group_wf_default : group_wf GroupDemultiplexer_default.
Proof. split; [apply sorted_nil|apply map_Forall_empty]. Qed.

Lemma group_ids_sorted g source : group_wf g → sorted (group_ids g source).
Proof.
  intros [Hany Hsrc]. destruct source as [a|]; [|done]. simpl.
  destruct (gd_sources g !! a) as [ids|] eqn:Ha; [by apply (Hsrc a)|apply sorted_nil].
Qed.

Lemma group_insert_spec g id source :
  group_wf g →
  ∃ g', group_insert g id source = Ok g' ∧ group_wf g' ∧ group_is_empty g' = false ∧
    ∀ x s, x ∈ group_ids g' s ↔ (x = id ∧ s = source) ∨ x ∈ group_ids g s.
Proof.
  intros Hwf. pose proof Hwf as [Hany Hsrc].
  destruct (insert_id_spec (group_ids g source) id) as (ids & Hins & Hs & Hin);
    [by apply group_ids_sorted|].
  assert (Hne : ids ≠ []). { intros ->. by apply (not_elem_of_nil id), Hin; left. }
  destruct source as [a|]; simpl in Hins; unfold group_insert; rewrite Hins; cbn [res_bind].
  - eexists. split_and!; [done|split; [done|]| |].
    + simpl. by apply map_Forall_insert_2.
    + unfold group_is_empty. simpl. apply andb_false_iff. right. apply bool_decide_eq_false, insert_non_empty.
    + intros x [b|]; simpl; [|naive_solver]. destruct (decide (b = a)) as [->|Hb].
      * rewrite lookup_insert_eq. simpl. rewrite Hin. simpl. naive_solver.
      * rewrite lookup_insert_ne by done. naive_solver.
  - eexists. split_and!; [done|done| |].
    + unfold group_is_empty. simpl. by rewrite bool_decide_eq_false_2.
    + intros x [b|]; simpl; [naive_solver|]. rewrite Hin. naive_solver.
Qed.

Lemma group_remove_spec g id source :
  group_wf g →
  ∃ g', group_remove g id source = Ok g' ∧ group_wf g' ∧
    ∀ x s, x ∈ group_ids g' s ↔ x ∈ group_ids g s ∧ ¬ (x = id ∧ s = source).
Proof.
  intros Hwf. pose proof Hwf as [Hany Hsrc].
  destruct (remove_id_spec (group_ids g source) id) as (ids & Hrem & Hs & Hin);
    [by apply group_ids_sorted|].
  destruct source as [a|]; simpl in Hrem; unfold group_remove.
  - destruct (gd_sources g !! a) as [old|] eqn:Ha; simpl in Hrem.
    + simpl in Hin. rewrite Ha in Hin. simpl in Hin. rewrite Hrem. cbn [res_bind].
      eexists. split_and!; [done|split; [done|]|].
      * simpl. case_bool_decide; [by apply map_Forall_delete|by apply map_Forall_insert_2].
      * intros x [b|]; simpl; [|naive_solver]. destruct (decide (b = a)) as [->|Hb].
        { rewrite Ha. simpl in *. case_bool_decide as Hnil.
          - rewrite lookup_delete_eq. simpl. specialize (Hin x). rewrite Hnil in Hin. rewrite Hin. naive_solver.
          - rewrite lookup_insert_eq. simpl. rewrite Hin. naive_solver. }
        case_bool_decide; rewrite ?lookup_delete_ne, ?lookup_insert_ne by done; naive_solver.
    + exists g. split_and!; [done|done|]. intros x [b|]; simpl; [|naive_solver].
      destruct (decide (b = a)) as [->|Hb]; [rewrite Ha; simpl; set_solver|naive_solver].
  - rewrite Hrem. cbn [res_bind]. eexists. split_and!; [done|done|].
    intros x [b|]; simpl; [naive_solver|]. rewrite Hin. naive_solver.
Qed.

Lemma demux_refines_empty : demux_refines ∅ ∅.
Proof. split; [apply map_Forall_empty|]. intros. unfold demux_ids. rewrite lookup_empty. set_solver. Qed.

(** The group an operation starts from. *)
Lemma demux_group_wf d X group :
  demux_refines d X → group_wf (default GroupDemultiplexer_default (d !! group)).
Proof.
  intros [Hwf _]. destruct (d !! group) as [g|] eqn:Hg; [by apply (Hwf group)|apply group_wf_default].
Qed.

Lemma demux_ids_default d group source :
  demux_ids d group source = group_ids (default GroupDemultiplexer_default (d !! group)) source.
Proof. unfold demux_ids. destruct (d !! group); [done|]. by destruct source. Qed.

Lemma capture_insert_spec d X id c :
  demux_refines d X →
  ∃ d', capture_insert d id c = Ok d' ∧ demux_refines d' ({[membership_of id c]} ∪ X).
Proof.
  intros Hd. destruct (group_insert_spec _ id (RawSubscriptionConfig.source_addr c)
    (demux_group_wf d X (raw_group c) Hd)) as (g' & Hins & Hwf & Hne & Hin).
  unfold capture_insert. rewrite Hins. cbn [res_bind]. eexists. split; [done|]. split.
  - apply map_Forall_insert_2; [done|apply Hd].
  - intros x group source. unfold demux_ids, membership_of. destruct (decide (group = raw_group c)) as [->|Hg].
    + rewrite lookup_insert_eq, Hin, <-demux_ids_default, (dr_ids _ _ Hd). set_solver.
    + rewrite lookup_insert_ne by done. fold (demux_ids d group source). rewrite (dr_ids _ _ Hd). set_solver.
Qed.

Lemma capture_remove_spec d X id c :
  demux_refines d X →
  ∃ d', capture_remove d id c = Ok d' ∧ demux_refines d' (X ∖ {[membership_of id c]}).
Proof.
  intros Hd. unfold capture_remove, membership_of. pose proof (dr_ids _ _ Hd) as Hids.
  destruct (d !! raw_group c) as [g|] eqn:Hg.
  - destruct (dr_wf _ _ Hd _ _ Hg) as [Hwf _].
    destruct (group_remove_spec g id (RawSubscriptionConfig.source_addr c) Hwf) as (g' & Hrem & Hwf' & Hin).
    rewrite Hrem. cbn [res_bind]. eexists. split; [done|]. destruct (group_is_empty g') eqn:He.
    + split; [apply map_Forall_delete, Hd|]. intros x group source. unfold demux_ids.
      destruct (decide (group = raw_group c)) as [->|Hne].
      * rewrite lookup_delete_eq. rewrite elem_of_difference, <-Hids. unfold demux_ids. rewrite Hg.
        assert (Hempty : group_ids g' source = []).
        { unfold group_is_empty in He. apply andb_prop in He as [H1%bool_decide_eq_true H2%bool_decide_eq_true].
          destruct source; simpl; [by rewrite H2, lookup_empty|done]. }
        specialize (Hin x source). rewrite Hempty in Hin. set_solver.
      * rewrite lookup_delete_ne by done. fold (demux_ids d group source). rewrite Hids. set_solver.
    + split; [by apply map_Forall_insert_2; [|apply Hd]|]. intros x group source. unfold demux_ids.
      destruct (decide (group = raw_group c)) as [->|Hne].
      * rewrite lookup_insert_eq, Hin, elem_of_difference, <-Hids. unfold demux_ids. rewrite Hg. set_solver.
      * rewrite lookup_insert_ne by done. fold (demux_ids d group source). rewrite Hids. set_solver.
  - exists d. split; [done|]. split; [apply Hd|]. intros x group source. rewrite Hids.
    assert (Hni : (id, raw_group c, RawSubscriptionConfig.source_addr c) ∉ X); [|set_solver].
    rewrite <-Hids. unfold demux_ids. rewrite Hg. set_solver.
Qed.

(** The identifiers that a datagram of a group and a source is for. *)
Definition matches_membership (X : gset Membership) (group source : IpAddr) (id : SubscriptionId) : Prop :=
  (id, group, None) ∈ X ∨ (id, group, Some source) ∈ X.

Lemma capture_matches_spec d X group source :
  demux_refines d X →
  ∃ m, capture_matches d group source = Ok m ∧ sorted (ids_of m) ∧
    (∀ id, id ∈ ids_of m ↔ matches_membership X group source id) ∧
    (∀ i, m = Some i → as_slice i ≠ []).
Proof.
  intros [Hwf Hids]. unfold capture_matches, matches_membership. setoid_rewrite <-Hids. unfold demux_ids.
  destruct (d !! group) as [g|] eqn:Hg.
  - destruct (Hwf _ _ Hg) as [Hgwf _].
    apply (from_sorted_slices_spec (group_ids g None) (group_ids g (Some source)));
      by apply group_ids_sorted.
  - exists None. split_and!; [done|apply sorted_nil|set_solver|done].
Qed.

(** ** Runs of the demultiplexer *)
Inductive DemuxCall :=
  | DemuxInsert (id : SubscriptionId) (c : RawSubscriptionConfig)
  | DemuxRemove (id : SubscriptionId) (c : RawSubscriptionConfig).

Definition demux_call (k : DemuxCall) (d : CaptureDemultiplexer) : Result CaptureDemultiplexer :=
  match k with
  | DemuxInsert id c => capture_insert d id c
  | DemuxRemove id c => capture_remove d id c
  end.

Fixpoint demux_run (l : list DemuxCall) (d : CaptureDemultiplexer) : Result CaptureDemultiplexer :=
  match l with
  | [] => Ok d
  | k :: l => let? d := demux_call k d in demux_run l d
  end.

(** The specification: a set of memberships. *)
Definition spec_call (k : DemuxCall) (X : gset Membership) : gset Membership :=
  match k with
  | DemuxInsert id c => {[membership_of id c]} ∪ X
  | DemuxRemove id c => X ∖ {[membership_of id c]}
  end.

Definition spec_run (l : list DemuxCall) (X : gset Membership) : gset Membership :=
  foldl (λ X k, spec_call k X) X l.

Lemma demux_run_refines l d X :
  demux_refines d X → ∃ d', demux_run l d = Ok d' ∧ demux_refines d' (spec_run l X).
Proof.
  revert d X. induction l as [|k l IH]; intros d X Hd; [by exists d|].
  assert (∃ d1, demux_call k d = Ok d1 ∧ demux_refines d1 (spec_call k X)) as (d1 & Hk & Hd1).
  { destruct k; [by apply capture_insert_spec|by apply capture_remove_spec]. }
  cbn [demux_run]. rewrite Hk. by apply IH.
Qed.

Lemma demux_refines_no_leak d X : demux_refines d X → X = ∅ → d = ∅.
Proof.
  intros [Hwf Hids] ->. apply map_empty. intros group. destruct (d !! group) as [g|] eqn:Hg; [|done].
  exfalso. destruct (Hwf _ _ Hg) as [[_ Hsrc] Hne]. apply not_true_iff_false in Hne. apply Hne.
  assert (Hnil : ∀ source, group_ids g source = []).
  { intros source. apply elem_of_nil_inv. intros x Hx. apply (not_elem_of_empty (C := gset Membership) (x, group, source)).
    apply Hids. unfold demux_ids. by rewrite Hg. }
  unfold group_is_empty. apply andb_true_intro. split; apply bool_decide_eq_true; [apply (Hnil None)|].
  apply map_empty. intros a. specialize (Hnil (Some a)). simpl in Hnil.
  destruct (gd_sources g !! a) as [ids|] eqn:Ha; [|done]. by destruct (Hsrc _ _ Ha).
Qed.

(** C18: after any sequence of insertions and removals from an empty
    demultiplexer, a lookup of a group and a source returns (nothing panics)
    the identifiers of exactly the live memberships that the datagram is for,
    ascending and each once, [None] when there are none; and a demultiplexer
    without live memberships holds no group or source entry at all. *)
Theorem demultiplexer_refines_membership_set (l : list DemuxCall) :
  ∃ d, demux_run l ∅ = Ok d ∧
    (∀ group source, ∃ m, capture_matches d group source = Ok m ∧
       sorted (ids_of m) ∧ NoDup (ids_of m) ∧ (m = None ↔ ids_of m = []) ∧
       ∀ id, id ∈ ids_of m ↔ matches_membership (spec_run l ∅) group source id) ∧
    (spec_run l ∅ = ∅ → d = ∅).
Proof.
  destruct (demux_run_refines l ∅ ∅ demux_refines_empty) as (d & Hrun & Hd).
  exists d. split_and!; [done| |by apply demux_refines_no_leak]. intros group source.
  destruct (capture_matches_spec d _ group source Hd) as (m & Hm & Hs & Hin & Hne).
  exists m. split_and!; [done|done|by apply sorted_NoDup| |done].
  split; [by intros ->|]. destruct m as [i|]; [|done]. intros Hnil. by destruct (Hne i).
Qed.
