(* ===== verification/SharedRaw.v ===== *)
(** * The shared raw context ([src/src/raw/shared.rs])

    One capture socket per family and interface, shared by any number of
    logical subscriptions. The platform functions it calls are the interface
    [SharedCapture]; the Linux platform layer is an instance. The [metrics]
    feature is on. *)

From S2P Require Import Prelude Hoare Net Errors Config Packet Os SampleOs Ancillary Platform.
From S2P Require Import Subscription Context IpDatagram AppleBpf RawPlatform RawContext Demux.

Local Open Scope Z_scope.

(** ** Keys *)

Record KernelMembershipKey := mkKernelKey { kk_group : IpAddr; kk_source : option IpAddr }.
Definition KernelMembershipKey_from (c : RawSubscriptionConfig) : KernelMembershipKey :=
  mkKernelKey (raw_group c) (RawSubscriptionConfig.source_addr c).

Record CaptureSelector := mkSelector {
  sel_family : SubscriptionAddressFamily;
  sel_interface : option IpAddr;
  sel_interface_index : option Z }.
Definition CaptureSelector_from (c : RawSubscriptionConfig) : CaptureSelector :=
  mkSelector (RawSubscriptionConfig.family c) (raw_interface c) (raw_interface_index c).

#[global] Instance RawSharedCaptureKey_eq_dec : EqDecision RawSharedCaptureKey.
Proof. solve_decision. Defined.
#[global] Program Instance RawSharedCaptureKey_countable : Countable RawSharedCaptureKey :=
  inj_countable' (λ k, (ck_family k, ck_interface_index k)) (λ p, mkCaptureKey p.1 p.2) _.
Next Obligation. by intros []. Qed.
#[global] Instance KernelMembershipKey_eq_dec : EqDecision KernelMembershipKey.
Proof. solve_decision. Defined.
#[global] Program Instance KernelMembershipKey_countable : Countable KernelMembershipKey :=
  inj_countable' (λ k, (kk_group k, kk_source k)) (λ p, mkKernelKey p.1 p.2) _.
Next Obligation. by intros []. Qed.
#[global] Instance CaptureSelector_eq_dec : EqDecision CaptureSelector.
Proof. solve_decision. Defined.
#[global] Program Instance CaptureSelector_countable : Countable CaptureSelector :=
  inj_countable' (λ k, (sel_family k, sel_interface k, sel_interface_index k))
    (λ p, mkSelector p.1.1 p.1.2 p.2) _.
Next Obligation. by intros []. Qed.

(** ** The platform interface *)

(** A captured datagram is a whole IP datagram of the key's family. *)
Definition captured_wf (key : RawSharedCaptureKey) (d : RawCapturedDatagram) : Prop :=
  ∃ p, parse_ip_datagram (cd_datagram d) = Ok (Some p) ∧
    pi_datagram_len p = length (cd_datagram d) ∧ pi_source_ip p = cd_source_ip d ∧
    pi_destination_ip p = cd_group d ∧ pi_protocol p = cd_ip_protocol d ∧
    same_ip_family (ck_family key) (cd_group d) = true.

Class SharedCapture `{Os} := {
  capture_socket : Type;
  capture_key : RawSubscriptionConfig → Op World RawSharedCaptureKey;
  capture_open : RawSharedCaptureKey → Op World capture_socket;
  capture_join : capture_socket → RawSubscriptionConfig → Op World unit;
  capture_leave : capture_socket → RawSubscriptionConfig → Op World unit;
  capture_recv : capture_socket → RawSharedCaptureKey → Op World (option RawCapturedDatagram);
  capture_ok : capture_socket → Prop }.

Class SharedCaptureLaws `{Os} (s : SharedCapture) : Prop := {
  law_capture_key c : total (capture_key c);
  law_capture_open key :
    hoare (λ _, True) (capture_open key) (λ s _, capture_ok s) (λ _, True);
  law_capture_join s c : capture_ok s → total (capture_join s c);
  law_capture_leave s c : capture_ok s → total (capture_leave s c);
  law_capture_recv s key :
    capture_ok s →
    hoare (λ _, True) (capture_recv s key) (λ r _, ∀ d, r = Some d → captured_wf key d) (λ _, True) }.

Section shared_raw.
Context `{SharedCapture}.

(** ** State *)

Record SharedRawContextLimits := mkLimits {
  max_subscriptions : Z;
  max_pending_packets : Z }.
Definition SharedRawContextLimits_default : SharedRawContextLimits := mkLimits 4096 1024.

Record SharedRawSubscription := mkSharedSub {
  ss_id : SubscriptionId;
  ss_config : RawSubscriptionConfig;
  ss_capture_key : RawSharedCaptureKey;
  ss_state : SubscriptionState }.
Definition SharedRawSubscription_new (id : SubscriptionId) (c : RawSubscriptionConfig)
    (key : RawSharedCaptureKey) : SharedRawSubscription := mkSharedSub id c key Bound.
Definition ss_is_joined (s : SharedRawSubscription) : bool :=
  match ss_state s with Joined => true | Bound => false end.
Definition set_ss_state (state : SubscriptionState) (s : SharedRawSubscription) : SharedRawSubscription :=
  mkSharedSub (ss_id s) (ss_config s) (ss_capture_key s) state.

Record SharedRawPacket := mkSharedPacket {
  sp_packet : RawPacket;
  sp_matching : MatchingSubscriptionIds }.
Definition matching_subscription_ids (p : SharedRawPacket) : list SubscriptionId :=
  as_slice (sp_matching p).

Record KernelMembership := mkKernelMembership {
  km_references : Z;
  km_joined_config : RawSubscriptionConfig }.
Record ResolvedCaptureKey := mkResolved { rk_key : RawSharedCaptureKey; rk_references : Z }.

Record SharedCaptureSocket := mkCaptureSocket {
  cs_socket : capture_socket;
  cs_memberships : Z;
  cs_kernel_memberships : gmap KernelMembershipKey KernelMembership;
  cs_demultiplexer : CaptureDemultiplexer }.
Definition SharedCaptureSocket_new (s : capture_socket) : SharedCaptureSocket :=
  mkCaptureSocket s 0 ∅ ∅.

Record SharedRawCaptureMetrics := mkCaptureMetrics {
  cm_received_packets_total : Z;
  cm_unmatched_packets_total : Z;
  cm_demultiplex_matches_total : Z }.

Record SharedRawContext := mkShared {
  sc_subscriptions : gmap SubscriptionId SharedRawSubscription;
  sc_resolved_capture_keys : gmap CaptureSelector ResolvedCaptureKey;
  sc_captures : gmap RawSharedCaptureKey SharedCaptureSocket;
  sc_capture_order : list RawSharedCaptureKey;
  sc_pending_packets : list SharedRawPacket;
  sc_limits : SharedRawContextLimits;
  sc_next_subscription_id : Z;
  sc_next_capture_index : nat;
  sc_metrics : SharedRawCaptureMetrics }.

Definition set_sc_subscriptions (f : gmap SubscriptionId SharedRawSubscription →
    gmap SubscriptionId SharedRawSubscription) (c : SharedRawContext) : SharedRawContext :=
  mkShared (f (sc_subscriptions c)) (sc_resolved_capture_keys c) (sc_captures c) (sc_capture_order c)
    (sc_pending_packets c) (sc_limits c) (sc_next_subscription_id c) (sc_next_capture_index c) (sc_metrics c).
Definition set_sc_resolved (f : gmap CaptureSelector ResolvedCaptureKey → gmap CaptureSelector ResolvedCaptureKey)
    (c : SharedRawContext) : SharedRawContext :=
  mkShared (sc_subscriptions c) (f (sc_resolved_capture_keys c)) (sc_captures c) (sc_capture_order c)
    (sc_pending_packets c) (sc_limits c) (sc_next_subscription_id c) (sc_next_capture_index c) (sc_metrics c).
Definition set_sc_captures (f : gmap RawSharedCaptureKey SharedCaptureSocket →
    gmap RawSharedCaptureKey SharedCaptureSocket) (c : SharedRawContext) : SharedRawContext :=
  mkShared (sc_subscriptions c) (sc_resolved_capture_keys c) (f (sc_captures c)) (sc_capture_order c)
    (sc_pending_packets c) (sc_limits c) (sc_next_subscription_id c) (sc_next_capture_index c) (sc_metrics c).
Definition set_sc_capture_order (order : list RawSharedCaptureKey) (i : nat) (c : SharedRawContext)
    : SharedRawContext :=
  mkShared (sc_subscriptions c) (sc_resolved_capture_keys c) (sc_captures c) order
    (sc_pending_packets c) (sc_limits c) (sc_next_subscription_id c) i (sc_metrics c).
Definition set_sc_pending (pending : list SharedRawPacket) (c : SharedRawContext) : SharedRawContext :=
  mkShared (sc_subscriptions c) (sc_resolved_capture_keys c) (sc_captures c) (sc_capture_order c)
    pending (sc_limits c) (sc_next_subscription_id c) (sc_next_capture_index c) (sc_metrics c).
Definition set_sc_next_id (id : Z) (c : SharedRawContext) : SharedRawContext :=
  mkShared (sc_subscriptions c) (sc_resolved_capture_keys c) (sc_captures c) (sc_capture_order c)
    (sc_pending_packets c) (sc_limits c) id (sc_next_capture_index c) (sc_metrics c).
Definition set_sc_metrics (f : SharedRawCaptureMetrics → SharedRawCaptureMetrics) (c : SharedRawContext)
    : SharedRawContext :=
  mkShared (sc_subscriptions c) (sc_resolved_capture_keys c) (sc_captures c) (sc_capture_order c)
    (sc_pending_packets c) (sc_limits c) (sc_next_subscription_id c) (sc_next_capture_index c) (f (sc_metrics c)).

Abbreviation Act A := (Op (SharedRawContext * World) A).

(** [n += 1] and [n - 1] on a [usize] count, with overflow checks on. *)
Definition increment (n : Z) : Result Z := expect (checked_add usize_max n 1).
Definition decrement (n : Z) : Result Z := expect (checked_sub n 1).

(** ** Construction and queries *)

Definition SharedRawContext_with_limits (limits : SharedRawContextLimits) : Result SharedRawContext :=
  if bool_decide (max_subscriptions limits = 0) || bool_decide (max_pending_packets limits = 0)
  then Err InvalidSharedRawCaptureLimits
  else Ok (mkShared ∅ ∅ ∅ [] [] limits 1 0 (mkCaptureMetrics 0 0 0)).

Definition SharedRawContext_new : Result SharedRawContext :=
  match SharedRawContext_with_limits SharedRawContextLimits_default with
  | Ok c => Ok c
  | _ => Panic
  end.

Definition sc_subscription_count (c : SharedRawContext) : Z := Z.of_nat (size (sc_subscriptions c)).
Definition sc_capture_socket_count (c : SharedRawContext) : Z := Z.of_nat (size (sc_captures c)).
Definition sc_active_membership_count (c : SharedRawContext) : Z :=
  map_fold (λ _ capture sum, cs_memberships capture + sum) 0 (sc_captures c).
Definition sc_pending_packet_count (c : SharedRawContext) : Z := Z.of_nat (length (sc_pending_packets c)).
Definition sc_contains_subscription (c : SharedRawContext) (id : SubscriptionId) : bool :=
  bool_decide (is_Some (sc_subscriptions c !! id)).
Definition sc_get_subscription (c : SharedRawContext) (id : SubscriptionId) : option SharedRawSubscription :=
  sc_subscriptions c !! id.

Record SharedRawCaptureMetricsSnapshot := mkCaptureSnapshot {
  cms_capture_socket_count : Z;
  cms_active_memberships : Z;
  cms_received_packets_total : Z;
  cms_unmatched_packets_total : Z;
  cms_demultiplex_matches_total : Z;
  cms_pending_packets : Z }.

Definition sc_metrics_snapshot (c : SharedRawContext) : SharedRawCaptureMetricsSnapshot :=
  mkCaptureSnapshot (sc_capture_socket_count c) (sc_active_membership_count c)
    (cm_received_packets_total (sc_metrics c)) (cm_unmatched_packets_total (sc_metrics c))
    (cm_demultiplex_matches_total (sc_metrics c)) (sc_pending_packet_count c).

Definition record_received_packet (m : SharedRawCaptureMetrics) : SharedRawCaptureMetrics :=
  mkCaptureMetrics (saturating_add u64_max (cm_received_packets_total m) 1)
    (cm_unmatched_packets_total m) (cm_demultiplex_matches_total m).
Definition record_unmatched_packet (m : SharedRawCaptureMetrics) : SharedRawCaptureMetrics :=
  mkCaptureMetrics (cm_received_packets_total m)
    (saturating_add u64_max (cm_unmatched_packets_total m) 1) (cm_demultiplex_matches_total m).
Definition record_demultiplex_matches (matches : Z) (m : SharedRawCaptureMetrics) : SharedRawCaptureMetrics :=
  mkCaptureMetrics (cm_received_packets_total m) (cm_unmatched_packets_total m)
    (saturating_add u64_max (cm_demultiplex_matches_total m) matches).

(** ** Capture keys and captures *)

Definition resolve_capture_key (c : RawSubscriptionConfig) : Act RawSharedCaptureKey :=
  let selector := CaptureSelector_from c in
  let* st := mget in
  match sc_resolved_capture_keys st.1 !! selector with
  | Some resolved =>
      let* references := mlift (increment (rk_references resolved)) in
      on_fst (mmodify (set_sc_resolved <[selector := mkResolved (rk_key resolved) references]>)) ;;*
      mpure (rk_key resolved)
  | None =>
      let* key := on_snd (capture_key c) in
      on_fst (mmodify (set_sc_resolved <[selector := mkResolved key 1]>)) ;;*
      mpure key
  end.

Definition release_capture_key (c : RawSubscriptionConfig) : Act unit :=
  let selector := CaptureSelector_from c in
  let* st := mget in
  let* resolved := mlift (expect (sc_resolved_capture_keys st.1 !! selector)) in
  let* references := mlift (decrement (rk_references resolved)) in
  on_fst (mmodify (set_sc_resolved (λ m,
    if bool_decide (references = 0) then delete selector m
    else <[selector := mkResolved (rk_key resolved) references]> m))).

Definition remove_capture (key : RawSharedCaptureKey) : Act unit :=
  on_fst (mmodify (set_sc_captures (delete key))) ;;*
  let* st := mget in
  let order := sc_capture_order st.1 in
  let* i := mlift (expect (position (λ k, bool_decide (k = key)) order)) in
  let* order := mlift (vec_remove i order) in
  on_fst (mmodify (set_sc_capture_order order
    (if bool_decide (order = []) then 0%nat else sc_next_capture_index st.1 `mod` length order)%nat)).

(** ** Pending packets *)

Definition retain_packet (subscriptions : gmap SubscriptionId SharedRawSubscription) (id : SubscriptionId)
    (p : SharedRawPacket) : Result (option SharedRawPacket) :=
  match position (λ matching_id, bool_decide (matching_id = id)) (as_slice (sp_matching p)) with
  | None => Ok (Some p)
  | Some i =>
      if bool_decide (length (as_slice (sp_matching p)) = 1)%nat then Ok None
      else
        let? matching := remove_existing i (sp_matching p) in
        let? primary_id := matching_first matching in
        if negb (bool_decide (rp_subscription_id (sp_packet p) = primary_id)) then
          let? primary := expect (subscriptions !! primary_id) in
          let packet := sp_packet p in
          Ok (Some (mkSharedPacket
            (mkRawPacket primary_id (rp_datagram packet) (rp_source_ip packet) (rp_group packet)
               (rp_ip_protocol packet)
               (set_configured (raw_interface (ss_config primary))
                  (raw_interface_index (ss_config primary)) (rp_metadata packet)))
            matching))
        else Ok (Some (mkSharedPacket (sp_packet p) matching))
  end.

(** [VecDeque::retain_mut]. *)
Fixpoint retain_mut {A : Type} (f : A → Result (option A)) (l : list A) : Result (list A) :=
  match l with
  | [] => Ok []
  | x :: l =>
      let? y := f x in
      let? l := retain_mut f l in
      Ok (match y with Some y => y :: l | None => l end)
  end.

Definition remove_pending_membership (id : SubscriptionId) : Act unit :=
  let* st := mget in
  let* pending := mlift (retain_mut (retain_packet (sc_subscriptions st.1) id) (sc_pending_packets st.1)) in
  on_fst (mmodify (set_sc_pending pending)).

Definition raw_packet_from_captured (subscription_id : SubscriptionId) (c : RawSubscriptionConfig)
    (captured : RawCapturedDatagram) : RawPacket :=
  mkRawPacket subscription_id (cd_datagram captured) (Some (cd_source_ip captured))
    (Some (cd_group captured)) (Some (cd_ip_protocol captured))
    (mkMetadata None (raw_interface c) (raw_interface_index c) (Some (cd_group captured))
       (cd_ingress_interface_index captured)).

(** ** Subscriptions *)

Definition sc_add_subscription (c : RawSubscriptionConfig) : Act SubscriptionId :=
  mlift (RawSubscriptionConfig.validate c) ;;*
  let* st := mget in
  let limit := max_subscriptions (sc_limits st.1) in
  mlift (guard (bool_decide (limit ≤ Z.of_nat (size (sc_subscriptions st.1))))
           (SharedRawCaptureSubscriptionLimitExceeded limit)) ;;*
  let* key := resolve_capture_key c in
  let id := sc_next_subscription_id st.1 in
  let* next := mlift (next_id id) in
  on_fst (mmodify (set_sc_next_id next)) ;;*
  on_fst (mmodify (set_sc_subscriptions <[id := SharedRawSubscription_new id c key]>)) ;;*
  mpure id.

(** [self.captures.get(&capture_key).expect(..)] and the write back through
    [get_mut]. *)
Definition get_capture (key : RawSharedCaptureKey) : Act SharedCaptureSocket :=
  let* st := mget in mlift (expect (sc_captures st.1 !! key)).
Definition put_capture (key : RawSharedCaptureKey) (capture : SharedCaptureSocket) : Act unit :=
  on_fst (mmodify (set_sc_captures <[key := capture]>)).

(** [self.subscriptions.get_mut(&id).expect(..).state = state]. *)
Definition set_subscription_state (id : SubscriptionId) (state : SubscriptionState) : Act unit :=
  let* st := mget in
  let* s := mlift (expect (sc_subscriptions st.1 !! id)) in
  on_fst (mmodify (set_sc_subscriptions <[id := set_ss_state state s]>)).

(** The [match] on the entry of [captures]: [true] when a socket was opened. *)
Definition ensure_capture (key : RawSharedCaptureKey) : Act bool :=
  let* st := mget in
  match sc_captures st.1 !! key with
  | Some _ => mpure false
  | None =>
      let* socket := on_snd (capture_open key) in
      put_capture key (SharedCaptureSocket_new socket) ;;*
      on_fst (mmodify (λ c, set_sc_capture_order (sc_capture_order c ++ [key]) (sc_next_capture_index c) c)) ;;*
      mpure true
  end.

(** The part of [join_subscription] that no error can interrupt. *)
Definition record_join (id : SubscriptionId) (key : RawSharedCaptureKey) (config : RawSubscriptionConfig)
    : Act unit :=
  let membership_key := KernelMembershipKey_from config in
  let* capture := get_capture key in
  let* membership :=
    match cs_kernel_memberships capture !! membership_key with
    | Some m =>
        let* references := mlift (increment (km_references m)) in
        mpure (mkKernelMembership references (km_joined_config m))
    | None => mpure (mkKernelMembership 1 config)
    end in
  let* demux := mlift (capture_insert (cs_demultiplexer capture) id config) in
  let* memberships := mlift (increment (cs_memberships capture)) in
  put_capture key (mkCaptureSocket (cs_socket capture) memberships
    (<[membership_key := membership]> (cs_kernel_memberships capture)) demux) ;;*
  set_subscription_state id Joined.

Definition sc_join_subscription (id : SubscriptionId) : Act unit :=
  let* st := mget in
  let* subscription := mlift (ok_or (sc_subscriptions st.1 !! id) SubscriptionNotFound) in
  mlift (guard (ss_is_joined subscription) SubscriptionAlreadyJoined) ;;*
  let key := ss_capture_key subscription in
  let config := ss_config subscription in
  let membership_key := KernelMembershipKey_from config in
  let* created_capture := ensure_capture key in
  let* capture := get_capture key in
  let needs_kernel_join := bool_decide (cs_kernel_memberships capture !! membership_key = None) in
  let* join_result :=
    mcatch (if needs_kernel_join then on_snd (capture_join (cs_socket capture) config) else mpure ()) in
  match join_result with
  | inr error => (if created_capture then remove_capture key else mpure ()) ;;* mthrow error
  | inl _ => record_join id key config
  end.

(** The comparison of [memberships] with the kernel memberships is the
    [debug_assert_eq!], which panics in a debug build. *)
Definition sc_leave_subscription (id : SubscriptionId) : Act unit :=
  let* st := mget in
  let* subscription := mlift (ok_or (sc_subscriptions st.1 !! id) SubscriptionNotFound) in
  mlift (guard (negb (ss_is_joined subscription)) SubscriptionNotJoined) ;;*
  let key := ss_capture_key subscription in
  let config := ss_config subscription in
  let membership_key := KernelMembershipKey_from config in
  let* capture := get_capture key in
  let* membership := mlift (expect (cs_kernel_memberships capture !! membership_key)) in
  let* kernel :=
    if bool_decide (km_references membership = 1) then
      on_snd (capture_leave (cs_socket capture) (km_joined_config membership)) ;;*
      mpure (delete membership_key (cs_kernel_memberships capture))
    else
      let* references := mlift (decrement (km_references membership)) in
      mpure (<[membership_key := mkKernelMembership references (km_joined_config membership)]>
               (cs_kernel_memberships capture)) in
  let* demux := mlift (capture_remove (cs_demultiplexer capture) id config) in
  let* memberships := mlift (decrement (cs_memberships capture)) in
  mlift (if eqb (bool_decide (memberships = 0)) (bool_decide (kernel = ∅)) then Ok () else Panic) ;;*
  put_capture key (mkCaptureSocket (cs_socket capture) memberships kernel demux) ;;*
  set_subscription_state id Bound ;;*
  remove_pending_membership id ;;*
  if bool_decide (memberships = 0) then remove_capture key else mpure ().

Definition sc_remove_subscription (id : SubscriptionId) : Act bool :=
  let* st := mget in
  match sc_subscriptions st.1 !! id with
  | None => mpure false
  | Some subscription =>
      (if ss_is_joined subscription then sc_leave_subscription id else mpure ()) ;;*
      let* st := mget in
      let* removed := mlift (expect (sc_subscriptions st.1 !! id)) in
      on_fst (mmodify (set_sc_subscriptions (delete id))) ;;*
      release_capture_key (ss_config removed) ;;*
      mpure true
  end.

(** ** Receiving *)

(** The body of the inner loop from a captured datagram on: [true] when it was
    queued. *)
Definition queue_captured (capture : SharedCaptureSocket) (captured : RawCapturedDatagram) : Act bool :=
  let* matches := mlift (capture_matches (cs_demultiplexer capture) (cd_group captured)
                           (cd_source_ip captured)) in
  on_fst (mmodify (set_sc_metrics record_received_packet)) ;;*
  match matches with
  | None => on_fst (mmodify (set_sc_metrics record_unmatched_packet)) ;;* mpure false
  | Some matching_ids =>
      on_fst (mmodify (set_sc_metrics
        (record_demultiplex_matches (Z.of_nat (length (as_slice matching_ids)))))) ;;*
      let* primary_id := mlift (matching_first matching_ids) in
      let* st := mget in
      let* primary := mlift (expect (sc_subscriptions st.1 !! primary_id)) in
      let packet := raw_packet_from_captured primary_id (ss_config primary) captured in
      on_fst (mmodify (λ c, set_sc_pending
        (sc_pending_packets c ++ [mkSharedPacket packet matching_ids]) c)) ;;*
      mpure true
  end.

(** [for _ in 0..target]: the counters, and whether it left the outer loop. *)
Fixpoint read_capture (n : nat) (key : RawSharedCaptureKey) (target capture_budget : Z)
    (queued_packets captured_datagrams : Z) : Act (Z * Z * bool) :=
  match n with
  | O => mpure (queued_packets, captured_datagrams, false)
  | S n =>
      if bool_decide (queued_packets = target) || bool_decide (captured_datagrams = capture_budget)
      then mpure (queued_packets, captured_datagrams, true)
      else
        let* capture := get_capture key in
        let* captured := on_snd (capture_recv (cs_socket capture) key) in
        match captured with
        | None => mpure (queued_packets, captured_datagrams, false)
        | Some captured =>
            let* queued := queue_captured capture captured in
            read_capture n key target capture_budget
              (if queued then queued_packets + 1 else queued_packets) (captured_datagrams + 1)
        end
  end.

(** ['captures: for _ in 0..capture_count]. *)
Fixpoint read_captures (n : nat) (capture_count : nat) (target capture_budget : Z)
    (queued_packets captured_datagrams : Z) : Act Z :=
  match n with
  | O => mpure queued_packets
  | S n =>
      let* st := mget in
      let i := sc_next_capture_index st.1 in
      let* key := mlift (index (sc_capture_order st.1) i) in
      on_fst (mmodify (λ c, set_sc_capture_order (sc_capture_order c) ((i + 1) `mod` capture_count)%nat c)) ;;*
      let* (queued, captured, break) :=
        read_capture (Z.to_nat target) key target capture_budget queued_packets captured_datagrams in
      if (break : bool) then mpure queued
      else read_captures n capture_count target capture_budget queued captured
  end.

Definition fill_pending (max_new_packets : Z) : Act Z :=
  let* st := mget in
  let target := Z.min max_new_packets
    (saturating_sub (max_pending_packets (sc_limits st.1)) (sc_pending_packet_count st.1)) in
  let capture_count := length (sc_capture_order st.1) in
  if bool_decide (sc_capture_order st.1 = []) || bool_decide (target = 0) then mpure 0
  else
    read_captures capture_count capture_count target
      (saturating_add usize_max target (Z.of_nat capture_count)) 0 0.

(** [VecDeque::pop_front]. *)
Definition pop_pending : Act (option SharedRawPacket) :=
  let* st := mget in
  match sc_pending_packets st.1 with
  | [] => mpure None
  | packet :: rest => on_fst (mmodify (set_sc_pending rest)) ;;* mpure (Some packet)
  end.

Definition sc_try_recv_any : Act (option SharedRawPacket) :=
  let* packet := pop_pending in
  match packet with
  | Some packet => mpure (Some packet)
  | None => fill_pending 1 ;;* pop_pending
  end.

(** The caller's [&mut Vec] is the first half of the state. *)
Definition drain_pending_into (max_packets : Z) : Op (list SharedRawPacket * (SharedRawContext * World)) Z :=
  let* st := mget in
  let pending := sc_pending_packets st.2.1 in
  let drained := Z.min max_packets (Z.of_nat (length pending)) in
  on_fst (mmodify (λ packets, packets ++ take (Z.to_nat drained) pending)) ;;*
  on_snd (on_fst (mmodify (set_sc_pending (drop (Z.to_nat drained) pending)))) ;;*
  mpure drained.

(** The [while]; every round but the last adds a packet, so [max_packets]
    rounds and one are enough. *)
Fixpoint batch_rounds (fuel : nat) (max_packets received : Z)
    : Op (list SharedRawPacket * (SharedRawContext * World)) Z :=
  match fuel with
  | O => mfuel
  | S fuel =>
      if negb (bool_decide (received < max_packets)) then mpure received
      else
        let* queued := on_snd (fill_pending (max_packets - received)) in
        if bool_decide (queued = 0) then mpure received
        else
          let* drained := drain_pending_into (max_packets - received) in
          batch_rounds fuel max_packets (received + drained)
  end.

Definition sc_try_recv_batch_into (max_packets : Z)
    : Op (list SharedRawPacket * (SharedRawContext * World)) Z :=
  if bool_decide (max_packets = 0) then mpure 0
  else
    let* received := drain_pending_into max_packets in
    batch_rounds (S (Z.to_nat max_packets)) max_packets received.
End shared_raw.
