(* ===== verification/SharedRawProofs.v ===== *)
(** * Correctness of the shared raw context

    The invariant of [SharedRaw.SharedRawContext], that every operation keeps
    it without unwinding, and what joins, leaves and receives do. *)

From S2P Require Import Prelude Hoare Net Errors Config Packet Os SampleOs Ancillary Platform.
From S2P Require Import Subscription Context IpDatagram AppleBpf RawPlatform RawContext Demux SharedRaw.

Local Open Scope Z_scope.

(** ** Counting the values of a map *)
Section counting.
Context {K A : Type} `{Countable K} (p : A → bool).
Implicit Type m : gmap K A.

Definition count_of (m : gmap K A) : Z := Z.of_nat (size (filter (λ kv, p kv.2 = true) m)).

Lemma count_of_empty : count_of ∅ = 0.
Proof. unfold count_of. by rewrite map_filter_empty, map_size_empty. Qed.

Lemma count_of_insert_new m i x : m !! i = None → count_of (<[i := x]> m) = Z.b2z (p x) + count_of m.
Proof.
  intros Hi. unfold count_of. destruct (p x) eqn:Hp; cbn [Z.b2z].
  - rewrite map_filter_insert_True, map_size_insert_None by (done || by apply map_lookup_filter_None_2; left). lia.
  - rewrite map_filter_insert_False by (simpl; congruence). by rewrite delete_id.
Qed.

Lemma count_of_delete m i x : m !! i = Some x → count_of m = Z.b2z (p x) + count_of (delete i m).
Proof.
  intros Hi. rewrite <-(count_of_insert_new (delete i m) i x) by apply lookup_delete_eq.
  by rewrite insert_delete_id.
Qed.

Lemma count_of_update m i x y :
  m !! i = Some x → count_of (<[i := y]> m) = count_of m - Z.b2z (p x) + Z.b2z (p y).
Proof.
  intros Hi. rewrite <-insert_delete_eq, count_of_insert_new by apply lookup_delete_eq.
  rewrite (count_of_delete _ _ _ Hi). lia.
Qed.

Lemma count_of_nonneg m : 0 ≤ count_of m.
Proof. unfold count_of. lia. Qed.

Lemma count_of_size m : count_of m ≤ Z.of_nat (size m).
Proof.
  unfold count_of. apply inj_le, map_subseteq_size, map_filter_subseteq.
Qed.

Lemma count_of_zero m : count_of m = 0 ↔ ∀ i x, m !! i = Some x → p x = false.
Proof.
  split.
  - intros Hz i x Hi. rewrite (count_of_delete _ _ _ Hi) in Hz.
    pose proof (count_of_nonneg (delete i m)). destruct (p x); simpl in Hz; [lia|done].
  - intros Hp. unfold count_of. replace (filter _ m) with (∅ : gmap K A); [by rewrite map_size_empty|].
    symmetry. apply map_empty. intros i. apply map_lookup_filter_None_2. right.
    intros x Hi. simpl. by rewrite (Hp _ _ Hi).
Qed.

Lemma count_of_pos m i x : m !! i = Some x → p x = true → 0 < count_of m.
Proof.
  intros Hi Hp. rewrite (count_of_delete _ _ _ Hi), Hp. pose proof (count_of_nonneg (delete i m)). simpl. lia.
Qed.

Lemma count_of_two m i j x y :
  i ≠ j → m !! i = Some x → m !! j = Some y → p x = true → p y = true → 2 ≤ count_of m.
Proof.
  intros Hij Hi Hj Hx Hy. rewrite (count_of_delete _ _ _ Hi), Hx.
  assert (0 < count_of (delete i m)); [|simpl; lia].
  apply (count_of_pos _ j y); [|done]. by rewrite lookup_delete_ne.
Qed.
End counting.

Lemma count_of_mono {K A : Type} `{Countable K} (p q : A → bool) (m : gmap K A) :
  (∀ x, p x = true → q x = true) → count_of q m = 0 → count_of p m = 0.
Proof.
  intros Hpq. rewrite !count_of_zero. intros Hq i x Hi. specialize (Hq i x Hi).
  destruct (p x) eqn:Hp; [|done]. by rewrite (Hpq x Hp) in Hq.
Qed.

Section shared_raw_proofs.
Context `{SharedCapture}.

Abbreviation Subscriptions := (gmap SubscriptionId SharedRawSubscription) (only parsing).
Abbreviation Act A := (Op (SharedRawContext * World) A).

(** ** The invariant *)

(** Joined on a capture socket, for a kernel membership; and cached under a
    selector. *)
Definition joined_on (key : RawSharedCaptureKey) (s : SharedRawSubscription) : bool :=
  ss_is_joined s && bool_decide (ss_capture_key s = key).
Definition wants (key : RawSharedCaptureKey) (mk : KernelMembershipKey) (s : SharedRawSubscription) : bool :=
  joined_on key s && bool_decide (KernelMembershipKey_from (ss_config s) = mk).
Definition selects (sel : CaptureSelector) (s : SharedRawSubscription) : bool :=
  bool_decide (CaptureSelector_from (ss_config s) = sel).

(** The memberships that a capture's demultiplexer must hold. *)
Definition memberships_on (key : RawSharedCaptureKey) (subs : Subscriptions) : gset Membership :=
  map_to_set (λ id s, membership_of id (ss_config s)) (filter (λ kv, joined_on key kv.2 = true) subs).

Definition kernel_wf (subs : Subscriptions) (key : RawSharedCaptureKey)
    (kernel : gmap KernelMembershipKey KernelMembership) : Prop :=
  ∀ mk, match kernel !! mk with
        | Some m => km_references m = count_of (wants key mk) subs ∧ 0 < km_references m ∧
                    KernelMembershipKey_from (km_joined_config m) = mk
        | None => count_of (wants key mk) subs = 0
        end.

Record capture_wf (subs : Subscriptions) (key : RawSharedCaptureKey) (cs : SharedCaptureSocket) : Prop := {
  cw_socket : capture_ok (cs_socket cs);
  cw_memberships : cs_memberships cs = count_of (joined_on key) subs;
  cw_kernel : kernel_wf subs key (cs_kernel_memberships cs);
  cw_demux : demux_refines (cs_demultiplexer cs) (memberships_on key subs) }.

Definition resolved_wf (subs : Subscriptions) (resolved : gmap CaptureSelector ResolvedCaptureKey) : Prop :=
  (∀ sel, match resolved !! sel with
          | Some r => rk_references r = count_of (selects sel) subs ∧ 0 < rk_references r
          | None => count_of (selects sel) subs = 0
          end) ∧
  map_Forall (λ _ s, rk_key <$> resolved !! CaptureSelector_from (ss_config s) = Some (ss_capture_key s)) subs.

(** A queued packet: a whole datagram that every one of its subscriptions, all
    joined, admits; the first of them is the primary one. *)
Record pending_ok (subs : Subscriptions) (p : SharedRawPacket) : Prop := {
  po_sorted : sorted (matching_subscription_ids p);
  po_primary : head (matching_subscription_ids p) = Some (rp_subscription_id (sp_packet p));
  po_admits : ∀ id, id ∈ matching_subscription_ids p → ∃ s, subs !! id = Some s ∧
    ss_is_joined s = true ∧ raw_admits (ss_config s) (rp_subscription_id (sp_packet p)) (sp_packet p);
  po_interface : ∀ s, subs !! rp_subscription_id (sp_packet p) = Some s →
    md_configured_interface (rp_metadata (sp_packet p)) = raw_interface (ss_config s) ∧
    md_configured_interface_index (rp_metadata (sp_packet p)) = raw_interface_index (ss_config s) }.

Record shared_inv (budget : nat) (c : SharedRawContext) : Prop := {
  si_limits : (0 < max_subscriptions (sc_limits c) ≤ usize_max) ∧
              (0 < max_pending_packets (sc_limits c) ≤ usize_max);
  si_ids : map_Forall (λ id s, ss_id s = id ∧ 1 ≤ id < sc_next_subscription_id c ∧
             RawSubscriptionConfig.validate (ss_config s) = Ok ()) (sc_subscriptions c);
  si_size : Z.of_nat (size (sc_subscriptions c)) ≤ max_subscriptions (sc_limits c);
  si_resolved : resolved_wf (sc_subscriptions c) (sc_resolved_capture_keys c);
  si_order : NoDup (sc_capture_order c) ∧
             ∀ key, key ∈ sc_capture_order c ↔ is_Some (sc_captures c !! key);
  si_captures : map_Forall (λ key cs, capture_wf (sc_subscriptions c) key cs ∧ 0 < cs_memberships cs)
                  (sc_captures c);
  si_no_capture : ∀ key, sc_captures c !! key = None → count_of (joined_on key) (sc_subscriptions c) = 0;
  si_pending : Forall (pending_ok (sc_subscriptions c)) (sc_pending_packets c);
  si_pending_bound : Z.of_nat (length (sc_pending_packets c)) ≤ max_pending_packets (sc_limits c);
  si_cursor : (sc_next_capture_index c < length (sc_capture_order c))%nat ∨
              (sc_capture_order c = [] ∧ sc_next_capture_index c = 0%nat);
  si_next : 1 ≤ sc_next_subscription_id c ∧ sc_next_subscription_id c + Z.of_nat budget ≤ u64_max }.

Definition shared_holds (budget : nat) (st : SharedRawContext * World) : Prop := shared_inv budget st.1.

Lemma elem_of_memberships_on key subs id group source :
  (id, group, source) ∈ memberships_on key subs ↔
  ∃ s, subs !! id = Some s ∧ joined_on key s = true ∧ raw_group (ss_config s) = group ∧
       RawSubscriptionConfig.source_addr (ss_config s) = source.
Proof.
  unfold memberships_on. rewrite elem_of_map_to_set. unfold membership_of. split.
  - intros (i & s & [Hi Hj]%map_lookup_filter_Some & Heq). injection Heq as -> <- <-. eauto.
  - intros (s & Hi & Hj & <- & <-). exists id, s. by rewrite map_lookup_filter_Some.
Qed.

(** ** Updates of one subscription *)

Lemma joined_on_true key s : joined_on key s = true ↔ ss_is_joined s = true ∧ ss_capture_key s = key.
Proof. unfold joined_on. by rewrite andb_true_iff, bool_decide_eq_true. Qed.
Lemma wants_joined key mk s : wants key mk s = true → joined_on key s = true.
Proof. unfold wants. by intros [? _]%andb_prop. Qed.
Lemma wants_not_joined key mk s : joined_on key s = false → wants key mk s = false.
Proof. unfold wants. by intros ->. Qed.

(** Another capture does not see the change. *)
Lemma capture_wf_update_other subs key cs id s s' :
  subs !! id = Some s → joined_on key s = false → joined_on key s' = false →
  capture_wf subs key cs → capture_wf (<[id := s']> subs) key cs.
Proof.
  intros Hid Hs Hs' [Hok Hm Hk Hd]. split; [done| | |].
  - by rewrite (count_of_update _ _ _ _ _ Hid), Hs, Hs', Hm, Z.sub_0_r, Z.add_0_r.
  - intros mk. specialize (Hk mk).
    by rewrite (count_of_update _ _ _ _ _ Hid), !wants_not_joined, Z.sub_0_r, Z.add_0_r.
  - replace (memberships_on key (<[id := s']> subs)) with (memberships_on key subs); [done|].
    apply set_eq. intros [[i g] src]. rewrite !elem_of_memberships_on.
    destruct (decide (i = id)) as [->|Hne]; [|by rewrite lookup_insert_ne].
    rewrite lookup_insert_eq, Hid. naive_solver congruence.
Qed.

(** Nor does it see an unjoined subscription that comes or goes. *)
Lemma capture_wf_insert_new subs key cs id s :
  subs !! id = None → joined_on key s = false → capture_wf subs key cs → capture_wf (<[id := s]> subs) key cs.
Proof.
  intros Hid Hs [Hok Hm Hk Hd]. split; [done| | |].
  - by rewrite count_of_insert_new, Hs.
  - intros mk. specialize (Hk mk). by rewrite count_of_insert_new, wants_not_joined.
  - replace (memberships_on key (<[id := s]> subs)) with (memberships_on key subs); [done|].
    apply set_eq. intros [[i g] src]. rewrite !elem_of_memberships_on.
    destruct (decide (i = id)) as [->|Hne]; [|by rewrite lookup_insert_ne].
    rewrite lookup_insert_eq, Hid. naive_solver congruence.
Qed.

Lemma capture_wf_delete subs key cs id s :
  subs !! id = Some s → joined_on key s = false → capture_wf subs key cs → capture_wf (delete id subs) key cs.
Proof.
  intros Hid Hs [Hok Hm Hk Hd]. split; [done| | |].
  - by rewrite Hm, (count_of_delete _ _ _ _ Hid), Hs.
  - intros mk. specialize (Hk mk). by rewrite (count_of_delete _ _ _ _ Hid), wants_not_joined in Hk.
  - replace (memberships_on key (delete id subs)) with (memberships_on key subs); [done|].
    apply set_eq. intros [[i g] src]. rewrite !elem_of_memberships_on.
    destruct (decide (i = id)) as [->|Hne]; [|by rewrite lookup_delete_ne].
    rewrite lookup_delete_eq, Hid. naive_solver congruence.
Qed.

Lemma head_in {A : Type} (l : list A) x : head l = Some x → x ∈ l.
Proof. destruct l; [done|]. intros [= ->]. by left. Qed.

(** Queued packets keep to subscriptions that stay joined with the same
    configuration. *)
Lemma pending_ok_ext subs subs' p :
  pending_ok subs p →
  (∀ id s, id ∈ matching_subscription_ids p → subs !! id = Some s → ss_is_joined s = true →
     ∃ s', subs' !! id = Some s' ∧ ss_is_joined s' = true ∧ ss_config s' = ss_config s) →
  pending_ok subs' p.
Proof.
  intros [Hs Hp Ha Hi] Hext. split; [done|done| |].
  - intros id Hid. destruct (Ha id Hid) as (s & Hs1 & Hj & Had).
    destruct (Hext id s Hid Hs1 Hj) as (s' & ? & ? & Hc). exists s'. by rewrite Hc.
  - intros s' Hs'. pose proof (head_in _ _ Hp) as Hin. destruct (Ha _ Hin) as (s & Hs1 & Hj & _).
    destruct (Hext _ s Hin Hs1 Hj) as (s2 & Hs2 & _ & Hc). simplify_eq. rewrite Hc. by apply Hi.
Qed.

Lemma pending_ok_joined subs p id s :
  pending_ok subs p → id ∈ matching_subscription_ids p → subs !! id = Some s → ss_is_joined s = true.
Proof. intros [_ _ Ha _] Hid Hs. destruct (Ha id Hid) as (s' & ? & ? & _). by simplify_eq. Qed.

(** ** Counters *)

Lemma increment_ok n : n + 1 ≤ usize_max → increment n = Ok (n + 1).
Proof. intros. unfold increment, checked_add. by rewrite bool_decide_true. Qed.
Lemma decrement_ok n : 1 ≤ n → decrement n = Ok (n - 1).
Proof. intros. unfold decrement, checked_sub. by rewrite bool_decide_true. Qed.

Lemma joined_on_set key st s :
  joined_on key (set_ss_state st s) = (match st with Joined => true | Bound => false end) &&
    bool_decide (ss_capture_key s = key).
Proof. by destruct st. Qed.

Lemma wants_set key mk st s :
  wants key mk (set_ss_state st s) = (match st with Joined => true | Bound => false end) &&
    bool_decide (ss_capture_key s = key) && bool_decide (KernelMembershipKey_from (ss_config s) = mk).
Proof. by destruct st. Qed.

Lemma not_joined_on key s : ss_is_joined s = false → joined_on key s = false.
Proof. unfold joined_on. by intros ->. Qed.

Lemma memberships_on_join subs id s :
  subs !! id = Some s →
  memberships_on (ss_capture_key s) (<[id := set_ss_state Joined s]> subs) =
    {[membership_of id (ss_config s)]} ∪ memberships_on (ss_capture_key s) subs.
Proof.
  intros Hid. apply set_eq. intros [[i g] src].
  rewrite elem_of_union, elem_of_singleton, !elem_of_memberships_on. unfold membership_of.
  destruct (decide (i = id)) as [->|Hne].
  - rewrite lookup_insert_eq. setoid_rewrite joined_on_true. split.
    + intros (s' & [= <-] & _ & <- & <-). by left.
    + intros [Heq|(s' & Hs' & [Hj Hk] & <- & <-)]; [injection Heq as -> ->; by exists (set_ss_state Joined s)|].
      simplify_eq. by exists (set_ss_state Joined s).
  - rewrite lookup_insert_ne by done. naive_solver.
Qed.

Lemma memberships_on_leave subs id s :
  subs !! id = Some s →
  memberships_on (ss_capture_key s) (<[id := set_ss_state Bound s]> subs) =
    memberships_on (ss_capture_key s) subs ∖ {[membership_of id (ss_config s)]}.
Proof.
  intros Hid. apply set_eq. intros [[i g] src].
  rewrite elem_of_difference, elem_of_singleton, !elem_of_memberships_on. unfold membership_of.
  destruct (decide (i = id)) as [->|Hne].
  - rewrite lookup_insert_eq. split.
    + intros (s' & [= <-] & Hj & _). by rewrite joined_on_set in Hj.
    + intros [(s' & Hs' & _ & <- & <-) Hne]. simplify_eq.
  - rewrite lookup_insert_ne by done. naive_solver.
Qed.

Lemma kernel_wf_join subs id s kernel :
  subs !! id = Some s → ss_is_joined s = false → kernel_wf subs (ss_capture_key s) kernel →
  let mk := KernelMembershipKey_from (ss_config s) in
  let m := match kernel !! mk with
           | Some m => mkKernelMembership (km_references m + 1) (km_joined_config m)
           | None => mkKernelMembership 1 (ss_config s)
           end in
  kernel_wf (<[id := set_ss_state Joined s]> subs) (ss_capture_key s) (<[mk := m]> kernel).
Proof.
  intros Hid Hj Hk mk m mk'. specialize (Hk mk').
  rewrite (count_of_update _ _ _ _ _ Hid), wants_set, (wants_not_joined _ _ s) by by apply not_joined_on.
  rewrite (bool_decide_true (ss_capture_key s = ss_capture_key s)) by done. cbn [andb].
  fold mk. destruct (decide (mk = mk')) as [<-|Hne].
  - rewrite lookup_insert_eq, bool_decide_true by done. subst m. cbn [Z.b2z].
    destruct (kernel !! mk) as [m|]; cbn [km_references km_joined_config]; [destruct Hk as (? & ? & ?)|];
      split_and!; (done || lia).
  - rewrite lookup_insert_ne, bool_decide_false by done. cbn [Z.b2z].
    rewrite Z.sub_0_r, Z.add_0_r. exact Hk.
Qed.

(** ** Joining *)

Lemma record_join_spec c w id s cs :
  sc_subscriptions c !! id = Some s → ss_is_joined s = false →
  sc_captures c !! ss_capture_key s = Some cs → capture_wf (sc_subscriptions c) (ss_capture_key s) cs →
  Z.of_nat (size (sc_subscriptions c)) ≤ usize_max →
  ∃ cs', record_join id (ss_capture_key s) (ss_config s) (c, w) =
      (Ok (), (set_sc_subscriptions <[id := set_ss_state Joined s]>
                 (set_sc_captures <[ss_capture_key s := cs']> c), w)) ∧
    capture_wf (<[id := set_ss_state Joined s]> (sc_subscriptions c)) (ss_capture_key s) cs' ∧
    0 < cs_memberships cs'.
Proof.
  intros Hid Hj Hcap [Hok Hm Hk Hd] Hsize.
  assert (Hbound : ∀ p, count_of p (<[id := set_ss_state Joined s]> (sc_subscriptions c)) ≤ usize_max).
  { intros p. pose proof (count_of_size p (<[id := set_ss_state Joined s]> (sc_subscriptions c))) as Hp.
    rewrite map_size_insert_Some in Hp by done. lia. }
  assert (Hm' : count_of (joined_on (ss_capture_key s)) (<[id := set_ss_state Joined s]> (sc_subscriptions c)) =
                cs_memberships cs + 1).
  { rewrite (count_of_update _ _ _ _ _ Hid), joined_on_set, (not_joined_on _ s), bool_decide_true by done.
    cbn [Z.b2z andb]. lia. }
  pose proof (kernel_wf_join _ _ _ _ Hid Hj Hk) as Hk'. cbv zeta in Hk'.
  destruct (capture_insert_spec _ _ id (ss_config s) Hd) as (demux & Hins & Hd').
  rewrite <-memberships_on_join in Hd' by done.
  unfold record_join, get_capture, put_capture, set_subscription_state, mthen, mget, mlift, mpure, on_fst, mmodify.
  cbn [fst snd]. rewrite Hcap. cbn [expect].
  destruct (cs_kernel_memberships cs !! KernelMembershipKey_from (ss_config s)) as [m|] eqn:Hmk.
  - assert (km_references m + 1 ≤ usize_max).
    { specialize (Hk' (KernelMembershipKey_from (ss_config s))). rewrite lookup_insert_eq in Hk'.
      destruct Hk' as [Heq _]. simpl in Heq. rewrite Heq. apply Hbound. }
    rewrite increment_ok, Hins, increment_ok by (done || by rewrite <-Hm'; apply Hbound).
    cbn [fst snd sc_subscriptions set_sc_captures]. rewrite Hid. cbn [expect fst snd].
    eexists. split_and!; [done|by split|]. simpl.
    pose proof (count_of_nonneg (joined_on (ss_capture_key s)) (sc_subscriptions c)). lia.
  - rewrite Hins, increment_ok by by rewrite <-Hm'; apply Hbound.
    cbn [fst snd sc_subscriptions set_sc_captures]. rewrite Hid. cbn [expect fst snd].
    eexists. split_and!; [done|by split|]. simpl.
    pose proof (count_of_nonneg (joined_on (ss_capture_key s)) (sc_subscriptions c)). lia.
Qed.

(** The context with a new capture socket. *)
Definition opened (key : RawSharedCaptureKey) (socket : capture_socket) (c : SharedRawContext)
    : SharedRawContext :=
  set_sc_capture_order (sc_capture_order c ++ [key]) (sc_next_capture_index c)
    (set_sc_captures <[key := SharedCaptureSocket_new socket]> c).

(** The context after a subscription changed state on a capture. *)
Definition with_capture (id : SubscriptionId) (s : SharedRawSubscription) (cs : SharedCaptureSocket)
    (order : list RawSharedCaptureKey) (c : SharedRawContext) : SharedRawContext :=
  set_sc_subscriptions <[id := s]> (set_sc_captures <[ss_capture_key s := cs]>
    (set_sc_capture_order order (sc_next_capture_index c) c)).

Lemma resolved_wf_update subs resolved id s st :
  subs !! id = Some s → resolved_wf subs resolved → resolved_wf (<[id := set_ss_state st s]> subs) resolved.
Proof.
  intros Hid [Hc Hk]. split.
  - intros sel. specialize (Hc sel). rewrite (count_of_update _ _ _ _ _ Hid).
    change (selects sel (set_ss_state st s)) with (selects sel s).
    by rewrite Z.sub_add.
  - apply map_Forall_insert_2; [|done]. exact (Hk id s Hid).
Qed.

Lemma captures_wf_update subs id s st (captures : gmap RawSharedCaptureKey SharedCaptureSocket) cs :
  subs !! id = Some s →
  map_Forall (λ key cs, capture_wf subs key cs ∧ 0 < cs_memberships cs) captures →
  capture_wf (<[id := set_ss_state st s]> subs) (ss_capture_key s) cs → 0 < cs_memberships cs →
  map_Forall (λ key cs, capture_wf (<[id := set_ss_state st s]> subs) key cs ∧ 0 < cs_memberships cs)
    (<[ss_capture_key s := cs]> captures).
Proof.
  intros Hid Hcaps Hcs Hpos key cs' Hlook. destruct (decide (key = ss_capture_key s)) as [->|Hne].
  - rewrite lookup_insert_eq in Hlook. by simplify_eq.
  - rewrite lookup_insert_ne in Hlook by done. destruct (Hcaps _ _ Hlook) as [Hwf ?]. split; [|done].
    eapply capture_wf_update_other; [done| |by rewrite joined_on_set, bool_decide_false, andb_false_r|done].
    unfold joined_on. by rewrite bool_decide_false, andb_false_r.
Qed.

Lemma no_capture_update (subs : Subscriptions) id s st key :
  subs !! id = Some s → key ≠ ss_capture_key s →
  count_of (joined_on key) subs = 0 → count_of (joined_on key) (<[id := set_ss_state st s]> subs) = 0.
Proof.
  intros Hid Hne Hc. rewrite (count_of_update _ _ _ _ _ Hid), Hc, joined_on_set, (bool_decide_false (_ = _)) by done.
  unfold joined_on. by rewrite (bool_decide_false (_ = _)), !andb_false_r.
Qed.

Lemma order_snoc key (order : list RawSharedCaptureKey) (captures : gmap RawSharedCaptureKey SharedCaptureSocket) cs :
  NoDup order → (∀ k, k ∈ order ↔ is_Some (captures !! k)) → captures !! key = None →
  NoDup (order ++ [key]) ∧ ∀ k, k ∈ order ++ [key] ↔ is_Some (<[key := cs]> captures !! k).
Proof.
  intros Hnd Hin Hnone. split.
  - apply NoDup_app. split_and!; [done| |apply NoDup_singleton]. intros k Hk ->%list_elem_of_singleton.
    apply Hin in Hk as [? Hk]. congruence.
  - intros k. rewrite elem_of_app, list_elem_of_singleton, Hin. destruct (decide (k = key)) as [->|Hne].
    + rewrite lookup_insert_eq. naive_solver.
    + rewrite lookup_insert_ne by done. naive_solver.
Qed.

Lemma shared_inv_join budget c id s cs order :
  shared_inv budget c → sc_subscriptions c !! id = Some s → ss_is_joined s = false →
  (is_Some (sc_captures c !! ss_capture_key s) ∧ order = sc_capture_order c ∨
   sc_captures c !! ss_capture_key s = None ∧ order = sc_capture_order c ++ [ss_capture_key s]) →
  capture_wf (<[id := set_ss_state Joined s]> (sc_subscriptions c)) (ss_capture_key s) cs →
  0 < cs_memberships cs →
  shared_inv budget (with_capture id (set_ss_state Joined s) cs order c).
Proof.
  intros [Hl Hids Hsz Hres [Hnd Hord] Hcaps Hno Hpend Hpb Hcur Hnext] Hid Hj Horder Hcs Hpos.
  split; simpl; try done.
  - apply map_Forall_insert_2; [|done]. exact (Hids id s Hid).
  - by rewrite map_size_insert_Some.
  - by apply resolved_wf_update.
  - destruct Horder as [[Hsome ->]|[Hnone ->]]; [|by apply order_snoc]. split; [done|]. intros k.
    rewrite Hord. destruct (decide (k = ss_capture_key s)) as [->|Hne]; [|by rewrite lookup_insert_ne].
    rewrite lookup_insert_eq. split; [by eauto|done].
  - by apply captures_wf_update.
  - intros key Hkey. apply lookup_insert_None in Hkey as [Hkey Hne]. apply no_capture_update; auto.
  - eapply Forall_impl; [exact Hpend|]. intros p Hp. eapply pending_ok_ext; [done|].
    intros i s' Hin Hs' Hj'. assert (i ≠ id) by (intros ->; congruence).
    exists s'. by rewrite lookup_insert_ne.
  - destruct Horder as [[_ ->]|[_ ->]]; [done|]. left. rewrite length_app. simpl.
    destruct Hcur as [|[-> ->]]; simpl; lia.
Qed.

Lemma position_snoc (order : list RawSharedCaptureKey) key :
  key ∉ order → position (λ k, bool_decide (k = key)) (order ++ [key]) = Some (length order).
Proof.
  intros Hni. apply position_app_last; [|by apply bool_decide_true].
  intros k Hk. apply bool_decide_false. set_solver.
Qed.

(** A join that fails right after opening its capture undoes the opening. *)
Lemma remove_capture_opened budget c key socket w :
  shared_inv budget c → sc_captures c !! key = None →
  remove_capture key (opened key socket c, w) = (Ok (), (c, w)).
Proof.
  intros [_ _ _ _ [Hnd Hord] _ _ _ _ Hcur _] Hnone.
  assert (Hni : key ∉ sc_capture_order c). { rewrite Hord, Hnone. by intros []. }
  unfold remove_capture, mthen, mget, mlift, on_fst, mmodify. cbn [fst snd].
  cbn [opened set_sc_captures set_sc_capture_order sc_capture_order sc_captures]. rewrite position_snoc by done.
  cbn [expect]. unfold vec_remove. rewrite bool_decide_true by (rewrite length_app; simpl; lia).
  rewrite take_app_length, drop_ge, app_nil_r by (rewrite length_app; simpl; lia). cbn [fst snd].
  destruct c as [subs res caps order pend lim next idx met]. unfold opened, set_sc_captures, set_sc_capture_order.
  simpl in *. rewrite delete_insert_id by done. destruct Hcur as [Hlt|[-> ->]]; [|done].
  rewrite bool_decide_false by (destruct order; [simpl in Hlt; lia|done]). by rewrite Nat.mod_small.
Qed.

Lemma capture_wf_new (subs : Subscriptions) key socket :
  capture_ok socket → count_of (joined_on key) subs = 0 → capture_wf subs key (SharedCaptureSocket_new socket).
Proof.
  intros Hok Hc. split; [done|by symmetry| |].
  - intros mk. cbn [SharedCaptureSocket_new cs_kernel_memberships]. rewrite lookup_empty.
    eapply count_of_mono; [|exact Hc]. apply wants_joined.
  - replace (memberships_on key subs) with (∅ : gset Membership); [apply demux_refines_empty|].
    symmetry. apply set_eq. intros [[i g] src]. rewrite elem_of_memberships_on, count_of_zero in *.
    split; [|set_solver]. intros (s & Hs & Hj & _). by rewrite (Hc _ _ Hs) in Hj.
Qed.

Lemma ensure_capture_old key c w cs :
  sc_captures c !! key = Some cs → ensure_capture key (c, w) = (Ok false, (c, w)).
Proof. intros Hc. unfold ensure_capture, mthen, mget. cbn [fst]. by rewrite Hc. Qed.

Lemma ensure_capture_new key c w :
  sc_captures c !! key = None →
  ensure_capture key (c, w) =
    match capture_open key w with
    | (Ok socket, w') => (Ok true, (opened key socket c, w'))
    | (Err e, w') => (Err e, (c, w'))
    | (Panic, w') => (Panic, (c, w'))
    | (OutOfFuel, w') => (OutOfFuel, (c, w'))
    end.
Proof.
  intros Hn. unfold ensure_capture, mthen, mget, on_snd. cbn [fst snd]. rewrite Hn.
  cbn [snd]. by destruct (capture_open key w) as [[] ?].
Qed.

Lemma get_capture_ok key c w cs :
  sc_captures c !! key = Some cs → get_capture key (c, w) = (Ok cs, (c, w)).
Proof. intros Hc. unfold get_capture, mthen, mget, mlift. cbn [fst]. by rewrite Hc. Qed.

(** The join from the capture on: [undo] is what a failed kernel join does. *)
Definition kernel_join (cs : SharedCaptureSocket) (config : RawSubscriptionConfig) : Act unit :=
  if bool_decide (cs_kernel_memberships cs !! KernelMembershipKey_from config = None)
  then on_snd (capture_join (cs_socket cs) config) else mpure ().

Definition join_tail (created : bool) (id : SubscriptionId) (s : SharedRawSubscription) : Act unit :=
  let* capture := get_capture (ss_capture_key s) in
  let* join_result := mcatch (kernel_join capture (ss_config s)) in
  match join_result with
  | inr error => (if created then remove_capture (ss_capture_key s) else mpure ()) ;;* mthrow error
  | inl _ => record_join id (ss_capture_key s) (ss_config s)
  end.

Lemma sc_join_unfold c w id s :
  sc_subscriptions c !! id = Some s → ss_is_joined s = false →
  sc_join_subscription id (c, w) =
    mthen (ensure_capture (ss_capture_key s)) (λ created, join_tail created id s) (c, w).
Proof.
  intros Hid Hj. unfold sc_join_subscription. unfold mthen at 1, mget. unfold mthen at 1, mlift. cbn [fst].
  rewrite Hid. cbn [ok_or]. unfold mthen at 1. rewrite Hj. done.
Qed.

Context {laws : SharedCaptureLaws _}.

Lemma join_tail_spec created c w id s cs :
  sc_subscriptions c !! id = Some s → ss_is_joined s = false →
  sc_captures c !! ss_capture_key s = Some cs → capture_wf (sc_subscriptions c) (ss_capture_key s) cs →
  Z.of_nat (size (sc_subscriptions c)) ≤ usize_max →
  (∃ e w', join_tail created id s (c, w) =
     mthen (if created then remove_capture (ss_capture_key s) else mpure ()) (λ _, mthrow e) (c, w') ∧
   cs_kernel_memberships cs !! KernelMembershipKey_from (ss_config s) = None) ∨
  (∃ cs' w', join_tail created id s (c, w) =
     (Ok (), (set_sc_subscriptions <[id := set_ss_state Joined s]>
                 (set_sc_captures <[ss_capture_key s := cs']> c), w')) ∧
   capture_wf (<[id := set_ss_state Joined s]> (sc_subscriptions c)) (ss_capture_key s) cs' ∧
   0 < cs_memberships cs' ∧
   (is_Some (cs_kernel_memberships cs !! KernelMembershipKey_from (ss_config s)) → w' = w)).
Proof.
  intros Hid Hj Hcap Hwf Hsize. unfold join_tail. rewrite (mthen_ok _ _ _ _ _ (get_capture_ok _ c w cs Hcap)).
  assert (Hrec : ∀ w', w' = w ∨ cs_kernel_memberships cs !! KernelMembershipKey_from (ss_config s) = None →
    ∃ cs' w2, record_join id (ss_capture_key s) (ss_config s) (c, w') =
      (Ok (), (set_sc_subscriptions <[id := set_ss_state Joined s]>
                 (set_sc_captures <[ss_capture_key s := cs']> c), w2)) ∧
    capture_wf (<[id := set_ss_state Joined s]> (sc_subscriptions c)) (ss_capture_key s) cs' ∧
    0 < cs_memberships cs' ∧
    (is_Some (cs_kernel_memberships cs !! KernelMembershipKey_from (ss_config s)) → w2 = w)).
  { intros w' Hw. destruct (record_join_spec c w' id s cs) as (cs' & Hr & Hwf' & Hpos); try done.
    exists cs', w'. split_and!; [exact Hr|done|done|]. intros [m Hm]. destruct Hw; [done|congruence]. }
  unfold kernel_join. case_bool_decide as Hk; [|right; apply Hrec; by left].
  pose proof (law_capture_join (cs_socket cs) (ss_config s) (cw_socket _ _ _ Hwf) w) as Ht.
  destruct (capture_join (cs_socket cs) (ss_config s) w) as [[[]|e| |] w1] eqn:Hcj; try done.
  - rewrite (mthen_ok _ _ _ (inl ()) (c, w1)) by (unfold mcatch, on_snd; cbn [fst snd]; by rewrite Hcj).
    right. apply Hrec. by right.
  - rewrite (mthen_ok _ _ _ (inr e) (c, w1)) by (unfold mcatch, on_snd; cbn [fst snd]; by rewrite Hcj).
    left. by exists e, w1.
Qed.

(** Every join either fails and leaves the context as it was, or succeeds and
    makes the one subscription joined. *)
Lemma sc_join_spec budget c w id :
  shared_inv budget c →
  (∃ e w', sc_join_subscription id (c, w) = (Err e, (c, w')) ∧
     ∀ s, sc_subscriptions c !! id = Some s → ss_is_joined s = false →
       count_of (wants (ss_capture_key s) (KernelMembershipKey_from (ss_config s))) (sc_subscriptions c) = 0) ∨
  (∃ s cs order w', sc_join_subscription id (c, w) =
       (Ok (), (with_capture id (set_ss_state Joined s) cs order c, w')) ∧
     sc_subscriptions c !! id = Some s ∧ ss_is_joined s = false ∧
     shared_inv budget (with_capture id (set_ss_state Joined s) cs order c) ∧
     (0 < count_of (wants (ss_capture_key s) (KernelMembershipKey_from (ss_config s))) (sc_subscriptions c) →
      w' = w)).
Proof.
  intros Hinv. destruct (sc_subscriptions c !! id) as [s|] eqn:Hid.
  2: { left. exists SubscriptionNotFound, w. split; [|done].
       unfold sc_join_subscription, mthen, mget, mlift. cbn [fst]. by rewrite Hid. }
  destruct (ss_is_joined s) eqn:Hj.
  { left. exists SubscriptionAlreadyJoined, w. split; [|intros s' [= <-]; congruence].
    unfold sc_join_subscription, mthen, mget, mlift. cbn [fst]. rewrite Hid. cbn [ok_or]. by rewrite Hj. }
  assert (Hsize : Z.of_nat (size (sc_subscriptions c)) ≤ usize_max).
  { pose proof (si_size _ _ Hinv). destruct (si_limits _ _ Hinv). lia. }
  rewrite (sc_join_unfold _ _ _ _ Hid Hj).
  destruct (sc_captures c !! ss_capture_key s) as [cs|] eqn:Hcap.
  - destruct (si_captures _ _ Hinv _ _ Hcap) as [Hwf Hpos].
    rewrite (mthen_ok _ _ _ _ _ (ensure_capture_old _ c w cs Hcap)).
    destruct (join_tail_spec false c w id s cs) as [(e & w' & -> & Hnone)|(cs' & w' & -> & Hwf' & Hpos' & Hw)]; try done.
    + left. exists e, w'. split; [done|]. intros s' [= <-] _.
      pose proof (cw_kernel _ _ _ Hwf (KernelMembershipKey_from (ss_config s))) as Hk. by rewrite Hnone in Hk.
    + right. exists s, cs', (sc_capture_order c), w'. split_and!; [by destruct c|done|done| |].
      * apply shared_inv_join; try done. left. by rewrite Hcap.
      * intros Hc. apply Hw. pose proof (cw_kernel _ _ _ Hwf (KernelMembershipKey_from (ss_config s))) as Hk.
        destruct (cs_kernel_memberships cs !! _); [by eauto|lia].
  - pose proof (ensure_capture_new _ _ w Hcap) as Hens.
    pose proof (law_capture_open (ss_capture_key s) w I) as Ho.
    destruct (capture_open (ss_capture_key s) w) as [[socket|e| |] w1]; try done.
    all: pose proof (count_of_mono _ (joined_on (ss_capture_key s)) (sc_subscriptions c)
      (wants_joined (ss_capture_key s) (KernelMembershipKey_from (ss_config s)))
      (si_no_capture _ _ Hinv _ Hcap)) as Hwz.
    2: { left. exists e, w1. split; [unfold mthen; by rewrite Hens|by intros s' [= <-] _]. }
    rewrite (mthen_ok _ _ _ _ _ Hens).
    pose proof (si_no_capture _ _ Hinv _ Hcap) as Hzero.
    destruct (join_tail_spec true (opened (ss_capture_key s) socket c) w1 id s (SharedCaptureSocket_new socket))
      as [(e & w' & -> & _)|(cs' & w' & -> & Hwf' & Hpos' & Hw)]; try done.
    + cbn [opened set_sc_captures set_sc_capture_order sc_captures]. by rewrite lookup_insert_eq.
    + by apply capture_wf_new.
    + left. exists e, w'. split; [unfold mthen at 1; by erewrite remove_capture_opened|by intros s' [= <-] _].
    + right. exists s, cs', (sc_capture_order c ++ [ss_capture_key s]), w'. split_and!; [|done|done| |].
      * unfold opened, with_capture, set_sc_subscriptions, set_sc_captures, set_sc_capture_order. simpl.
        by rewrite insert_insert_eq.
      * apply shared_inv_join; try done. by right.
      * lia.
Qed.

(** ** Leaving *)

Lemma kernel_wf_leave subs id s kernel m :
  subs !! id = Some s → ss_is_joined s = true → kernel_wf subs (ss_capture_key s) kernel →
  let mk := KernelMembershipKey_from (ss_config s) in
  kernel !! mk = Some m →
  kernel_wf (<[id := set_ss_state Bound s]> subs) (ss_capture_key s)
    (if bool_decide (km_references m = 1) then delete mk kernel
     else <[mk := mkKernelMembership (km_references m - 1) (km_joined_config m)]> kernel).
Proof.
  intros Hid Hj Hk mk Hm mk'. pose proof (Hk mk) as Hmk. rewrite Hm in Hmk. destruct Hmk as (Hrefs & Hpos & Hcfg).
  specialize (Hk mk'). rewrite (count_of_update _ _ _ _ _ Hid), wants_set. cbn [andb Z.b2z].
  assert (Hw : wants (ss_capture_key s) mk' s = bool_decide (mk = mk')).
  { unfold wants, joined_on. by rewrite Hj, (bool_decide_true (ss_capture_key s = _)). }
  rewrite Hw. clear Hw. destruct (decide (mk = mk')) as [<-|Hne].
  - rewrite (bool_decide_true (mk = mk)) by done. cbn [Z.b2z]. case_bool_decide.
    + rewrite lookup_delete_eq. lia.
    + rewrite lookup_insert_eq. simpl. split_and!; (done || lia).
  - rewrite (bool_decide_false (mk = mk')) by done. cbn [Z.b2z].
    case_bool_decide; rewrite ?lookup_delete_ne, ?lookup_insert_ne by done;
      rewrite Z.sub_0_r, Z.add_0_r; exact Hk.
Qed.

Lemma kernel_wf_empty subs key kernel :
  kernel_wf subs key kernel → (count_of (joined_on key) subs = 0 ↔ kernel = ∅).
Proof.
  intros Hk. split.
  - intros Hz. apply map_empty. intros mk. specialize (Hk mk). destruct (kernel !! mk) as [m|]; [|done].
    destruct Hk as (Hc & Hpos & _). pose proof (count_of_mono _ _ _ (wants_joined key mk) Hz). lia.
  - intros ->. apply count_of_zero. intros i s Hs. destruct (joined_on key s) eqn:Hj; [|done].
    specialize (Hk (KernelMembershipKey_from (ss_config s))). rewrite lookup_empty in Hk.
    rewrite count_of_zero in Hk. specialize (Hk i s Hs). unfold wants in Hk.
    by rewrite Hj, bool_decide_true in Hk.
Qed.

Lemma capture_wf_leave subs id s cs m demux :
  subs !! id = Some s → ss_is_joined s = true → capture_wf subs (ss_capture_key s) cs →
  let mk := KernelMembershipKey_from (ss_config s) in
  cs_kernel_memberships cs !! mk = Some m →
  demux_refines demux (memberships_on (ss_capture_key s) subs ∖ {[membership_of id (ss_config s)]}) →
  capture_wf (<[id := set_ss_state Bound s]> subs) (ss_capture_key s)
    (mkCaptureSocket (cs_socket cs) (cs_memberships cs - 1)
       (if bool_decide (km_references m = 1) then delete mk (cs_kernel_memberships cs)
        else <[mk := mkKernelMembership (km_references m - 1) (km_joined_config m)]> (cs_kernel_memberships cs))
       demux).
Proof.
  intros Hid Hj [Hok Hm Hk Hd] mk Hmk Hdemux. split; simpl; [done| | |].
  - rewrite Hm, (count_of_update _ _ _ _ _ Hid), joined_on_set. unfold joined_on at 3.
    rewrite Hj, bool_decide_true by done. simpl. lia.
  - by apply kernel_wf_leave.
  - by rewrite memberships_on_leave.
Qed.

(** *** Queued packets *)

Definition without (id : SubscriptionId) (l : list SubscriptionId) : list SubscriptionId :=
  filter (λ x, x ≠ id) l.

Lemma sorted_without id l : sorted l → sorted (without id l).
Proof. apply sublist_sorted, sublist_filter. Qed.

Lemma without_remove id l l' :
  sorted l → l' `sublist_of` l → l ≡ₚ id :: l' → l' = without id l.
Proof.
  intros Hs Hsub Hperm. apply sorted_ext; [by eapply sublist_sorted|by apply sorted_without|].
  intros x. unfold without. rewrite list_elem_of_filter, Hperm, elem_of_cons.
  assert (id ∉ l'); [|naive_solver].
  pose proof (sorted_NoDup _ Hs) as Hnd. rewrite Hperm in Hnd. by apply NoDup_cons in Hnd as [? _].
Qed.

Lemma without_not_in id l : id ∉ l → without id l = l.
Proof.
  intros Hni. induction l as [|x l IH]; [done|]. apply not_elem_of_cons in Hni as [? ?].
  unfold without. rewrite filter_cons_True by done. by f_equal; apply IH.
Qed.

(** What becomes of a queued packet when a subscription leaves. *)
Definition packet_without (id : SubscriptionId) (p : SharedRawPacket) (o : option SharedRawPacket) : Prop :=
  match o with
  | None => without id (matching_subscription_ids p) = []
  | Some p' => matching_subscription_ids p' = without id (matching_subscription_ids p) ∧
               rp_datagram (sp_packet p') = rp_datagram (sp_packet p)
  end.

Lemma remove_existing_spec m id i :
  sorted (as_slice m) → position (λ x, bool_decide (x = id)) (as_slice m) = Some i →
  length (as_slice m) ≠ 1%nat →
  ∃ m', remove_existing i m = Ok m' ∧ as_slice m' = without id (as_slice m).
Proof.
  intros Hs Hpos Hlen. destruct m as [x|ids]; [done|]. simpl in *.
  destruct (vec_remove_position _ _ _ Hpos) as (ids' & -> & Hsub & Hperm). cbn [res_bind].
  rewrite <-(without_remove id ids ids') by done. destruct ids' as [|x [|y ids']]; eauto.
Qed.

Lemma raw_admits_primary c id id' p interface index :
  raw_admits c id p →
  raw_admits c id' (mkRawPacket id' (rp_datagram p) (rp_source_ip p) (rp_group p) (rp_ip_protocol p)
                      (set_configured interface index (rp_metadata p))).
Proof. intros (_ & q & ? & ? & ? & ? & ? & ? & ?). split; [done|]. exists q. by split_and!. Qed.

Lemma retain_packet_spec subs id s p :
  subs !! id = Some s → pending_ok subs p →
  let subs' := <[id := set_ss_state Bound s]> subs in
  ∃ o, retain_packet subs' id p = Ok o ∧ packet_without id p o ∧ ∀ p', o = Some p' → pending_ok subs' p'.
Proof.
  intros Hid Hp subs'. pose proof Hp as [Hs Hprim Hadm Hif]. unfold matching_subscription_ids in *.
  assert (Hother : ∀ i, i ≠ id → subs' !! i = subs !! i).
  { intros i Hi. unfold subs'. by rewrite lookup_insert_ne. }
  unfold retain_packet, packet_without, matching_subscription_ids.
  pose proof (position_elem_of (as_slice (sp_matching p)) id) as Hpos.
  destruct (position _ _) as [i|] eqn:Hi.
  2: { exists (Some p). split_and!; [done|by rewrite without_not_in|done|]. intros p' [= <-].
       eapply pending_ok_ext; [done|]. intros j sj Hj Hsj Hjoin. exists sj. rewrite Hother; [done|by intros ->]. }
  case_bool_decide as Hlen.
  { exists None. split_and!; [done| |done]. destruct (as_slice (sp_matching p)) as [|x [|]]; try done.
    apply list_elem_of_singleton in Hpos as ->. unfold without. by rewrite filter_cons_False by auto. }
  destruct (remove_existing_spec _ _ _ Hs Hi Hlen) as (m' & -> & Hm'). cbn [res_bind].
  assert (Hne : without id (as_slice (sp_matching p)) ≠ []).
  { intros Hnil. apply Hlen. assert (Hall : ∀ x, x ∈ as_slice (sp_matching p) → x = id).
    { intros x Hx. destruct (decide (x = id)); [done|]. exfalso.
      by apply (not_elem_of_nil x); rewrite <-Hnil; apply list_elem_of_filter. }
    pose proof (sorted_NoDup _ Hs) as Hnd. destruct (as_slice (sp_matching p)) as [|x [|y l]]; [done|done|].
    apply NoDup_cons in Hnd as [Hnd _]. exfalso. apply Hnd.
    rewrite (Hall x), (Hall y) by (repeat first [by left|right]). by left. }
  destruct (without id (as_slice (sp_matching p))) as [|x l] eqn:Hw; [done|].
  unfold matching_first, index. rewrite Hm'. cbn [lookup list_lookup expect res_bind].
  assert (Hin : ∀ j, j ∈ as_slice m' → j ≠ id ∧ j ∈ as_slice (sp_matching p)).
  { intros j. rewrite Hm', <-Hw. unfold without. by rewrite list_elem_of_filter. }
  assert (Hx : x ∈ as_slice m') by (rewrite Hm'; left).
  destruct (Hin x Hx) as [Hxid Hxin]. destruct (Hadm x Hxin) as (sx & Hsx & Hjx & Hadx).
  assert (Hsorted : sorted (as_slice m')) by (rewrite Hm', <-Hw; by apply sorted_without).
  case_bool_decide as Hprimary; cbn [negb].
  - eexists. split_and!; [done|done|]. intros p' [= <-]. split; unfold matching_subscription_ids; simpl.
    + done.
    + by rewrite Hm', Hprimary.
    + intros j Hj. destruct (Hin j Hj) as [Hji Hjin]. rewrite Hother by done. by apply Hadm.
    + intros s'. rewrite Hprimary, Hother by done. intros Hs'. apply Hif. by rewrite Hprimary.
  - rewrite Hother, Hsx by done. cbn [expect res_bind].
    eexists. split_and!; [done|done|]. intros p' [= <-]. split; unfold matching_subscription_ids; simpl.
    + done.
    + by rewrite Hm'.
    + intros j Hj. destruct (Hin j Hj) as [Hji Hjin]. rewrite Hother by done.
      destruct (Hadm j Hjin) as (sj & ? & ? & Hadj). exists sj. split_and!; [done|done|].
      by eapply raw_admits_primary.
    + intros s'. rewrite Hother by done. intros Hs'. by simplify_eq.
Qed.

Lemma retain_mut_spec {A : Type} (f : A → Result (option A)) (P : A → option A → Prop) (Q : A → Prop) l :
  (∀ x, x ∈ l → ∃ o, f x = Ok o ∧ P x o ∧ ∀ y, o = Some y → Q y) →
  ∃ os, retain_mut f l = Ok (omap id os) ∧ Forall2 P l os ∧ Forall Q (omap id os) ∧
    (length (omap id os) ≤ length l)%nat.
Proof.
  induction l as [|x l IH]; intros Hf.
  { exists []. split_and!; [done|constructor|constructor|done]. }
  destruct (Hf x) as (o & Hx & HP & HQ); [left|]. destruct IH as (os & Hr & Hos & Hall & Hlen).
  { intros y Hy. apply Hf. by right. }
  exists (o :: os). cbn [retain_mut]. rewrite Hx. cbn [res_bind]. rewrite Hr. cbn [res_bind].
  split_and!; [by destruct o|by constructor| |].
  - destruct o as [y|]; [|done]. constructor; [by apply HQ|done].
  - destruct o as [y|]; unfold omap, list_omap in *; simpl in *; lia.
Qed.

(** The packets that stay queued when a subscription leaves. *)
Definition pending_without (id : SubscriptionId) (pending pending' : list SharedRawPacket) : Prop :=
  ∃ os, Forall2 (packet_without id) pending os ∧ pending' = omap (λ o, o) os.

Lemma remove_pending_spec c w id s (subs : Subscriptions) :
  subs !! id = Some s → Forall (pending_ok subs) (sc_pending_packets c) →
  sc_subscriptions c = <[id := set_ss_state Bound s]> subs →
  ∃ pending, remove_pending_membership id (c, w) = (Ok (), (set_sc_pending pending c, w)) ∧
    Forall (pending_ok (sc_subscriptions c)) pending ∧
    (length pending ≤ length (sc_pending_packets c))%nat ∧
    pending_without id (sc_pending_packets c) pending.
Proof.
  intros Hid Hp Hsubs. rewrite Forall_forall in Hp.
  destruct (retain_mut_spec (retain_packet (sc_subscriptions c) id) (packet_without id)
    (pending_ok (sc_subscriptions c)) (sc_pending_packets c)) as (os & Hr & Hos & Hall & Hlen).
  { intros p Hin. rewrite Hsubs. apply retain_packet_spec; auto. }
  exists (omap (λ o, o) os). split_and!; [|done|done|by exists os].
  unfold remove_pending_membership, mthen, mget, mlift. cbn [fst]. by rewrite Hr.
Qed.

Definition cursor_ok (order : list RawSharedCaptureKey) (i : nat) : Prop :=
  (i < length order)%nat ∨ (order = [] ∧ i = 0%nat).

Lemma remove_capture_spec c w key :
  NoDup (sc_capture_order c) → key ∈ sc_capture_order c →
  ∃ order i, remove_capture key (c, w) =
      (Ok (), (set_sc_capture_order order i (set_sc_captures (delete key) c), w)) ∧
    NoDup order ∧ (∀ k, k ∈ order ↔ k ∈ sc_capture_order c ∧ k ≠ key) ∧ cursor_ok order i.
Proof.
  intros Hnd Hin. unfold remove_capture, mthen, mget, mlift, on_fst, mmodify. cbn [fst snd].
  cbn [set_sc_captures sc_capture_order]. pose proof (position_elem_of (sc_capture_order c) key) as Hpos.
  destruct (position _ _) as [i|] eqn:Hi; [|done]. cbn [expect].
  destruct (vec_remove_position _ _ _ Hi) as (order & -> & _ & Hperm). cbn [fst snd].
  eexists order, _. split; [done|]. rewrite Hperm in Hnd. apply NoDup_cons in Hnd as [Hni Hnd].
  split_and!; [done| |].
  - intros k. rewrite Hperm, elem_of_cons. split; [|naive_solver].
    intros Hk. split; [by right|by intros ->].
  - unfold cursor_ok. case_bool_decide as Hnil; [by right|left]. apply Nat.mod_upper_bound. by destruct order.
Qed.

(** The context that a leave produces. *)
Definition left_context (id : SubscriptionId) (s : SharedRawSubscription)
    (captures : gmap RawSharedCaptureKey SharedCaptureSocket) (order : list RawSharedCaptureKey) (i : nat)
    (pending : list SharedRawPacket) (c : SharedRawContext) : SharedRawContext :=
  mkShared (<[id := set_ss_state Bound s]> (sc_subscriptions c)) (sc_resolved_capture_keys c) captures order
    pending (sc_limits c) (sc_next_subscription_id c) i (sc_metrics c).

Lemma shared_inv_leave budget c id s cs captures order i pending :
  let subs' := <[id := set_ss_state Bound s]> (sc_subscriptions c) in
  shared_inv budget c → sc_subscriptions c !! id = Some s → is_Some (sc_captures c !! ss_capture_key s) →
  capture_wf subs' (ss_capture_key s) cs →
  (0 < cs_memberships cs ∧ captures = <[ss_capture_key s := cs]> (sc_captures c) ∧
     order = sc_capture_order c ∧ i = sc_next_capture_index c ∨
   cs_memberships cs = 0 ∧ captures = delete (ss_capture_key s) (sc_captures c) ∧ NoDup order ∧
     (∀ k, k ∈ order ↔ k ∈ sc_capture_order c ∧ k ≠ ss_capture_key s) ∧ cursor_ok order i) →
  Forall (pending_ok subs') pending → (length pending ≤ length (sc_pending_packets c))%nat →
  shared_inv budget (left_context id s captures order i pending c).
Proof.
  intros subs' [Hl Hids Hsz Hres [Hnd Hord] Hcaps Hno Hpend Hpb Hcur Hnext] Hid Hsome Hcs Hcase Hp Hlen.
  split; simpl; try done; try lia.
  - apply map_Forall_insert_2; [|done]. exact (Hids id s Hid).
  - by rewrite map_size_insert_Some.
  - by apply resolved_wf_update.
  - destruct Hcase as [(_ & -> & -> & _)|(_ & -> & Hnd' & Hord' & _)].
    + split; [done|]. intros k. rewrite Hord.
      destruct (decide (k = ss_capture_key s)) as [->|Hne]; [|by rewrite lookup_insert_ne].
      rewrite lookup_insert_eq. split; [by eauto|done].
    + split; [done|]. intros k. rewrite Hord', Hord.
      destruct (decide (k = ss_capture_key s)) as [->|Hne]; [|rewrite lookup_delete_ne by done; tauto].
      rewrite lookup_delete_eq. split; [by intros []|by intros []].
  - destruct Hcase as [(Hpos & -> & _)|(_ & -> & _)]; [by apply captures_wf_update|].
    intros k cs' Hk. apply lookup_delete_Some in Hk as [Hne Hk]. destruct (Hcaps _ _ Hk) as [Hwf ?].
    split; [|done]. eapply capture_wf_update_other; [done| |by rewrite joined_on_set|done].
    unfold joined_on. by rewrite (bool_decide_false (_ = _)), andb_false_r.
  - intros k Hk. destruct Hcase as [(_ & -> & _)|(Hz & -> & _)].
    + apply lookup_insert_None in Hk as [Hk Hne]. apply no_capture_update; auto.
    + destruct (decide (k = ss_capture_key s)) as [->|Hne]; [by rewrite <-Hz, (cw_memberships _ _ _ Hcs)|].
      rewrite lookup_delete_ne in Hk by done. apply no_capture_update; auto.
  - destruct Hcase as [(_ & _ & -> & ->)|(_ & _ & _ & _ & Hc)]; done.
Qed.

(** The part of [leave_subscription] before the memberships are updated. *)
Definition kernel_leave (cs : SharedCaptureSocket) (mk : KernelMembershipKey) (m : KernelMembership)
    : Act (gmap KernelMembershipKey KernelMembership) :=
  if bool_decide (km_references m = 1) then
    on_snd (capture_leave (cs_socket cs) (km_joined_config m)) ;;*
    mpure (delete mk (cs_kernel_memberships cs))
  else
    let* references := mlift (decrement (km_references m)) in
    mpure (<[mk := mkKernelMembership references (km_joined_config m)]> (cs_kernel_memberships cs)).

Definition record_leave (id : SubscriptionId) (s : SharedRawSubscription) (cs : SharedCaptureSocket)
    (kernel : gmap KernelMembershipKey KernelMembership) : Act unit :=
  let* demux := mlift (capture_remove (cs_demultiplexer cs) id (ss_config s)) in
  let* memberships := mlift (decrement (cs_memberships cs)) in
  mlift (if eqb (bool_decide (memberships = 0)) (bool_decide (kernel = ∅)) then Ok () else Panic) ;;*
  put_capture (ss_capture_key s) (mkCaptureSocket (cs_socket cs) memberships kernel demux) ;;*
  set_subscription_state id Bound ;;*
  remove_pending_membership id ;;*
  if bool_decide (memberships = 0) then remove_capture (ss_capture_key s) else mpure ().

Lemma sc_leave_unfold c w id s cs m :
  sc_subscriptions c !! id = Some s → ss_is_joined s = true →
  sc_captures c !! ss_capture_key s = Some cs →
  cs_kernel_memberships cs !! KernelMembershipKey_from (ss_config s) = Some m →
  sc_leave_subscription id (c, w) =
    mthen (kernel_leave cs (KernelMembershipKey_from (ss_config s)) m) (record_leave id s cs) (c, w).
Proof.
  intros Hid Hj Hcap Hm. unfold sc_leave_subscription.
  rewrite (mthen_ok _ _ _ (c, w) (c, w)) by done. cbn [fst].
  rewrite (mthen_ok _ _ _ s (c, w)) by (unfold mlift; by rewrite Hid).
  rewrite (mthen_ok _ _ _ () (c, w)) by (unfold mlift; by rewrite Hj).
  rewrite (mthen_ok _ _ _ _ _ (get_capture_ok _ c w cs Hcap)).
  rewrite (mthen_ok _ _ _ m (c, w)) by (unfold mlift; by rewrite Hm). done.
Qed.

Lemma record_leave_spec budget c w id s cs m :
  let mk := KernelMembershipKey_from (ss_config s) in
  let kernel := if bool_decide (km_references m = 1) then delete mk (cs_kernel_memberships cs)
                else <[mk := mkKernelMembership (km_references m - 1) (km_joined_config m)]>
                       (cs_kernel_memberships cs) in
  shared_inv budget c → sc_subscriptions c !! id = Some s → ss_is_joined s = true →
  sc_captures c !! ss_capture_key s = Some cs → cs_kernel_memberships cs !! mk = Some m →
  ∃ captures order i pending,
    record_leave id s cs kernel (c, w) = (Ok (), (left_context id s captures order i pending c, w)) ∧
    shared_inv budget (left_context id s captures order i pending c) ∧
    pending_without id (sc_pending_packets c) pending.
Proof.
  intros mk kernel Hinv Hid Hj Hcap Hm. destruct (si_captures _ _ Hinv _ _ Hcap) as [Hwf Hpos].
  destruct (capture_remove_spec _ _ id (ss_config s) (cw_demux _ _ _ Hwf)) as (demux & Hrem & Hd).
  pose proof (capture_wf_leave _ _ _ _ _ _ Hid Hj Hwf Hm Hd) as Hwf'. cbv zeta in Hwf'. fold mk kernel in Hwf'.
  set (cs' := mkCaptureSocket (cs_socket cs) (cs_memberships cs - 1) kernel demux) in *.
  set (c1 := with_capture id (set_ss_state Bound s) cs' (sc_capture_order c) c).
  destruct (remove_pending_spec c1 w id s (sc_subscriptions c) Hid (si_pending _ _ Hinv) eq_refl)
    as (pending & Hpend & Hall & Hlen & Hwithout).
  assert (Hkey : ss_capture_key s ∈ sc_capture_order c).
  { apply (proj2 (si_order _ _ Hinv)). by rewrite Hcap. }
  unfold record_leave. rewrite (mthen_ok _ _ _ demux (c, w)) by (unfold mlift; by rewrite Hrem).
  rewrite (mthen_ok _ _ _ (cs_memberships cs - 1) (c, w)) by (unfold mlift; rewrite decrement_ok; [done|lia]).
  rewrite (mthen_ok _ _ _ () (c, w)).
  2: { unfold mlift. pose proof (kernel_wf_empty _ _ _ (cw_kernel _ _ _ Hwf')) as He.
       rewrite <-(cw_memberships _ _ _ Hwf') in He. cbn [cs' cs_memberships cs_kernel_memberships] in He.
       by rewrite (bool_decide_ext _ _ He), eqb_reflx. }
  rewrite (mthen_ok _ _ _ () (set_sc_captures <[ss_capture_key s := cs']> c, w)) by done.
  rewrite (mthen_ok _ _ _ () (c1, w)).
  2: { unfold set_subscription_state, mthen, mget, mlift. cbn [fst set_sc_captures sc_subscriptions].
       rewrite Hid. cbn [expect]. by destruct c. }
  rewrite (mthen_ok _ _ _ _ _ Hpend). case_bool_decide as Hz.
  - destruct (remove_capture_spec (set_sc_pending pending c1) w (ss_capture_key s)) as (order & i & Hr & Hnd & Ho & Hcur).
    { exact (proj1 (si_order _ _ Hinv)). }
    { exact Hkey. }
    exists (delete (ss_capture_key s) (sc_captures c)), order, i, pending. split_and!; [|  |done].
    + rewrite Hr. unfold left_context, set_sc_pending, c1, with_capture, set_sc_subscriptions, set_sc_captures,
        set_sc_capture_order. simpl. by rewrite delete_insert_eq.
    + eapply shared_inv_leave; try done. right. by split_and!.
  - exists (<[ss_capture_key s := cs']> (sc_captures c)), (sc_capture_order c), (sc_next_capture_index c), pending.
    split_and!; [done| |done]. eapply shared_inv_leave; try done.
    left. split_and!; [|done..]. cbn [cs' cs_memberships]. lia.
Qed.

(** Every leave either fails and leaves the context as it was, or succeeds and
    makes the one subscription bound again. *)
Lemma sc_leave_spec budget c w id :
  shared_inv budget c →
  (∃ e w', sc_leave_subscription id (c, w) = (Err e, (c, w')) ∧
     ∀ s, sc_subscriptions c !! id = Some s → ss_is_joined s = true →
       count_of (wants (ss_capture_key s) (KernelMembershipKey_from (ss_config s))) (sc_subscriptions c) = 1) ∨
  (∃ s captures order i pending w', sc_leave_subscription id (c, w) =
       (Ok (), (left_context id s captures order i pending c, w')) ∧
     sc_subscriptions c !! id = Some s ∧ ss_is_joined s = true ∧
     shared_inv budget (left_context id s captures order i pending c) ∧
     pending_without id (sc_pending_packets c) pending ∧
     (1 < count_of (wants (ss_capture_key s) (KernelMembershipKey_from (ss_config s))) (sc_subscriptions c) →
      w' = w)).
Proof.
  intros Hinv. destruct (sc_subscriptions c !! id) as [s|] eqn:Hid.
  2: { left. exists SubscriptionNotFound, w. split; [|done].
       unfold sc_leave_subscription, mthen, mget, mlift. cbn [fst]. by rewrite Hid. }
  destruct (ss_is_joined s) eqn:Hj.
  2: { left. exists SubscriptionNotJoined, w. split; [|intros s' [= <-]; congruence].
       unfold sc_leave_subscription, mthen, mget, mlift. cbn [fst]. rewrite Hid. cbn [ok_or]. by rewrite Hj. }
  assert (Hjo : joined_on (ss_capture_key s) s = true) by by apply joined_on_true.
  destruct (sc_captures c !! ss_capture_key s) as [cs|] eqn:Hcap.
  2: { pose proof (si_no_capture _ _ Hinv _ Hcap) as Hz. rewrite count_of_zero in Hz.
       by rewrite (Hz _ _ Hid) in Hjo. }
  destruct (si_captures _ _ Hinv _ _ Hcap) as [Hwf Hpos].
  pose proof (cw_kernel _ _ _ Hwf (KernelMembershipKey_from (ss_config s))) as Hk.
  destruct (cs_kernel_memberships cs !! _) as [m|] eqn:Hm.
  2: { rewrite count_of_zero in Hk. specialize (Hk _ _ Hid). unfold wants in Hk.
       by rewrite Hjo, bool_decide_true in Hk. }
  destruct Hk as (Hrefs & Hrpos & _). rewrite (sc_leave_unfold _ _ _ _ _ _ Hid Hj Hcap Hm).
  pose proof (λ w, record_leave_spec _ _ w _ _ _ _ Hinv Hid Hj Hcap Hm) as Hrec. cbv zeta in Hrec.
  unfold kernel_leave. case_bool_decide as Hone.
  - pose proof (law_capture_leave (cs_socket cs) (km_joined_config m) (cw_socket _ _ _ Hwf) w) as Ht.
    destruct (capture_leave (cs_socket cs) (km_joined_config m) w) as [[[]|e| |] w1] eqn:Hcl; try done.
    + rewrite (mthen_ok _ _ _ (delete (KernelMembershipKey_from (ss_config s)) (cs_kernel_memberships cs)) (c, w1)).
      2: { unfold mthen, on_snd. cbn [fst snd]. by rewrite Hcl. }
      destruct (Hrec w1) as (captures & order & i & pending & Hr & ? & ?).
      right. exists s, captures, order, i, pending, w1. split_and!; try done. lia.
    + left. exists e, w1. split; [unfold mthen, on_snd; cbn [fst snd]; by rewrite Hcl|].
      intros s' [= <-] _. lia.
  - rewrite (mthen_ok _ _ _ (<[KernelMembershipKey_from (ss_config s) := mkKernelMembership (km_references m - 1)
      (km_joined_config m)]> (cs_kernel_memberships cs)) (c, w)).
    2: { unfold mthen, mlift. rewrite decrement_ok; [done|lia]. }
    destruct (Hrec w) as (captures & order & i & pending & Hr & ? & ?).
    right. exists s, captures, order, i, pending, w. split_and!; done.
Qed.

(** ** Adding and removing *)

Definition resolved_after (sel : CaptureSelector) (key : RawSharedCaptureKey) (c : SharedRawContext)
    : gmap CaptureSelector ResolvedCaptureKey :=
  <[sel := match sc_resolved_capture_keys c !! sel with
           | Some r => mkResolved (rk_key r) (rk_references r + 1)
           | None => mkResolved key 1
           end]> (sc_resolved_capture_keys c).

(** The key that [resolve_capture_key] answers with. *)
Definition resolved_key (sel : CaptureSelector) (key : RawSharedCaptureKey) (c : SharedRawContext)
    : RawSharedCaptureKey :=
  match sc_resolved_capture_keys c !! sel with Some r => rk_key r | None => key end.

Lemma resolve_capture_key_spec budget c w config :
  shared_inv budget c → Z.of_nat (size (sc_subscriptions c)) < usize_max →
  let sel := CaptureSelector_from config in
  (∃ e w', resolve_capture_key config (c, w) = (Err e, (c, w'))) ∨
  (∃ key w', resolve_capture_key config (c, w) =
     (Ok (resolved_key sel key c), (set_sc_resolved (λ _, resolved_after sel key c) c, w'))).
Proof.
  intros Hinv Hsize sel. unfold resolve_capture_key, resolved_key, resolved_after. fold sel.
  pose proof (proj1 (si_resolved _ _ Hinv) sel) as Hres.
  rewrite (mthen_ok _ _ _ (c, w) (c, w)) by done. cbn [fst].
  destruct (sc_resolved_capture_keys c !! sel) as [r|] eqn:Hsel.
  - right. exists (rk_key r), w. destruct Hres as [Hr _]. pose proof (count_of_size (selects sel) (sc_subscriptions c)).
    rewrite (mthen_ok _ _ _ (rk_references r + 1) (c, w)); [done|]. unfold mlift. rewrite increment_ok; [done|lia].
  - pose proof (law_capture_key config w) as Ht.
    destruct (capture_key config w) as [[key|e| |] w1] eqn:Hk; try done.
    + right. exists key, w1. rewrite (mthen_ok _ _ _ key (c, w1)); [done|].
      unfold on_snd. cbn [fst snd]. by rewrite Hk.
    + left. exists e, w1. unfold mthen, on_snd. cbn [fst snd]. by rewrite Hk.
Qed.

(** The context that an addition produces. *)
Definition added_context (config : RawSubscriptionConfig) (key : RawSharedCaptureKey) (c : SharedRawContext)
    : SharedRawContext :=
  let id := sc_next_subscription_id c in
  let sel := CaptureSelector_from config in
  mkShared (<[id := SharedRawSubscription_new id config (resolved_key sel key c)]> (sc_subscriptions c))
    (resolved_after sel key c) (sc_captures c) (sc_capture_order c) (sc_pending_packets c) (sc_limits c)
    (id + 1) (sc_next_capture_index c) (sc_metrics c).

Lemma next_id_fresh budget c : shared_inv budget c → sc_subscriptions c !! sc_next_subscription_id c = None.
Proof.
  intros Hinv. destruct (sc_subscriptions c !! _) as [s|] eqn:Hs; [|done].
  destruct (si_ids _ _ Hinv _ _ Hs) as (_ & ? & _). lia.
Qed.

Lemma resolved_wf_added budget c config key :
  shared_inv budget c → resolved_wf (sc_subscriptions (added_context config key c))
    (sc_resolved_capture_keys (added_context config key c)).
Proof.
  intros Hinv. destruct (si_resolved _ _ Hinv) as [Hc Hk]. pose proof (next_id_fresh _ _ Hinv) as Hnew.
  set (sel := CaptureSelector_from config) in *. split; cbn [added_context sc_subscriptions sc_resolved_capture_keys].
  - intros sel'. specialize (Hc sel'). rewrite count_of_insert_new by done. unfold resolved_after. fold sel.
    assert (Hsel : selects sel' (SharedRawSubscription_new (sc_next_subscription_id c) config (resolved_key sel key c)) =
      bool_decide (sel = sel')) by done. rewrite Hsel.
    destruct (decide (sel = sel')) as [<-|Hne].
    + rewrite lookup_insert_eq, bool_decide_true by done. cbn [Z.b2z].
      destruct (sc_resolved_capture_keys c !! sel) as [r|]; simpl; lia.
    + rewrite lookup_insert_ne, bool_decide_false by done. exact Hc.
  - unfold resolved_after. fold sel. apply map_Forall_insert_2.
    + cbn [SharedRawSubscription_new ss_config ss_capture_key]. fold sel. rewrite lookup_insert_eq.
      unfold resolved_key. by destruct (sc_resolved_capture_keys c !! sel).
    + intros id s Hs. specialize (Hk id s Hs). simpl in Hk.
      destruct (decide (sel = CaptureSelector_from (ss_config s))) as [Heq|Hne].
      * rewrite <-Heq in *. rewrite lookup_insert_eq. by destruct (sc_resolved_capture_keys c !! sel).
      * by rewrite lookup_insert_ne.
Qed.

Lemma shared_inv_add budget c config key :
  shared_inv (S budget) c → Z.of_nat (size (sc_subscriptions c)) < max_subscriptions (sc_limits c) →
  RawSubscriptionConfig.validate config = Ok () → shared_inv budget (added_context config key c).
Proof.
  intros Hinv Hsize Hv. pose proof (resolved_wf_added _ _ config key Hinv) as Hres'.
  pose proof (next_id_fresh _ _ Hinv) as Hnew. destruct Hinv as [Hl Hids Hsz Hres Hord Hcaps Hno Hpend Hpb Hcur Hnext].
  set (s := SharedRawSubscription_new (sc_next_subscription_id c) config
              (resolved_key (CaptureSelector_from config) key c)) in *.
  split; try done; cbn [added_context sc_subscriptions sc_captures sc_limits sc_pending_packets
    sc_next_subscription_id].
  - apply map_Forall_insert_2; [split_and!; [done|lia|lia|done]|].
    intros id s' Hs'. destruct (Hids id s' Hs') as (? & ? & ?). split_and!; [done|lia|lia|done].
  - rewrite map_size_insert_None by done. lia.
  - intros k cs Hk. destruct (Hcaps k cs Hk) as [Hwf ?]. split; [|done]. by apply capture_wf_insert_new.
  - intros k Hk. rewrite count_of_insert_new by done. by rewrite Hno.
  - eapply Forall_impl; [exact Hpend|]. intros p Hp. eapply pending_ok_ext; [done|].
    intros i s' _ Hs' Hj. exists s'. rewrite lookup_insert_ne; [done|congruence].
  - lia.
Qed.

Lemma sc_add_spec budget c w config :
  shared_inv (S budget) c →
  (∃ e w', sc_add_subscription config (c, w) = (Err e, (c, w'))) ∨
  (∃ key w', sc_add_subscription config (c, w) =
     (Ok (sc_next_subscription_id c), (added_context config key c, w')) ∧
     shared_inv budget (added_context config key c)).
Proof.
  intros Hinv. unfold sc_add_subscription. pose proof (returns_raw_validate config) as Hret.
  destruct (RawSubscriptionConfig.validate config) as [[]|e| |] eqn:Hv; try done; [|left; by exists e, w].
  rewrite (mthen_ok _ _ _ () (c, w)) by done. rewrite (mthen_ok _ _ _ (c, w) (c, w)) by done. cbn [fst].
  unfold guard. case_bool_decide as Hsize.
  { left. by exists (SharedRawCaptureSubscriptionLimitExceeded (max_subscriptions (sc_limits c))), w. }
  rewrite (mthen_ok _ _ _ () (c, w)) by done. destruct (si_limits _ _ Hinv) as [Hmax _].
  destruct (resolve_capture_key_spec _ c w config Hinv) as [(e & w' & Hr)|(key & w' & Hr)]; [lia| |].
  { left. exists e, w'. unfold mthen. by rewrite Hr. }
  right. exists key, w'. rewrite (mthen_ok _ _ _ _ _ Hr).
  rewrite (mthen_ok _ _ _ (sc_next_subscription_id c + 1) (set_sc_resolved (λ _, resolved_after
    (CaptureSelector_from config) key c) c, w')).
  2: { unfold mlift. rewrite next_id_small; [done|]. pose proof (si_next _ _ Hinv). lia. }
  split; [done|]. apply shared_inv_add; [done|lia|done].
Qed.

Lemma resolved_wf_delete subs resolved id s r :
  subs !! id = Some s → resolved_wf subs resolved →
  let sel := CaptureSelector_from (ss_config s) in
  resolved !! sel = Some r →
  resolved_wf (delete id subs)
    (if bool_decide (rk_references r - 1 = 0) then delete sel resolved
     else <[sel := mkResolved (rk_key r) (rk_references r - 1)]> resolved).
Proof.
  intros Hid [Hc Hk] sel Hr. assert (Hsel : ∀ sel', selects sel' s = bool_decide (sel = sel')) by done.
  assert (Hrefs : rk_references r = 1 + count_of (selects sel) (delete id subs)).
  { specialize (Hc sel). rewrite Hr, (count_of_delete _ _ _ _ Hid), Hsel, bool_decide_true in Hc by done.
    simpl in Hc. lia. }
  pose proof (count_of_nonneg (selects sel) (delete id subs)) as Hnn. split.
  - intros sel'. specialize (Hc sel'). rewrite (count_of_delete _ _ _ _ Hid), Hsel in Hc.
    destruct (decide (sel = sel')) as [<-|Hne].
    + clear Hc. case_bool_decide; rewrite ?lookup_delete_eq, ?lookup_insert_eq; simpl; lia.
    + rewrite (bool_decide_false (sel = sel')) in Hc by done. cbn [Z.b2z] in Hc. rewrite Z.add_0_l in Hc.
      case_bool_decide; by rewrite ?lookup_delete_ne, ?lookup_insert_ne.
  - intros i s' Hi. apply lookup_delete_Some in Hi as [Hne Hi]. pose proof (Hk i s' Hi) as Hki. simpl in Hki.
    destruct (decide (sel = CaptureSelector_from (ss_config s'))) as [Heq|Hnsel].
    + rewrite <-Heq in *. rewrite Hr in Hki. rewrite bool_decide_false.
      * by rewrite lookup_insert_eq.
      * assert (0 < count_of (selects sel) (delete id subs)); [|lia].
        apply (count_of_pos _ _ i s'); [by rewrite lookup_delete_ne|]. unfold selects. by apply bool_decide_eq_true.
    + case_bool_decide; by rewrite ?lookup_delete_ne, ?lookup_insert_ne.
Qed.

(** Forgetting a bound subscription. *)
Lemma remove_bound_spec budget c w id s :
  shared_inv budget c → sc_subscriptions c !! id = Some s → ss_is_joined s = false →
  ∃ resolved, release_capture_key (ss_config s) (set_sc_subscriptions (delete id) c, w) =
      (Ok (), (set_sc_resolved (λ _, resolved) (set_sc_subscriptions (delete id) c), w)) ∧
    shared_inv budget (set_sc_resolved (λ _, resolved) (set_sc_subscriptions (delete id) c)).
Proof.
  intros Hinv Hid Hj. destruct (si_resolved _ _ Hinv) as [Hc Hk]. pose proof (Hk _ _ Hid) as Hr. simpl in Hr.
  apply fmap_Some in Hr as (r & Hr & _). pose proof (resolved_wf_delete _ _ _ _ _ Hid (conj Hc Hk) Hr) as Hres.
  specialize (Hc (CaptureSelector_from (ss_config s))). rewrite Hr in Hc.
  destruct Hc as [_ Hpos]. eexists. split.
  - unfold release_capture_key. rewrite (mthen_ok _ _ _ (set_sc_subscriptions (delete id) c, w)
      (set_sc_subscriptions (delete id) c, w)) by done. cbn [fst].
    rewrite (mthen_ok _ _ _ r (set_sc_subscriptions (delete id) c, w)) by (unfold mlift; by simpl; rewrite Hr).
    rewrite (mthen_ok _ _ _ (rk_references r - 1) (set_sc_subscriptions (delete id) c, w))
      by (unfold mlift; rewrite decrement_ok; [done|lia]). done.
  - destruct Hinv as [Hl Hids Hsz _ Hord Hcaps Hno Hpend Hpb Hcur Hnext].
    split; try done; cbn [set_sc_resolved set_sc_subscriptions sc_subscriptions sc_captures sc_limits
      sc_pending_packets sc_next_subscription_id].
    + by apply map_Forall_delete.
    + rewrite map_size_delete_Some by done. lia.
    + intros k cs Hk'. destruct (Hcaps k cs Hk') as [Hwf ?]. split; [|done].
      eapply capture_wf_delete; [done|by apply not_joined_on|done].
    + intros k Hk'. pose proof (Hno k Hk') as Hz. rewrite (count_of_delete _ _ _ _ Hid), not_joined_on in Hz by done.
      exact Hz.
    + eapply Forall_impl; [exact Hpend|]. intros p Hp. eapply pending_ok_ext; [done|].
      intros i s' _ Hs' Hj'. exists s'. rewrite lookup_delete_ne; [done|congruence].
Qed.

Lemma sc_remove_spec budget c w id :
  shared_inv budget c →
  (∃ e w', sc_remove_subscription id (c, w) = (Err e, (c, w'))) ∨
  (sc_remove_subscription id (c, w) = (Ok false, (c, w)) ∧ sc_subscriptions c !! id = None) ∨
  (∃ c' w', sc_remove_subscription id (c, w) = (Ok true, (c', w')) ∧ shared_inv budget c' ∧
     is_Some (sc_subscriptions c !! id) ∧ sc_subscriptions c' = delete id (sc_subscriptions c)).
Proof.
  intros Hinv. unfold sc_remove_subscription. rewrite (mthen_ok _ _ _ (c, w) (c, w)) by done. cbn [fst].
  destruct (sc_subscriptions c !! id) as [s|] eqn:Hid; [|by right; left].
  assert (Hrest : ∀ c1 w1 s1, shared_inv budget c1 → sc_subscriptions c1 !! id = Some s1 → ss_is_joined s1 = false →
    ∃ c', mthen mget (λ st, let* removed := mlift (expect (sc_subscriptions st.1 !! id)) in
      on_fst (mmodify (set_sc_subscriptions (delete id))) ;;*
      release_capture_key (ss_config removed) ;;* mpure true) (c1, w1) = (Ok true, (c', w1)) ∧
    shared_inv budget c' ∧ sc_subscriptions c' = delete id (sc_subscriptions c1)).
  { intros c1 w1 s1 Hinv1 Hid1 Hj1. destruct (remove_bound_spec _ _ w1 _ _ Hinv1 Hid1 Hj1) as (resolved & Hr & Hinv').
    eexists. split_and!; [|exact Hinv'|done]. rewrite (mthen_ok _ _ _ (c1, w1) (c1, w1)) by done. cbn [fst].
    rewrite (mthen_ok _ _ _ s1 (c1, w1)) by (unfold mlift; by rewrite Hid1).
    rewrite (mthen_ok _ _ _ () (set_sc_subscriptions (delete id) c1, w1)) by done.
    by rewrite (mthen_ok _ _ _ _ _ Hr). }
  destruct (ss_is_joined s) eqn:Hj.
  - destruct (sc_leave_spec budget c w id Hinv) as
      [(e & w' & Hl & _)|(s' & captures & order & i & pending & w' & Hl & Hid' & _ & Hinv' & _)].
    { left. exists e, w'. unfold mthen at 1. by rewrite Hl. }
    right; right. rewrite (mthen_ok _ _ _ _ _ Hl).
    destruct (Hrest _ w' (set_ss_state Bound s') Hinv') as (c' & Hc' & Hi' & Hs');
      [by simpl; rewrite lookup_insert_eq|done|].
    exists c', w'. split_and!; [done|done|by eauto|]. rewrite Hs'. cbn [left_context sc_subscriptions].
    by rewrite delete_insert_eq.
  - right; right. rewrite (mthen_ok _ _ _ () (c, w)) by done.
    destruct (Hrest c w s Hinv Hid Hj) as (c' & Hc' & Hi' & Hs'). exists c', w. split_and!; done.
Qed.

(** ** Receiving *)

(** A joined subscription of a capture that a captured datagram is for. *)
Definition wants_datagram (key : RawSharedCaptureKey) (d : RawCapturedDatagram) (s : SharedRawSubscription) : Prop :=
  joined_on key s = true ∧ raw_group (ss_config s) = cd_group d ∧
  (RawSubscriptionConfig.source_addr (ss_config s) = None ∨
   RawSubscriptionConfig.source_addr (ss_config s) = Some (cd_source_ip d)).

(** A packet as it is queued: a captured datagram, under the ascending
    identifiers of exactly the subscriptions it is for. *)
Definition queued_for (subs : Subscriptions) (p : SharedRawPacket) : Prop :=
  ∃ key d primary, captured_wf key d ∧
    subs !! rp_subscription_id (sp_packet p) = Some primary ∧
    sp_packet p = raw_packet_from_captured (rp_subscription_id (sp_packet p)) (ss_config primary) d ∧
    head (matching_subscription_ids p) = Some (rp_subscription_id (sp_packet p)) ∧
    sorted (matching_subscription_ids p) ∧
    ∀ id, id ∈ matching_subscription_ids p ↔ ∃ s, subs !! id = Some s ∧ wants_datagram key d s.

Lemma wants_datagram_admits key d s id packet c :
  captured_wf key d → wants_datagram key d s → packet = raw_packet_from_captured id c d →
  raw_admits (ss_config s) id packet.
Proof.
  intros (p & Hp & Hlen & Hsrc & Hdst & Hproto & _) (_ & Hg & Hs) ->. split; [done|]. exists p.
  simpl. rewrite Hsrc, Hproto, Hg. split_and!; try done.
  unfold packet_matches_config. rewrite Hdst, Hsrc, Hg.
  assert (Hfam : same_ip_family (RawSubscriptionConfig.family (ss_config s)) (cd_group d) = true).
  { unfold RawSubscriptionConfig.family. rewrite Hg. by destruct (cd_group d). }
  rewrite Hfam, (bool_decide_true (cd_group d = _)) by done. simpl.
  unfold RawSubscriptionConfig.source_addr, source_of_filter in Hs.
  destruct (raw_source (ss_config s)) as [|a]; [done|]. destruct Hs as [|[= ->]]; [done|]. by apply bool_decide_eq_true.
Qed.

Lemma queued_for_pending_ok subs p : queued_for subs p → pending_ok subs p.
Proof.
  intros (key & d & primary & Hwf & Hprim & Hpkt & Hhead & Hs & Hids). split; [done|done| |].
  - intros id Hid. apply Hids in Hid as (s & Hs' & Hw). exists s. split_and!; [done| |].
    + apply (joined_on_true key). apply Hw.
    + by eapply wants_datagram_admits.
  - intros s Hs'. simplify_eq. by rewrite Hpkt.
Qed.

(** The receive path changes the queue, the counters and the cursor only, and
    it queues packets that [queued_for] describes. *)
Record fills (c c' : SharedRawContext) : Prop := {
  fl_subscriptions : sc_subscriptions c' = sc_subscriptions c;
  fl_resolved : sc_resolved_capture_keys c' = sc_resolved_capture_keys c;
  fl_captures : sc_captures c' = sc_captures c;
  fl_order : sc_capture_order c' = sc_capture_order c;
  fl_limits : sc_limits c' = sc_limits c;
  fl_next : sc_next_subscription_id c' = sc_next_subscription_id c;
  fl_pending : ∃ new, sc_pending_packets c' = sc_pending_packets c ++ new ∧
                 Forall (queued_for (sc_subscriptions c)) new }.

#[global] Instance fills_preorder : PreOrder fills.
Proof.
  split.
  - intros c. split; try done. exists []. by rewrite app_nil_r.
  - intros c1 c2 c3 [Hs ? ? ? ? ? (new & Hp & Hf)] [Hs' ? ? ? ? ? (new' & Hp' & Hf')]. split; try congruence.
    exists (new ++ new'). rewrite Hp', Hp, app_assoc. split; [done|]. apply Forall_app. rewrite Hs in Hf'. done.
Qed.

Lemma shared_inv_fills budget c c' :
  shared_inv budget c → fills c c' → cursor_ok (sc_capture_order c') (sc_next_capture_index c') →
  Z.of_nat (length (sc_pending_packets c')) ≤ max_pending_packets (sc_limits c) → shared_inv budget c'.
Proof.
  intros [] [Hs Hr Hc Ho Hl Hn (new & Hp & Hf)] Hcur Hlen.
  split; rewrite ?Hs, ?Hr, ?Hc, ?Ho, ?Hl, ?Hn; try done.
  - rewrite Hp. apply Forall_app. split; [done|]. eapply Forall_impl; [exact Hf|]. apply queued_for_pending_ok.
  - by rewrite <-Ho.
Qed.

Definition recorded (matches : option MatchingSubscriptionIds) (m : SharedRawCaptureMetrics)
    : SharedRawCaptureMetrics :=
  match matches with
  | None => record_unmatched_packet (record_received_packet m)
  | Some ids => record_demultiplex_matches (Z.of_nat (length (as_slice ids))) (record_received_packet m)
  end.

Lemma queue_captured_spec budget c w key cs d :
  shared_inv budget c → sc_captures c !! key = Some cs → captured_wf key d →
  ∃ b c', queue_captured cs d (c, w) = (Ok b, (c', w)) ∧ fills c c' ∧
    sc_next_capture_index c' = sc_next_capture_index c ∧
    length (sc_pending_packets c') = (length (sc_pending_packets c) + if b then 1 else 0)%nat.
Proof.
  intros Hinv Hcap Hd. destruct (si_captures _ _ Hinv _ _ Hcap) as [Hwf _].
  destruct (capture_matches_spec _ _ (cd_group d) (cd_source_ip d) (cw_demux _ _ _ Hwf))
    as (m & Hm & Hs & Hin & Hne).
  set (c1 := set_sc_metrics (recorded m) c).
  unfold queue_captured. rewrite (mthen_ok _ _ _ m (c, w)) by (unfold mlift; by rewrite Hm).
  rewrite (mthen_ok _ _ _ () (set_sc_metrics record_received_packet c, w)) by done.
  destruct m as [ids|].
  2: { exists false, c1. rewrite (mthen_ok _ _ _ () (c1, w)) by done. split_and!; [done| |done|simpl; lia].
       split; try done. exists []. by rewrite app_nil_r. }
  rewrite (mthen_ok _ _ _ () (c1, w)) by done. simpl in Hs, Hin.
  destruct (as_slice ids) as [|primary_id rest] eqn:Hids; [by destruct (Hne ids)|].
  rewrite (mthen_ok _ _ _ primary_id (c1, w)) by (unfold mlift, matching_first, index; by rewrite Hids).
  rewrite (mthen_ok _ _ _ (c1, w) (c1, w)) by done. cbn [fst].
  assert (Hall : ∀ id, id ∈ primary_id :: rest ↔ ∃ s, sc_subscriptions c !! id = Some s ∧ wants_datagram key d s).
  { intros id. rewrite Hin. unfold matches_membership, wants_datagram. rewrite !elem_of_memberships_on.
    naive_solver. }
  destruct (proj1 (Hall primary_id)) as (primary & Hprim & Hw); [left|].
  rewrite (mthen_ok _ _ _ primary (c1, w)) by (unfold mlift; simpl; by rewrite Hprim).
  eexists true, _. split_and!; [done| |done|simpl; rewrite length_app; simpl; lia].
  split; try done. exists [mkSharedPacket (raw_packet_from_captured primary_id (ss_config primary) d) ids].
  split; [done|]. constructor; [|done]. exists key, d, primary.
  unfold matching_subscription_ids. simpl. rewrite Hids. split_and!; done.
Qed.

(** What a receive loop that has queued [q] packets of [target] leaves. *)
Definition loop_room (c : SharedRawContext) (target q : Z) : Prop :=
  0 ≤ q ≤ target ∧
  Z.of_nat (length (sc_pending_packets c)) + (target - q) ≤ max_pending_packets (sc_limits c).

Definition loop_post (budget : nat) (c c' : SharedRawContext) (target q q' : Z) : Prop :=
  shared_inv budget c' ∧ fills c c' ∧ q ≤ q' ≤ target ∧
  Z.of_nat (length (sc_pending_packets c')) = Z.of_nat (length (sc_pending_packets c)) + (q' - q).

Lemma loop_room_post budget c c' target q q' :
  loop_room c target q → loop_post budget c c' target q q' → loop_room c' target q'.
Proof. intros [? ?] (_ & Hf & ? & Hlen). unfold loop_room. rewrite (fl_limits _ _ Hf). lia. Qed.

Lemma loop_post_trans budget c c1 c2 target q q1 q2 :
  loop_post budget c c1 target q q1 → loop_post budget c1 c2 target q1 q2 → loop_post budget c c2 target q q2.
Proof. intros (_ & ? & ? & ?) (? & ? & ? & ?). unfold loop_post. split_and!; [done|by etrans|lia..]. Qed.

Lemma loop_post_refl budget c target q : shared_inv budget c → q ≤ target → loop_post budget c c target q q.
Proof. intros. unfold loop_post. split_and!; [done|done|lia..]. Qed.

Definition loop_errs (budget : nat) (c c' : SharedRawContext) : Prop := shared_inv budget c' ∧ fills c c'.

Lemma loop_errs_trans budget c c1 c2 : fills c c1 → loop_errs budget c1 c2 → loop_errs budget c c2.
Proof. intros ? [? ?]. split; [done|by etrans]. Qed.

Lemma read_capture_spec budget n key target capture_budget q cd c w :
  shared_inv budget c → is_Some (sc_captures c !! key) → loop_room c target q →
  match read_capture n key target capture_budget q cd (c, w) with
  | (Ok (q', _, _), (c', _)) =>
      loop_post budget c c' target q q' ∧ sc_next_capture_index c' = sc_next_capture_index c
  | (Err _, (c', _)) => loop_errs budget c c'
  | _ => False
  end.
Proof.
  revert q cd c w. induction n as [|n IH]; intros q cd c w Hinv [cs Hcap] Hroom; cbn [read_capture].
  { split; [|done]. apply loop_post_refl; [done|]. apply Hroom. }
  destruct (bool_decide (q = target) || _) eqn:Hstop.
  { split; [|done]. apply loop_post_refl; [done|]. apply Hroom. }
  apply orb_false_iff in Hstop as [Hq%bool_decide_eq_false _].
  rewrite (mthen_ok _ _ _ _ _ (get_capture_ok _ c w cs Hcap)).
  destruct (si_captures _ _ Hinv _ _ Hcap) as [Hwf _].
  pose proof (law_capture_recv (cs_socket cs) key (cw_socket _ _ _ Hwf) w I) as Hrecv.
  unfold mthen at 1, on_snd. cbn [fst snd].
  destruct (capture_recv (cs_socket cs) key w) as [[[d|]|e| |] w1]; try done.
  - destruct (queue_captured_spec budget c w1 key cs d) as (b & c1 & Hqc & Hf & Hi & Hlen); try done; [by apply Hrecv|].
    rewrite (mthen_ok _ _ _ _ _ Hqc). destruct Hroom as [Hq0 Hmax].
    assert (Hpost : loop_post budget c c1 target q (if b then q + 1 else q)).
    { split_and!; [|done|destruct b; lia|destruct b; lia|destruct b; lia].
      eapply shared_inv_fills; [exact Hinv|done| |destruct b; lia].
      rewrite Hi, (fl_order _ _ Hf). exact (si_cursor _ _ Hinv). }
    specialize (IH (if b then q + 1 else q) (cd + 1) c1 w1 (proj1 Hpost)).
    destruct (read_capture n _ _ _ _ _ (c1, w1)) as [[[[q' cd'] br]|e| |] [c2 w2]].
    + destruct IH as [Hpost' Hi']; [by rewrite (fl_captures _ _ Hf)|by eapply loop_room_post|].
      split; [by eapply loop_post_trans|congruence].
    + eapply loop_errs_trans; [exact Hf|]. apply IH; [by rewrite (fl_captures _ _ Hf)|by eapply loop_room_post].
    + apply IH; [by rewrite (fl_captures _ _ Hf)|by eapply loop_room_post].
    + apply IH; [by rewrite (fl_captures _ _ Hf)|by eapply loop_room_post].
  - split; [|done]. apply loop_post_refl; [done|]. apply Hroom.
Qed.

Lemma read_captures_spec budget n count target capture_budget q cd c w :
  shared_inv budget c → count = length (sc_capture_order c) → (0 < count)%nat → loop_room c target q →
  match read_captures n count target capture_budget q cd (c, w) with
  | (Ok q', (c', _)) => loop_post budget c c' target q q'
  | (Err _, (c', _)) => loop_errs budget c c'
  | _ => False
  end.
Proof.
  revert q cd c w. induction n as [|n IH]; intros q cd c w Hinv Hcount Hpos Hroom; cbn [read_captures].
  { apply loop_post_refl; [done|]. apply Hroom. }
  rewrite (mthen_ok _ _ _ (c, w) (c, w)) by done. cbn [fst].
  destruct (lookup_lt_is_Some_2 (sc_capture_order c) (sc_next_capture_index c)) as [key Hkey].
  { destruct (si_cursor _ _ Hinv) as [|[Hnil _]]; [done|]. rewrite Hnil in Hcount. simpl in Hcount. lia. }
  rewrite (mthen_ok _ _ _ key (c, w)) by (unfold mlift, index; by rewrite Hkey).
  set (c1 := set_sc_capture_order (sc_capture_order c) ((sc_next_capture_index c + 1) `mod` count)%nat c).
  rewrite (mthen_ok _ _ _ () (c1, w)) by done.
  assert (Hf : fills c c1). { split; try done. exists []. by rewrite app_nil_r. }
  assert (Hinv1 : shared_inv budget c1).
  { eapply shared_inv_fills; [done|done| |apply (si_pending_bound _ _ Hinv)].
    left. simpl. rewrite <-Hcount. apply Nat.mod_upper_bound. lia. }
  assert (Hcap : is_Some (sc_captures c1 !! key)).
  { apply (proj2 (si_order _ _ Hinv)). by eapply list_elem_of_lookup_2. }
  pose proof (read_capture_spec budget (Z.to_nat target) key target capture_budget q cd c1 w Hinv1 Hcap Hroom) as Hr.
  unfold mthen at 1. destruct (read_capture _ _ _ _ _ _ (c1, w)) as [[[[q' cd'] br]|e| |] [c2 w2]]; try done.
  2: { eapply loop_errs_trans; [exact Hf|exact Hr]. }
  destruct Hr as [Hpost Hidx].
  assert (Hpost' : loop_post budget c c2 target q q').
  { destruct Hpost as (? & ? & ? & ?). split_and!; [done|by etrans|lia..|done]. }
  destruct br; [exact Hpost'|].
  specialize (IH q' cd' c2 w2 (proj1 Hpost')). 
  destruct (read_captures n _ _ _ _ _ (c2, w2)) as [[q''|e| |] [c3 w3]].
  - eapply loop_post_trans; [exact Hpost'|]. apply IH; [|done|by eapply loop_room_post].
    by rewrite (fl_order _ _ (proj1 (proj2 Hpost'))).
  - eapply loop_errs_trans; [exact (proj1 (proj2 Hpost'))|]. apply IH; [|done|by eapply loop_room_post].
    by rewrite (fl_order _ _ (proj1 (proj2 Hpost'))).
  - apply IH; [|done|by eapply loop_room_post]. by rewrite (fl_order _ _ (proj1 (proj2 Hpost'))).
  - apply IH; [|done|by eapply loop_room_post]. by rewrite (fl_order _ _ (proj1 (proj2 Hpost'))).
Qed.

Lemma fill_pending_spec budget max_new c w :
  shared_inv budget c → 0 ≤ max_new →
  match fill_pending max_new (c, w) with
  | (Ok q, (c', _)) => loop_post budget c c' max_new 0 q
  | (Err _, (c', _)) => loop_errs budget c c'
  | _ => False
  end.
Proof.
  intros Hinv Hmax. unfold fill_pending. rewrite (mthen_ok _ _ _ (c, w) (c, w)) by done. cbn [fst].
  destruct (bool_decide (sc_capture_order c = []) || _) eqn:Hstop.
  { by apply loop_post_refl. }
  apply orb_false_iff in Hstop as [Hne%bool_decide_eq_false _].
  set (target := Z.min max_new _). pose proof (si_pending_bound _ _ Hinv).
  assert (Hroom : loop_room c target 0).
  { unfold loop_room, target, saturating_sub, sc_pending_packet_count. lia. }
  pose proof (read_captures_spec budget (length (sc_capture_order c)) (length (sc_capture_order c)) target
    (saturating_add usize_max target (Z.of_nat (length (sc_capture_order c)))) 0 0 c w Hinv eq_refl) as Hr.
  destruct (read_captures _ _ _ _ _ _ (c, w)) as [[q|e| |] [c' w']];
    (destruct Hr as (? & ? & ? & ?) || destruct Hr as [? ?] || apply Hr); try done;
    try (destruct (sc_capture_order c); [done|simpl; lia]).
  split_and!; [done|done|lia|unfold target in *; lia|done].
Qed.

Lemma fill_pending_inv budget max_new c w :
  shared_inv budget c → 0 ≤ max_new → shared_inv budget (fill_pending max_new (c, w)).2.1.
Proof.
  intros Hinv Hmax. pose proof (fill_pending_spec budget max_new c w Hinv Hmax) as Hf.
  destruct (fill_pending max_new (c, w)) as [[q|e| |] [c' w']]; try contradiction; apply Hf.
Qed.

Lemma pop_pending_spec budget c w :
  shared_inv budget c →
  ∃ o c', pop_pending (c, w) = (Ok o, (c', w)) ∧ shared_inv budget c' ∧
    sc_subscriptions c' = sc_subscriptions c ∧ sc_limits c' = sc_limits c ∧
    (match o with
     | Some p => sc_pending_packets c = p :: sc_pending_packets c'
     | None => sc_pending_packets c = [] ∧ c' = c
     end).
Proof.
  intros Hinv. unfold pop_pending. rewrite (mthen_ok _ _ _ (c, w) (c, w)) by done. cbn [fst].
  destruct (sc_pending_packets c) as [|p rest] eqn:Hp.
  { exists None, c. by split_and!. }
  exists (Some p), (set_sc_pending rest c). split_and!; try done.
  destruct Hinv as [Hl Hids Hsz Hres Hord Hcaps Hno Hpend Hpb Hcur Hnext]. rewrite Hp in *.
  split; try done; simpl in *; [by apply Forall_cons in Hpend as [_ ?]|lia].
Qed.

Lemma sc_try_recv_any_spec budget c w :
  shared_inv budget c →
  match sc_try_recv_any (c, w) with
  | (Ok r, (c', _)) => shared_inv budget c' ∧ sc_subscriptions c' = sc_subscriptions c ∧
      ∀ p, r = Some p → pending_ok (sc_subscriptions c) p ∧
        (sc_pending_packets c = [] → queued_for (sc_subscriptions c) p)
  | (Err _, (c', _)) => shared_inv budget c' ∧ sc_subscriptions c' = sc_subscriptions c
  | _ => False
  end.
Proof.
  intros Hinv. unfold sc_try_recv_any.
  destruct (pop_pending_spec budget c w Hinv) as (o & c1 & Hpop & Hinv1 & Hs1 & _ & Ho).
  rewrite (mthen_ok _ _ _ _ _ Hpop). destruct o as [p|].
  { split_and!; [done|done|]. intros q [= <-]. split; [|by rewrite Ho].
    pose proof (si_pending _ _ Hinv) as Hp. rewrite Ho in Hp. by apply Forall_cons in Hp as [? _]. }
  destruct Ho as [Hnil ->]. pose proof (fill_pending_spec budget 1 c w Hinv ltac:(lia)) as Hfill.
  unfold mthen. destruct (fill_pending 1 (c, w)) as [[q|e| |] [c2 w2]]; try done.
  - destruct Hfill as (Hinv2 & Hf & _ & _).
    destruct (pop_pending_spec budget c2 w2 Hinv2) as (o & c3 & -> & Hinv3 & Hs3 & _ & Ho).
    split_and!; [done|by rewrite Hs3, (fl_subscriptions _ _ Hf)|]. intros p ->.
    destruct (fl_pending _ _ Hf) as (new & Hnew & Hq). rewrite Hnil in Hnew. simpl in Hnew.
    rewrite Hnew in Ho. rewrite Ho in Hq. apply Forall_cons in Hq as [Hq _].
    split; [by apply queued_for_pending_ok|done].
  - destruct Hfill as [? Hf]. split; [done|]. apply Hf.
Qed.

(** ** Batches *)

Lemma drain_spec budget out c w max_packets :
  shared_inv budget c → 0 ≤ max_packets →
  ∃ new c', drain_pending_into max_packets (out, (c, w)) = (Ok (Z.of_nat (length new)), (out ++ new, (c', w))) ∧
    shared_inv budget c' ∧ sc_subscriptions c' = sc_subscriptions c ∧
    sc_pending_packets c = new ++ sc_pending_packets c' ∧
    Z.of_nat (length new) = Z.min max_packets (Z.of_nat (length (sc_pending_packets c))).
Proof.
  intros Hinv Hmax. unfold drain_pending_into.
  rewrite (mthen_ok _ _ _ (out, (c, w)) (out, (c, w))) by done. cbn [fst snd].
  set (drained := Z.min max_packets _). set (k := Z.to_nat drained).
  assert (Hlen : Z.of_nat (length (take k (sc_pending_packets c))) = drained).
  { rewrite length_take. unfold k, drained. lia. }
  exists (take k (sc_pending_packets c)), (set_sc_pending (drop k (sc_pending_packets c)) c).
  split_and!; [by rewrite Hlen| |done|simpl; by rewrite take_drop|exact Hlen].
  destruct Hinv as [Hl Hids Hsz Hres Hord Hcaps Hno Hpend Hpb Hcur Hnext]. split; try done; simpl in *.
  - by apply Forall_drop.
  - rewrite length_drop. lia.
Qed.

(** What a batch call leaves: packets appended to the caller's vector, each
    for joined subscriptions only. *)
Definition batch_post (budget : nat) (out : list SharedRawPacket) (c : SharedRawContext) (limit : Z)
    (out' : list SharedRawPacket) (c' : SharedRawContext) (n : Z) : Prop :=
  shared_inv budget c' ∧ sc_subscriptions c' = sc_subscriptions c ∧
  ∃ new, out' = out ++ new ∧ Z.of_nat (length new) = n ∧ n ≤ limit ∧
    Forall (pending_ok (sc_subscriptions c)) new.

Lemma drain_batch budget out c w max_packets :
  shared_inv budget c → 0 ≤ max_packets →
  ∃ n out' c', drain_pending_into max_packets (out, (c, w)) = (Ok n, (out', (c', w))) ∧
    batch_post budget out c max_packets out' c' n ∧
    n = Z.min max_packets (Z.of_nat (length (sc_pending_packets c))).
Proof.
  intros Hinv Hmax. destruct (drain_spec budget out c w max_packets Hinv Hmax)
    as (new & c' & Hd & Hinv' & Hs & Hp & Hn).
  exists (Z.of_nat (length new)), (out ++ new), c'. split; [done|]. split; [|done]. unfold batch_post.
  split_and!; [done|done|]. exists new. split_and!; [done|done|lia|].
  pose proof (si_pending _ _ Hinv) as Hall. rewrite Hp in Hall. by apply Forall_app in Hall as [? _].
Qed.

Lemma batch_post_trans budget out c limit out1 c1 n1 out2 c2 n2 :
  batch_post budget out c limit out1 c1 n1 → batch_post budget out1 c1 (limit - n1) out2 c2 n2 →
  batch_post budget out c limit out2 c2 (n1 + n2).
Proof.
  intros (_ & Hs & new & -> & <- & ? & Hf) (Hinv & Hs' & new' & -> & <- & ? & Hf').
  split_and!; [done|congruence|]. exists (new ++ new'). rewrite app_assoc, length_app.
  split_and!; [done|lia|lia|]. apply Forall_app. by rewrite Hs in Hf'.
Qed.

Lemma batch_post_fills budget out c limit c1 : shared_inv budget c1 → fills c c1 → 0 ≤ limit →
  batch_post budget out c limit out c1 0.
Proof.
  intros Hinv Hf Hl. split_and!; [done|apply Hf|]. exists []. rewrite app_nil_r. by split_and!.
Qed.

Lemma batch_rounds_spec budget fuel max_packets received out c w :
  shared_inv budget c → 0 ≤ received ≤ max_packets → max_packets - received < Z.of_nat fuel →
  match batch_rounds fuel max_packets received (out, (c, w)) with
  | (Ok n, (out', (c', _))) => batch_post budget out c (max_packets - received) out' c' (n - received)
  | (Err _, (out', (c', _))) => ∃ n, batch_post budget out c (max_packets - received) out' c' n
  | _ => False
  end.
Proof.
  revert received out c w. induction fuel as [|fuel IH]; intros received out c w Hinv Hr Hfuel; [lia|].
  cbn [batch_rounds]. case_bool_decide as Hlt; cbn [negb].
  2: { simpl. rewrite Z.sub_diag. apply batch_post_fills; [done|done|lia]. }
  pose proof (fill_pending_spec budget (max_packets - received) c w Hinv ltac:(lia)) as Hfill.
  unfold mthen at 1, on_snd. cbn [fst snd].
  destruct (fill_pending (max_packets - received) (c, w)) as [[q|e| |] [c1 w1]]; try done.
  2: { exists 0. destruct Hfill. apply batch_post_fills; [done|done|lia]. }
  destruct Hfill as (Hinv1 & Hf & Hq & Hlen). case_bool_decide as Hz.
  { simpl. rewrite Z.sub_diag. apply batch_post_fills; [done|done|lia]. }
  destruct (drain_batch budget out c1 w1 (max_packets - received) Hinv1 ltac:(lia))
    as (n & out1 & c2 & Hd & Hpost & Hn).
  rewrite (mthen_ok _ _ _ _ _ Hd).
  assert (Hpost' : batch_post budget out c (max_packets - received) out1 c2 n).
  { destruct Hpost as (? & Hs & new & ? & ? & ? & Hall). split_and!; [done|by rewrite Hs; apply Hf|].
    exists new. split_and!; try done. by rewrite <-(fl_subscriptions _ _ Hf). }
  specialize (IH (received + n) out1 c2 w1 (proj1 Hpost) ltac:(lia) ltac:(lia)).
  replace (max_packets - (received + n)) with (max_packets - received - n) in IH by lia.
  destruct (batch_rounds fuel _ _ _) as [[r|e| |] [out2 [c3 w3]]]; try done.
  - replace (r - received) with (n + (r - (received + n))) by lia. by eapply batch_post_trans.
  - destruct IH as [n' IH]. exists (n + n'). by eapply batch_post_trans.
Qed.

Lemma sc_batch_spec budget max_packets out c w :
  shared_inv budget c → 0 ≤ max_packets →
  match sc_try_recv_batch_into max_packets (out, (c, w)) with
  | (Ok n, (out', (c', _))) => batch_post budget out c max_packets out' c' n
  | (Err _, (out', (c', _))) => ∃ n, batch_post budget out c max_packets out' c' n
  | _ => False
  end.
Proof.
  intros Hinv Hmax. unfold sc_try_recv_batch_into. case_bool_decide as Hz.
  { subst. by apply batch_post_fills. }
  destruct (drain_batch budget out c w max_packets Hinv Hmax) as (n & out1 & c1 & Hd & Hpost & Hn).
  rewrite (mthen_ok _ _ _ _ _ Hd).
  pose proof (batch_rounds_spec budget (S (Z.to_nat max_packets)) max_packets n out1 c1 w (proj1 Hpost)
    ltac:(lia) ltac:(lia)) as Hr.
  destruct (batch_rounds _ _ _ _) as [[r|e| |] [out2 [c3 w3]]]; try done.
  - replace r with (n + (r - n)) by lia. by eapply batch_post_trans.
  - destruct Hr as [n' Hr]. exists (n + n'). by eapply batch_post_trans.
Qed.

(** ** Calls *)
Inductive SharedContextCall :=
  | SharedAdd (config : RawSubscriptionConfig)
  | SharedJoin (id : SubscriptionId)
  | SharedLeave (id : SubscriptionId)
  | SharedRemove (id : SubscriptionId)
  | SharedRecvAny
  | SharedRecvBatch (max_packets : nat).

(** A batch call with an empty vector. *)
Definition shared_batch (max_packets : Z) : Act Z := λ st,
  let '(r, (_, st')) := sc_try_recv_batch_into max_packets ([], st) in (r, st').

Definition shared_call (k : SharedContextCall) : Act unit :=
  match k with
  | SharedAdd config => mmap (λ _, ()) (sc_add_subscription config)
  | SharedJoin id => sc_join_subscription id
  | SharedLeave id => sc_leave_subscription id
  | SharedRemove id => mmap (λ _, ()) (sc_remove_subscription id)
  | SharedRecvAny => mmap (λ _, ()) sc_try_recv_any
  | SharedRecvBatch max_packets => mmap (λ _, ()) (shared_batch (Z.of_nat max_packets))
  end.

(** The calls that change subscriptions. *)
Definition lifecycle_call (k : SharedContextCall) : bool :=
  match k with SharedRecvAny | SharedRecvBatch _ => false | _ => true end.

Lemma shared_inv_weaken budget c : shared_inv (S budget) c → shared_inv budget c.
Proof. intros []. split; try done. lia. Qed.

(** A call returns, keeps the invariant, and if it is a lifecycle call that
    fails, keeps the context. *)
Lemma shared_call_spec budget k c w :
  shared_inv (S budget) c →
  match shared_call k (c, w) with
  | (Ok _, (c', _)) => shared_inv budget c'
  | (Err _, (c', _)) => shared_inv budget c' ∧ (lifecycle_call k = true → c' = c)
  | _ => False
  end.
Proof.
  intros Hinv. pose proof (shared_inv_weaken _ _ Hinv) as Hinv'.
  destruct k; cbn [shared_call lifecycle_call]; unfold mmap, mthen.
  - destruct (sc_add_spec budget c w config Hinv) as [(e & w' & ->)|(key & w' & -> & Hadd)]; done.
  - destruct (sc_join_spec budget c w id Hinv') as [(e & w' & -> & _)|(s & cs & o & w' & -> & _ & _ & Hi & _)]; done.
  - destruct (sc_leave_spec budget c w id Hinv') as
      [(e & w' & -> & _)|(s & cs & o & i & p & w' & -> & _ & _ & Hi & _)]; done.
  - destruct (sc_remove_spec budget c w id Hinv') as
      [(e & w' & ->)|[[-> _]|(c' & w' & -> & Hi & _)]]; done.
  - pose proof (sc_try_recv_any_spec budget c w Hinv') as Hr.
    destruct (sc_try_recv_any (c, w)) as [[r|e| |] [c' w']]; try done; by destruct Hr.
  - unfold shared_batch. pose proof (sc_batch_spec budget (Z.of_nat max_packets) [] c w Hinv' ltac:(lia)) as Hr.
    destruct (sc_try_recv_batch_into _ _) as [[r|e| |] [out [c' w']]]; try done; [by destruct Hr|].
    destruct Hr as [n [Hi _]]. by split.
Qed.

Lemma shared_inv_new budget limits c :
  0 ≤ max_subscriptions limits ≤ usize_max → 0 ≤ max_pending_packets limits ≤ usize_max →
  Z.of_nat budget < u64_max → SharedRawContext_with_limits limits = Ok c → shared_inv budget c.
Proof.
  unfold SharedRawContext_with_limits. intros Hs Hp Hb.
  destruct (bool_decide _ || _) eqn:Hz; [done|]. intros [= <-].
  apply orb_false_iff in Hz as [H1%bool_decide_eq_false H2%bool_decide_eq_false].
  split; cbn [sc_subscriptions sc_resolved_capture_keys sc_captures sc_capture_order sc_pending_packets sc_limits
    sc_next_subscription_id sc_next_capture_index]; try done.
  - lia.
  - rewrite map_size_empty. lia.
  - split; [constructor|]. intros k. rewrite lookup_empty. split; [by intros ?%not_elem_of_nil|by intros []].
  - simpl. lia.
  - by right.
  - lia.
Qed.

(** ** Properties *)

(** C4: for all limits a context is refused when one of them is zero,
    and otherwise no sequence of fewer than 2^64 - 1 calls makes a call
    unwind or hang (none of the map lookups the code expects to succeed
    fails, no count overflows, the batch loop ends), and afterwards the
    context is consistent: captures, kernel reference counts and
    demultiplexer entries agree with the joined subscriptions, cached keys
    with the stored ones, the queue is within its bound. *)
Theorem shared_context_calls_are_safe (limits : SharedRawContextLimits) (l : list SharedContextCall) (w : World) :
  0 ≤ max_subscriptions limits ≤ usize_max → 0 ≤ max_pending_packets limits ≤ usize_max →
  Z.of_nat (length l) < u64_max →
  match SharedRawContext_with_limits limits with
  | Ok c => let '(r, st) := run_calls shared_call l (c, w) in returns r ∧ shared_inv 0 st.1
  | Err e => e = InvalidSharedRawCaptureLimits ∧ (max_subscriptions limits = 0 ∨ max_pending_packets limits = 0)
  | _ => False
  end.
Proof.
  intros Hs Hp Hl. destruct (SharedRawContext_with_limits limits) as [c|e| |] eqn:Hc.
  - pose proof (run_calls_keeps shared_call shared_holds l (c, w)) as Hrun.
    destruct (run_calls shared_call l (c, w)) as [r st]. apply Hrun; [|by eapply shared_inv_new].
    intros k n [c1 w1] Hinv. pose proof (shared_call_spec n k c1 w1 Hinv) as Hk.
    destruct (shared_call k (c1, w1)) as [[[]|e| |] [c2 w2]]; try done. apply Hk.
  - unfold SharedRawContext_with_limits in Hc. destruct (_ || _) eqn:Hz; [|done]. injection Hc as <-.
    split; [done|]. apply orb_true_iff in Hz as [?%bool_decide_eq_true|?%bool_decide_eq_true]; auto.
  - unfold SharedRawContext_with_limits in Hc. by destruct (_ || _).
  - unfold SharedRawContext_with_limits in Hc. by destruct (_ || _).
Qed.

(** C7: a packet that a receive call hands out is a whole
    datagram; it lists, ascending, joined subscriptions that all admit it, the
    first of them as its primary one. When it was read by this call, it
    lists exactly the subscriptions joined on the capture that read it whose
    group is its destination and whose source, if any, is its source. *)
Theorem shared_packet_lists_its_subscriptions (budget : nat) (c : SharedRawContext) (w : World)
    (p : SharedRawPacket) (st' : SharedRawContext * World) :
  shared_inv budget c → sc_try_recv_any (c, w) = (Ok (Some p), st') →
  pending_ok (sc_subscriptions c) p ∧ (sc_pending_packets c = [] → queued_for (sc_subscriptions c) p).
Proof.
  intros Hinv Hr. pose proof (sc_try_recv_any_spec budget c w Hinv) as Hs. rewrite Hr in Hs.
  destruct st'. destruct Hs as (_ & _ & Hp). by apply Hp.
Qed.

(** C27: an addition, a join, a leave or a removal that fails leaves
    the context exactly as it was, also when the failure comes after a capture
    socket was opened for it. *)
Theorem failed_shared_call_changes_nothing (budget : nat) (k : SharedContextCall) (c : SharedRawContext)
    (w : World) (e : McrxError) (st' : SharedRawContext * World) :
  shared_inv (S budget) c → lifecycle_call k = true → shared_call k (c, w) = (Err e, st') → st'.1 = c.
Proof.
  intros Hinv Hk Hr. pose proof (shared_call_spec budget k c w Hinv) as Hs. rewrite Hr in Hs.
  destruct st'. destruct Hs as [_ Hs]. by apply Hs.
Qed.

(** Two subscriptions that share a capture socket and a kernel membership. *)
Definition share_membership (s s' : SharedRawSubscription) : Prop :=
  ss_capture_key s = ss_capture_key s' ∧
  KernelMembershipKey_from (ss_config s) = KernelMembershipKey_from (ss_config s').

Lemma share_wants s s' :
  share_membership s s' → ss_is_joined s' = true →
  wants (ss_capture_key s) (KernelMembershipKey_from (ss_config s)) s' = true.
Proof. intros [-> ->] Hj. unfold wants, joined_on. by rewrite Hj, !bool_decide_true. Qed.

(** While another joined subscription shares its kernel
    membership, a subscription joins and leaves without any call to the
    operating system (the world is unchanged), always succeeds, and changes
    the state of no other subscription. *)
Theorem shared_membership_needs_no_kernel_call (budget : nat) (c : SharedRawContext) (w : World)
    (id id' : SubscriptionId) (s s' : SharedRawSubscription) :
  shared_inv budget c → id ≠ id' → sc_subscriptions c !! id = Some s → sc_subscriptions c !! id' = Some s' →
  ss_is_joined s' = true → share_membership s s' →
  if ss_is_joined s then
    ∃ c', sc_leave_subscription id (c, w) = (Ok (), (c', w)) ∧
      sc_subscriptions c' = <[id := set_ss_state Bound s]> (sc_subscriptions c)
  else
    ∃ c', sc_join_subscription id (c, w) = (Ok (), (c', w)) ∧
      sc_subscriptions c' = <[id := set_ss_state Joined s]> (sc_subscriptions c).
Proof.
  intros Hinv Hne Hid Hid' Hj' Hshare. pose proof (share_wants s s' Hshare Hj') as Hw'.
  destruct (ss_is_joined s) eqn:Hj.
  - assert (Hw : wants (ss_capture_key s) (KernelMembershipKey_from (ss_config s)) s = true)
      by (by apply share_wants).
    pose proof (count_of_two _ _ _ _ _ _ Hne Hid Hid' Hw Hw') as Hcount.
    destruct (sc_leave_spec budget c w id Hinv) as
      [(e & w' & _ & Hone)|(s0 & caps & o & i & p & w' & Hl & Hs0 & _ & _ & _ & Hworld)].
    + specialize (Hone s Hid Hj). lia.
    + simplify_eq. rewrite Hworld in Hl by lia. eexists. split; [exact Hl|done].
  - pose proof (count_of_pos _ _ _ _ Hid' Hw') as Hcount.
    destruct (sc_join_spec budget c w id Hinv) as [(e & w' & _ & Hzero)|(s0 & cs & o & w' & Hl & Hs0 & _ & _ & Hworld)].
    + specialize (Hzero s Hid Hj). lia.
    + simplify_eq. rewrite Hworld in Hl by lia. eexists. split; [exact Hl|done].
Qed.

(** A leave that succeeds withdraws the subscription from
    every queued packet: a packet for it alone is dropped, another one loses
    its identifier only and keeps its datagram, and no queued packet lists it
    any more. *)
Theorem shared_leave_withdraws_queued_packets (budget : nat) (c : SharedRawContext) (w : World)
    (id : SubscriptionId) (st' : SharedRawContext * World) :
  shared_inv budget c → sc_leave_subscription id (c, w) = (Ok (), st') →
  pending_without id (sc_pending_packets c) (sc_pending_packets st'.1) ∧
  Forall (λ p, id ∉ matching_subscription_ids p) (sc_pending_packets st'.1).
Proof.
  intros Hinv Hl. destruct (sc_leave_spec budget c w id Hinv) as
    [(e & w' & Hl' & _)|(s & caps & o & i & pending & w' & Hl' & Hid & _ & Hinv' & Hp & _)];
    rewrite Hl in Hl'; [done|]. injection Hl' as ->. split; [exact Hp|].
  eapply Forall_impl; [exact (si_pending _ _ Hinv')|]. intros p Hok Hin.
  assert (Hjoined : ss_is_joined (set_ss_state Bound s) = true); [|done].
  eapply pending_ok_joined; [exact Hok|exact Hin|]. simpl. by rewrite lookup_insert_eq.
Qed.

(** A batch call returns, with a value or with an error it has
    appended at most the requested number of packets to the caller's vector
    and kept what was there, the value is the number appended, and every
    packet is for subscriptions of the context that are joined and admit it. *)
Theorem shared_batch_is_bounded (budget : nat) (c : SharedRawContext) (w : World) (max_packets : Z)
    (out : list SharedRawPacket) :
  shared_inv budget c → 0 ≤ max_packets →
  let '(r, (out', (c', _))) := sc_try_recv_batch_into max_packets (out, (c, w)) in
  returns r ∧ shared_inv budget c' ∧ sc_subscriptions c' = sc_subscriptions c ∧
  ∃ new, out' = out ++ new ∧ Z.of_nat (length new) ≤ max_packets ∧
    (∀ n, r = Ok n → n = Z.of_nat (length new)) ∧ Forall (pending_ok (sc_subscriptions c)) new.
Proof.
  intros Hinv Hmax. pose proof (sc_batch_spec budget max_packets out c w Hinv Hmax) as Hs.
  destruct (sc_try_recv_batch_into _ _) as [[n|e| |] [out' [c' w']]]; try done.
  - destruct Hs as (? & ? & new & ? & Hn & ? & ?). split_and!; try done. exists new. split_and!; [done|lia| |done].
    by intros m [= <-].
  - destruct Hs as (n & ? & ? & new & ? & Hn & ? & ?). split_and!; try done. exists new. by split_and!; [|lia|..].
Qed.
End shared_raw_proofs.

(** ** The platform layer as a shared capture *)
Section platform_capture.
Context `{RawOs}.

#[export] Instance platform_capture : SharedCapture := {|
  capture_socket := RawReceiveSocket;
  capture_key := shared_raw_capture_key;
  capture_open := open_shared_raw_socket;
  capture_join := join_raw_multicast_group;
  capture_leave := leave_raw_multicast_group;
  capture_recv := recv_shared_raw_datagram;
  capture_ok := usable_socket |}.

Lemma captured_of_datagram_spec key d i :
  ∃ o, captured_of_datagram key d i = Ok o ∧ ∀ cd, o = Some cd → captured_wf key cd.
Proof.
  unfold captured_of_datagram. destruct (parse_spec d) as ([o Ho] & Hiff & Hlen). rewrite Ho. cbn [res_bind].
  destruct o as [p|]; [|by exists None]. destruct (same_ip_family _ _) eqn:Hfam; cbn [negb]; [|by exists None].
  specialize (Hlen p Ho). unfold index_range, slice. rewrite bool_decide_true by lia.
  rewrite drop_0, Nat.sub_0_r. cbn [expect res_bind]. eexists. split; [done|]. intros cd [= <-].
  exists p. simpl. rewrite length_take. split_and!; [|lia|done..].
  apply (parse_spec (take _ _)). apply Hiff in Ho. by apply ip_wire_trim.
Qed.

Lemma platform_capture_laws : SharedCaptureLaws platform_capture.
Proof.
  split.
  - intros c. apply total_shared_raw_capture_key.
  - intros key w _. pose proof (total_open_shared_raw_socket key w) as Hret. cbn [capture_open platform_capture].
    destruct (open_shared_raw_socket key w) as [[rs|e| |] w'] eqn:Ho; try done.
    unfold open_shared_raw_socket in Ho. case_bool_decide as Ht; [|done].
    apply mthen_Ok_inv in Ho as (? & ? & _ & Ho). apply mthen_Ok_inv in Ho as (? & ? & _ & Ho).
    apply mthen_Ok_inv in Ho as (? & ? & _ & Ho). by injection Ho as <- _.
  - intros rs c. apply total_join_raw.
  - intros rs c. apply total_leave_raw.
  - intros rs key _ w _. cbn [capture_recv platform_capture]. unfold recv_shared_raw_datagram.
    case_bool_decide; [|done].
    set (deliver := λ '(datagram, sll_ifindex), captured_of_datagram key datagram sll_ifindex).
    pose proof (raw_recv_run (nonblocking (recvfrom_packet (rr_receive_socket rs) MAX_IP_DATAGRAM_SIZE)) deliver w
      (total_nonblocking _)) as Hrun.
    destruct (raw_recv_loop _ deliver _ _ w) as [r w']. destruct Hrun as [Hret Hrun].
    { intros [d i]. destruct (captured_of_datagram_spec key d i) as (o & Ho & _). by exists o. }
    destruct r as [r|e| |]; try done. intros cd ->. apply raw_run_packet in Hrun as [[d i] Hd].
    destruct (captured_of_datagram_spec key d i) as (o & Ho & Hwf). cbn in Hd. rewrite Ho in Hd.
    injection Hd as ->. by apply Hwf.
Qed.
End platform_capture.

#[export] Instance sample_capture_laws : SharedCaptureLaws (@platform_capture sample_os sample_raw_os) :=
  platform_capture_laws.

(** ** Witnesses *)

Definition sample_limits : SharedRawContextLimits := mkLimits 4 2.
Definition sample_shared_calls : list SharedContextCall :=
  [SharedAdd sample_raw_config; SharedAdd sample_raw_config; SharedJoin 1; SharedJoin 2].

(** Two joined subscriptions with the same configuration. *)
Definition sample_shared : SharedRawContext :=
  match SharedRawContext_with_limits sample_limits with
  | Ok c => (run_calls shared_call sample_shared_calls (c, 0%nat)).2.1
  | _ => mkShared ∅ ∅ ∅ [] [] sample_limits 1 0 (mkCaptureMetrics 0 0 0)
  end.

Example sample_receives :
  ∃ p, (sc_try_recv_any (sample_shared, 0%nat)).1 = Ok (Some p) ∧ matching_subscription_ids p = [1; 2].
Proof. eexists. split; vm_compute; reflexivity. Qed.

Lemma sample_shared_inv : shared_inv 5 sample_shared.
Proof.
  assert (Hnew : ∃ c, SharedRawContext_with_limits sample_limits = Ok c ∧ sample_shared =
    (run_calls shared_call sample_shared_calls (c, 0%nat)).2.1) by (eexists; split; reflexivity).
  destruct Hnew as (c & Hc & ->).
  apply (run_calls_keeps shared_call (λ n, shared_holds (n + 5)) sample_shared_calls (c, 0%nat)).
  - intros k n [c1 w1] Hinv. pose proof (shared_call_spec (n + 5) k c1 w1 Hinv) as Hk.
    destruct (shared_call k (c1, w1)) as [[[]|e| |] [c2 w2]]; try done. apply Hk.
  - apply (shared_inv_new _ sample_limits); [vm_compute; split; discriminate..|reflexivity|exact Hc].
Qed.

Definition sample_queued : SharedRawContext := (fill_pending 2 (sample_shared, 0%nat)).2.1.

Lemma sample_queued_inv : shared_inv 5 sample_queued.
Proof.
  exact (fill_pending_inv 5 2 sample_shared 0%nat sample_shared_inv ltac:(lia)).
Qed.

Example shared_context_calls_are_safe_witness :
  match SharedRawContext_with_limits sample_limits with
  | Ok c =>
      let '(r, st) := run_calls shared_call (sample_shared_calls ++ [SharedRecvBatch 3; SharedRemove 1]) (c, 0%nat) in
      returns r ∧ shared_inv 0 st.1
  | Err e => e = InvalidSharedRawCaptureLimits ∧
      (max_subscriptions sample_limits = 0 ∨ max_pending_packets sample_limits = 0)
  | _ => False
  end.
Proof.
  apply (@shared_context_calls_are_safe sample_os _ sample_capture_laws sample_limits
    (sample_shared_calls ++ [SharedRecvBatch 3; SharedRemove 1]) 0%nat); vm_compute;
    [split; discriminate..|reflexivity].
Defined.

Example shared_packet_lists_its_subscriptions_witness :
  ∃ p st', sc_try_recv_any (sample_shared, 0%nat) = (Ok (Some p), st') ∧
    matching_subscription_ids p = [1; 2] ∧ queued_for (sc_subscriptions sample_shared) p.
Proof.
  assert (Hr : ∃ p, (sc_try_recv_any (sample_shared, 0%nat)).1 = Ok (Some p) ∧ matching_subscription_ids p = [1; 2])
    by (eexists; split; vm_compute; reflexivity).
  destruct Hr as (p & Hr & Hids). exists p, (sc_try_recv_any (sample_shared, 0%nat)).2.
  assert (Hcall : sc_try_recv_any (sample_shared, 0%nat) = (Ok (Some p), (sc_try_recv_any (sample_shared, 0%nat)).2)).
  { rewrite <-Hr. by destruct (sc_try_recv_any _). }
  split; [exact Hcall|]. split; [exact Hids|].
  exact (proj2 (@shared_packet_lists_its_subscriptions sample_os _ sample_capture_laws
    5 sample_shared 0%nat p _ sample_shared_inv Hcall) eq_refl).
Defined.

Example failed_shared_call_changes_nothing_witness :
  (shared_call (SharedJoin 1) (sample_shared, 0%nat)).1 = Err SubscriptionAlreadyJoined ∧
  (shared_call (SharedJoin 1) (sample_shared, 0%nat)).2.1 = sample_shared.
Proof.
  assert (Hr : (shared_call (SharedJoin 1) (sample_shared, 0%nat)).1 = Err SubscriptionAlreadyJoined)
    by (vm_compute; reflexivity).
  split; [exact Hr|]. destruct (shared_call (SharedJoin 1) (sample_shared, 0%nat)) as [r st'] eqn:Hcall.
  cbn [fst] in Hr. subst r.
  exact (@failed_shared_call_changes_nothing sample_os _ sample_capture_laws
    4 (SharedJoin 1) sample_shared 0%nat _ st' sample_shared_inv eq_refl Hcall).
Defined.

Example shared_membership_needs_no_kernel_call_witness :
  ∃ s c', sc_subscriptions sample_shared !! 1 = Some s ∧
    sc_leave_subscription 1 (sample_shared, 0%nat) = (Ok (), (c', 0%nat)) ∧
    sc_subscriptions c' = <[1 := set_ss_state Bound s]> (sc_subscriptions sample_shared).
Proof.
  assert (Hs : ∃ s s', sc_subscriptions sample_shared !! 1 = Some s ∧ sc_subscriptions sample_shared !! 2 = Some s' ∧
    ss_is_joined s = true ∧ ss_is_joined s' = true ∧ share_membership s s')
    by (eexists _, _; split_and!; [vm_compute; reflexivity..|split; reflexivity]).
  destruct Hs as (s & s' & Hs & Hs' & Hj & Hj' & Hshare). exists s.
  pose proof (@shared_membership_needs_no_kernel_call sample_os _ sample_capture_laws
    5 sample_shared 0%nat 1 2 s s' sample_shared_inv
    ltac:(discriminate) Hs Hs' Hj' Hshare) as Hleave.
  rewrite Hj in Hleave. destruct Hleave as (c' & Hl & Hc). exists c'. split; [exact Hs|]. split; [exact Hl|exact Hc].
Defined.

Example shared_leave_withdraws_queued_packets_witness :
  matching_subscription_ids <$> sc_pending_packets sample_queued = [[1; 2]; [1; 2]] ∧
  matching_subscription_ids <$> sc_pending_packets (sc_leave_subscription 1 (sample_queued, 0%nat)).2.1 = [[2]; [2]] ∧
  Forall (λ p, 1 ∉ matching_subscription_ids p)
    (sc_pending_packets (sc_leave_subscription 1 (sample_queued, 0%nat)).2.1).
Proof.
  split; [vm_compute; reflexivity|]. split; [vm_compute; reflexivity|].
  assert (Hr : (sc_leave_subscription 1 (sample_queued, 0%nat)).1 = Ok ()) by (vm_compute; reflexivity).
  destruct (sc_leave_subscription 1 (sample_queued, 0%nat)) as [r st'] eqn:Hcall. cbn [fst] in Hr. subst r.
  exact (proj2 (@shared_leave_withdraws_queued_packets sample_os _ sample_capture_laws
    5 sample_queued 0%nat 1 st' sample_queued_inv Hcall)).
Defined.

Example shared_batch_is_bounded_witness :
  let '(r, (out', (c', _))) := sc_try_recv_batch_into 3 ([], (sample_shared, 0%nat)) in
  returns r ∧ shared_inv 5 c' ∧ sc_subscriptions c' = sc_subscriptions sample_shared ∧
  ∃ new, out' = [] ++ new ∧ Z.of_nat (length new) ≤ 3 ∧
    (∀ n, r = Ok n → n = Z.of_nat (length new)) ∧ Forall (pending_ok (sc_subscriptions sample_shared)) new.
Proof.
  exact (@shared_batch_is_bounded sample_os _ sample_capture_laws
    5 sample_shared 0%nat 3 [] sample_shared_inv ltac:(lia)).
Defined.
