(* ===== verification/RawHazards.v ===== *)
(** * Where the raw layer falls short

    Four behaviours of [src/src/platform/raw.rs], [src/src/raw/context.rs] and
    [src/src/raw/shared.rs] that the documentation does not lead a caller to
    expect, each exhibited on a concrete operating system or proved in
    general. *)

From S2P Require Import Prelude Hoare Net Errors Config Packet Os SampleOs Ancillary Platform Subscription Context.
From S2P Require Import IpDatagram AppleBpf RawPlatform RawContext Demux SharedRaw SharedRawProofs.

Local Open Scope list_scope.
Local Open Scope nat_scope.

(** ** A machine with a packet socket

    packet(7): a packet socket receives the frames of its protocol from every
    interface until it is bound to one. *)

(** The frames that will arrive with their interface, the interface that the
    socket listens on once it exists (0 is every interface), and what it has
    queued. *)
Record Wire := mkWire {
  arriving : list (list byte * Z);
  listening : option Z;
  queued : list (list byte * Z) }.

(** The next frame arrives. *)
Definition arrive (w : Wire) : Wire :=
  match arriving w with
  | [] => w
  | (frame, interface) :: rest =>
      let heard := match listening w with
                   | Some bound => bool_decide (bound = 0 ∨ bound = interface)%Z
                   | None => false
                   end in
      mkWire rest (listening w) (if heard then queued w ++ [(frame, interface)] else queued w)
  end.

(** Opening listens on every interface; a frame arrives before the filter is
    attached and before [bind] takes effect. *)
Definition wire_open : Io Wire nat := λ w, (inl 6, mkWire (arriving w) (Some 0%Z) (queued w)).
Definition wire_attach : Io Wire unit := λ w, (inl (), arrive w).
Definition wire_bind (interface : Z) : Io Wire unit := λ w,
  let w := arrive w in (inl (), mkWire (arriving w) (Some interface) (queued w)).
Definition wire_recvfrom : Io Wire (list byte * Z) := λ w,
  match queued w with
  | [] => (inr (mkIoError WouldBlock (Some 11%Z) "would block"), w)
  | frame :: rest => (inl frame, mkWire (arriving w) (listening w) rest)
  end.

Definition wire_os : Os :=
  quiet_os Linux Wire (λ _, 0) (λ _, io_fail sample_error) (λ _, io_ok ()) (λ _, io_ok ()).
Definition wire_raw_os : @RawOs wire_os :=
  @quiet_raw_os wire_os wire_open wire_attach wire_bind wire_recvfrom.
Definition ledger_raw_os : @RawOs ledger_os :=
  @quiet_raw_os ledger_os (io_ok 6) (io_ok ()) (λ _, io_ok ()) (io_fail sample_error).

(** ** A packet of another interface *)

Definition v6_of (last : Z) (first : Z) : Ipv6Addr :=
  default v6_unspecified (v6_of_octets (map byte_of ([first] ++ repeat 0%Z 14 ++ [last]))).
Definition v6_group : Ipv6Addr := v6_of 52 255.

(** An IPv6 datagram of 40 bytes and one of payload, from an ordinary address to the group. *)
Definition v6_datagram : list byte :=
  map byte_of [96; 0; 0; 0; 0; 1; 17; 1]%Z ++ v6_octets (v6_of 1 32) ++ v6_octets v6_group ++ [Byte.x2a].

Definition v6_raw_config : RawSubscriptionConfig :=
  mkRawConfig (V6 v6_group) SourceAny None (Some 7%Z).

(** Raw receive is configured for interface 7. A datagram for the group
    arrives on interface 9 while the socket is open and not yet bound; it stays
    queued when the socket is bound to interface 7, and the receive call
    delivers it, since it does not compare the interface. *)
Theorem raw_packet_may_come_from_another_interface :
  ∃ rs w1 p st,
    @open_raw_socket wire_os wire_raw_os v6_raw_config (mkWire [(v6_datagram, 9%Z)] None []) = (Ok rs, w1) ∧
    listening w1 = Some 7%Z ∧
    @recv_raw_packet wire_os wire_raw_os 1 v6_raw_config (rs, w1) = (Ok (Some p), st) ∧
    raw_interface_index v6_raw_config = Some 7%Z ∧ md_ingress_interface_index (rp_metadata p) = Some 9%Z.
Proof.
  do 2 eexists. do 2 eexists. split; [vm_compute; reflexivity|]. split; [reflexivity|].
  split; [vm_compute; reflexivity|]. by split.
Qed.

(** ** Leaving on Windows *)

(** The kernel has dropped the membership of the second raw socket, 5, as it
    does when an interface goes away; sockets 4 and 6 still hold theirs. *)
Section windows_leave.
#[local] Existing Instance ledger_raw_os.

Definition windows_raw_config : RawSubscriptionConfig :=
  mkRawConfig (V4 sample_group) SourceAny (Some (V4 (v4 10 0 0 2))) None.
Definition windows_raw_subscription (state : SubscriptionState) : @RawSubscription ledger_os platform_transport :=
  @mkRawSubscription ledger_os platform_transport 1 windows_raw_config (ledger_socket 5) state.

Lemma windows_kernel_leaves :
  (∃ e, leave_raw_multicast_group (ledger_socket 5) windows_raw_config [4; 6] = (Err e, [])) ∧
  (∃ e, leave_raw_multicast_group (ledger_socket 5) windows_raw_config [] = (Err e, [])).
Proof. split; eexists; vm_compute; reflexivity. Qed.

(** On Windows, leaving fails when the kernel refuses a raw socket,
    though the membership socket and the other raw socket have left; the subscription
    stays joined, every further attempt to leave fails at the membership
    socket, and it cannot be joined again either. *)
Theorem windows_raw_leave_strands_the_subscription :
  let s := windows_raw_subscription Joined in
  (∃ e, rsub_leave (s, [4; 6]) = (Err e, (s, []))) ∧
  (∃ e, rsub_leave (s, []) = (Err e, (s, []))) ∧
  rsub_join (s, []) = (Err SubscriptionAlreadyJoined, (s, [])).
Proof.
  intros s. unfold rsub_leave, rsub_join, mthen, mget, mlift, guard, on_snd.
  cbn -[leave_raw_multicast_group]. destruct windows_kernel_leaves as [[e ->] [e' ->]]. eauto.
Qed.
End windows_leave.

(** ** A failing raw subscription *)

Section failing.
Context `{RawTransport}.

(** A joined subscription whose receive call always fails, leaving a socket
    that fails again. *)
Definition always_failing (broken : transport_socket → Prop) (s : RawSubscription) : Prop :=
  rsub_is_joined s = true ∧ broken (rsub_socket s) ∧
  ∀ k w, broken k → ∃ e k' w', transport_recv (rsub_id s) (rsub_config s) (k, w) = (Err e, (k', w')) ∧ broken k'.

Fixpoint receives (n : nat) (st : RawContext * World) : list (Result (option RawPacket)) :=
  match n with
  | O => []
  | S n => let '(r, st') := rc_try_recv_any st in r :: receives n st'
  end.

(** One receive call fails at the subscription at the cursor, and finds it
    there again. *)
Lemma failing_at_cursor broken s c w :
  rc_subscriptions c !! rc_next_recv_index c = Some s → always_failing broken s →
  ∃ e s' c' w', rc_try_recv_any (c, w) = (Err e, (c', w')) ∧
    rc_subscriptions c' !! rc_next_recv_index c' = Some s' ∧ always_failing broken s'.
Proof.
  intros Hs (Hj & Hb & Hfail). destruct (Hfail _ w Hb) as (e & k' & w' & Hrecv & Hb').
  pose proof (lookup_lt_Some _ _ _ Hs) as Hlt.
  unfold rc_try_recv_any, mthen at 1, mget, rc_subscription_count. cbn [fst].
  destruct (length (rc_subscriptions c)) as [|n] eqn:Hlen; [lia|].
  rewrite bool_decide_eq_false_2 by done. cbn [rc_recv_scan]. unfold mthen at 1, mget.
  unfold mthen at 1, mlift. cbn [fst]. rewrite Hs. cbn [expect]. rewrite Hj. cbn [negb].
  unfold mthen at 1, on_raw_subscription. cbn [fst snd]. rewrite Hs.
  unfold rsub_try_recv. rewrite Hj. cbn [negb]. rewrite Hrecv.
  exists e, (set_rsub_socket k' s). do 2 eexists. split; [reflexivity|]. cbn. split.
  - apply list_lookup_insert_eq. lia.
  - by split_and!.
Qed.

(** While the raw subscription at the cursor keeps failing, every receive
    call of the context fails, whatever the other subscriptions have queued. *)
Theorem failing_raw_subscription_blocks_the_others broken s c w n :
  rc_subscriptions c !! rc_next_recv_index c = Some s → always_failing broken s →
  Forall (λ r, ∃ e, r = Err e) (receives n (c, w)).
Proof.
  revert s c w. induction n as [|n IH]; intros s c w Hs Hf; cbn [receives]; [constructor|].
  destruct (failing_at_cursor broken s c w Hs Hf) as (e & s' & c' & w' & -> & Hs' & Hf').
  constructor; [by eexists|by eapply IH].
Qed.
End failing.

(** Subscription 1 has a packet socket that fails, subscription 2 one that always has
    a packet. *)
Section failing_sample.
Definition fail_or_deliver (s : nat) : RawTransport :=
  @Build_RawTransport sample_os nat (λ _, mpure s) (λ _ _, mpure ()) (λ _ _, mpure ())
    (λ id c st, if bool_decide (st.1 = 0) then (Err (ReceiveFailed sample_error), st)
                else (Ok (Some sample_raw_packet), st)) (λ _, True).

Definition failing_context : @RawContext sample_os (fail_or_deliver 1) :=
  @mkRawContext sample_os (fail_or_deliver 1)
    [@mkRawSubscription sample_os (fail_or_deliver 1) 1 sample_raw_config 0 Joined;
     @mkRawSubscription sample_os (fail_or_deliver 1) 2 windows_raw_config 1 Joined] 3 0.

Example failing_raw_subscription_blocks_the_others_witness :
  Forall (λ r, ∃ e, r = Err e) (@receives sample_os (fail_or_deliver 1) 5 (failing_context, 0)).
Proof.
  apply (@failing_raw_subscription_blocks_the_others sample_os (fail_or_deliver 1) (λ k, k = 0)
    (@mkRawSubscription sample_os (fail_or_deliver 1) 1 sample_raw_config 0 Joined)).
  - reflexivity.
  - split_and!; [done..|]. intros k w ->. do 3 eexists. split; reflexivity.
Defined.
End failing_sample.

(** ** A packet behind a foreign one *)

Section shared_starving.
#[local] Existing Instance wire_raw_os.

Definition other_datagram : list byte :=
  take 16 sample_datagram ++ v4_octets (v4 239 9 9 9) ++ drop 20 sample_datagram.

(** A shared context with a joined subscription for the sample group. *)
Definition shared_calls : list SharedContextCall := [SharedAdd sample_raw_config; SharedJoin 1].
Definition shared_on_wire (frames : list (list byte * Z)) : @SharedRawContext wire_os platform_capture * @World wire_os :=
  match SharedRawContext_with_limits sample_limits with
  | Ok c => let st := (run_calls shared_call shared_calls (c, mkWire [] None [] : @World wire_os)).2 in
            (st.1, mkWire [] (listening st.2) frames : @World wire_os)
  | _ => (mkShared ∅ ∅ ∅ [] [] sample_limits 1 0 (mkCaptureMetrics 0 0 0), mkWire [] None frames)
  end.

(** The receive call of a shared context reads one datagram of its only
    capture. When that one is of a group that nobody joined, it answers that
    nothing is ready, though a packet of the subscription is next in the
    queue of the socket: the following call delivers it. *)
Theorem shared_receive_may_miss_a_queued_packet :
  let st := shared_on_wire [(other_datagram, 3%Z); (sample_datagram, 3%Z)] in
  let '(r, st1) := sc_try_recv_any st in
  let '(r', _) := sc_try_recv_any st1 in
  r = Ok None ∧ queued st1.2 = [(sample_datagram, 3%Z)] ∧
  ∃ p, r' = Ok (Some p) ∧ matching_subscription_ids p = [1%Z].
Proof.
  intros st. destruct (sc_try_recv_any st) as [r st1] eqn:H1. destruct (sc_try_recv_any st1) as [r' st2] eqn:H2.
  assert ((sc_try_recv_any st).1 = Ok None ∧ queued (sc_try_recv_any st).2.2 = [(sample_datagram, 3%Z)] ∧
    match (sc_try_recv_any (sc_try_recv_any st).2).1 with
    | Ok (Some p) => matching_subscription_ids p
    | _ => []
    end = [1%Z]) as (Hr & Hq & Hids) by (split_and!; vm_compute; reflexivity).
  rewrite H1 in Hr, Hq, Hids. cbn [fst snd] in Hr, Hq, Hids. rewrite H2 in Hids. cbn [fst] in Hids.
  split_and!; [done|done|]. destruct r' as [[p|]|e| |]; try done. by exists p.
Qed.
End shared_starving.
