(* ===== verification/Text.v ===== *)
(** * Strings and their parsing

    The parts of [str], [CString] and [core::net::parser] that the command
    line, the C interface and the JSON lines use: a [str] is a [string] of the
    bytes of its UTF-8 encoding. The parsers are written as the standard
    library writes them, and reading an address that was displayed gives it
    back. *)

From Stdlib Require Import Strings.Ascii.
From S2P Require Import Prelude Net.

Local Open Scope string_scope.
Local Open Scope list_scope.

(** ** Characters *)

Definition char_code (c : ascii) : Z := Z.of_N (Ascii.N_of_ascii c).

Definition between (lo hi z : Z) : bool := (lo <=? z)%Z && (z <=? hi)%Z.

(** [char::to_digit]. *)
Definition to_digit (radix : Z) (c : ascii) : option Z :=
  let n := char_code c in
  let d := if between 48 57 n then Some (n - 48)%Z
           else if between 97 122 n then Some (n - 87)%Z
           else if between 65 90 n then Some (n - 55)%Z
           else None in
  match d with
  | Some d => if (d <? radix)%Z then Some d else None
  | None => None
  end.

(** [s.chars().all(|ch| ch.is_ascii_digit())]: true of the empty string. *)
Fixpoint all_digits (s : string) : bool :=
  match s with
  | EmptyString => true
  | String c s => between 48 57 (char_code c) && all_digits s
  end.

Fixpoint has_nul (s : string) : bool :=
  match s with
  | EmptyString => false
  | String c s => (char_code c =? 0)%Z || has_nul s
  end.

(** [str::starts_with]. *)
Definition starts_with (p s : string) : bool := String.prefix p s.

(** [str::rsplit_once] of one character. *)
Fixpoint rsplit_once (c : ascii) (s : string) : option (string * string) :=
  match s with
  | EmptyString => None
  | String c' s =>
      match rsplit_once c s with
      | Some (l, r) => Some (String c' l, r)
      | None => if Ascii.eqb c c' then Some ("", s) else None
      end
  end.

(** ** UTF-8 ([str::from_utf8]) *)

Definition continuation (c : ascii) : bool := between 128 191 (char_code c).

Fixpoint utf8_valid (s : string) : bool :=
  match s with
  | EmptyString => true
  | String a s1 =>
      let n := char_code a in
      if (n <? 128)%Z then utf8_valid s1
      else match s1 with
      | EmptyString => false
      | String b s2 =>
          if between 194 223 n then continuation b && utf8_valid s2
          else match s2 with
          | EmptyString => false
          | String c s3 =>
              let m := char_code b in
              if (n =? 224)%Z then between 160 191 m && continuation c && utf8_valid s3
              else if between 225 236 n || between 238 239 n then
                continuation b && continuation c && utf8_valid s3
              else if (n =? 237)%Z then between 128 159 m && continuation c && utf8_valid s3
              else match s3 with
              | EmptyString => false
              | String d s4 =>
                  if (n =? 240)%Z then
                    between 144 191 m && continuation c && continuation d && utf8_valid s4
                  else if between 241 243 n then
                    continuation b && continuation c && continuation d && utf8_valid s4
                  else if (n =? 244)%Z then
                    between 128 143 m && continuation c && continuation d && utf8_valid s4
                  else false
              end
          end
      end
  end.

(** [s.trim().is_empty()]: every character is [White_Space]. *)
Fixpoint is_blank (s : string) : bool :=
  match s with
  | EmptyString => true
  | String a s1 =>
      let n := char_code a in
      if between 9 13 n || (n =? 32)%Z then is_blank s1
      else match s1 with
      | EmptyString => false
      | String b s2 =>
          let m := char_code b in
          if (n =? 194)%Z && ((m =? 133)%Z || (m =? 160)%Z) then is_blank s2
          else match s2 with
          | EmptyString => false
          | String c s3 =>
              let k := char_code c in
              if ((n =? 225)%Z && (m =? 154)%Z && (k =? 128)%Z)
                 || ((n =? 226)%Z && (m =? 128)%Z
                     && (between 128 138 k || (k =? 168)%Z || (k =? 169)%Z || (k =? 175)%Z))
                 || ((n =? 226)%Z && (m =? 129)%Z && (k =? 159)%Z)
                 || ((n =? 227)%Z && (m =? 128)%Z && (k =? 128)%Z)
              then is_blank s3 else false
          end
      end
  end.

(** ** Integers ([u16::from_str], [u32::from_str], [u64::from_str]) *)

Inductive IntErrorKind := IntEmpty | InvalidDigit | PosOverflow | NegOverflow.

(** [Display] of [ParseIntError]. *)
Definition int_error_text (e : IntErrorKind) : string :=
  match e with
  | IntEmpty => "cannot parse integer from empty string"
  | InvalidDigit => "invalid digit found in string"
  | PosOverflow => "number too large to fit in target type"
  | NegOverflow => "number too small to fit in target type"
  end.

Fixpoint parse_digits (max acc : Z) (s : string) : Res IntErrorKind Z :=
  match s with
  | EmptyString => Ok acc
  | String c s =>
      match to_digit 10 c with
      | None => Err InvalidDigit
      | Some d =>
          if bool_decide (acc * 10 + d ≤ max)%Z then parse_digits max (acc * 10 + d) s
          else Err PosOverflow
      end
  end.

(** A leading [+] is accepted, unless it is all there is. *)
Definition parse_uint (max : Z) (s : string) : Res IntErrorKind Z :=
  match s with
  | EmptyString => Err IntEmpty
  | String c rest =>
      if Ascii.eqb c "+" then
        match rest with EmptyString => Err InvalidDigit | _ => parse_digits max 0 rest end
      else parse_digits max 0 s
  end.

(** A signed integer may also begin with [-]. *)
Fixpoint parse_negative (min acc : Z) (s : string) : Res IntErrorKind Z :=
  match s with
  | EmptyString => Ok acc
  | String c s =>
      match to_digit 10 c with
      | None => Err InvalidDigit
      | Some d =>
          if bool_decide (min ≤ acc * 10 - d)%Z then parse_negative min (acc * 10 - d) s
          else Err NegOverflow
      end
  end.

Definition parse_int (min max : Z) (s : string) : Res IntErrorKind Z :=
  match s with
  | String c rest =>
      if Ascii.eqb c "-" then
        match rest with EmptyString => Err InvalidDigit | _ => parse_negative min 0 rest end
      else parse_uint max s
  | EmptyString => Err IntEmpty
  end.

(** ** Characters of a [str]

    A character is the string of its bytes; the first of them tells how many
    there are. *)
Fixpoint chars (s : string) : list string :=
  match s with
  | EmptyString => []
  | String a s1 =>
      let n := char_code a in
      if (n <? 192)%Z then String a "" :: chars s1
      else match s1 with
      | EmptyString => [String a ""]
      | String b s2 =>
          if (n <? 224)%Z then String a (String b "") :: chars s2
          else match s2 with
          | EmptyString => [String a (String b "")]
          | String c s3 =>
              if (n <? 240)%Z then String a (String b (String c "")) :: chars s3
              else match s3 with
              | EmptyString => [String a (String b (String c ""))]
              | String d s4 => String a (String b (String c (String d ""))) :: chars s4
              end
          end
      end
  end.

Definition of_chars (l : list string) : string := foldr (λ c s, c +:+ s) "" l.

(** [char::is_whitespace]. *)
Definition white_space (c : string) : bool := is_blank c.

Fixpoint drop_white_space (l : list string) : list string :=
  match l with
  | c :: l' => if white_space c then drop_white_space l' else l
  | [] => []
  end.

(** [str::trim]. *)
Definition trim_chars (l : list string) : list string :=
  rev (drop_white_space (rev (drop_white_space l))).
Definition trim (s : string) : string := of_chars (trim_chars (chars s)).

(** [str::split_whitespace]; [word] is the beginning of a word, if any. *)
Fixpoint split_chars (l : list string) (word : string) : list string :=
  let done := match word with EmptyString => [] | _ => [word] end in
  match l with
  | [] => done
  | c :: l => if white_space c then done ++ split_chars l "" else split_chars l (word +:+ c)
  end.
Definition split_whitespace (s : string) : list string := split_chars (chars s) "".

(** [str::strip_prefix]. *)
Fixpoint strip_prefix (p s : string) : option string :=
  match p with
  | EmptyString => Some s
  | String c p =>
      match s with
      | String c' s => if Ascii.eqb c c' then strip_prefix p s else None
      | EmptyString => None
      end
  end.

(** [str::lines]. *)
Definition line_feed : ascii := Ascii.ascii_of_nat 10.
Definition carriage_return : ascii := Ascii.ascii_of_nat 13.

Fixpoint strip_cr (s : string) : string :=
  match s with
  | EmptyString => EmptyString
  | String c EmptyString => if Ascii.eqb c carriage_return then EmptyString else s
  | String c r => String c (strip_cr r)
  end.

Fixpoint str_lines_from (current s : string) : list string :=
  match s with
  | EmptyString => match current with EmptyString => [] | _ => [current] end
  | String c s =>
      if Ascii.eqb c line_feed then strip_cr current :: str_lines_from "" s
      else str_lines_from (current +:+ String c "") s
  end.
Definition str_lines (s : string) : list string := str_lines_from "" s.

(** [{:?}] of an [Option]. *)
Definition debug_option {A : Type} (debug : A → string) (o : option A) : string :=
  match o with Some a => "Some(" +:+ debug a +:+ ")" | None => "None" end.

(** ** IP addresses ([core::net::parser]) *)

Fixpoint read_digits (radix : Z) (s : string) (acc : Z) (count : nat) : Z * nat * string :=
  match s with
  | EmptyString => (acc, count, s)
  | String c r =>
      match to_digit radix c with
      | Some d => read_digits radix r (acc * radix + d) (S count)
      | None => (acc, count, s)
      end
  end.

Definition leading_zero (s : string) : bool :=
  match s with String c _ => Ascii.eqb c "0" | _ => false end.

Definition read_number (radix : Z) (max_digits : nat) (allow_zero_prefix : bool) (max : Z)
    (s : string) : option (Z * string) :=
  let '(v, count, r) := read_digits radix s 0 0 in
  if (count <=? max_digits)%nat && negb (count =? 0)%nat
     && (allow_zero_prefix || negb (leading_zero s && (1 <? count)%nat))
     && (v <=? max)%Z
  then Some (v, r) else None.

Definition read_given_char (c : ascii) (s : string) : option string :=
  match s with String c' r => if Ascii.eqb c' c then Some r else None | _ => None end.

Definition read_separator {A : Type} (sep : ascii) (index : nat)
    (p : string → option (A * string)) (s : string) : option (A * string) :=
  match index with O => p s | S _ => r ← read_given_char sep s; p r end.

Definition read_ipv4 (s : string) : option (Ipv4Addr * string) :=
  let octet i := read_separator "." i (read_number 10 3 false u8_max) in
  '(a, s) ← octet 0 s;
  '(b, s) ← octet 1 s;
  '(c, s) ← octet 2 s;
  '(d, s) ← octet 3 s;
  Some (v4 a b c d, s).

(** [read_groups] on the slots that are left, from the slot [i]: the groups
    read, and whether an IPv4 address ended them. *)
Fixpoint read_groups (n i : nat) (s : string) : list Z * bool * string :=
  match n with
  | O => ([], false, s)
  | S n =>
      match (if (n =? 0)%nat then None else read_separator ":" i read_ipv4 s) with
      | Some (a, r) => ([be16 (v4_a a) (v4_b a); be16 (v4_c a) (v4_d a)], true, r)
      | None =>
          match read_separator ":" i (read_number 16 4 true u16_max) s with
          | Some (g, r) => let '(gs, v4, r) := read_groups n (S i) r in (g :: gs, v4, r)
          | None => ([], false, s)
          end
      end
  end.

(** [From<[u16; 8]> for Ipv6Addr]. *)
Definition v6_of_segments (l : list Z) : option Ipv6Addr :=
  match l with [a; b; c; d; e; f; g; h] => Some (v6 a b c d e f g h) | _ => None end.

Definition read_ipv6 (s : string) : option (Ipv6Addr * string) :=
  let '(head, head_ipv4, r) := read_groups 8 0 s in
  if (length head =? 8)%nat then a ← v6_of_segments head; Some (a, r)
  else if head_ipv4 then None
  else
    r ← read_given_char ":" r;
    r ← read_given_char ":" r;
    let '(tail, _, r) := read_groups (8 - (length head + 1)) 0 r in
    a ← v6_of_segments (head ++ replicate (8 - length head - length tail) 0%Z ++ tail);
    Some (a, r).

Definition at_end {A : Type} (o : option (A * string)) : option A :=
  match o with Some (a, EmptyString) => Some a | _ => None end.

(** [str::parse::<Ipv4Addr>], [str::parse::<Ipv6Addr>], [str::parse::<IpAddr>]. *)
Definition parse_ipv6_addr (s : string) : option Ipv6Addr := at_end (read_ipv6 s).
Definition parse_ip_addr (s : string) : option IpAddr :=
  match read_ipv4 s with
  | Some (a, r) => at_end (Some (V4 a, r))
  | None => V6 <$> at_end (read_ipv6 s)
  end.

Example parse_ip_doc1 : parse_ip_addr "232.1.2.3" = Some (V4 (v4 232 1 2 3)).
Proof. vm_compute. reflexivity. Qed.
Example parse_ip_doc2 : parse_ip_addr "232.01.2.3" = None.
Proof. vm_compute. reflexivity. Qed.
Example parse_ip_doc3 : parse_ip_addr "ff3e::8000:1" = Some (V6 (v6 65342 0 0 0 0 0 32768 1)).
Proof. vm_compute. reflexivity. Qed.
Example parse_ip_doc4 : parse_ip_addr "::ffff:1.2.3.4" = Some (V6 (v6 0 0 0 0 0 65535 258 772)).
Proof. vm_compute. reflexivity. Qed.
Example parse_ip_doc5 : parse_ip_addr "1::2::3" = None.
Proof. vm_compute. reflexivity. Qed.

(** ** Reading what was displayed *)

Lemma string_cons_app c (s t : string) : String c s +:+ t = String c (s +:+ t).
Proof. done. Qed.
Lemma string_nil_app (s : string) : "" +:+ s = s.
Proof. done. Qed.
Lemma string_app_assoc (s t u : string) : (s +:+ t) +:+ u = s +:+ (t +:+ u).
Proof. induction s as [|c s IH]; [done|]. by rewrite !string_cons_app, IH. Qed.
Lemma string_app_nil_r (s : string) : s +:+ "" = s.
Proof. induction s as [|c s IH]; [done|]. by rewrite string_cons_app, IH. Qed.

(** What may follow a number without becoming a part of it. *)
Definition ends_number (radix : Z) (r : string) : Prop :=
  match r with EmptyString => True | String c _ => to_digit radix c = None end.

Lemma read_digits_app radix s r acc n v k :
  read_digits radix s acc n = (v, k, "") → ends_number radix r →
  read_digits radix (s +:+ r) acc n = (v, k, r).
Proof.
  revert acc n. induction s as [|c s IH]; intros acc n; rewrite ?string_cons_app; simpl.
  - intros [= <- <-] Hr. destruct r as [|c r]; [done|]. simpl in *. by rewrite Hr.
  - destruct (to_digit radix c); [by apply IH|done].
Qed.

Definition starts_with_char (c : ascii) (s : string) : bool :=
  match s with String c' _ => Ascii.eqb c' c | _ => false end.

(** The characters of [s] differ from [c]. *)
Fixpoint lacks (c : ascii) (s : string) : bool :=
  match s with EmptyString => true | String c' s => negb (Ascii.eqb c' c) && lacks c s end.

Lemma read_digits_rest radix c s r acc n v k t :
  lacks c s = true → starts_with_char c r = false → ends_number radix r →
  read_digits radix (s +:+ r) acc n = (v, k, t) → starts_with_char c t = false.
Proof.
  revert acc n. induction s as [|c' s IH]; intros acc n; rewrite ?string_cons_app; simpl.
  - intros _ Hr Hend Hread. destruct r as [|d r]; simpl in *.
    + by injection Hread as <- <- <-.
    + rewrite Hend in Hread. by injection Hread as <- <- <-.
  - intros [Hc Hs]%andb_prop Hr Hend. destruct (to_digit radix c'); [by apply IH|].
    intros [= <- <- <-]. simpl. by apply negb_true_iff.
Qed.

Lemma read_number_rest radix c m z max s r v t :
  lacks c s = true → starts_with_char c r = false → ends_number radix r →
  read_number radix m z max (s +:+ r) = Some (v, t) → starts_with_char c t = false.
Proof.
  intros Hs Hr Hend. unfold read_number.
  destruct (read_digits radix (s +:+ r) 0 0) as [[v' k] t'] eqn:Hread.
  case_match; [|done]. intros [= <- <-]. by eapply read_digits_rest.
Qed.

Lemma read_given_char_None c s : starts_with_char c s = false → read_given_char c s = None.
Proof. destruct s as [|c' s]; simpl; [done|]. by intros ->. Qed.

Lemma read_given_char_hit c s : read_given_char c (String c "" +:+ s) = Some s.
Proof. rewrite string_cons_app. simpl. by rewrite Ascii.eqb_refl. Qed.

Lemma leading_zero_app s r : s ≠ "" → leading_zero (s +:+ r) = leading_zero s.
Proof. by destruct s. Qed.

(** A number that [read_number] accepts in full is read before any text that
    does not continue it. *)
Definition reads_as (radix : Z) (m : nat) (z : bool) (max v : Z) (s : string) : bool :=
  match read_number radix m z max s with
  | Some (v', EmptyString) => (v' =? v)%Z
  | _ => false
  end.

Lemma read_number_app radix m z max v s r :
  reads_as radix m z max v s = true → ends_number radix r →
  read_number radix m z max (s +:+ r) = Some (v, r).
Proof.
  unfold reads_as, read_number.
  destruct (read_digits radix s 0 0) as [[v' k] t] eqn:Hread.
  match goal with |- context [if ?c then _ else _] => destruct c eqn:Hc end; [|done].
  destruct t; [|done]. intros Hv%Z.eqb_eq Hr. subst v'.
  rewrite (read_digits_app _ _ _ _ _ _ _ Hread Hr).
  assert (s ≠ "") as Hne.
  { intros ->. by injection Hread as Hv Hk; subst. }
  by rewrite leading_zero_app, Hc by done.
Qed.

(** *** IPv4 *)

Lemma octet_reads b : reads_as 10 3 false u8_max (u8 b) (display_Z (u8 b)) = true.
Proof. destruct b; vm_compute; reflexivity. Qed.

Lemma read_ipv4_display a r :
  ends_number 10 r → read_ipv4 (v4_display a +:+ r) = Some (a, r).
Proof.
  intros Hr. unfold v4_display, read_ipv4, read_separator. rewrite !string_app_assoc.
  assert (Hdot : ∀ s : string, ends_number 10 ("." +:+ s)) by done.
  rewrite (read_number_app _ _ _ _ _ _ _ (octet_reads (v4_a a)) (Hdot _)); simpl.
  rewrite string_nil_app.
  rewrite (read_number_app _ _ _ _ _ _ _ (octet_reads (v4_b a)) (Hdot _)); simpl.
  rewrite string_nil_app.
  rewrite (read_number_app _ _ _ _ _ _ _ (octet_reads (v4_c a)) (Hdot _)); simpl.
  rewrite string_nil_app.
  rewrite (read_number_app _ _ _ _ _ _ _ (octet_reads (v4_d a)) Hr); simpl.
  unfold v4. rewrite !byte_of_u8. by destruct a.
Qed.

(** *** IPv6 *)

Definition is_segment (z : Z) : Prop := (0 ≤ z ≤ u16_max)%Z.

Definition hex_char (c : ascii) : bool :=
  let n := char_code c in between 48 57 n || between 97 102 n.

Fixpoint all_hex (s : string) : bool :=
  match s with EmptyString => true | String c s => hex_char c && all_hex s end.

Lemma hex16_chars z : all_hex (display_hex16 z) = true.
Proof.
  assert (Hd : ∀ z, (0 ≤ z < 16)%Z → all_hex (hex_digit z) = true).
  { intros x Hx. apply (proj1 (forallb_forall (λ x, all_hex (hex_digit x)) (seqZ 0 16)) eq_refl).
    apply list_elem_of_In, elem_of_seqZ. lia. }
  assert (Happ : ∀ s t, all_hex (s +:+ t) = all_hex s && all_hex t).
  { intros s t. induction s as [|c s IH]; [done|].
    rewrite string_cons_app. simpl. by rewrite IH, andb_assoc. }
  unfold display_hex16.
  assert (Hgo : ∀ fuel y acc, all_hex acc = true → all_hex (hex_go fuel y acc) = true); [|by apply Hgo].
  induction fuel as [|fuel IH]; intros y acc Hacc; simpl; [done|].
  assert (all_hex (hex_digit (y `mod` 16) +:+ acc) = true)
    by (rewrite Happ, Hd, Hacc by zlia; done).
  case_bool_decide; [done|]. by apply IH.
Qed.

Lemma all_hex_lacks c s : hex_char c = false → all_hex s = true → lacks c s = true.
Proof.
  intros Hc. induction s as [|c' s IH]; simpl; [done|]. intros [Hc' Hs]%andb_prop.
  rewrite IH, andb_true_r by done. apply negb_true_iff, Ascii.eqb_neq. intros ->. congruence.
Qed.

Lemma read_hex_digit d s acc n :
  (0 ≤ d < 16)%Z →
  read_digits 16 (hex_digit d +:+ s) acc n = read_digits 16 s (acc * 16 + d) (S n).
Proof.
  intros Hd. assert (In d (seqZ 0 16)) as Hin by (apply list_elem_of_In, elem_of_seqZ; lia).
  repeat (destruct Hin as [<-|Hin]; [reflexivity|]). destruct Hin.
Qed.

Lemma read_hex_go fuel : ∀ z text,
  (0 < fuel)%nat → (0 ≤ z < 16 ^ Z.of_nat fuel)%Z →
  ∃ k, (0 < k ≤ fuel)%nat ∧
    ∀ n, read_digits 16 (hex_go fuel z text) 0 n = read_digits 16 text z (k + n).
Proof.
  induction fuel as [|fuel IH]; intros z text Hpos Hz; [lia|]. cbn [hex_go].
  case_bool_decide as Hq.
  - exists 1%nat. split; [lia|]. intros n. rewrite read_hex_digit by zlia. f_equal. zlia.
  - rewrite Nat2Z.inj_succ, Z.pow_succ_r in Hz by lia.
    destruct fuel as [|fuel]; [simpl in Hz; zlia|].
    destruct (IH (z `div` 16)%Z (hex_digit (z `mod` 16) +:+ text)) as (k & Hk & Hread); [lia|zlia|].
    exists (S k). split; [lia|]. intros n. rewrite Hread, read_hex_digit by zlia. f_equal. zlia.
Qed.

Lemma hex16_reads z :
  is_segment z → reads_as 16 4 true u16_max z (display_hex16 z) = true ∧
                 lacks "." (display_hex16 z) = true.
Proof.
  intros Hz. split; [|by apply all_hex_lacks, hex16_chars].
  unfold is_segment, u16_max in Hz. unfold reads_as, read_number, display_hex16.
  destruct (read_hex_go 4 z "") as (k & Hk & Hread); [lia|lia|]. rewrite Hread. cbn [read_digits].
  rewrite (proj2 (Nat.leb_le _ _)), (proj2 (Nat.eqb_neq _ _)), (proj2 (Z.leb_le _ _)) by (unfold u16_max; lia).
  apply Z.eqb_refl.
Qed.

(** The text of segments that follow another one, and of a list of segments. *)
Fixpoint more_segments (l : list Z) : string :=
  match l with [] => "" | z :: l => ":" +:+ display_hex16 z +:+ more_segments l end.

Definition segments_text (l : list Z) : string :=
  match l with [] => "" | z :: l => display_hex16 z +:+ more_segments l end.

Lemma fold_segments l s :
  fold_left (λ acc t, acc +:+ ":" +:+ t) (display_hex16 <$> l) s = s +:+ more_segments l.
Proof.
  revert s. induction l as [|z l IH]; intros s; simpl.
  - by rewrite string_app_nil_r.
  - by rewrite IH, !string_app_assoc.
Qed.

Lemma join_segments_text l : join_segments l = segments_text l.
Proof. destruct l as [|z l]; [done|]. apply fold_segments. Qed.

(** What ends a list of groups: the end of the text, or [::]. *)
Definition stops (r : string) : Prop := r = "" ∨ ∃ r', r = "::" +:+ r'.

Lemma stops_ends_number radix r : stops r → ends_number radix r.
Proof. intros [->|[r' ->]]; [done|]. reflexivity. Qed.

Lemma more_segments_app l r :
  stops r → ends_number 10 (more_segments l +:+ r) ∧ ends_number 16 (more_segments l +:+ r) ∧
            starts_with_char "." (more_segments l +:+ r) = false.
Proof.
  destruct l as [|z l]; [|done]. simpl. rewrite string_nil_app.
  intros Hr. split; [|split]; [by apply stops_ends_number..|].
  by destruct Hr as [->|[r' ->]].
Qed.

(** An IPv4 address needs a dot after its first number. *)
Lemma read_ipv4_needs_dot s r :
  lacks "." s = true → ends_number 10 r → starts_with_char "." r = false →
  read_ipv4 (s +:+ r) = None.
Proof.
  intros Hs Hend Hr. unfold read_ipv4, read_separator.
  destruct (read_number 10 3 false u8_max (s +:+ r)) as [[v t]|] eqn:Hread; [|done].
  pose proof (read_number_rest _ _ _ _ _ _ _ _ _ Hs Hr Hend Hread) as Ht. simpl.
  by rewrite (read_given_char_None _ _ Ht).
Qed.

Lemma read_number_stops radix m z max r : stops r → read_number radix m z max r = None.
Proof.
  intros [->|[r' ->]]; unfold read_number; simpl; [done|].
  done.
Qed.

Lemma read_ipv4_stops r : stops r → read_ipv4 r = None.
Proof. intros Hr. unfold read_ipv4. simpl. by rewrite read_number_stops. Qed.

Lemma read_separator_stops {A : Type} i (p : string → option (A * string)) r :
  (∀ r, stops r → p r = None) → (∀ r', p (":" +:+ r') = None) → stops r →
  read_separator ":" i p r = None.
Proof.
  intros Hp Hc Hr. destruct i as [|i]; [by apply Hp|]. destruct Hr as [->|[r' ->]]; [done|].
  apply (Hc r').
Qed.

Lemma read_groups_stops n i r : stops r → read_groups n i r = ([], false, r).
Proof.
  intros Hr. destruct n as [|n]; [done|]. cbn [read_groups].
  rewrite (read_separator_stops i read_ipv4), (read_separator_stops i (read_number _ _ _ _));
    [by destruct (n =? 0)%nat|..]; try done; try (intros; by apply read_number_stops).
  intros. by apply read_ipv4_stops.
Qed.

Lemma read_separator_more {A : Type} i (p : string → option (A * string)) s :
  read_separator ":" i p ((match i with O => "" | S _ => ":" end) +:+ s) = p s.
Proof. by destruct i. Qed.

Lemma read_groups_text l n i r :
  Forall is_segment l → (length l ≤ n)%nat → stops r →
  read_groups n i (match l with
                   | [] => r
                   | z :: l => (match i with O => "" | S _ => ":" end) +:+ display_hex16 z +:+
                               more_segments l +:+ r
                   end) = (l, false, r).
Proof.
  intros Hl Hn Hr. revert n i Hn. induction Hl as [|z l Hz Hl IH]; intros n i Hn.
  { by apply read_groups_stops. }
  destruct n as [|n]; [simpl in Hn; lia|]. cbn [read_groups].
  destruct (hex16_reads z Hz) as [Hread Hdot].
  destruct (more_segments_app l r Hr) as (H10 & H16 & Hd).
  rewrite !read_separator_more, (read_ipv4_needs_dot _ _ Hdot H10 Hd).
  rewrite (read_number_app _ _ _ _ _ _ _ Hread H16).
  specialize (IH n (S i) ltac:(simpl in Hn; lia)).
  replace (more_segments l +:+ r) with
    (match l with
     | [] => r
     | z :: l => ":" +:+ display_hex16 z +:+ more_segments l +:+ r
     end) by (destruct l; simpl; by rewrite ?string_app_assoc).
  rewrite IH. by destruct (n =? 0)%nat.
Qed.

Lemma read_groups_segments l n r :
  Forall is_segment l → (length l ≤ n)%nat → stops r →
  read_groups n 0 (segments_text l +:+ r) = (l, false, r).
Proof.
  intros Hl Hn Hr. rewrite <-(read_groups_text l n 0 r Hl Hn Hr). f_equal.
  destruct l; simpl; by rewrite ?string_app_assoc.
Qed.

Lemma v6_segments_are_segments a : Forall is_segment (v6_segments a).
Proof. repeat constructor; apply be16_bounds. Qed.

Lemma be16_split hi lo :
  byte_of (be16 hi lo `div` 256) = hi ∧ byte_of (be16 hi lo) = lo.
Proof.
  unfold be16. pose proof (u8_bounds hi). pose proof (u8_bounds lo).
  split; apply u8_inj; rewrite ?u8_byte_of by zlia; [zlia|].
  replace (byte_of (u8 hi * 256 + u8 lo)) with (byte_of (u8 lo)); [by rewrite byte_of_u8|].
  unfold byte_of. do 3 f_equal. zlia.
Qed.

Lemma v6_of_segments_segments a : v6_of_segments (v6_segments a) = Some a.
Proof.
  destruct a. unfold v6_segments, v6_of_segments, v6. simpl.
  repeat match goal with
  | |- context [byte_of (be16 ?hi ?lo `div` 256)] =>
      rewrite (proj1 (be16_split hi lo)), (proj2 (be16_split hi lo))
  end. done.
Qed.

(** A run of zeros of a list, as a start and a length. *)
Definition zero_run (l : list Z) (r : nat * nat) : Prop :=
  (r.1 + r.2 ≤ length l)%nat ∧ ∀ j, (r.1 ≤ j < r.1 + r.2)%nat → l !! j = Some 0%Z.

Lemma zero_run_go_sound full l i cur best :
  drop i full = l → zero_run full best → zero_run full cur →
  (cur.2 = 0 ∨ cur.1 + cur.2 = i)%nat → zero_run full (zero_run_go l i cur best).
Proof.
  revert i cur best. induction l as [|s l IH]; intros i cur best Hd Hb Hc Hi; simpl; [done|].
  assert (Hs : full !! i = Some s) by (by rewrite <-(Nat.add_0_r i), <-lookup_drop, Hd).
  assert (Hd' : drop (S i) full = l) by (by rewrite <-Nat.add_1_r, <-drop_drop, Hd).
  pose proof (lookup_lt_Some _ _ _ Hs) as Hlt.
  case_bool_decide as Hz; [subst s|].
  - set (cur' := (_, _)).
    assert (Hc' : zero_run full cur' ∧ (cur'.1 + cur'.2 = S i)%nat).
    { destruct Hc as [Hc1 Hc2]. subst cur'. unfold zero_run. simpl.
      case_bool_decide as H0; simpl.
      - rewrite H0. split; [split; [lia|]|lia]. intros j Hj. by replace j with i by lia.
      - split; [split; [lia|]|lia]. intros j Hj. destruct (decide (j = i)) as [->|]; [done|].
        apply Hc2. lia. }
    destruct Hc' as [Hc' Hi']. apply IH; [done| |done|by right].
    by case_bool_decide.
  - apply IH; [done|done| |by left]. split; simpl; [lia|]. intros. lia.
Qed.

Lemma zero_run_split l start len :
  zero_run l (start, len) →
  l = take start l ++ replicate len 0%Z ++ drop (start + len) l.
Proof.
  intros [Hlen Hz]. simpl in *. apply list_eq. intros j.
  destruct (decide (j < start)%nat).
  { rewrite lookup_app_l, lookup_take_lt by (rewrite ?length_take; lia). done. }
  rewrite lookup_app_r, length_take by (rewrite length_take; lia).
  replace (start `min` length l)%nat with start by lia.
  destruct (decide (j < start + len)%nat).
  { rewrite lookup_app_l by (rewrite length_replicate; lia).
    rewrite lookup_replicate_2 by lia. apply Hz. lia. }
  rewrite lookup_app_r, length_replicate, lookup_drop by (rewrite length_replicate; lia).
  f_equal. lia.
Qed.

Lemma read_segments_compressed head tail n :
  Forall is_segment head → Forall is_segment tail →
  (length head + n + length tail = 8)%nat → (0 < n)%nat →
  read_ipv6 (segments_text head +:+ "::" +:+ segments_text tail) =
    (a ← v6_of_segments (head ++ replicate n 0%Z ++ tail); Some (a, "")).
Proof.
  intros Hh Ht Hlen Hn. unfold read_ipv6.
  rewrite read_groups_segments; [|done|lia|right; eauto].
  destruct (Nat.eqb_spec (length head) 8); [lia|].
  change ("::" +:+ segments_text tail) with (String ":" (String ":" (segments_text tail))).
  cbn [read_given_char Ascii.eqb Bool.eqb mbind option_bind].
  rewrite <-(string_app_nil_r (segments_text tail)).
  rewrite read_groups_segments; [|done|lia|by left].
  by replace (8 - length head - length tail)%nat with n by lia.
Qed.

Lemma read_segments_full l :
  Forall is_segment l → length l = 8%nat →
  read_ipv6 (segments_text l) = (a ← v6_of_segments l; Some (a, "")).
Proof.
  intros Hl Hlen. unfold read_ipv6. rewrite <-(string_app_nil_r (segments_text l)).
  rewrite read_groups_segments; [|done|lia|by left]. by rewrite Hlen.
Qed.

Lemma read_ipv4_segments l r :
  Forall is_segment l → stops r → read_ipv4 (segments_text l +:+ r) = None.
Proof.
  intros Hl Hr. destruct Hl as [|z l Hz Hl]; [by apply read_ipv4_stops|]. cbn [segments_text].
  rewrite string_app_assoc. destruct (hex16_reads z Hz) as [_ Hdot].
  destruct (more_segments_app l r Hr) as (H10 & _ & Hd).
  by apply read_ipv4_needs_dot.
Qed.

(** *** The display of an IPv6 address, in three shapes *)

Inductive v6_display_view (a : Ipv6Addr) : string → Prop :=
  | ViewMapped x :
      v6_of_segments ([0; 0; 0; 0; 0; 65535]%Z ++
        [be16 (v4_a x) (v4_b x); be16 (v4_c x) (v4_d x)]) = Some a →
      v6_display_view a ("::" +:+ "ffff:" +:+ v4_display x)
  | ViewCompressed head n tail :
      v6_segments a = head ++ replicate n 0%Z ++ tail → (0 < n)%nat →
      v6_display_view a (segments_text head +:+ "::" +:+ segments_text tail)
  | ViewFull : v6_display_view a (segments_text (v6_segments a)).

Lemma v6_display_viewed a : v6_display_view a (v6_display a).
Proof.
  unfold v6_display. case_bool_decide as Hm.
  - apply (ViewMapped a (Ipv4 (v6_12 a) (v6_13 a) (v6_14 a) (v6_15 a))).
    rewrite <-Hm, <-(v6_of_segments_segments a). by destruct a.
  - destruct (zero_run_go _ _ _ _) as [start len] eqn:Hrun. case_bool_decide as Hlen.
    + assert (zero_run (v6_segments a) (start, len)) as Hz.
      { rewrite <-Hrun. apply zero_run_go_sound; [done| | |by left];
          (split; simpl; [lia|intros; lia]). }
      rewrite !join_segments_text. apply (ViewCompressed a _ len); [|lia].
      by apply zero_run_split.
    + rewrite join_segments_text. apply ViewFull.
Qed.

Lemma read_ipv6_mapped x :
  read_ipv6 ("::" +:+ "ffff:" +:+ v4_display x) =
    (a ← v6_of_segments ([0; 0; 0; 0; 0; 65535]%Z ++
           [be16 (v4_a x) (v4_b x); be16 (v4_c x) (v4_d x)]); Some (a, "")).
Proof.
  unfold read_ipv6. rewrite (read_groups_stops 8 0) by (right; eauto).
  change ("::" +:+ ?s) with (String ":" (String ":" s)).
  cbn [length Nat.eqb read_given_char Ascii.eqb Bool.eqb mbind option_bind Nat.add Nat.sub].
  assert (Hff : read_number 16 4 true u16_max ("ffff:" +:+ v4_display x)
                = Some (65535%Z, ":" +:+ v4_display x)).
  { apply (read_number_app 16 4 true u16_max 65535 "ffff" (":" +:+ v4_display x)); done. }
  cbn [read_groups Nat.eqb]. unfold read_separator at 1 2. rewrite Hff.
  change (read_ipv4 ("ffff:" +:+ v4_display x)) with (@None (Ipv4Addr * string)).
  unfold read_separator at 1. change (read_given_char ":" (":" +:+ v4_display x)) with
    (Some (v4_display x)).
  cbn [mbind option_bind].
  rewrite <-(string_app_nil_r (v4_display x)), read_ipv4_display by done. done.
Qed.

Lemma read_ipv6_display a : read_ipv6 (v6_display a) = Some (a, "").
Proof.
  pose proof (v6_segments_are_segments a) as Hseg.
  destruct (v6_display_viewed a) as [x Hx|head n tail Hs Hn|].
  - by rewrite read_ipv6_mapped, Hx.
  - rewrite Hs in Hseg. apply Forall_app in Hseg as [Hh [_ Ht]%Forall_app].
    rewrite (read_segments_compressed head tail n), <-Hs, v6_of_segments_segments; try done.
    apply (f_equal length) in Hs. rewrite !length_app, length_replicate in Hs.
    change (length (v6_segments a)) with 8%nat in Hs. lia.
  - by rewrite read_segments_full, v6_of_segments_segments.
Qed.

Lemma read_ipv4_v6_display a : read_ipv4 (v6_display a) = None.
Proof.
  pose proof (v6_segments_are_segments a) as Hseg.
  destruct (v6_display_viewed a) as [x Hx|head n tail Hs Hn|].
  - apply read_ipv4_stops. right. eauto.
  - rewrite Hs in Hseg. apply Forall_app in Hseg as [Hh _].
    apply read_ipv4_segments; [done|right; eauto].
  - rewrite <-(string_app_nil_r (segments_text _)).
    apply read_ipv4_segments; [done|by left].
Qed.

Lemma parse_ip_display a : parse_ip_addr (ip_display a) = Some a.
Proof.
  unfold parse_ip_addr. destruct a as [a|a]; simpl.
  - by rewrite <-(string_app_nil_r (v4_display a)), read_ipv4_display.
  - by rewrite read_ipv4_v6_display, read_ipv6_display.
Qed.

Lemma parse_ipv6_display a : parse_ipv6_addr (v6_display a) = Some a.
Proof. unfold parse_ipv6_addr. by rewrite read_ipv6_display. Qed.

Lemma ip_display_inj a b : ip_display a = ip_display b → a = b.
Proof. intros H. apply (f_equal parse_ip_addr) in H. rewrite !parse_ip_display in H. congruence. Qed.

(** *** Numbers *)

Definition is_digit (c : ascii) : bool := between 48 57 (char_code c).

Lemma digit_char d :
  (d < 10)%N →
  to_digit 10 (pretty_N_char d) = Some (Z.of_N d) ∧ is_digit (pretty_N_char d) = true ∧
  Ascii.eqb (pretty_N_char d) "+" = false.
Proof.
  intros Hd.
  assert (d = 0 ∨ d = 1 ∨ d = 2 ∨ d = 3 ∨ d = 4 ∨ d = 5 ∨ d = 6 ∨ d = 7 ∨ d = 8 ∨ d = 9)%N by lia.
  naive_solver.
Qed.

Lemma pretty_N_go_reads max x s :
  (Z.of_N x ≤ max)%Z → parse_digits max 0 (pretty_N_go x s) = parse_digits max (Z.of_N x) s.
Proof.
  revert s. induction (N.lt_wf_0 x) as [x _ IH]; intros s Hx.
  destruct (decide (x = 0)%N) as [->|Hne]; [by rewrite pretty_N_go_0|].
  rewrite pretty_N_go_step by lia.
  rewrite IH by (try (apply N.div_lt; lia); rewrite N2Z.inj_div; zlia). simpl.
  destruct (digit_char (x `mod` 10)%N) as (-> & _ & _); [by apply N.mod_lt|].
  rewrite N2Z.inj_div, N2Z.inj_mod.
  replace (Z.of_N x `div` Z.of_N 10 * 10 + Z.of_N x `mod` Z.of_N 10)%Z with (Z.of_N x) by zlia.
  by rewrite bool_decide_true.
Qed.

(** A displayed number is not empty, and all of its characters are digits. *)
Definition digits_text (s : string) : bool :=
  match s with EmptyString => false | String c _ => is_digit c && all_digits s end.

Lemma pretty_N_go_digits x s :
  all_digits s = true → (0 < x)%N ∨ digits_text s = true → digits_text (pretty_N_go x s) = true.
Proof.
  revert s. induction (N.lt_wf_0 x) as [x _ IH]; intros s Hs Hx.
  destruct (decide (x = 0)%N) as [->|Hne].
  - rewrite pretty_N_go_0. destruct Hx as [?|?]; [lia|done].
  - rewrite pretty_N_go_step by lia.
    destruct (digit_char (x `mod` 10)%N) as (_ & Hd & _); [by apply N.mod_lt|].
    apply IH; [apply N.div_lt; lia| |right]; simpl; unfold is_digit in Hd; unfold is_digit;
      by rewrite Hd, Hs.
Qed.

Lemma display_Z_digits z : (0 ≤ z)%Z → digits_text (display_Z z) = true.
Proof.
  intros Hz. destruct z as [|p|p]; [done| |lia].
  unfold display_Z, pretty, pretty_Z, pretty, pretty_positive, pretty, pretty_N.
  rewrite decide_False by done. apply pretty_N_go_digits; [done|left; lia].
Qed.

Lemma digits_text_all s : digits_text s = true → s ≠ "" ∧ all_digits s = true.
Proof. destruct s; [done|]. by intros [_ ?]%andb_prop. Qed.

Lemma parse_uint_display max z : (0 ≤ z ≤ max)%Z → parse_uint max (display_Z z) = Ok z.
Proof.
  intros Hz. pose proof (display_Z_digits z ltac:(lia)) as Hd. unfold parse_uint.
  assert (Hp : parse_digits max 0 (display_Z z) = Ok z).
  { destruct z as [|p|p]; [|simpl in *|lia].
    - change (display_Z 0) with (String "0" ""). cbn [parse_digits].
      change (to_digit 10 "0") with (Some 0%Z). cbv iota beta.
      rewrite bool_decide_true; [done|lia].
    - unfold display_Z, pretty, pretty_Z, pretty, pretty_positive, pretty, pretty_N.
      rewrite decide_False by done. rewrite pretty_N_go_reads; [done|simpl; lia]. }
  destruct (display_Z z) as [|c s]; [done|].
  destruct (Ascii.eqb c "+") eqn:Hc; [|done].
  apply Ascii.eqb_eq in Hc. by subst c.
Qed.

(** What [parse] accepts lies within the width of the integer. *)
Lemma to_digit_nonneg radix c d : to_digit radix c = Some d → (0 ≤ d)%Z.
Proof.
  unfold to_digit, between. intros H. repeat case_match; simplify_eq;
    rewrite andb_true_iff, !Z.leb_le in *; lia.
Qed.

Lemma parse_digits_bounds max s acc z :
  (0 ≤ acc ≤ max)%Z → parse_digits max acc s = Ok z → (0 ≤ z ≤ max)%Z.
Proof.
  revert acc. induction s as [|c s IH]; intros acc Hacc; simpl; [by intros [= <-]|].
  destruct (to_digit 10 c) as [d|] eqn:Hd; [|done]. apply to_digit_nonneg in Hd.
  case_bool_decide; [|done]. apply IH. lia.
Qed.

Lemma parse_uint_bounds max s z :
  (0 ≤ max)%Z → parse_uint max s = Ok z → (0 ≤ z ≤ max)%Z.
Proof.
  intros Hm. unfold parse_uint. repeat case_match; try done; apply parse_digits_bounds; lia.
Qed.

Lemma returns_parse_uint max s : returns (parse_uint max s).
Proof.
  assert (Hd : ∀ s acc, returns (parse_digits max acc s)).
  { clear s. induction s as [|c s IH]; intros acc; simpl; [done|].
    destruct (to_digit 10 c); [|done]. by case_bool_decide. }
  unfold parse_uint. repeat case_match; done.
Qed.

(** *** Which characters occur in a text *)

Lemma lacks_app c s t : lacks c (s +:+ t) = lacks c s && lacks c t.
Proof.
  induction s as [|c' s IH]; [done|]. rewrite string_cons_app. simpl. by rewrite IH, andb_assoc.
Qed.

Lemma all_digits_app s t : all_digits (s +:+ t) = all_digits s && all_digits t.
Proof.
  induction s as [|c s IH]; [done|]. rewrite string_cons_app. simpl. by rewrite IH, andb_assoc.
Qed.

Lemma all_digits_lacks c s : is_digit c = false → all_digits s = true → lacks c s = true.
Proof.
  intros Hc. induction s as [|c' s IH]; simpl; [done|]. intros [Hc' Hs]%andb_prop.
  rewrite IH, andb_true_r by done. apply negb_true_iff, Ascii.eqb_neq. intros ->.
  unfold is_digit in Hc. congruence.
Qed.

Lemma rsplit_once_lacks c s : lacks c s = true → rsplit_once c s = None.
Proof.
  induction s as [|c' s IH]; simpl; [done|]. intros [Hc Hs]%andb_prop. rewrite IH by done.
  apply negb_true_iff in Hc. by rewrite Ascii.eqb_sym, Hc.
Qed.

Lemma rsplit_once_app c s t :
  lacks c t = true → rsplit_once c (s +:+ String c t) = Some (s, t).
Proof.
  intros Ht. induction s as [|c' s IH].
  - rewrite string_nil_app. simpl. by rewrite rsplit_once_lacks, Ascii.eqb_refl.
  - rewrite string_cons_app. simpl. by rewrite IH.
Qed.

Lemma display_Z_lacks c z : is_digit c = false → (0 ≤ z)%Z → lacks c (display_Z z) = true.
Proof.
  intros Hc Hz. apply all_digits_lacks; [done|]. by apply digits_text_all, display_Z_digits.
Qed.

Lemma v4_display_lacks c a :
  is_digit c = false → Ascii.eqb c "." = false → lacks c (v4_display a) = true.
Proof.
  intros Hc Hd. unfold v4_display. rewrite Ascii.eqb_sym in Hd.
  assert (Hu : ∀ b, lacks c (display_Z (u8 b)) = true)
    by (intros b; apply display_Z_lacks; [done|apply u8_bounds]).
  rewrite !lacks_app, !Hu. cbn [lacks]. by rewrite Hd.
Qed.

Lemma v4_display_not_digits a : all_digits (v4_display a) = false.
Proof. unfold v4_display. rewrite !all_digits_app. simpl. by rewrite !andb_false_r. Qed.

Lemma segments_text_lacks c l :
  hex_char c = false → Ascii.eqb c ":" = false → Forall is_segment l →
  lacks c (segments_text l) = true.
Proof.
  intros Hc Hcolon Hl. rewrite Ascii.eqb_sym in Hcolon.
  assert (Hm : lacks c (more_segments l) = true).
  { induction Hl as [|z l Hz Hl IH]; [done|]. cbn [more_segments].
    rewrite !lacks_app, IH, (all_hex_lacks _ _ Hc (hex16_chars z)). cbn [lacks]. by rewrite Hcolon. }
  destruct Hl as [|z l Hz Hl]; [done|]. cbn [segments_text more_segments] in *.
  rewrite !lacks_app in *. by apply andb_prop in Hm as [_ ->].
Qed.

Lemma v6_display_lacks c a :
  hex_char c = false → Ascii.eqb c ":" = false → Ascii.eqb c "." = false →
  lacks c (v6_display a) = true.
Proof.
  intros Hc Hcolon Hdot. pose proof (v6_segments_are_segments a) as Hseg.
  assert (is_digit c = false) as Hdig
    by (unfold hex_char in Hc; by apply orb_false_elim in Hc as [? _]).
  assert (lacks c "::" = true) as H2 by (cbn [lacks]; rewrite Ascii.eqb_sym in Hcolon; by rewrite Hcolon).
  destruct (v6_display_viewed a) as [x Hx|head n tail Hs Hn|]; rewrite ?lacks_app.
  - change "ffff:" with ("ffff" +:+ ":").
    rewrite H2, v4_display_lacks, lacks_app by done.
    rewrite (all_hex_lacks c "ffff") by done.
    rewrite Ascii.eqb_sym in Hcolon. cbn [lacks]. by rewrite Hcolon.
  - rewrite Hs in Hseg. apply Forall_app in Hseg as [Hh [_ Ht]%Forall_app].
    by rewrite H2, !segments_text_lacks.
  - by apply segments_text_lacks.
Qed.

Lemma v6_display_not_digits a : all_digits (v6_display a) = false.
Proof.
  destruct (v6_display_viewed a) as [x Hx|head n tail Hs Hn|]; rewrite ?all_digits_app.
  - done.
  - simpl. by rewrite andb_false_r.
  - unfold v6_segments. simpl. rewrite !all_digits_app. simpl. by rewrite !andb_false_r.
Qed.

Lemma ip_display_lacks c a :
  hex_char c = false → Ascii.eqb c ":" = false → Ascii.eqb c "." = false →
  lacks c (ip_display a) = true.
Proof.
  intros Hc Hcolon Hdot. destruct a; [|by apply v6_display_lacks].
  apply v4_display_lacks; [|done]. unfold hex_char in Hc. by apply orb_false_elim in Hc as [? _].
Qed.

Lemma ip_display_not_digits a : all_digits (ip_display a) = false.
Proof. destruct a; [apply v4_display_not_digits|apply v6_display_not_digits]. Qed.

Lemma has_nul_lacks s : has_nul s = negb (lacks Ascii.zero s).
Proof.
  induction s as [|c s IH]; [done|]. cbn [has_nul lacks]. rewrite IH, negb_andb, negb_involutive.
  f_equal. destruct (Ascii.eqb_spec c Ascii.zero) as [->|Hne]; [done|].
  apply Z.eqb_neq. intros Hz. apply Hne. unfold char_code in Hz.
  rewrite <-(Ascii.ascii_N_embedding c). by replace (Ascii.N_of_ascii c) with 0%N by lia.
Qed.

Lemma ip_display_has_no_nul a : has_nul (ip_display a) = false.
Proof. by rewrite has_nul_lacks, ip_display_lacks. Qed.

(** ** Text of an interface

    An address, an IPv6 interface index, or an IPv6 address with the index as
    its scope. *)
Definition is_ipv6 (a : IpAddr) : bool := match a with V4 _ => false | V6 _ => true end.

Definition interface_text (interface : option IpAddr) (index : option Z) : option string :=
  match interface, index with
  | Some ip, None => Some (ip_display ip)
  | None, Some i => Some (display_Z i)
  | Some ip, Some i => Some (ip_display ip +:+ "%" +:+ display_Z i)
  | None, None => None
  end.

(** An interface index names an IPv6 interface, alone or as the scope of an
    IPv6 address. *)
Definition interface_request_ok (group : IpAddr) (interface : option IpAddr) (index : option Z)
    : Prop :=
  match index with
  | None => True
  | Some i =>
      is_ipv6 group = true ∧ (1 ≤ i ≤ u32_max)%Z ∧
      match interface with Some ip => is_ipv6 ip = true | None => True end
  end.

(** ** Words

    Texts of characters between [*] and [~], separated by white space. *)
Definition plain_char (c : ascii) : bool := between 42 126 (char_code c).

Fixpoint plain (s : string) : bool :=
  match s with EmptyString => true | String c s => plain_char c && plain s end.

Definition is_word (s : string) : Prop := plain s = true ∧ s ≠ "".

(** Characters of one byte. *)
Fixpoint narrow (s : string) : bool :=
  match s with EmptyString => true | String c s => (char_code c <? 192)%Z && narrow s end.

Fixpoint singles (s : string) : list string :=
  match s with EmptyString => [] | String c s => String c "" :: singles s end.

Lemma chars_app s t : narrow s = true → chars (s +:+ t) = singles s ++ chars t.
Proof.
  induction s as [|c s IH]; [done|]. cbn [narrow]. intros [Hc Hs]%andb_prop.
  rewrite string_cons_app. cbn [chars singles]. rewrite Hc, IH by done. done.
Qed.

Lemma chars_narrow s : narrow s = true → chars s = singles s.
Proof. intros Hs. rewrite <-(string_app_nil_r s), chars_app, app_nil_r by done. by rewrite string_app_nil_r. Qed.

Lemma of_chars_singles s : of_chars (singles s) = s.
Proof.
  induction s as [|c s IH]; [done|]. change (String c "" +:+ of_chars (singles s) = String c s).
  by rewrite IH.
Qed.

Lemma singles_app s t : singles (s +:+ t) = singles s ++ singles t.
Proof. induction s as [|c s IH]; [done|]. rewrite string_cons_app. cbn. by rewrite IH. Qed.

Lemma narrow_app s t : narrow (s +:+ t) = narrow s && narrow t.
Proof. induction s as [|c s IH]; [done|]. rewrite string_cons_app. cbn. by rewrite IH, andb_assoc. Qed.

Lemma plain_narrow s : plain s = true → narrow s = true.
Proof.
  induction s as [|c s IH]; [done|]. cbn. intros [Hc Hs]%andb_prop. rewrite IH by done.
  unfold plain_char, between in Hc. apply andb_prop in Hc as [_ Hc%Z.leb_le].
  by rewrite andb_true_r, (proj2 (Z.ltb_lt _ _)) by lia.
Qed.

Lemma plain_char_not_white c : plain_char c = true → white_space (String c "") = false.
Proof.
  unfold plain_char, between. intros [H1%Z.leb_le H2%Z.leb_le]%andb_prop.
  unfold white_space. cbn [is_blank]. unfold between.
  replace (char_code c <=? 13)%Z with false by (symmetry; apply Z.leb_gt; lia).
  replace (char_code c =? 32)%Z with false by (symmetry; apply Z.eqb_neq; lia).
  by rewrite andb_false_r.
Qed.

Lemma plain_lacks c s : plain_char c = false → plain s = true → lacks c s = true.
Proof.
  intros Hc. induction s as [|c' s IH]; [done|]. cbn. intros [Hc' Hs]%andb_prop.
  rewrite IH, andb_true_r by done. apply negb_true_iff, Ascii.eqb_neq. intros ->. congruence.
Qed.

Lemma plain_digits s : all_digits s = true → plain s = true.
Proof.
  induction s as [|c s IH]; [done|]. cbn. intros [Hc Hs]%andb_prop. rewrite IH by done.
  unfold plain_char, between in *. apply andb_prop in Hc as [H1%Z.leb_le H2%Z.leb_le].
  by rewrite andb_true_r, !(proj2 (Z.leb_le _ _)) by lia.
Qed.

Lemma display_Z_word z : (0 ≤ z)%Z → is_word (display_Z z).
Proof.
  intros Hz. destruct (digits_text_all _ (display_Z_digits z Hz)). split; [by apply plain_digits|done].
Qed.

(** *** Splitting and trimming *)

Lemma split_chars_plain s l w : plain s = true →
  split_chars (singles s ++ l) w = split_chars l (w +:+ s).
Proof.
  revert w. induction s as [|c s IH]; intros w; cbn [singles app plain].
  - by rewrite string_app_nil_r.
  - intros [Hc Hs]%andb_prop. cbn [split_chars]. rewrite plain_char_not_white by done.
    rewrite IH by done. by rewrite string_app_assoc, string_cons_app, string_nil_app.
Qed.

Lemma split_drop_start l : split_chars (drop_white_space l) "" = split_chars l "".
Proof. induction l as [|c l IH]; [done|]. cbn. by destruct (white_space c) eqn:E; cbn; rewrite ?E. Qed.

Lemma split_snoc_white l c w : white_space c = true → split_chars (l ++ [c]) w = split_chars l w.
Proof.
  intros Hc. revert w. induction l as [|d l IH]; intros w; cbn [app split_chars].
  - rewrite Hc. cbn. by rewrite app_nil_r.
  - destruct (white_space d); by rewrite IH.
Qed.

Lemma split_drop_end l w : split_chars (rev (drop_white_space (rev l))) w = split_chars l w.
Proof.
  induction l as [|c l IH] using rev_ind; [done|]. rewrite rev_app_distr. cbn [rev app drop_white_space].
  destruct (white_space c) eqn:E; [by rewrite IH, split_snoc_white|].
  by rewrite <- (rev_involutive (l ++ [c])), rev_app_distr.
Qed.

Lemma drop_white_space_sub l x : x ∈ drop_white_space l → x ∈ l.
Proof. induction l as [|c l IH]; [done|]. cbn. case_match; [right; auto|done]. Qed.

Lemma chars_of_chars l : Forall (λ c, ∃ a, c = String a "" ∧ narrow c = true) l → chars (of_chars l) = l.
Proof.
  induction 1 as [|c l (a & -> & Ha) Hl IH]; [done|].
  cbn [of_chars foldr]. fold (of_chars l). by rewrite chars_app, IH.
Qed.

Lemma singles_narrow s : narrow s = true → Forall (λ c, ∃ a, c = String a "" ∧ narrow c = true) (singles s).
Proof.
  induction s as [|c s IH]; [by constructor|]. cbn [narrow singles]. intros [Hc Hs]%andb_prop.
  constructor; [|by apply IH]. exists c. split; [done|]. cbn. by rewrite Hc.
Qed.

Lemma split_whitespace_trim s : narrow s = true → split_whitespace (trim s) = split_whitespace s.
Proof.
  intros Hs. unfold split_whitespace, trim. rewrite chars_of_chars.
  - unfold trim_chars. by rewrite split_drop_end, split_drop_start.
  - rewrite chars_narrow by done. apply Forall_forall. intros c Hc.
    pose proof (singles_narrow s Hs) as Hall. rewrite Forall_forall in Hall. apply Hall.
    unfold trim_chars in Hc. rewrite list_elem_of_In, <- in_rev, <- list_elem_of_In in Hc.
    apply drop_white_space_sub in Hc.
    rewrite list_elem_of_In, <- in_rev, <- list_elem_of_In in Hc. by apply drop_white_space_sub.
Qed.

(** Words with a space before each. *)
Definition spaced (ts : list string) : string := foldr (λ t s, " " +:+ t +:+ s) "" ts.

Lemma spaced_narrow ts : Forall is_word ts → narrow (spaced ts) = true.
Proof.
  induction 1 as [|t ts [Ht _] _ IH]; [done|]. cbn [spaced foldr]. fold (spaced ts).
  rewrite !narrow_app, (plain_narrow t Ht), IH. vm_compute. reflexivity.
Qed.

Lemma split_spaced ts : ∀ w, Forall is_word ts →
  split_chars (singles (spaced ts) ++ [String line_feed ""]) w =
    match w with EmptyString => [] | _ => [w] end ++ ts.
Proof.
  induction ts as [|t ts IH]; intros w Hts; cbn [spaced foldr].
  - cbn. by rewrite !app_nil_r.
  - fold (spaced ts). inversion Hts as [|? ? [Ht Hne] Hts']; subst. rewrite string_cons_app, string_nil_app.
    cbn [singles app]. change (split_chars (String " " "" :: ?l) w) with
      (match w with EmptyString => [] | _ => [w] end ++ split_chars l "").
    rewrite singles_app, <- app_assoc, split_chars_plain, string_nil_app, IH by done.
    by destruct t.
Qed.

(** The words of a line. *)
Lemma split_whitespace_spaced ts : Forall is_word ts →
  split_whitespace (trim (spaced ts +:+ String line_feed "")) = ts.
Proof.
  intros Hts. rewrite split_whitespace_trim by (by rewrite narrow_app, spaced_narrow).
  unfold split_whitespace. rewrite chars_narrow, singles_app by (by rewrite narrow_app, spaced_narrow).
  by apply (split_spaced ts "").
Qed.

Lemma drop_no_white l : Forall (λ c, white_space c = false) l → drop_white_space l = l.
Proof. by induction 1 as [|c l Hc _ _]; cbn; rewrite ?Hc. Qed.

Lemma singles_plain s : plain s = true → Forall (λ c, white_space c = false) (singles s).
Proof.
  induction s as [|c s IH]; [by constructor|]. cbn. intros [Hc Hs]%andb_prop.
  constructor; [by apply plain_char_not_white|by apply IH].
Qed.

(** A value after a tab. *)
Lemma trim_tab s : plain s = true → trim (String (Ascii.ascii_of_nat 9) s) = s.
Proof.
  intros Hs. unfold trim, trim_chars. rewrite chars_narrow by (cbn; by rewrite plain_narrow).
  cbn [singles]. change (drop_white_space (String (Ascii.ascii_of_nat 9) "" :: singles s))
    with (drop_white_space (singles s)).
  rewrite (drop_no_white (singles s)) by (by apply singles_plain).
  rewrite drop_no_white by (by apply Forall_rev, singles_plain).
  by rewrite rev_involutive, of_chars_singles.
Qed.

(** *** Lines *)

(** Lines that end with a line feed. *)
Definition unlines (l : list string) : string :=
  foldr (λ line s, line +:+ String line_feed "" +:+ s) "" l.

Definition is_line (s : string) : Prop := lacks line_feed s = true ∧ lacks carriage_return s = true.

Lemma strip_cr_lacks s : lacks carriage_return s = true → strip_cr s = s.
Proof.
  induction s as [|c s IH]; [done|]. cbn [lacks strip_cr].
  destruct (Ascii.eqb c carriage_return) eqn:E; [done|]. cbn. intros Hs.
  destruct s; [done|]. by rewrite IH.
Qed.

Lemma str_lines_line s : ∀ current rest, lacks line_feed s = true →
  str_lines_from current (s +:+ String line_feed rest) =
  strip_cr (current +:+ s) :: str_lines_from "" rest.
Proof.
  induction s as [|c s IH]; intros current rest Hs; rewrite ?string_cons_app, ?string_nil_app;
    cbn [str_lines_from].
  - by rewrite Ascii.eqb_refl, string_app_nil_r.
  - cbn [lacks] in Hs. destruct (Ascii.eqb c line_feed); [done|].
    by rewrite IH, string_app_assoc, string_cons_app, string_nil_app by done.
Qed.

Lemma str_lines_unlines l : Forall is_line l → str_lines (unlines l) = l.
Proof.
  induction 1 as [|s l [Hl Hc] _ IH]; [done|]. cbn [unlines foldr]. fold (unlines l).
  rewrite string_cons_app, string_nil_app. unfold str_lines.
  rewrite str_lines_line, string_nil_app, strip_cr_lacks by done. by rewrite <- IH at 2.
Qed.

Lemma plain_line s : plain s = true → is_line s.
Proof. intros Hs. split; by apply plain_lacks. Qed.

Lemma strip_prefix_app p s : strip_prefix p (p +:+ s) = Some s.
Proof.
  induction p as [|c p IH]; [done|]. rewrite string_cons_app. cbn. by rewrite Ascii.eqb_refl.
Qed.
