(* ===== verification/RecvArgs.v ===== *)
(** * Command-line arguments of the receivers
    ([src/src/bin/common/recv_args.rs])

    A group, a port unless complete datagrams are received, and a source and
    an interface, each either positional or behind its flag. Looking an
    interface name up is a call of the operating system; every error is a
    message. *)

From Stdlib Require Import Strings.Ascii.
From S2P Require Import Prelude Hoare Net Config Os SampleOs Text.

Local Open Scope string_scope.
Local Open Scope list_scope.

Record ReceiveCliArgs := mkReceiveArgs {
  ra_group : IpAddr;
  ra_dst_port : Z;
  ra_source : option IpAddr;
  ra_interface : option IpAddr;
  ra_interface_index : option Z }.

Record RawReceiveCliArgs := mkRawReceiveArgs {
  rra_group : IpAddr;
  rra_source : option IpAddr;
  rra_interface : option IpAddr;
  rra_interface_index : option Z }.

#[global] Instance ReceiveCliArgs_eq_dec : EqDecision ReceiveCliArgs.
Proof. solve_decision. Defined.

Definition parse_port (value : string) : Res string Z :=
  let? port := res_map_err (λ e, "invalid dst_port '" +:+ value +:+ "': " +:+ int_error_text e)
                 (parse_uint u16_max value) in
  if bool_decide (port = 0)%Z then Err "dst_port must not be 0" else Ok port.

Definition parse_ip (name value : string) : Res string IpAddr :=
  ok_or (parse_ip_addr value)
        ("invalid " +:+ name +:+ " '" +:+ value +:+ "': invalid IP address syntax").

(** The first pass of [parse_mixed_args]: flags with their values, and the
    other arguments. *)
Fixpoint split_args (remainder : list string) : Res string (list string * list string) :=
  match remainder with
  | [] => Ok ([], [])
  | arg :: rest =>
      if starts_with "--" arg then
        match rest with
        | [] => Err ("missing value after " +:+ arg)
        | value :: rest =>
            let? (positional, flagged) := split_args rest in
            Ok (positional, arg :: value :: flagged)
        end
      else
        let? (positional, flagged) := split_args rest in
        Ok (arg :: positional, flagged)
  end.

Section recv_args.
Context `{Os}.

Abbreviation Args A := (M World string A).

Definition interface_name_to_index (name : string) : Args Z :=
  if has_nul name then mthrow "interface name must not contain NUL bytes"
  else λ w, let '(index, w') := if_nametoindex name w in
            (if bool_decide (index = 0)%Z then Err "unknown interface name" else Ok index, w').

Definition parse_interface_scope (value : string) : Args Z :=
  if all_digits value then
    let* scope := mlift (res_map_err
      (λ e, "invalid interface index '" +:+ value +:+ "': " +:+ int_error_text e)
      (parse_uint u32_max value)) in
    if bool_decide (scope = 0)%Z then mthrow "interface index must not be 0" else mpure scope
  else mmap_err (λ e, "invalid interface scope '" +:+ value +:+ "': " +:+ e)
                (interface_name_to_index value).

(** [ParsedInterface]. *)
Abbreviation ParsedInterface := (option IpAddr * option Z)%type.

Definition parse_interface_value (group : IpAddr) (value : string) : Args ParsedInterface :=
  let address := mmap (λ ip, (Some ip, None)) (mlift (parse_ip "interface" value)) in
  if is_ipv6 group then
    match rsplit_once "%" value with
    | Some (addr, scope) =>
        let* addr := mlift (ok_or (parse_ipv6_addr addr)
          ("invalid interface '" +:+ value +:+ "': invalid IPv6 address syntax")) in
        let* scope := parse_interface_scope scope in
        mpure (Some (V6 addr), Some scope)
    | None =>
        if all_digits value then mmap (λ scope, (None, Some scope)) (parse_interface_scope value)
        else address
    end
  else address.

(** [ParsedSourceAndInterface]. *)
Abbreviation ParsedSourceAndInterface := (option IpAddr * option IpAddr * option Z)%type.

(** The loop of [parse_flag_args]. *)
Fixpoint flag_loop (group : IpAddr) (remainder : list string) (acc : ParsedSourceAndInterface)
    : Args ParsedSourceAndInterface :=
  match remainder with
  | [] => mpure acc
  | arg :: rest =>
      let '(source, interface, interface_index) := acc in
      if String.eqb arg "--source" then
        match rest with
        | [] => mthrow "missing value after --source"
        | value :: rest =>
            let* source := mlift (parse_ip "source" value) in
            flag_loop group rest (Some source, interface, interface_index)
        end
      else if String.eqb arg "--interface" then
        match rest with
        | [] => mthrow "missing value after --interface"
        | value :: rest =>
            let* parsed := parse_interface_value group value in
            flag_loop group rest (source, parsed.1, parsed.2)
        end
      else mthrow ("unexpected argument '" +:+ arg +:+ "'")
  end.

Definition parse_flag_args (group : IpAddr) (remainder : list string)
    : Args ParsedSourceAndInterface :=
  flag_loop group remainder (None, None, None).

(** [if x.is_none() && let Some(value) = positional.next()]: the value to
    parse, and the arguments that are left. *)
Definition next_if_none {A : Type} (x : option A) (positional : list string)
    : option string * list string :=
  match x, positional with
  | None, value :: rest => (Some value, rest)
  | _, _ => (None, positional)
  end.

Definition parse_mixed_args (group : IpAddr) (remainder : list string)
    : Args ParsedSourceAndInterface :=
  let* (positional, flagged) := mlift (split_args remainder) in
  let* (source, interface, interface_index) := parse_flag_args group flagged in
  let '(value, positional) := next_if_none source positional in
  let* source := match value with
                 | Some value => mmap Some (mlift (parse_ip "source" value))
                 | None => mpure source
                 end in
  let '(value, positional) := next_if_none interface positional in
  let* (interface, interface_index) :=
    match value with
    | Some value => parse_interface_value group value
    | None => mpure (interface, interface_index)
    end in
  match positional with
  | [] => mpure (source, interface, interface_index)
  | _ :: _ => mthrow "invalid arguments"
  end.

Definition not_multicast (group : IpAddr) : string :=
  "group address " +:+ ip_display group +:+ " is not multicast".

Definition parse_receive_cli_args (args : list string) : Args ReceiveCliArgs :=
  match args with
  | _ :: group :: port :: remainder =>
      let* group := mlift (parse_ip "group" group) in
      let* dst_port := mlift (parse_port port) in
      let* (source, interface, interface_index) := parse_mixed_args group remainder in
      mlift (guard (negb (is_multicast group)) (not_multicast group)) ;;*
      mpure (mkReceiveArgs group dst_port source interface interface_index)
  | _ => mthrow "invalid arguments"
  end.

Definition parse_raw_receive_cli_args (args : list string) : Args RawReceiveCliArgs :=
  match args with
  | _ :: group :: remainder =>
      let* group := mlift (parse_ip "group" group) in
      let* (source, interface, interface_index) := parse_mixed_args group remainder in
      mlift (guard (negb (is_multicast group)) (not_multicast group)) ;;*
      mpure (mkRawReceiveArgs group source interface interface_index)
  | _ => mthrow "invalid arguments"
  end.

(** ** Around the parsers

    The programs collect [std::env::args], which unwinds on an argument that
    is not Unicode; they index their arguments for the usage message, which
    unwinds without a program name; they print with [println!] and
    [eprintln!], which unwind when the write fails; and they end with the
    message of an error. An argument of the process is a byte string. *)

Definition collect_args {S : Type} (args : list string) : M S string (list string) :=
  if forallb utf8_valid args then mpure args else mpanic.

(** Standard output and standard error: whether the write of the [n]-th line
    succeeds. *)
Class Terminal := { accepts : nat → bool }.
Class TerminalLaws {terminal : Terminal} : Prop := { terminal_law n : accepts n = true }.

(** A terminal that shows every line. *)
Definition open_terminal : Terminal := {| accepts _ := true |}.
Lemma open_terminal_laws : TerminalLaws (terminal := open_terminal).
Proof. done. Qed.

Definition write_line {terminal : Terminal} {S : Type} (lines_written : S → nat) (write : S → S) : M S string unit := λ s,
  if accepts (lines_written s) then (Ok (), write s) else (Panic, s).

Definition or_usage {S A : Type} (min_args : nat) (print_usage : string → M S string unit)
    (parse : list string → M S string A) (args : list string) : M S string A :=
  let usage := let* program := mlift (expect (args !! 0)) in print_usage program in
  if bool_decide (length args < min_args) then usage ;;* mthrow "invalid arguments"
  else
    let* r := mcatch (parse args) in
    match r with
    | inl parsed => mpure parsed
    | inr err => usage ;;* mthrow err
    end.

(** [main]: the exit code, after a message for an error. *)
Definition exit_with {S : Type} (name : string) (eprintln : string → M S string unit)
    (run : M S string unit) : M S string Z :=
  let* r := mcatch run in
  match r with
  | inl _ => mpure 0%Z
  | inr err => eprintln (name +:+ ": " +:+ err) ;;* mpure 1%Z
  end.

Lemma exit_with_eq {S : Type} name eprintln (run : M S string unit) s :
  exit_with name eprintln run s =
    match run s with
    | (Ok _, s') => (Ok 0%Z, s')
    | (Err err, s') => (eprintln (name +:+ ": " +:+ err) ;;* mpure 1%Z) s'
    | (Panic, s') => (Panic, s')
    | (OutOfFuel, s') => (OutOfFuel, s')
    end.
Proof. unfold exit_with, mthen at 1, mcatch. by destruct (run s) as [[] s']. Qed.

Lemma write_line_accepted {terminal : Terminal} {laws : TerminalLaws} {S : Type} lines_written (write : S → S) s :
  write_line lines_written write s = (Ok (), write s).
Proof. unfold write_line. by rewrite terminal_law. Qed.

Lemma collect_args_unicode {S : Type} args (s : S) :
  forallb utf8_valid args = true → collect_args args s = (Ok args, s).
Proof. unfold collect_args. by intros ->. Qed.

Lemma collect_args_refuses {S : Type} args arg :
  arg ∈ args → utf8_valid arg = false → ∀ s : S, collect_args args s = (Panic, s).
Proof.
  intros Hin Hbad s. unfold collect_args. assert (forallb utf8_valid args = false) as ->; [|done].
  apply not_true_iff_false. intros Hall. rewrite forallb_forall in Hall.
  rewrite list_elem_of_In in Hin. by rewrite (Hall arg Hin) in Hbad.
Qed.

Lemma hoare_or_usage {S A : Type} min_args print_usage (parse : list string → M S string A) args
    P Q R :
  args ≠ [] → hoare P (parse args) Q R → (∀ program, keeps R (print_usage program)) →
  (∀ s, P s → R s) → hoare P (or_usage min_args print_usage parse args) Q R.
Proof.
  intros Hargs Hp Hu HPR. unfold or_usage. destruct args as [|program args]; [done|].
  change (expect (E := string) ((program :: args) !! 0)) with (Ok (E := string) program).
  assert (Hfail : ∀ err, hoare (S := S) (A := A) R
    ((let* program := mlift (Ok program) in print_usage program) ;;* mthrow err) Q R).
  { intros err. eapply (hoare_then _ _ _ (λ _, R)); [apply Hu|]. intros []. by apply hoare_throw. }
  destruct (bool_decide _); [by eapply hoare_conseq|].
  intros st Hst. specialize (Hp st Hst). unfold mthen at 1, mcatch.
  destruct (parse (program :: args) st) as [[a|e| |] st']; try done. by apply Hfail.
Qed.

(** ** Totality *)

Lemma total_name_to_index name : total (interface_name_to_index name).
Proof.
  unfold interface_name_to_index. case_match; [apply total_mthrow|]. intros w.
  destruct (if_nametoindex name w) as [index w']. simpl. by case_bool_decide.
Qed.

Lemma total_interface_scope value : total (parse_interface_scope value).
Proof.
  unfold parse_interface_scope. case_match.
  - apply total_then; [apply total_mlift|].
    + pose proof (returns_parse_uint u32_max value). by destruct (parse_uint u32_max value).
    + intros scope. case_bool_decide; auto with total.
  - intros w. unfold mmap_err. pose proof (total_name_to_index value w) as Hr.
    by destruct (interface_name_to_index value w) as [[] ?].
Qed.

Lemma returns_parse_ip name value : returns (parse_ip name value).
Proof. unfold parse_ip. by destruct (parse_ip_addr value). Qed.

Lemma total_interface_value group value : total (parse_interface_value group value).
Proof.
  unfold parse_interface_value.
  assert (total (mmap (λ ip, (Some ip, @None Z)) (mlift (parse_ip "interface" value)) : Args ParsedInterface))
    as Haddress by apply total_mmap, total_mlift, returns_parse_ip.
  case_match; [|done]. destruct (rsplit_once "%" value) as [[addr scope]|].
  - apply total_then; [apply total_mlift; by destruct (parse_ipv6_addr addr)|]. intros a.
    apply total_then; [apply total_interface_scope|auto with total].
  - case_match; [|done]. apply total_mmap, total_interface_scope.
Qed.

Lemma total_flag_loop group remainder : ∀ acc, total (flag_loop group remainder acc).
Proof.
  induction remainder as [remainder IH] using (induction_ltof1 _ length). intros [[s i] x].
  destruct remainder as [|arg [|value rest]]; cbn [flag_loop]; [apply total_mpure|..].
  - repeat case_match; apply total_mthrow.
  - assert (∀ acc, total (flag_loop group rest acc)) as Hrest
      by (apply IH; unfold ltof; simpl; lia).
    case_match; [|case_match]; [| |apply total_mthrow].
    + apply total_then; [apply total_mlift, returns_parse_ip|auto].
    + apply total_then; [apply total_interface_value|auto].
Qed.

Lemma returns_split_args remainder : returns (split_args remainder).
Proof.
  induction remainder as [remainder IH] using (induction_ltof1 _ length).
  destruct remainder as [|arg [|value rest]]; cbn [split_args]; [done|by case_match|].
  case_match.
  - specialize (IH rest ltac:(unfold ltof; simpl; lia)). by destruct (split_args rest) as [[]| | |].
  - specialize (IH (value :: rest) ltac:(unfold ltof; simpl; lia)). cbn [split_args] in IH.
    by destruct (if starts_with "--" value then _ else _) as [[]| | |].
Qed.

Lemma total_mixed_args group remainder : total (parse_mixed_args group remainder).
Proof.
  unfold parse_mixed_args. apply total_then; [apply total_mlift, returns_split_args|].
  intros [positional flagged]. apply total_then; [apply total_flag_loop|]. intros [[s i] x].
  destruct (next_if_none s positional) as [value p1].
  apply total_then.
  { destruct value; [apply total_mmap, total_mlift, returns_parse_ip|apply total_mpure]. }
  intros source. destruct (next_if_none i p1) as [value' p2].
  apply total_then; [destruct value'; [apply total_interface_value|apply total_mpure]|].
  intros [i' x']. destruct p2; [apply total_mpure|apply total_mthrow].
Qed.

Lemma total_receive_cli_args args : total (parse_receive_cli_args args).
Proof.
  unfold parse_receive_cli_args. destruct args as [|a [|g [|p r]]]; try apply total_mthrow.
  apply total_then; [apply total_mlift, returns_parse_ip|]. intros group.
  apply total_then.
  { apply total_mlift. unfold parse_port. pose proof (returns_parse_uint u16_max p).
    destruct (parse_uint u16_max p); cbn; try done. by case_bool_decide. }
  intros port. apply total_then; [apply total_mixed_args|]. intros [[s i] x].
  apply total_then; [apply total_mlift; by destruct (is_multicast group)|auto with total].
Qed.

Lemma total_raw_receive_cli_args args : total (parse_raw_receive_cli_args args).
Proof.
  unfold parse_raw_receive_cli_args. destruct args as [|a [|g r]]; try apply total_mthrow.
  apply total_then; [apply total_mlift, returns_parse_ip|]. intros group.
  apply total_then; [apply total_mixed_args|]. intros [[s i] x].
  apply total_then; [apply total_mlift; by destruct (is_multicast group)|auto with total].
Qed.
End recv_args.

Example recv_args_doc1 :
  parse_receive_cli_args ["mcrx-recv"; "232.1.2.3"; "5000"; "--source"; "192.168.1.10";
                          "--interface"; "192.168.1.20"] 0 =
  (Ok (mkReceiveArgs (V4 (v4 232 1 2 3)) 5000 (Some (V4 (v4 192 168 1 10)))
         (Some (V4 (v4 192 168 1 20))) None), 0).
Proof. vm_compute. reflexivity. Qed.
Example recv_args_doc2 :
  parse_receive_cli_args ["mcrx-recv-meta"; "ff1e::8000:1234"; "5000"; "--interface"; "9"] 0 =
  (Ok (mkReceiveArgs (V6 (v6 65310 0 0 0 0 0 32768 4660)) 5000 None None (Some 9%Z)), 0).
Proof. vm_compute. reflexivity. Qed.

(** ** The arguments of a request, as a user writes them *)

Definition source_flag (source : option IpAddr) : list string :=
  match source with Some s => ["--source"; ip_display s] | None => [] end.

Definition interface_flag (interface : option IpAddr) (index : option Z) : list string :=
  match interface_text interface index with Some t => ["--interface"; t] | None => [] end.

Definition receive_command (program : string) (r : ReceiveCliArgs) : list string :=
  program :: ip_display (ra_group r) :: display_Z (ra_dst_port r) ::
  source_flag (ra_source r) ++ interface_flag (ra_interface r) (ra_interface_index r).

Lemma parse_ip_display_ok name a : parse_ip name (ip_display a) = Ok a.
Proof. unfold parse_ip. by rewrite parse_ip_display. Qed.

Lemma lacks_starts_with s : lacks "-" s = true → starts_with "--" s = false.
Proof.
  destruct s as [|c s]; [done|]. cbn [lacks]. intros [Hc%negb_true_iff _]%andb_prop.
  unfold starts_with. cbn [String.prefix]. destruct (ascii_dec "-" c) as [<-|]; [|done].
  by rewrite Ascii.eqb_refl in Hc.
Qed.

Lemma ip_display_positional a : starts_with "--" (ip_display a) = false.
Proof. by apply lacks_starts_with, ip_display_lacks. Qed.

Lemma list_pair_ind {A : Type} (P : list A → Prop) :
  P [] → (∀ a, P [a]) → (∀ a b l, P l → P (b :: l) → P (a :: b :: l)) → ∀ l, P l.
Proof.
  intros H0 H1 H2 l. enough (P l ∧ ∀ a, P (a :: l)) as [? _]; [done|].
  induction l as [|b l [IH IHa]]; [done|]. split; [done|]. intros a. by apply H2.
Qed.

Section facts.
Context `{Os}.

Lemma parse_interface_scope_display i w :
  (1 ≤ i ≤ u32_max)%Z → parse_interface_scope (display_Z i) w = (Ok i, w).
Proof.
  intros Hi. unfold parse_interface_scope.
  rewrite (proj2 (digits_text_all _ (display_Z_digits i ltac:(lia)))).
  rewrite parse_uint_display by lia. unfold mthen, mlift. cbn [res_map_err].
  by rewrite bool_decide_false by lia.
Qed.

Lemma parse_interface_value_text group interface index t w :
  interface_request_ok group interface index → interface_text interface index = Some t →
  parse_interface_value group t w = (Ok (interface, index), w).
Proof.
  intros Hok Ht. unfold parse_interface_value.
  destruct interface as [ip|], index as [i|]; simpl in *; simplify_eq/=.
  - destruct Hok as (-> & Hi & Hip). destruct ip as [|a]; [done|].
    change ("%" +:+ display_Z i) with (String "%" (display_Z i)).
    rewrite rsplit_once_app by (apply display_Z_lacks; [done|lia]). simpl.
    rewrite parse_ipv6_display. unfold ok_or, mlift, mthen at 1.
    unfold mthen. by rewrite parse_interface_scope_display.
  - rewrite rsplit_once_lacks by (by apply ip_display_lacks).
    rewrite ip_display_not_digits, parse_ip_display_ok. by destruct (is_ipv6 group).
  - destruct Hok as (-> & Hi & _).
    rewrite rsplit_once_lacks by (apply display_Z_lacks; [done|lia]).
    rewrite (proj2 (digits_text_all _ (display_Z_digits i ltac:(lia)))).
    unfold mmap, mthen. by rewrite parse_interface_scope_display.
Qed.

(** *** The two passes *)

Lemma split_args_positional arg rest :
  starts_with "--" arg = false →
  split_args (arg :: rest) = let? (p, f) := split_args rest in Ok (arg :: p, f).
Proof. intros Ha. simpl. by rewrite Ha. Qed.

Lemma split_args_flag arg value rest :
  starts_with "--" arg = true →
  split_args (arg :: value :: rest) = let? (p, f) := split_args rest in Ok (p, arg :: value :: f).
Proof. intros Ha. simpl. by rewrite Ha. Qed.

Lemma split_args_app pre l p f :
  split_args pre = Ok (p, f) →
  split_args (pre ++ l) = let? (p', f') := split_args l in Ok (p ++ p', f ++ f').
Proof.
  revert p f. induction pre as [|a|a b pre IH IHb] using list_pair_ind; intros p f.
  - intros [= <- <-]. simpl. by destruct (split_args l) as [[]| | |].
  - simpl. destruct (starts_with "--" a) eqn:Ha; [done|]. intros [= <- <-].
    by destruct (split_args l) as [[]| | |].
  - change ((a :: b :: pre) ++ l) with (a :: b :: pre ++ l).
    destruct (starts_with "--" a) eqn:Ha.
    + rewrite !split_args_flag by done.
      destruct (split_args pre) as [[p0 f0]| | |]; cbn [res_bind]; [|done..]. intros [= <- <-].
      rewrite (IH p0 f0) by done. by destruct (split_args l) as [[]| | |].
    + rewrite !(split_args_positional a) by done.
      destruct (split_args (b :: pre)) as [[p0 f0]| | |] eqn:Hb; cbn [res_bind]; [|done..].
      intros [= <- <-]. specialize (IHb p0 f0 eq_refl). cbn [app] in IHb.
      rewrite IHb. by destruct (split_args l) as [[]| | |].
Qed.

(** The flags come first, or after any positional argument. *)
Lemma split_args_commute pre p f arg flag value rest :
  split_args pre = Ok (p, f) →
  starts_with "--" arg = false → starts_with "--" flag = true →
  split_args (pre ++ arg :: flag :: value :: rest) = split_args (pre ++ flag :: value :: arg :: rest).
Proof.
  intros Hpre Ha Hf. rewrite !(split_args_app _ _ _ _ Hpre).
  rewrite split_args_positional, !split_args_flag, split_args_positional by done.
  by destruct (split_args rest) as [[]| | |].
Qed.

Lemma split_request_flags source interface index :
  split_args (source_flag source ++ interface_flag interface index) =
    Ok ([], source_flag source ++ interface_flag interface index).
Proof.
  unfold interface_flag. destruct source, (interface_text interface index); reflexivity.
Qed.

Lemma flag_loop_source group value rest acc w :
  flag_loop group ("--source" :: value :: rest) acc w =
    match parse_ip "source" value with
    | Ok s => flag_loop group rest (Some s, acc.1.2, acc.2) w
    | Err e => (Err e, w)
    | Panic => (Panic, w)
    | OutOfFuel => (OutOfFuel, w)
    end.
Proof. destruct acc as [[s i] x]. simpl. unfold mthen, mlift. by destruct (parse_ip _ _). Qed.

Lemma flag_loop_interface group value rest acc w interface index :
  parse_interface_value group value w = (Ok (interface, index), w) →
  flag_loop group ("--interface" :: value :: rest) acc w =
    flag_loop group rest (acc.1.1, interface, index) w.
Proof. intros Hv. destruct acc as [[s i] x]. simpl. unfold mthen. by rewrite Hv. Qed.

Lemma parse_request_flags group source interface index w :
  interface_request_ok group interface index →
  parse_flag_args group (source_flag source ++ interface_flag interface index) w =
    (Ok (source, interface, index), w).
Proof.
  intros Hok. unfold parse_flag_args.
  assert (Hi : ∀ s, flag_loop group (interface_flag interface index) (s, None, None) w =
                    (Ok (s, interface, index), w)).
  { intros s. unfold interface_flag. destruct (interface_text interface index) as [t|] eqn:Ht.
    - by rewrite (flag_loop_interface _ _ _ _ _ interface index)
        by (by apply (parse_interface_value_text _ _ _ t)).
    - by destruct interface, index. }
  destruct source as [s|]; [|apply Hi].
  unfold source_flag. cbn [app]. by rewrite flag_loop_source, parse_ip_display_ok, Hi.
Qed.

Lemma parse_mixed_request group source interface index w :
  interface_request_ok group interface index →
  parse_mixed_args group (source_flag source ++ interface_flag interface index) w =
    (Ok (source, interface, index), w).
Proof.
  intros Hok. unfold parse_mixed_args. rewrite split_request_flags.
  unfold mthen at 1, mlift at 1.
  rewrite (mthen_ok _ _ _ _ _ (parse_request_flags _ source _ _ w Hok)).
  by destruct source, interface.
Qed.

(** ** Properties *)

(** C24: writing a request as flags and parsing the arguments gives the
    request back, for every multicast group, every port that is not 0 and
    every interface (an address, an IPv6 interface index, or both), without
    asking the operating system anything. *)
Theorem receive_args_roundtrip program r w :
  is_multicast (ra_group r) = true → (1 ≤ ra_dst_port r ≤ u16_max)%Z →
  interface_request_ok (ra_group r) (ra_interface r) (ra_interface_index r) →
  parse_receive_cli_args (receive_command program r) w = (Ok r, w).
Proof.
  destruct r as [group port source interface index]. simpl. intros Hm Hp Hi.
  unfold parse_receive_cli_args, receive_command. simpl.
  unfold mthen at 1, mlift at 1. rewrite parse_ip_display_ok.
  unfold mthen at 1, mlift at 1, parse_port.
  rewrite parse_uint_display by lia. cbn [res_map_err res_bind]. rewrite bool_decide_false by lia.
  rewrite (mthen_ok _ _ _ _ _ (parse_mixed_request group source interface index w Hi)).
  by rewrite Hm.
Qed.

(** What a successful parse guarantees of an interface. *)
Lemma parse_interface_scope_bounds value w i w' :
  (∀ name w, 0 ≤ (if_nametoindex name w).1 ≤ u32_max)%Z →
  parse_interface_scope value w = (Ok i, w') → (1 ≤ i ≤ u32_max)%Z.
Proof.
  intros Hos. unfold parse_interface_scope. destruct (all_digits value).
  - unfold mthen, mlift. destruct (parse_uint u32_max value) as [z| | |] eqn:Hz; try done.
    apply parse_uint_bounds in Hz; [|done]. simpl. case_bool_decide; [done|].
    intros [= <- _]. lia.
  - unfold mmap_err, interface_name_to_index. destruct (has_nul value); [done|].
    specialize (Hos value w). destruct (if_nametoindex value w) as [z w0]. simpl in *.
    case_bool_decide; [done|]. intros [= <- _]. lia.
Qed.

Definition index_ok (group : IpAddr) (index : option Z) : Prop :=
  match index with Some i => is_ipv6 group = true ∧ (1 ≤ i ≤ u32_max)%Z | None => True end.

Lemma parse_interface_value_index group value w p w' :
  (∀ name w, 0 ≤ (if_nametoindex name w).1 ≤ u32_max)%Z →
  parse_interface_value group value w = (Ok p, w') → index_ok group p.2.
Proof.
  intros Hos Hp. unfold parse_interface_value, mmap, mthen, mlift, mpure in Hp.
  destruct (is_ipv6 group) eqn:Hg; [destruct (rsplit_once "%" value) as [[a s]|]|];
    [|destruct (all_digits value)|]; repeat case_match; simplify_eq/=; try done;
    (split; [done|]; by eapply parse_interface_scope_bounds).
Qed.

Lemma flag_loop_index group l acc w r w' :
  (∀ name w, 0 ≤ (if_nametoindex name w).1 ≤ u32_max)%Z →
  index_ok group acc.2 → flag_loop group l acc w = (Ok r, w') → index_ok group r.2.
Proof.
  intros Hos. revert acc w. induction l as [|a|a b l IH _] using list_pair_ind; intros [[s i] x] w Hx.
  - by intros [= <- _].
  - simpl. by destruct (String.eqb a "--source"), (String.eqb a "--interface").
  - simpl. destruct (String.eqb a "--source"); [|destruct (String.eqb a "--interface"); [|done]].
    + unfold mthen, mlift. destruct (parse_ip _ _); try done. by apply IH.
    + unfold mthen. destruct (parse_interface_value group b w) as [[p| | |] w0] eqn:Hp; try done.
      apply IH. by eapply parse_interface_value_index.
Qed.

Lemma parse_mixed_index group l w source interface index w' :
  (∀ name w, 0 ≤ (if_nametoindex name w).1 ≤ u32_max)%Z →
  parse_mixed_args group l w = (Ok (source, interface, index), w') → index_ok group index.
Proof.
  intros Hos. unfold parse_mixed_args. unfold mthen at 1, mlift at 1.
  destruct (split_args l) as [[p f]| | |]; [|done..]. unfold mthen at 1.
  destruct (parse_flag_args group f w) as [[[[src0 ifc0] idx0]| | |] w0] eqn:Hf; [|done..].
  pose proof (flag_loop_index group f (None, None, None) _ _ _ Hos I Hf) as Hx0. simpl in Hx0.
  destruct (next_if_none src0 p) as [v p']. unfold mthen at 1.
  match goal with |- context [match ?m w0 with _ => _ end] =>
    destruct (m w0) as [[src1| | |] w1]; [|done..]
  end.
  destruct (next_if_none ifc0 p') as [v' p''].
  destruct v' as [v'|].
  - unfold mthen. destruct (parse_interface_value group v' _) as [[[i1 x1]| | |] w2] eqn:Hv; [|done..].
    apply parse_interface_value_index in Hv; [|done]. destruct p''; [|done]. by intros [= <- <- <- <-].
  - unfold mthen, mpure. destruct p''; [|done]. by intros [= <- <- <- <-].
Qed.

Lemma parse_receive_Ok args w r w' :
  parse_receive_cli_args args w = (Ok r, w') →
  ∃ program group port rest,
    args = program :: group :: port :: rest ∧
    parse_ip "group" group = Ok (ra_group r) ∧ parse_port port = Ok (ra_dst_port r) ∧
    parse_mixed_args (ra_group r) rest w =
      (Ok (ra_source r, ra_interface r, ra_interface_index r), w') ∧
    is_multicast (ra_group r) = true.
Proof.
  destruct args as [|program [|group [|port rest]]]; try done.
  unfold parse_receive_cli_args. unfold mthen at 1, mlift at 1.
  destruct (parse_ip "group" group) as [g| | |] eqn:Hg; try done.
  unfold mthen at 1, mlift at 1. destruct (parse_port port) as [p| | |] eqn:Hp; try done.
  unfold mthen at 1.
  destruct (parse_mixed_args g rest w) as [[[[s i] x]| | |] w0] eqn:Hm; try done.
  unfold mthen, mlift, guard, mpure. destruct (is_multicast g) eqn:Hmc; [|done].
  simpl. intros [= <- <-]. simpl. eauto 10.
Qed.

Lemma parse_port_bounds value port : parse_port value = Ok port → (1 ≤ port ≤ u16_max)%Z.
Proof.
  unfold parse_port. destruct (parse_uint u16_max value) as [z| | |] eqn:Hz; try done.
  apply parse_uint_bounds in Hz; [|done]. simpl. case_bool_decide; [done|]. intros [= <-]. lia.
Qed.

(** C35: arguments that are accepted denote a multicast group, a port that fits
    16 bits and is not 0, and an interface index, if any, that fits 32 bits,
    is not 0 and comes with an IPv6 group. *)
Theorem accepted_args_are_in_range args w r w' :
  (∀ name w, 0 ≤ (if_nametoindex name w).1 ≤ u32_max)%Z →
  parse_receive_cli_args args w = (Ok r, w') →
  is_multicast (ra_group r) = true ∧ (1 ≤ ra_dst_port r ≤ u16_max)%Z ∧
  index_ok (ra_group r) (ra_interface_index r).
Proof.
  intros Hos (program & group & port & rest & -> & _ & Hp & Hm & Hmc)%parse_receive_Ok.
  split; [done|]. split; [by eapply parse_port_bounds|]. by eapply parse_mixed_index.
Qed.

(** A flag with its value may stand before or after a positional
    argument: the arguments mean the same. *)
Theorem flags_may_follow_positionals program group port pre p f arg flag value rest w :
  split_args pre = Ok (p, f) →
  starts_with "--" arg = false → starts_with "--" flag = true →
  parse_receive_cli_args (program :: group :: port :: pre ++ arg :: flag :: value :: rest) w =
  parse_receive_cli_args (program :: group :: port :: pre ++ flag :: value :: arg :: rest) w.
Proof.
  intros Hpre Ha Hf. unfold parse_receive_cli_args, parse_mixed_args.
  by rewrite (split_args_commute pre p f arg flag value rest Hpre Ha Hf).
Qed.

(** The text of an interface is no flag. *)
Lemma interface_text_positional group interface index t :
  interface_request_ok group interface index → interface_text interface index = Some t →
  starts_with "--" t = false.
Proof.
  intros Hok Ht. apply lacks_starts_with.
  destruct interface as [ip|], index as [i|]; simpl in *; simplify_eq/=.
  - rewrite !lacks_app, ip_display_lacks by done.
    rewrite display_Z_lacks; [done|done|lia].
  - by apply ip_display_lacks.
  - apply display_Z_lacks; [done|lia].
Qed.

Lemma parse_mixed_positional group s interface index t w :
  interface_request_ok group interface index → interface_text interface index = Some t →
  parse_mixed_args group [ip_display s; t] w = (Ok (Some s, interface, index), w).
Proof.
  intros Hok Ht. unfold parse_mixed_args.
  rewrite !split_args_positional by
    (try apply ip_display_positional; by eapply interface_text_positional).
  unfold mthen at 1, mlift at 1. cbn [split_args res_bind].
  unfold parse_flag_args, flag_loop. unfold mthen at 1, mpure at 1. cbn [next_if_none].
  unfold mthen at 1, mmap, mthen at 1, mlift. rewrite parse_ip_display_ok. unfold mpure at 1.
  cbn [next_if_none]. unfold mthen. by rewrite (parse_interface_value_text _ _ _ _ w Hok Ht).
Qed.

(** The arguments after the port only matter through [parse_mixed_args]. *)
Lemma parse_receive_congr program group g port rest rest' w :
  parse_ip "group" group = Ok g →
  parse_mixed_args g rest w = parse_mixed_args g rest' w →
  parse_receive_cli_args (program :: group :: port :: rest) w =
  parse_receive_cli_args (program :: group :: port :: rest') w.
Proof.
  intros Hg Hm. unfold parse_receive_cli_args. rewrite Hg. unfold mthen, mlift.
  destruct (parse_port port); [|done..]. by rewrite Hm.
Qed.

(** The positional form of a request means the same as its flags. *)
Theorem positional_form_agrees program r s t w :
  ra_source r = Some s → interface_text (ra_interface r) (ra_interface_index r) = Some t →
  interface_request_ok (ra_group r) (ra_interface r) (ra_interface_index r) →
  parse_receive_cli_args (program :: ip_display (ra_group r) :: display_Z (ra_dst_port r) ::
                          [ip_display s; t]) w =
  parse_receive_cli_args (receive_command program r) w.
Proof.
  intros Hs Ht Hok. apply (parse_receive_congr _ _ (ra_group r)); [apply parse_ip_display_ok|].
  rewrite (parse_mixed_positional _ _ _ _ _ w Hok Ht), Hs. by rewrite parse_mixed_request.
Qed.

(** An interface index given with its flag does not count as an
    interface: a second interface, as a positional argument, is accepted and
    replaces the index, where next to the flag with an address it is
    refused. *)
Theorem interface_index_flag_is_overridden group s a i x w :
  is_ipv6 group = true → (1 ≤ i ≤ u32_max)%Z →
  parse_mixed_args group ["--interface"; display_Z i; ip_display s; ip_display x] w =
    (Ok (Some s, Some x, None), w) ∧
  parse_mixed_args group ["--interface"; ip_display a; ip_display s; ip_display x] w =
    (Err "invalid arguments", w).
Proof.
  intros Hg Hi.
  assert (Hsplit : ∀ t, split_args ["--interface"; t; ip_display s; ip_display x] =
                        Ok ([ip_display s; ip_display x], ["--interface"; t])).
  { intros t. by rewrite (split_args_flag "--interface"), !split_args_positional
      by (done || apply ip_display_positional). }
  unfold parse_mixed_args, parse_flag_args.
  split; rewrite Hsplit; unfold mthen at 1, mlift at 1.
  - rewrite (mthen_ok _ _ w (None, None, Some i) w).
    + cbn [next_if_none]. unfold mthen at 1, mmap, mthen at 1, mlift.
      rewrite parse_ip_display_ok. unfold mpure at 1. cbn [next_if_none]. unfold mthen.
      by rewrite (parse_interface_value_text group (Some x) None (ip_display x) w).
    + by rewrite (flag_loop_interface _ _ _ _ _ None (Some i))
        by (by apply (parse_interface_value_text group None (Some i))).
  - rewrite (mthen_ok _ _ w (None, Some a, None) w).
    + cbn [next_if_none]. unfold mthen at 1, mmap, mthen at 1, mlift.
      rewrite parse_ip_display_ok. done.
    + by rewrite (flag_loop_interface _ _ _ _ _ (Some a) None)
        by (by apply (parse_interface_value_text group (Some a) None)).
Qed.
End facts.

(** ** Witnesses *)

Definition sample_request : ReceiveCliArgs :=
  mkReceiveArgs (V6 (v6 65342 0 0 0 0 0 32768 4660)) 5000 (Some (V6 (v6 8193 3512 0 0 0 0 0 16)))
    (Some (V6 (v6 65152 0 0 0 0 0 0 1))) (Some 7%Z).

Lemma sample_request_ok :
  interface_request_ok (ra_group sample_request) (ra_interface sample_request)
    (ra_interface_index sample_request).
Proof. simpl. by unfold u32_max. Qed.

Lemma receive_args_roundtrip_witness :
  parse_receive_cli_args
    ["mcrx-recv"; "ff3e::8000:1234"; "5000"; "--source"; "2001:db8::10"; "--interface"; "fe80::1%7"]
    (0 : @World sample_os) = (Ok sample_request, 0).
Proof. exact (receive_args_roundtrip "mcrx-recv" sample_request 0 eq_refl ltac:(done) sample_request_ok). Defined.

Lemma accepted_args_are_in_range_witness :
  is_multicast (ra_group sample_request) = true ∧ (1 ≤ ra_dst_port sample_request ≤ u16_max)%Z ∧
  index_ok (ra_group sample_request) (ra_interface_index sample_request).
Proof.
  refine (accepted_args_are_in_range
    ["mcrx-recv"; "ff3e::8000:1234"; "5000"; "--source"; "2001:db8::10"; "--interface"; "fe80::1%7"]
    (0 : @World sample_os) sample_request 0 _ _).
  - intros name w. simpl. unfold u32_max. lia.
  - vm_compute. reflexivity.
Defined.

Lemma flags_may_follow_positionals_witness :
  parse_receive_cli_args
    ["mcrx-recv"; "232.1.2.3"; "5000"; "10.0.0.1"; "--interface"; "10.0.0.2"]
    (0 : @World sample_os) =
  parse_receive_cli_args
    ["mcrx-recv"; "232.1.2.3"; "5000"; "--interface"; "10.0.0.2"; "10.0.0.1"] 0.
Proof.
  exact (flags_may_follow_positionals "mcrx-recv" "232.1.2.3" "5000" [] [] [] "10.0.0.1"
           "--interface" "10.0.0.2" [] (0 : @World sample_os) eq_refl eq_refl eq_refl).
Defined.

Lemma positional_form_agrees_witness :
  parse_receive_cli_args
    ["mcrx-recv"; "ff3e::8000:1234"; "5000"; "2001:db8::10"; "fe80::1%7"] (0 : @World sample_os) =
  parse_receive_cli_args
    ["mcrx-recv"; "ff3e::8000:1234"; "5000"; "--source"; "2001:db8::10"; "--interface"; "fe80::1%7"] 0.
Proof.
  exact (positional_form_agrees "mcrx-recv" sample_request _ _ (0 : @World sample_os)
           eq_refl eq_refl sample_request_ok).
Defined.

Lemma interface_index_flag_is_overridden_witness :
  parse_mixed_args (V6 (v6 65342 0 0 0 0 0 32768 4660))
    ["--interface"; "7"; "2001:db8::10"; "fe80::2"] (0 : @World sample_os) =
    (Ok (Some (V6 (v6 8193 3512 0 0 0 0 0 16)), Some (V6 (v6 65152 0 0 0 0 0 0 2)), None), 0) ∧
  parse_mixed_args (V6 (v6 65342 0 0 0 0 0 32768 4660))
    ["--interface"; "fe80::1"; "2001:db8::10"; "fe80::2"] (0 : @World sample_os) =
    (Err "invalid arguments", 0).
Proof.
  exact (interface_index_flag_is_overridden (V6 (v6 65342 0 0 0 0 0 32768 4660))
           (V6 (v6 8193 3512 0 0 0 0 0 16)) (V6 (v6 65152 0 0 0 0 0 0 1)) 7
           (V6 (v6 65152 0 0 0 0 0 0 2)) (0 : @World sample_os) eq_refl ltac:(done)).
Defined.
