(* ===== verification/Ffi.v ===== *)
(** * The C interface ([src/mcrx-core-ffi/src/lib.rs])

    The calls that a C program makes on a context handle, one after the other:
    arguments, status codes, error messages, the mutex of the context and the
    packet callback. The background worker and its threads are in
    [FfiWorker]. *)

From Stdlib Require Import Strings.Ascii.
From S2P Require Import Prelude Hoare Net Errors Config Packet Metrics Os SampleOs Platform Subscription Context Text.

Local Open Scope string_scope.
Local Open Scope list_scope.

Definition MCRX_STATUS_OK : Z := 0.
Definition MCRX_STATUS_INVALID_ARGUMENT : Z := 1.
Definition MCRX_STATUS_ERROR : Z := 2.
Definition MCRX_STATUS_ALREADY_RUNNING : Z := 3.
Definition MCRX_STATUS_PANIC : Z := 4.

(** A pointer argument that is only tested and followed. *)
Inductive Ptr := Null | Valid.

(** A C string argument: null, or the bytes before its terminator. *)
Abbreviation CStr := (option string) (only parsing).

(** ** Text *)

Definition cstring_lossy (message : string) : string :=
  if has_nul message then "mcrx error contained an interior nul byte" else message.

Definition required_str (raw : CStr) (field : string) : Res string string :=
  match raw with
  | None => Err (field +:+ " must not be null")
  | Some s => if utf8_valid s then Ok s else Err (field +:+ " must be valid UTF-8")
  end.

Definition optional_str (raw : CStr) (field : string) : Res string (option string) :=
  match raw with
  | None => Ok None
  | Some _ => res_map Some (required_str raw field)
  end.

Definition parse_ip_addr (raw field : string) : Res string IpAddr :=
  ok_or (Text.parse_ip_addr raw) ("invalid " +:+ field +:+ " IP address: " +:+ raw).

Definition parse_optional_ip_addr (raw : option string) (field : string)
    : Res string (option IpAddr) :=
  match raw with
  | None => Ok None
  | Some value => res_map Some (parse_ip_addr value field)
  end.

(** ** Packet views *)

Record McrxPacketView := mkView {
  pv_payload : list byte;
  pv_payload_len : Z;
  pv_subscription_id : Z;
  pv_source_ip : string;
  pv_source_port : Z;
  pv_group_ip : string;
  pv_dst_port : Z;
  pv_socket_local_ip : CStr;
  pv_socket_local_port : Z;
  pv_configured_interface_ip : CStr;
  pv_configured_interface_index : Z;
  pv_has_configured_interface_index : Z;
  pv_destination_local_ip : CStr;
  pv_ingress_interface_index : Z;
  pv_has_ingress_interface_index : Z }.

Definition opt_ip_cstring (addr : option IpAddr) : CStr :=
  (λ a, cstring_lossy (ip_display a)) <$> addr.
Definition opt_socket_ip_cstring (addr : option SocketAddr) : CStr :=
  (λ a, cstring_lossy (ip_display (sock_ip a))) <$> addr.
Definition socket_port (addr : option SocketAddr) : Z :=
  match addr with Some a => sock_port a | None => 0 end.

Definition as_u8 (b : bool) : Z := if b then 1 else 0.

Definition packet_view (packet : PacketWithMetadata) (source_ip group_ip : string)
    (socket_local_ip configured_interface_ip destination_local_ip : CStr) : McrxPacketView :=
  let p := pm_packet packet in
  let metadata := pm_metadata packet in
  {| pv_payload := pk_payload p;
     pv_payload_len := Z.of_nat (length (pk_payload p));
     pv_subscription_id := pk_subscription_id p;
     pv_source_ip := source_ip;
     pv_source_port := sock_port (pk_source p);
     pv_group_ip := group_ip;
     pv_dst_port := pk_dst_port p;
     pv_socket_local_ip := socket_local_ip;
     pv_socket_local_port := socket_port (md_socket_local_addr metadata);
     pv_configured_interface_ip := configured_interface_ip;
     pv_configured_interface_index := default 0%Z (md_configured_interface_index metadata);
     pv_has_configured_interface_index :=
       as_u8 (bool_decide (is_Some (md_configured_interface_index metadata)));
     pv_destination_local_ip := destination_local_ip;
     pv_ingress_interface_index := default 0%Z (md_ingress_interface_index metadata);
     pv_has_ingress_interface_index :=
       as_u8 (bool_decide (is_Some (md_ingress_interface_index metadata))) |}.

(** The view that [call_packet_callback] passes to the callback. *)
Definition callback_view (packet : PacketWithMetadata) : McrxPacketView :=
  let p := pm_packet packet in
  let metadata := pm_metadata packet in
  packet_view packet
    (cstring_lossy (ip_display (sock_ip (pk_source p))))
    (cstring_lossy (ip_display (pk_group p)))
    (opt_socket_ip_cstring (md_socket_local_addr metadata))
    (opt_ip_cstring (md_configured_interface metadata))
    (opt_ip_cstring (md_destination_local_ip metadata)).

Section ffi.
Context `{Os}.

(** ** Configuration from text *)

Definition interface_name_to_index (raw : string) : M World string Z :=
  if has_nul raw then mthrow "interface name must not contain NUL bytes"
  else λ w, let '(index, w') := if_nametoindex raw w in
            (if bool_decide (index = 0)%Z then Err ("unknown interface name: " +:+ raw)
             else Ok index, w').

Definition parse_interface_scope (raw : string) : M World string Z :=
  if all_digits raw then
    let* scope := mlift (res_map_err (λ _, "invalid interface scope index: " +:+ raw)
                                     (parse_uint u32_max raw)) in
    if bool_decide (scope = 0)%Z then mthrow "interface scope index must not be 0"
    else mpure scope
  else interface_name_to_index raw.

Definition parse_interface_selector (group : IpAddr) (raw : option string)
    : M World string (option IpAddr * option Z) :=
  match raw with
  | None => mpure (None, None)
  | Some raw =>
      let address := mmap (λ ip, (Some ip, None)) (mlift (parse_ip_addr raw "interface")) in
      match group with
      | V4 _ => address
      | V6 _ =>
          match rsplit_once "%" raw with
          | Some (addr, scope) =>
              let* addr := mlift (ok_or (parse_ipv6_addr addr)
                             ("invalid interface IP address: " +:+ raw)) in
              let* scope := parse_interface_scope scope in
              mpure (Some (V6 addr), Some scope)
          | None =>
              if all_digits raw then mmap (λ scope, (None, Some scope)) (parse_interface_scope raw)
              else address
          end
      end
  end.

Definition build_subscription_config (group : string) (dst_port : Z)
    (source interface : option string) : M World string SubscriptionConfig :=
  let* group := mlift (parse_ip_addr group "group") in
  let* source_addr := mlift (parse_optional_ip_addr source "source") in
  let* (interface_addr, interface_index) := parse_interface_selector group interface in
  let config := match source_addr with
                | Some source_addr => SubscriptionConfig.ssm_ip group source_addr dst_port
                | None => SubscriptionConfig.asm_ip group dst_port
                end in
  mpure (mkConfig (cfg_group config) (cfg_source config) (cfg_dst_port config)
                  interface_addr interface_index).

(** ** The state behind a handle

    [f_poisoned] says whether the mutex of the context is poisoned, [f_tls] is
    the thread's [LAST_ERROR], [f_out] the word that the out pointer of a call
    designates, [f_user] what [user_data] points at. *)
Section state.
Context {U : Type}.

Abbreviation Act A := (Op (Context * World) A).

Record FfiState := mkFfi {
  f_context : Context;
  f_poisoned : bool;
  f_last_error : option string;
  f_handle_alive : bool;
  f_world : World;
  f_tls : option string;
  f_out : Z;
  f_user : U }.

Definition set_context (c : Context) (w : World) (st : FfiState) : FfiState :=
  mkFfi c (f_poisoned st) (f_last_error st) (f_handle_alive st) w (f_tls st) (f_out st) (f_user st).
Definition set_world (w : World) (st : FfiState) : FfiState := set_context (f_context st) w st.
Definition poison (st : FfiState) : FfiState :=
  mkFfi (f_context st) true (f_last_error st) (f_handle_alive st) (f_world st) (f_tls st)
    (f_out st) (f_user st).
Definition set_last_error (e : option string) (st : FfiState) : FfiState :=
  mkFfi (f_context st) (f_poisoned st) e (f_handle_alive st) (f_world st) (f_tls st)
    (f_out st) (f_user st).
Definition set_tls (e : option string) (st : FfiState) : FfiState :=
  mkFfi (f_context st) (f_poisoned st) (f_last_error st) (f_handle_alive st) (f_world st) e
    (f_out st) (f_user st).
Definition set_out (z : Z) (st : FfiState) : FfiState :=
  mkFfi (f_context st) (f_poisoned st) (f_last_error st) (f_handle_alive st) (f_world st)
    (f_tls st) z (f_user st).
Definition set_handle_alive (b : bool) (st : FfiState) : FfiState :=
  mkFfi (f_context st) (f_poisoned st) (f_last_error st) b (f_world st) (f_tls st)
    (f_out st) (f_user st).
Definition set_user (u : U) (st : FfiState) : FfiState :=
  mkFfi (f_context st) (f_poisoned st) (f_last_error st) (f_handle_alive st) (f_world st)
    (f_tls st) (f_out st) u.

(** The body of a call: [return status] before the end is an [Err]. *)
Abbreviation Ffi A := (M FfiState Z A).

Definition clear_error : Ffi unit := mmodify (set_last_error None).
Definition set_error (message : string) : Ffi Z :=
  mmodify (set_last_error (Some (cstring_lossy message))) ;;* mpure MCRX_STATUS_ERROR.
Definition set_invalid_argument (message : string) : Ffi Z :=
  mmodify (set_last_error (Some (cstring_lossy message))) ;;* mpure MCRX_STATUS_INVALID_ARGUMENT.
Definition set_last_error_with_status (message : string) (status : Z) : Ffi Z :=
  mmodify (set_tls (Some (cstring_lossy message))) ;;* mpure status.
Definition set_last_invalid_argument (message : string) : Ffi Z :=
  set_last_error_with_status message MCRX_STATUS_INVALID_ARGUMENT.
Definition clear_last_error : Ffi unit := mmodify (set_tls None).

(** [return m]. *)
Definition early {A : Type} (m : Ffi Z) : Ffi A := let* status := m in mthrow status.

(** [Err(err) => return context.set_invalid_argument(err)] of a computation
    with messages as errors. *)
Definition or_invalid {A : Type} (m : M World string A) : Ffi A := λ st,
  let '(r, w) := m (f_world st) in
  match r with
  | Ok a => (Ok a, set_world w st)
  | Err e => early (set_invalid_argument e) (set_world w st)
  | Panic => (Panic, set_world w st)
  | OutOfFuel => (OutOfFuel, set_world w st)
  end.

Definition poisoned_message : string := "mcrx context mutex is poisoned".

(** [lock_context], as [Err(err) => return context.set_error(err)] uses it. *)
Definition lock_context : Ffi unit :=
  let* st := mget in
  if f_poisoned st then early (set_error poisoned_message) else mpure ().

(** A method of the context under its lock: unwinding poisons the mutex. *)
Definition on_context {A : Type} (m : Act A) : Ffi (A + McrxError) := λ st,
  let '(r, (c, w)) := m (f_context st, f_world st) in
  let st := set_context c w st in
  match r with
  | Ok a => (Ok (inl a), st)
  | Err e => (Ok (inr e), st)
  | Panic => (Panic, poison st)
  | OutOfFuel => (OutOfFuel, st)
  end.

(** [ffi_status]: the early returns end here, and unwinding becomes a status. *)
Definition ffi_status (body : Ffi Z) : M FfiState Empty_set Z := λ st,
  match body st with
  | (Ok status, st') | (Err status, st') => (Ok status, st')
  | (Panic, st') =>
      (Ok MCRX_STATUS_PANIC,
       set_tls (Some (cstring_lossy "panic crossed mcrx-core-ffi boundary")) st')
  | (OutOfFuel, st') => (OutOfFuel, st')
  end.

(** [context_from_mut_ptr], [context_from_const_ptr]. *)
Definition context_from_ptr (context : Ptr) : Ffi unit :=
  match context with
  | Null => early (set_last_invalid_argument "context pointer must not be null")
  | Valid => mpure ()
  end.

Definition status_from_mcrx_result {A : Type} (result : A + McrxError) : Ffi Z :=
  match result with
  | inl _ => clear_error ;;* mpure MCRX_STATUS_OK
  | inr err => set_error (mcrx_error_to_string err)
  end.

(** ** The calls *)

Definition mcrx_context_new (w : World) (u : U) : FfiState :=
  mkFfi Context_new false None true w None 0 u.

Definition mcrx_last_error : M FfiState Empty_set CStr := mreads f_tls.

Definition mcrx_context_last_error (context : Ptr) : M FfiState Empty_set CStr :=
  match context with
  | Null =>
      mmodify (set_tls (Some (cstring_lossy "context pointer must not be null"))) ;;* mcrx_last_error
  | Valid => mreads f_last_error
  end.

Definition mcrx_context_subscription_count (context : Ptr) : M FfiState Empty_set Z :=
  match context with
  | Null =>
      mmodify (set_tls (Some (cstring_lossy "context pointer must not be null"))) ;;* mpure 0%Z
  | Valid => mreads (λ st, if f_poisoned st then 0%Z else Z.of_nat (subscription_count (f_context st)))
  end.

Definition mcrx_context_add_subscription (context : Ptr) (group : CStr) (dst_port : Z)
    (source interface : CStr) (subscription_id_out : Ptr) : M FfiState Empty_set Z :=
  ffi_status (
    context_from_ptr context ;;*
    match subscription_id_out with
    | Null => early (set_invalid_argument "subscription_id_out must not be null")
    | Valid => mpure ()
    end ;;*
    let* group := or_invalid (mlift (required_str group "group")) in
    let* source := or_invalid (mlift (optional_str source "source")) in
    let* interface := or_invalid (mlift (optional_str interface "interface")) in
    let* config := or_invalid (build_subscription_config group dst_port source interface) in
    lock_context ;;*
    let* r := on_context (add_subscription config) in
    match r with
    | inl id => mmodify (set_out id) ;;* clear_error ;;* mpure MCRX_STATUS_OK
    | inr err => set_error (mcrx_error_to_string err)
    end).

Definition mcrx_context_join_subscription (context : Ptr) (subscription_id : Z)
    : M FfiState Empty_set Z :=
  ffi_status (
    context_from_ptr context ;;*
    lock_context ;;*
    let* r := on_context (join_subscription subscription_id) in
    status_from_mcrx_result r).

Definition mcrx_context_leave_subscription (context : Ptr) (subscription_id : Z)
    : M FfiState Empty_set Z :=
  ffi_status (
    context_from_ptr context ;;*
    lock_context ;;*
    let* r := on_context (leave_subscription subscription_id) in
    status_from_mcrx_result r).

Definition mcrx_context_remove_subscription (context : Ptr) (subscription_id : Z)
    : M FfiState Empty_set Z :=
  ffi_status (
    context_from_ptr context ;;*
    lock_context ;;*
    let* r := on_context (remove_subscription subscription_id) in
    match r with
    | inl true => clear_error ;;* mpure MCRX_STATUS_OK
    | _ => set_error (mcrx_error_to_string SubscriptionNotFound)
    end).

(** ** Polling *)

(** A callback may do anything to the state, calls on the same handle
    included; it returns, since unwinding out of it aborts the process. *)
Abbreviation McrxPacketCallback := (McrxPacketView → FfiState → FfiState) (only parsing).

Definition call_packet_callback (packet : PacketWithMetadata) (callback : McrxPacketCallback)
    : Ffi unit :=
  mmodify (callback (callback_view packet)).

(** [receive_one]: the lock is released before the packet is used. *)
Definition receive_one : Ffi (option PacketWithMetadata + string) :=
  let* st := mget in
  if f_poisoned st then mpure (inr poisoned_message)
  else
    let* r := on_context try_recv_any_with_metadata in
    mpure match r with inl packet => inl packet | inr err => inr (mcrx_error_to_string err) end.

Fixpoint poll_loop (callback : McrxPacketCallback) (n received : nat) : Ffi nat :=
  match n with
  | O => mpure received
  | S n =>
      let* r := receive_one in
      match r with
      | inl (Some packet) =>
          call_packet_callback packet callback ;;*
          let* alive := mreads f_handle_alive in
          if alive then poll_loop callback n (S received) else mpure (S received)
      | inl None => mpure received
      | inr err => early (set_error err)
      end
  end.

Definition mcrx_context_poll (context : Ptr) (max_packets : nat)
    (callback : option McrxPacketCallback) (received_out : Ptr) : M FfiState Empty_set Z :=
  ffi_status (
    context_from_ptr context ;;*
    match received_out with
    | Null => early (set_invalid_argument "received_out must not be null")
    | Valid => mpure ()
    end ;;*
    mmodify (set_out 0) ;;*
    match callback with
    | None =>
        if bool_decide (max_packets = 0) then clear_error ;;* mpure MCRX_STATUS_OK
        else set_invalid_argument "callback must not be null when max_packets is non-zero"
    | Some callback =>
        let* received := poll_loop callback max_packets 0 in
        mmodify (set_out (Z.of_nat received)) ;;*
        clear_error ;;*
        mpure MCRX_STATUS_OK
    end).
End state.
End ffi.

(** ** Text round trips *)

Lemma parse_displayed_ip field a : parse_ip_addr (ip_display a) field = Ok a.
Proof. unfold parse_ip_addr. by rewrite parse_ip_display. Qed.

Lemma cstring_lossy_ip a : cstring_lossy (ip_display a) = ip_display a.
Proof. unfold cstring_lossy. by rewrite ip_display_has_no_nul. Qed.

(** The source argument of a configuration. *)
Definition source_text (s : SourceFilter) : option string :=
  match s with Source a => Some (ip_display a) | SourceAny => None end.

Section text.
Context `{Os}.

Lemma parse_scope_display i w :
  (1 ≤ i ≤ u32_max)%Z → parse_interface_scope (display_Z i) w = (Ok i, w).
Proof.
  intros Hi. unfold parse_interface_scope.
  rewrite (proj2 (digits_text_all _ (display_Z_digits i ltac:(lia)))).
  rewrite parse_uint_display by lia. unfold mthen, mlift. cbn [res_map_err].
  by rewrite bool_decide_false by lia.
Qed.

Lemma parse_selector_text group interface index w :
  interface_request_ok group interface index →
  parse_interface_selector group (interface_text interface index) w = (Ok (interface, index), w).
Proof.
  intros Hok. unfold parse_interface_selector.
  destruct interface as [ip|], index as [i|]; cbn [interface_text]; simpl in Hok.
  - destruct Hok as (Hg & Hi & Hip). destruct group as [|g]; [done|]. destruct ip as [|a]; [done|].
    change ("%" +:+ display_Z i) with (String "%" (display_Z i)).
    rewrite rsplit_once_app by (apply display_Z_lacks; [done|lia]). simpl.
    rewrite parse_ipv6_display. unfold ok_or, mlift, mthen at 1.
    unfold mthen. by rewrite parse_scope_display.
  - rewrite rsplit_once_lacks by (by apply ip_display_lacks).
    rewrite ip_display_not_digits, parse_displayed_ip. by destruct group.
  - destruct Hok as (Hg & Hi & _). destruct group as [|g]; [done|].
    rewrite rsplit_once_lacks by (apply display_Z_lacks; [done|lia]).
    rewrite (proj2 (digits_text_all _ (display_Z_digits i ltac:(lia)))).
    unfold mmap, mthen. by rewrite parse_scope_display.
  - done.
Qed.

(** Describing a configuration with the text of its addresses and of its
    interface builds it again, whatever its port. *)
Theorem build_config_roundtrip c w :
  interface_request_ok (cfg_group c) (cfg_interface c) (cfg_interface_index c) →
  build_subscription_config (ip_display (cfg_group c)) (cfg_dst_port c)
    (source_text (cfg_source c)) (interface_text (cfg_interface c) (cfg_interface_index c)) w =
    (Ok c, w).
Proof.
  destruct c as [group source port interface index]. simpl. intros Hok.
  unfold build_subscription_config. rewrite parse_displayed_ip. unfold mthen at 1, mlift at 1.
  unfold mthen at 1, mlift at 1. destruct source as [|s]; cbn [source_text parse_optional_ip_addr];
    rewrite ?parse_displayed_ip; cbn [res_map res_bind];
    by rewrite (mthen_ok _ _ _ _ _ (parse_selector_text group interface index w Hok)).
Qed.
End text.

(** Reading the fields of a view. *)
Definition flagged (has value : Z) : option Z := if (has =? 0)%Z then None else Some value.
Definition read_ip (s : CStr) : option (option IpAddr) :=
  match s with None => Some None | Some s => Some <$> Text.parse_ip_addr s end.

Lemma flagged_option o : flagged (as_u8 (bool_decide (is_Some o))) (default 0%Z o) = o.
Proof. by destruct o as [z|]. Qed.

Lemma read_opt_ip o : read_ip (opt_ip_cstring o) = Some o.
Proof. destruct o as [a|]; simpl; [by rewrite cstring_lossy_ip, parse_ip_display|done]. Qed.
Lemma read_opt_socket_ip o : read_ip (opt_socket_ip_cstring o) = Some (sock_ip <$> o).
Proof. destruct o as [a|]; simpl; [by rewrite cstring_lossy_ip, parse_ip_display|done]. Qed.

(** A callback can read from its view everything the library knows of
    the packet: payload, identifier, ports, every address and every index,
    with no value and the value 0 told apart. *)
Theorem callback_view_roundtrip packet :
  let p := pm_packet packet in
  let m := pm_metadata packet in
  let v := callback_view packet in
  pv_payload v = pk_payload p ∧ pv_payload_len v = Z.of_nat (length (pk_payload p)) ∧
  pv_subscription_id v = pk_subscription_id p ∧
  Text.parse_ip_addr (pv_source_ip v) = Some (sock_ip (pk_source p)) ∧
  pv_source_port v = sock_port (pk_source p) ∧
  Text.parse_ip_addr (pv_group_ip v) = Some (pk_group p) ∧
  pv_dst_port v = pk_dst_port p ∧
  read_ip (pv_socket_local_ip v) = Some (sock_ip <$> md_socket_local_addr m) ∧
  pv_socket_local_port v = default 0%Z (sock_port <$> md_socket_local_addr m) ∧
  read_ip (pv_configured_interface_ip v) = Some (md_configured_interface m) ∧
  flagged (pv_has_configured_interface_index v) (pv_configured_interface_index v) =
    md_configured_interface_index m ∧
  read_ip (pv_destination_local_ip v) = Some (md_destination_local_ip m) ∧
  flagged (pv_has_ingress_interface_index v) (pv_ingress_interface_index v) =
    md_ingress_interface_index m.
Proof.
  cbv zeta. unfold callback_view, packet_view. simpl.
  rewrite !cstring_lossy_ip, !parse_ip_display, read_opt_socket_ip, !read_opt_ip, !flagged_option.
  split_and!; try done. by destruct (md_socket_local_addr _).
Qed.

(** ** The calls as data *)

Section calls.
Context `{Os} {U : Type}.

Abbreviation St := (@FfiState _ U).
Abbreviation Act A := (Op (Context * World) A).

Inductive FfiCall :=
  | CallAddSubscription (context : Ptr) (group : CStr) (dst_port : Z) (source interface : CStr)
      (subscription_id_out : Ptr)
  | CallJoinSubscription (context : Ptr) (subscription_id : Z)
  | CallLeaveSubscription (context : Ptr) (subscription_id : Z)
  | CallRemoveSubscription (context : Ptr) (subscription_id : Z)
  | CallPoll (context : Ptr) (max_packets : nat)
      (callback : option (McrxPacketView → St → St)) (received_out : Ptr).

Definition ffi_call (k : FfiCall) : M St Empty_set Z :=
  match k with
  | CallAddSubscription c group port source interface out =>
      mcrx_context_add_subscription c group port source interface out
  | CallJoinSubscription c id => mcrx_context_join_subscription c id
  | CallLeaveSubscription c id => mcrx_context_leave_subscription c id
  | CallRemoveSubscription c id => mcrx_context_remove_subscription c id
  | CallPoll c n callback out => mcrx_context_poll c n callback out
  end.

Definition call_context (k : FfiCall) : Ptr :=
  match k with
  | CallAddSubscription c _ _ _ _ _ | CallJoinSubscription c _ | CallLeaveSubscription c _
  | CallRemoveSubscription c _ | CallPoll c _ _ _ => c
  end.

(** *** Statuses and messages *)

(** A status that is not [OK] comes with a message in the handle, and [OK]
    with none. *)
Definition reported (status : Z) (st : St) : Prop :=
  (status = MCRX_STATUS_OK ∧ f_last_error st = None) ∨
  ((status = MCRX_STATUS_INVALID_ARGUMENT ∨ status = MCRX_STATUS_ERROR) ∧
   is_Some (f_last_error st)).

(** Every early return, or every return, of a body is [reported]. *)
Definition reports_early {A : Type} (m : M St Z A) : Prop :=
  ∀ st, match m st with (Err status, st') => reported status st' | _ => True end.
Definition reports (m : M St Z Z) : Prop :=
  ∀ st, match m st with (Ok status, st') | (Err status, st') => reported status st' | _ => True end.

Create HintDb reports.

Lemma reports_early_then {A B : Type} (m : M St Z A) (k : A → M St Z B) :
  reports_early m → (∀ a, reports_early (k a)) → reports_early (mthen m k).
Proof.
  intros Hm Hk st. specialize (Hm st). unfold mthen.
  destruct (m st) as [[a|e| |] st']; try done. by apply Hk.
Qed.
Lemma reports_then {A : Type} (m : M St Z A) (k : A → M St Z Z) :
  reports_early m → (∀ a, reports (k a)) → reports (mthen m k).
Proof.
  intros Hm Hk st. specialize (Hm st). unfold mthen.
  destruct (m st) as [[a|e| |] st']; try done. by apply Hk.
Qed.
Lemma reports_early_early {A : Type} (m : M St Z Z) :
  reports m → reports_early (early m : M St Z A).
Proof.
  intros Hm st. specialize (Hm st). unfold early, mthen. by destruct (m st) as [[] ?].
Qed.
Lemma reports_set_error e : reports (set_error e).
Proof. intros st. right. split; [by right|by eexists]. Qed.
Lemma reports_set_invalid_argument e : reports (set_invalid_argument e).
Proof. intros st. right. split; [by left|by eexists]. Qed.
Lemma reports_ok : reports (clear_error ;;* mpure MCRX_STATUS_OK).
Proof. intros st. by left. Qed.
Lemma reports_early_mpure {A : Type} (a : A) : reports_early (mpure a).
Proof. done. Qed.
Lemma reports_early_mmodify f : reports_early (mmodify f).
Proof. done. Qed.
Lemma reports_early_mget : reports_early mget.
Proof. done. Qed.
Lemma reports_early_mreads {A : Type} (f : St → A) : reports_early (mreads f).
Proof. done. Qed.
Lemma reports_early_or_invalid {A : Type} (m : M World string A) : reports_early (or_invalid m).
Proof.
  intros st. unfold or_invalid. destruct (m (f_world st)) as [[a|e| |] w]; try done.
  apply (reports_early_early _ (reports_set_invalid_argument e)).
Qed.
Lemma reports_early_on_context {A : Type} (m : Act A) : reports_early (on_context m).
Proof. intros st. unfold on_context. by destruct (m _) as [[] [? ?]]. Qed.
#[local] Hint Resolve reports_early_then reports_then reports_early_early reports_set_error
  reports_set_invalid_argument reports_ok reports_early_mpure reports_early_mmodify
  reports_early_mget reports_early_mreads reports_early_or_invalid reports_early_on_context : reports.
#[local] Hint Extern 4 (reports_early (match ?x with _ => _ end)) => destruct x : reports.
#[local] Hint Extern 4 (reports (match ?x with _ => _ end)) => destruct x : reports.
#[local] Hint Extern 6 (∀ _, reports_early _) => intros : reports.
#[local] Hint Extern 6 (∀ _, reports _) => intros : reports.

Lemma reports_early_lock_context : reports_early lock_context.
Proof. unfold lock_context. auto with reports. Qed.
Lemma reports_status_from_mcrx_result {A : Type} (r : A + McrxError) :
  reports (status_from_mcrx_result r).
Proof. unfold status_from_mcrx_result. auto with reports. Qed.
Lemma reports_early_poll_loop callback n received : reports_early (poll_loop callback n received).
Proof.
  revert received. induction n as [|n IH]; intros received; simpl; [auto with reports|].
  unfold receive_one, call_packet_callback. auto 20 with reports.
Qed.
#[local] Hint Resolve reports_early_lock_context reports_status_from_mcrx_result
  reports_early_poll_loop : reports.

Lemma ffi_status_reports body st status st' :
  reports body → ffi_status body st = (Ok status, st') →
  reported status st' ∨ (status = MCRX_STATUS_PANIC ∧ is_Some (f_tls st')).
Proof.
  intros Hb. specialize (Hb st). unfold ffi_status.
  destruct (body st) as [[s|s| |] st1]; try done; intros [= <- <-]; [by left..|right].
  split; [done|by eexists].
Qed.

(** C36: on a live handle the last error mirrors the status of a call: [OK]
    leaves no message, a failure leaves one, and a call that unwound leaves a
    message for its thread. *)
Theorem status_matches_last_error k st status st' :
  call_context k = Valid → ffi_call k st = (Ok status, st') →
  (status = MCRX_STATUS_OK ∧ f_last_error st' = None) ∨
  ((status = MCRX_STATUS_INVALID_ARGUMENT ∨ status = MCRX_STATUS_ERROR) ∧
   is_Some (f_last_error st')) ∨
  (status = MCRX_STATUS_PANIC ∧ is_Some (f_tls st')).
Proof.
  intros Hc Hk.
  enough (reported status st' ∨ (status = MCRX_STATUS_PANIC ∧ is_Some (f_tls st')))
    as [[?|?]|?] by auto.
  destruct k; simpl in *; subst; revert Hk; apply ffi_status_reports; simpl;
    auto 20 with reports.
Qed.

(** A null handle is refused before anything else is looked at, and only
    the thread's own message records it. *)
Theorem null_handle_is_refused k st :
  call_context k = Null →
  ffi_call k st = (Ok MCRX_STATUS_INVALID_ARGUMENT,
                   set_tls (Some "context pointer must not be null") st).
Proof. destruct k; simpl; by intros ->. Qed.

(** *** Safety *)

(** The context is well formed and its mutex is not poisoned. *)
Definition ffi_ok (bound : Z) (st : St) : Prop :=
  inv_upto bound (f_context st) ∧ f_poisoned st = false.

(** A callback that keeps the handle in order and adds no subscription. *)
Definition callback_ok (callback : McrxPacketView → St → St) : Prop :=
  ∀ b v st, ffi_ok b st → ffi_ok b (callback v st).

Definition call_ok (k : FfiCall) : Prop :=
  match k with CallPoll _ _ (Some callback) _ => callback_ok callback | _ => True end.

Lemma ffi_ok_weaken b b' st : (b ≤ b')%Z → ffi_ok b st → ffi_ok b' st.
Proof. intros ? [? ?]. split; [by eapply inv_upto_weaken|done]. Qed.

(** A body that keeps an assertion, whatever it returns and however early. *)
Lemma keeps_mmodify I (f : St → St) : (∀ st, I st → I (f st)) → keeps I (mmodify f : M St Z unit).
Proof. intros Hf st. apply Hf. Qed.
Lemma keeps_mpure {A : Type} I (a : A) : keeps I (mpure a : M St Z A).
Proof. by intros st. Qed.
Lemma keeps_then {A B : Type} I (m : M St Z A) (k : A → M St Z B) :
  keeps I m → (∀ a, keeps I (k a)) → keeps I (mthen m k).
Proof. apply hoare_then. Qed.
Lemma keeps_early {A : Type} I (m : M St Z Z) : keeps I m → keeps I (early m : M St Z A).
Proof. intros Hm. apply keeps_then; [done|]. by intros s st. Qed.
Lemma keeps_mreads {A : Type} I (f : St → A) : keeps I (mreads f : M St Z A).
Proof. by intros st. Qed.

Lemma keeps_set_error b e : keeps (ffi_ok b) (set_error e).
Proof. by apply keeps_then; [apply keeps_mmodify|intros; apply keeps_mpure]. Qed.
Lemma keeps_set_invalid_argument b e : keeps (ffi_ok b) (set_invalid_argument e).
Proof. by apply keeps_then; [apply keeps_mmodify|intros; apply keeps_mpure]. Qed.
Lemma keeps_context_from_ptr b p : keeps (ffi_ok b) (context_from_ptr p).
Proof.
  destruct p; [|apply keeps_mpure].
  apply keeps_early, keeps_then; [by apply keeps_mmodify|intros; apply keeps_mpure].
Qed.
Lemma keeps_lock_context b : keeps (ffi_ok b) lock_context.
Proof. intros st [Hi Hp]. unfold lock_context, mthen, mget. by rewrite Hp. Qed.
Lemma keeps_or_invalid {A : Type} b (m : M World string A) :
  total m → keeps (ffi_ok b) (or_invalid m).
Proof.
  intros Hm st Hst. specialize (Hm (f_world st)). unfold or_invalid.
  destruct (m (f_world st)) as [[a|e| |] w]; try done.
Qed.

Lemma on_context_hoare {A : Type} b b' (m : Act A) :
  (∀ st, inv_upto b st.1 → returns (m st).1 ∧ inv_upto b' (m st).2.1) →
  hoare (ffi_ok b) (on_context m) (λ _, ffi_ok b') (ffi_ok b').
Proof.
  intros Hm st [Hi Hp]. specialize (Hm (f_context st, f_world st) Hi). unfold on_context.
  destruct (m _) as [[a|e| |] [c w]]; simpl in *; try tauto; by destruct Hm as [_ ?].
Qed.

Lemma keeps_on_context {A : Type} b (m : Act A) :
  safe (inv_upto b) m → keeps (ffi_ok b) (on_context m).
Proof. intros Hm. apply (on_context_hoare b b m). apply Hm. Qed.

Lemma total_build_config group port source interface :
  total (build_subscription_config group port source interface).
Proof.
  assert (Hname : ∀ s, total (interface_name_to_index s)).
  { intros s w. unfold interface_name_to_index. destruct (has_nul s); [done|].
    destruct (if_nametoindex s w). by case_bool_decide. }
  assert (Hscope : ∀ s, total (parse_interface_scope s)).
  { intros s. unfold parse_interface_scope. destruct (all_digits s); [|done].
    apply total_then; [|intros; by case_bool_decide].
    apply total_mlift. by pose proof (returns_parse_uint u32_max s); destruct (parse_uint _ _). }
  assert (Hip : ∀ s f, returns (parse_ip_addr s f)) by (intros; apply returns_ok_or).
  apply total_then; [by apply total_mlift|]. intros g.
  apply total_then.
  { apply total_mlift. destruct source as [s|]; [|done]. simpl. specialize (Hip s "source").
    by destruct (parse_ip_addr s "source"). }
  intros src. apply total_then; [|by intros []].
  unfold parse_interface_selector. destruct interface as [i|]; [|done].
  assert (total (mmap (λ ip, (Some ip, @None Z)) (mlift (parse_ip_addr i "interface") : M World string _)))
    by (apply total_mmap, total_mlift, Hip).
  destruct g; [done|]. destruct (rsplit_once "%" i) as [[addr scope]|].
  - apply total_then; [apply total_mlift, returns_ok_or|]. intros. by apply total_then.
  - destruct (all_digits i); [by apply total_mmap|done].
Qed.

Lemma keeps_poll_loop b callback n received :
  OsLaws → callback_ok callback → keeps (ffi_ok b) (poll_loop callback n received).
Proof.
  intros Hu Hc. revert received. induction n as [|n IH]; intros received; [apply keeps_mpure|].
  apply keeps_then.
  - intros st Hst. unfold receive_one. unfold mthen at 1, mget. rewrite (proj2 Hst). revert st Hst.
    apply keeps_then; [|intros; apply keeps_mpure].
    apply keeps_on_context, safe_upto. intros. apply safe_try_recv_from_joined.
    by apply try_recv_with_metadata_method.
  - intros [[packet|]|err]; [|apply keeps_mpure|apply keeps_early, keeps_set_error].
    apply keeps_then; [apply keeps_mmodify; intros; by apply Hc|]. intros _.
    apply keeps_then; [apply keeps_mreads|]. intros []; [apply IH|apply keeps_mpure].
Qed.

Definition good_status (status : Z) : Prop :=
  status = MCRX_STATUS_OK ∨ status = MCRX_STATUS_INVALID_ARGUMENT ∨ status = MCRX_STATUS_ERROR.

Lemma ffi_status_good P Q body st :
  hoare P body (λ _, Q) Q → reports body → P st →
  ∃ status st', ffi_status body st = (Ok status, st') ∧ Q st' ∧ good_status status.
Proof.
  intros Hk Hr Hst. specialize (Hk st Hst). specialize (Hr st). unfold ffi_status.
  destruct (body st) as [[s|s| |] st']; try done; exists s, st'; split_and!; try done;
    by destruct Hr as [[-> _]|[[->| ->] _]]; unfold good_status; auto.
Qed.

(** The body of a call on a live handle after its context pointer. *)
Lemma hoare_keeps_then {A B : Type} I (m : M St Z A) (k : A → M St Z B) Q R :
  keeps I m → (∀ st, I st → R st) → (∀ a, hoare I (k a) Q R) → hoare I (mthen m k) Q R.
Proof.
  intros Hm HR Hk. eapply hoare_then; [|exact Hk].
  eapply hoare_conseq; [exact Hm|done|done|exact HR].
Qed.

Lemma keeps_transition b (m : Act unit) :
  safe (inv_upto b) m →
  keeps (ffi_ok b)
    (context_from_ptr Valid ;;* lock_context ;;*
     let* r := on_context m in status_from_mcrx_result r).
Proof.
  intros Hm. apply keeps_then; [apply keeps_context_from_ptr|intros _].
  apply keeps_then; [apply keeps_lock_context|intros _].
  apply keeps_then; [by apply keeps_on_context|].
  intros []; [|apply keeps_set_error].
  apply keeps_then; [by apply keeps_mmodify|intros; apply keeps_mpure].
Qed.

Lemma add_body_hoare b group port source interface out :
  (b < u64_max)%Z →
  hoare (ffi_ok b)
    (context_from_ptr Valid ;;*
     match out with
     | Null => early (set_invalid_argument "subscription_id_out must not be null")
     | Valid => mpure ()
     end ;;*
     let* group := or_invalid (mlift (required_str group "group")) in
     let* source := or_invalid (mlift (optional_str source "source")) in
     let* interface := or_invalid (mlift (optional_str interface "interface")) in
     let* config := or_invalid (build_subscription_config group port source interface) in
     lock_context ;;*
     let* r := on_context (add_subscription config) in
     match r with
     | inl id => mmodify (set_out id) ;;* clear_error ;;* mpure MCRX_STATUS_OK
     | inr err => set_error (mcrx_error_to_string err)
     end)
    (λ _, ffi_ok (b + 1)) (ffi_ok (b + 1)).
Proof.
  intros Hb. pose proof (λ st, ffi_ok_weaken b (b + 1) st ltac:(lia)) as Hw.
  assert (Hreq : ∀ s f, returns (required_str s f))
    by (intros [s|] f; simpl; [by destruct (utf8_valid s)|done]).
  assert (Hopt : ∀ s f, returns (optional_str s f)).
  { intros s f. destruct s as [s|]; [|done]. unfold optional_str. specialize (Hreq (Some s) f).
    by destruct (required_str (Some s) f). }
  apply hoare_keeps_then; [apply keeps_context_from_ptr|exact Hw|intros _].
  apply hoare_keeps_then; [|exact Hw|intros _].
  { destruct out; [apply keeps_early, keeps_set_invalid_argument|apply keeps_mpure]. }
  do 3 (apply hoare_keeps_then; [by apply keeps_or_invalid, total_mlift|exact Hw|intros ?]).
  apply hoare_keeps_then; [apply keeps_or_invalid, total_build_config|exact Hw|intros config].
  apply hoare_keeps_then; [apply keeps_lock_context|exact Hw|intros _].
  eapply hoare_then.
  - apply (on_context_hoare b (b + 1)). intros st Hst.
    apply (safe_add_with b config (open_bound_socket config) st); [|done..].
    apply total_open_bound_socket.
  - intros [id|e].
    + apply keeps_then; [by apply keeps_mmodify|intros _].
      apply keeps_then; [by apply keeps_mmodify|intros; apply keeps_mpure].
    + apply keeps_set_error.
Qed.

Lemma ffi_call_good b k st :
  OsLaws → (b < u64_max)%Z → call_ok k → ffi_ok b st →
  ∃ status st', ffi_call k st = (Ok status, st') ∧ ffi_ok (b + 1) st' ∧ good_status status.
Proof.
  intros Hu Hb Hk Hst.
  destruct (call_context k) eqn:Hc.
  { rewrite (null_handle_is_refused k st Hc). do 2 eexists. split; [done|].
    split; [by apply (ffi_ok_weaken b); [lia|]|by right; left]. }
  assert (Hkeep : ∀ body, keeps (ffi_ok b) body → reports body →
    ∃ status st', ffi_status body st = (Ok status, st') ∧ ffi_ok (b + 1) st' ∧ good_status status).
  { intros body Hbody Hr. destruct (ffi_status_good _ _ _ _ Hbody Hr Hst) as (s & st' & ? & ? & ?).
    exists s, st'. split_and!; try done. by apply (ffi_ok_weaken b); [lia|]. }
  destruct k as [c g p s i o|c id|c id|c id|c n callback o]; simpl in Hc; subst c.
  - eapply ffi_status_good; [by apply add_body_hoare|auto 20 with reports|done].
  - apply Hkeep; [|auto 20 with reports]. apply keeps_transition, safe_upto.
    intros. by apply safe_join.
  - apply Hkeep; [|auto 20 with reports]. apply keeps_transition, safe_upto.
    intros. by apply safe_leave.
  - apply Hkeep; [|auto 20 with reports].
    apply keeps_then; [apply keeps_context_from_ptr|intros _].
    apply keeps_then; [apply keeps_lock_context|intros _].
    apply keeps_then; [apply keeps_on_context, safe_mmap, safe_take|].
    intros [[]|]; [|apply keeps_set_error..].
    apply keeps_then; [by apply keeps_mmodify|intros; apply keeps_mpure].
  - apply Hkeep; [|auto 20 with reports].
    apply keeps_then; [apply keeps_context_from_ptr|intros _].
    apply keeps_then.
    { destruct o; [apply keeps_early, keeps_set_invalid_argument|apply keeps_mpure]. }
    intros _. apply keeps_then; [by apply keeps_mmodify|intros _].
    assert (keeps (ffi_ok b) (clear_error ;;* mpure MCRX_STATUS_OK : M St Z Z))
      by (apply keeps_then; [by apply keeps_mmodify|intros; apply keeps_mpure]).
    destruct callback as [callback|].
    + apply keeps_then; [by apply keeps_poll_loop|intros received].
      by apply keeps_then; [apply keeps_mmodify|].
    + case_bool_decide; [done|apply keeps_set_invalid_argument].
Qed.

Fixpoint ffi_run (l : list FfiCall) (st : St) : Res Empty_set (list Z) * St :=
  match l with
  | [] => (Ok [], st)
  | k :: l =>
      match ffi_call k st with
      | (Ok status, st') =>
          let '(r, st'') := ffi_run l st' in (res_map (cons status) r, st'')
      | (Err e, st') => (Err e, st')
      | (Panic, st') => (Panic, st')
      | (OutOfFuel, st') => (OutOfFuel, st')
      end
  end.


(** *** Polling and the batch receive of the context *)

(** A callback that only changes what [user_data] points at. *)
Definition user_callback (f : McrxPacketView → U → U) (v : McrxPacketView) (st : St) : St :=
  set_user (f v (f_user st)) st.

Definition views_seen (f : McrxPacketView → U → U) (u : U) (packets : list PacketWithMetadata) : U :=
  fold_left (λ u p, f (callback_view p) u) packets u.

(** The result of a poll loop, and its state, for those of a batch. *)
Definition polled (r : Result nat) : Res Z nat := res_map_err (λ _, MCRX_STATUS_ERROR) r.
Definition polled_state (r : Result nat) (st : St) : St :=
  match r with
  | Err e => set_last_error (Some (cstring_lossy (mcrx_error_to_string e))) st
  | Panic => poison st
  | _ => st
  end.

Lemma receive_one_eq st :
  f_poisoned st = false →
  receive_one st =
    (let '(r, (c, w)) := (try_recv_any_with_metadata : Act _) (f_context st, f_world st) in
     let st : St := set_context c w st in
     (match r with
      | Ok o => Ok (inl o)
      | Err e => Ok (inr (mcrx_error_to_string e))
      | Panic => Panic
      | OutOfFuel => OutOfFuel
      end, match r with Panic => poison st | _ => st end)).
Proof.
  intros Hp. unfold receive_one, mthen at 1, mget. rewrite Hp. unfold mthen, on_context.
  by destruct (try_recv_any_with_metadata _) as [[o|e| |] [c w]].
Qed.

Lemma poll_loop_batch f n received st out0 r c w out :
  f_poisoned st = false → f_handle_alive st = true →
  batch_loop try_recv_any_with_metadata n received (f_context st, f_world st, out0) =
    (r, (c, w, out)) →
  ∃ packets, out = out0 ++ packets ∧
    poll_loop (user_callback f) n received st =
      (polled r, polled_state r (set_user (views_seen f (f_user st) packets) (set_context c w st))).
Proof.
  revert received st out0. induction n as [|n IH]; intros received st out0 Hp Ha.
  { intros [= <- <- <- <-]. exists []. rewrite app_nil_r. split; [done|]. by destruct st. }
  rewrite batch_loop_S. cbn [poll_loop]. unfold mthen at 1. rewrite (receive_one_eq st Hp).
  destruct (try_recv_any_with_metadata (f_context st, f_world st)) as [[[p|]|e| |] [c1 w1]].
  - intros Hb.
    destruct (IH (S received)
      (user_callback f (callback_view p) (set_context c1 w1 st)) (out0 ++ [p]) Hp Ha Hb)
      as (packets & -> & Hpoll).
    exists (p :: packets). rewrite <-app_assoc. split; [done|].
    unfold call_packet_callback, mthen at 1, mmodify, mthen, mreads.
    change (f_handle_alive (user_callback f (callback_view p) (set_context c1 w1 st)))
      with (f_handle_alive st). rewrite Ha. exact Hpoll.
  - intros [= <- <- <- <-]. exists []. by rewrite app_nil_r.
  - intros [= <- <- <- <-]. exists []. by rewrite app_nil_r.
  - intros [= <- <- <- <-]. exists []. by rewrite app_nil_r.
  - intros [= <- <- <- <-]. exists []. by rewrite app_nil_r.
Qed.

Lemma poll_eq callback n (st : St) :
  mcrx_context_poll Valid n (Some callback) Valid st =
    ffi_status (let* received := poll_loop callback n 0 in
                mmodify (set_out (Z.of_nat received)) ;;*
                clear_error ;;*
                mpure MCRX_STATUS_OK) (set_out 0 st).
Proof. done. Qed.

(** C19: polling with a callback that only touches its user data does what the
    batch receive of the context does: the same packets, in the same order,
    reach the callback as views, context and world end the same. The count is
    written and the error cleared on success; on an error the count is 0,
    though the callback may have run, and the message is kept. *)
Theorem poll_refines_batch f n (st : St) r c w packets :
  f_poisoned st = false → f_handle_alive st = true →
  batch_loop try_recv_any_with_metadata n 0 (f_context st, f_world st, []) =
    (r, (c, w, packets)) →
  let st' := set_user (views_seen f (f_user st) packets) (set_context c w st) in
  match r with
  | Ok k =>
      mcrx_context_poll Valid n (Some (user_callback f)) Valid st =
        (Ok MCRX_STATUS_OK, set_last_error None (set_out (Z.of_nat k) st'))
  | Err e =>
      mcrx_context_poll Valid n (Some (user_callback f)) Valid st =
        (Ok MCRX_STATUS_ERROR,
         set_last_error (Some (cstring_lossy (mcrx_error_to_string e))) (set_out 0 st'))
  | Panic => (mcrx_context_poll Valid n (Some (user_callback f)) Valid st).1 = Ok MCRX_STATUS_PANIC
  | OutOfFuel => (mcrx_context_poll Valid n (Some (user_callback f)) Valid st).1 = OutOfFuel
  end.
Proof.
  intros Hp Ha Hb. cbv zeta.
  destruct (poll_loop_batch f n 0 (set_out 0 st) [] r c w packets Hp Ha Hb)
    as (packets' & Heq & Hpoll). simpl in Heq. subst packets'.
  destruct r as [k|e| |]; rewrite poll_eq; unfold ffi_status, mthen at 1; by rewrite Hpoll.
Qed.

(** When a callback frees the handle, the poll that ran it ends with that
    packet: one packet is reported, and nothing else is received. *)
Theorem poll_stops_after_free callback n (st : St) packet c w :
  f_poisoned st = false →
  try_recv_any_with_metadata (f_context st, f_world st) = (Ok (Some packet), (c, w)) →
  let st' := callback (callback_view packet) (set_context c w (set_out 0 st)) in
  f_handle_alive st' = false →
  mcrx_context_poll Valid (S n) (Some callback) Valid st =
    (Ok MCRX_STATUS_OK, set_last_error None (set_out 1 st')).
Proof.
  intros Hp Hr. cbv zeta. intros Ha. rewrite poll_eq. unfold ffi_status.
  unfold mthen at 1. cbn [poll_loop]. unfold mthen at 1. rewrite receive_one_eq by done.
  change (f_context (set_out 0 st), f_world (set_out 0 st)) with (f_context st, f_world st).
  rewrite Hr. unfold call_packet_callback, mthen, mmodify, mreads. by rewrite Ha.
Qed.
End calls.

(** ** Witnesses

    A handle of the sample operating system, with one joined subscription, and
    a callback that collects the views. *)

Abbreviation SampleState := (@FfiState sample_os (list McrxPacketView)).

Definition sample_new : SampleState := @mcrx_context_new sample_os _ 0 [].

Definition sample_setup : list (@FfiCall sample_os (list McrxPacketView)) :=
  [CallAddSubscription Valid (Some "239.1.2.3") 5000 None None Valid; CallJoinSubscription Valid 1].

Definition sample_joined : SampleState := (ffi_run sample_setup sample_new).2.

Definition collect : McrxPacketView → list McrxPacketView → list McrxPacketView := cons.

Definition sample_calls : list (@FfiCall sample_os (list McrxPacketView)) :=
  sample_setup ++
  [CallPoll Valid 3 (Some (@user_callback sample_os _ collect)) Valid;
   CallAddSubscription Valid (Some "127.0.0.1") 5000 None None Valid;
   CallLeaveSubscription Valid 9; CallRemoveSubscription Valid 1;
   CallPoll Valid 3 None Valid; CallJoinSubscription Null 1].

Example sample_calls_statuses :
  (ffi_run sample_calls sample_new).1 = Ok [0; 0; 0; 2; 2; 0; 1; 1]%Z.
Proof. vm_compute. reflexivity. Qed.

Lemma user_callback_ok {U : Type} (f : McrxPacketView → U → U) :
  callback_ok (@user_callback sample_os U f).
Proof. by intros b v st [? ?]. Qed.

Lemma build_config_roundtrip_witness :
  build_subscription_config "ff3e::8000:1234" 5000 (Some "2001:db8::10") (Some "fe80::1%7")
    (0 : @World sample_os) =
  (Ok (mkConfig (V6 (v6 65342 0 0 0 0 0 32768 4660)) (Source (V6 (v6 8193 3512 0 0 0 0 0 16))) 5000
         (Some (V6 (v6 65152 0 0 0 0 0 0 1))) (Some 7%Z)), 0).
Proof.
  refine (build_config_roundtrip
    (mkConfig (V6 (v6 65342 0 0 0 0 0 32768 4660)) (Source (V6 (v6 8193 3512 0 0 0 0 0 16))) 5000
       (Some (V6 (v6 65152 0 0 0 0 0 0 1))) (Some 7%Z)) (0 : @World sample_os) _).
  simpl. by unfold u32_max.
Defined.

Lemma status_matches_last_error_witness :
  (2%Z = MCRX_STATUS_OK ∧ f_last_error (ffi_call (CallLeaveSubscription Valid 9) sample_joined).2 = None) ∨
  ((2%Z = MCRX_STATUS_INVALID_ARGUMENT ∨ 2%Z = MCRX_STATUS_ERROR) ∧
   is_Some (f_last_error (ffi_call (CallLeaveSubscription Valid 9) sample_joined).2)) ∨
  (2%Z = MCRX_STATUS_PANIC ∧ is_Some (f_tls (ffi_call (CallLeaveSubscription Valid 9) sample_joined).2)).
Proof.
  refine (status_matches_last_error (CallLeaveSubscription Valid 9) sample_joined 2 _ eq_refl _).
  vm_compute. reflexivity.
Defined.

Lemma null_handle_is_refused_witness :
  ffi_call (CallJoinSubscription Null 1) sample_joined =
    (Ok 1%Z, set_tls (Some "context pointer must not be null") sample_joined).
Proof. exact (null_handle_is_refused (CallJoinSubscription Null 1) sample_joined eq_refl). Defined.


Definition sample_batch :=
  batch_loop try_recv_any_with_metadata 3 0 (f_context sample_joined, f_world sample_joined, []).

Lemma poll_refines_batch_witness :
  mcrx_context_poll Valid 3 (Some (user_callback collect)) Valid sample_joined =
    (Ok MCRX_STATUS_OK,
     set_last_error None (set_out 3
       (set_user (views_seen collect [] sample_batch.2.2)
          (set_context sample_batch.2.1.1 sample_batch.2.1.2 sample_joined)))).
Proof.
  refine (poll_refines_batch collect 3 sample_joined (Ok 3) sample_batch.2.1.1 sample_batch.2.1.2
            sample_batch.2.2 eq_refl eq_refl _).
  vm_compute. reflexivity.
Defined.

Definition freeing_callback (v : McrxPacketView) (st : SampleState) : SampleState :=
  set_handle_alive false (user_callback collect v st).

Definition sample_receive := try_recv_any_with_metadata (f_context sample_joined, f_world sample_joined).

Lemma poll_stops_after_free_witness :
  ∃ packet,
    mcrx_context_poll Valid 8 (Some freeing_callback) Valid sample_joined =
      (Ok MCRX_STATUS_OK,
       set_last_error None (set_out 1
         (freeing_callback (callback_view packet)
            (set_context sample_receive.2.1 sample_receive.2.2 (set_out 0 sample_joined))))).
Proof.
  eexists.
  refine (poll_stops_after_free freeing_callback 7 sample_joined _ sample_receive.2.1
            sample_receive.2.2 eq_refl _ eq_refl).
  vm_compute. reflexivity.
Defined.
