(* ===== verification/FfiWorker.v ===== *)
(** * The background worker of the C interface
    ([src/mcrx-core-ffi/src/lib.rs])

    [mcrx_context_start], [mcrx_context_stop] and [mcrx_context_free] against
    the threads they start. A system is the shared part of [ContextState] and
    a list of threads, those of the C program and the workers, each at a point
    of its program; a schedule says which thread moves and what the
    environment answers. One move is one access to shared memory, so that
    every interleaving of the source is a schedule. *)

From S2P Require Import Prelude Net Text Ffi.

Local Open Scope string_scope.
Local Open Scope list_scope.
Local Open Scope nat_scope.

(** The fields of [ContextState] that the threads share, with the holders of
    the two mutexes. The idle mutex guards no data and nothing unwinds while
    it is held, so it is never poisoned. *)
Record Shared := mkShared {
  active_worker_generation : Z;
  next_worker_generation : Z;
  worker : option nat;
  worker_lock : option nat;
  worker_poisoned : bool;
  idle_wait : option nat;
  last_error : option string;
  handle_alive : bool }.

Definition set_active (g : Z) (sh : Shared) : Shared :=
  mkShared g (next_worker_generation sh) (worker sh) (worker_lock sh) (worker_poisoned sh)
    (idle_wait sh) (last_error sh) (handle_alive sh).
Definition set_next (g : Z) (sh : Shared) : Shared :=
  mkShared (active_worker_generation sh) g (worker sh) (worker_lock sh) (worker_poisoned sh)
    (idle_wait sh) (last_error sh) (handle_alive sh).
Definition set_worker (h : option nat) (sh : Shared) : Shared :=
  mkShared (active_worker_generation sh) (next_worker_generation sh) h (worker_lock sh)
    (worker_poisoned sh) (idle_wait sh) (last_error sh) (handle_alive sh).
Definition set_worker_lock (l : option nat) (sh : Shared) : Shared :=
  mkShared (active_worker_generation sh) (next_worker_generation sh) (worker sh) l
    (worker_poisoned sh) (idle_wait sh) (last_error sh) (handle_alive sh).
Definition poison_worker (sh : Shared) : Shared :=
  mkShared (active_worker_generation sh) (next_worker_generation sh) (worker sh) (worker_lock sh)
    true (idle_wait sh) (last_error sh) (handle_alive sh).
Definition set_idle_wait (l : option nat) (sh : Shared) : Shared :=
  mkShared (active_worker_generation sh) (next_worker_generation sh) (worker sh) (worker_lock sh)
    (worker_poisoned sh) l (last_error sh) (handle_alive sh).
Definition set_last_error (e : option string) (sh : Shared) : Shared :=
  mkShared (active_worker_generation sh) (next_worker_generation sh) (worker sh) (worker_lock sh)
    (worker_poisoned sh) (idle_wait sh) e (handle_alive sh).
Definition set_handle_alive (b : bool) (sh : Shared) : Shared :=
  mkShared (active_worker_generation sh) (next_worker_generation sh) (worker sh) (worker_lock sh)
    (worker_poisoned sh) (idle_wait sh) (last_error sh) b.

(** [McrxContext::new]. *)
Definition new_shared : Shared := mkShared 0 1 None None false None None true.

(** [current.wrapping_add(1).max(1)]. *)
Definition next_generation (current : Z) : Z := Z.max (wrap64 (current + 1)) 1.

(** ** Programs *)

(** [stop_worker] runs for [mcrx_context_stop] and for [mcrx_context_free],
    which ignores its result. *)
Inductive StopCall := ForStop | ForFree.

(** Where a thread of the C program, or a callback, is in a call. *)
Inductive CallPc :=
  | Ready
  | StopStore (k : StopCall)
  | StopNotify (k : StopCall)
  | StopLock (k : StopCall)
  | StopJoin (k : StopCall) (handle : nat)
  | StopReturn (k : StopCall) (result : option string)
  | StartLock
  | StartTake
  | StartGeneration
  | StartStore (generation : Z)
  | StartSpawn (generation : Z)
  | StartClear.

(** Where a worker is in [worker_loop] and the functions it calls: at the test
    of the loop, in [receive_one], in the callback, in
    [wait_for_worker_wakeup] (before the mutex, at the test under it, at the
    condition of [wait_timeout_while], about to block, blocked, woken), in
    [stop_worker_generation_with_error], or ended, by unwinding or not. *)
Inductive WorkerPc :=
  | WTest
  | WReceive
  | WCallback (pc : CallPc)
  | WIdleLock
  | WIdleTest
  | WCondition
  | WBlock
  | WSleep
  | WWake
  | WFail (error : string)
  | WReport (error : string)
  | WNotify
  | WExit (panicked : bool).

Inductive Thread :=
  | Control (pc : CallPc)
  | Worker (generation : Z) (pc : WorkerPc).

(** What [receive_one] answers. *)
Inductive Received := GotPacket | GotNothing | GotError (error : string) | GotPanic.

(** What the environment decides in a move. *)
Inductive Choice :=
  | Go
  | CallStop
  | CallFree
  | CallStart (has_callback : bool)
  | SpawnFails
  | CallbackReturns
  | Receives (r : Received)
  | TimeUp.

#[global] Instance Received_eq_dec : EqDecision Received.
Proof. solve_decision. Defined.
#[global] Instance Choice_eq_dec : EqDecision Choice.
Proof. solve_decision. Defined.

(** The effects of a move: the new program point and shared state, whether
    [notify_all] was called, and the generation of a thread that was spawned. *)
Record Out (P : Type) := mkOut { o_pc : P; o_shared : Shared; o_notify : bool; o_spawn : option Z }.
Arguments mkOut {P}.
Arguments o_pc {P}.
Arguments o_shared {P}.
Arguments o_notify {P}.
Arguments o_spawn {P}.

Definition quiet {P : Type} (pc : P) (sh : Shared) : option (Out P) := Some (mkOut pc sh false None).
Definition notifying {P : Type} (pc : P) (sh : Shared) : option (Out P) := Some (mkOut pc sh true None).

(** ** The moves *)

Section moves.
(** The thread that moves, the identifier of the next thread, and the threads
    that have ended, with whether they unwound. *)
Context (self new : nat) (ended : nat → option bool).

(** [stop_worker], with the end of the call that made it. *)
Definition stop_worker (pc : CallPc) (sh : Shared) : option (Out CallPc) :=
  match pc with
  | StopStore k => quiet (StopNotify k) (set_active 0 sh)
  | StopNotify k => notifying (StopLock k) sh
  | StopLock k =>
      match worker_lock sh with
      | Some _ => None
      | None =>
          if worker_poisoned sh then quiet (StopReturn k (Some "mcrx worker mutex is poisoned")) sh
          else
            match worker sh with
            | None => quiet (StopReturn k None) sh
            | Some h =>
                quiet (if bool_decide (h = self) then StopReturn k None else StopJoin k h)
                      (set_worker None sh)
            end
      end
  | StopJoin k h =>
      match ended h with
      | Some panicked =>
          quiet (StopReturn k (if panicked : bool then Some "mcrx receive worker panicked" else None)) sh
      | None => None
      end
  | _ => None
  end.

(** The end of [mcrx_context_stop] and of [mcrx_context_free]. *)
Definition stop_return (k : StopCall) (result : option string) (sh : Shared) : option (Out CallPc) :=
  match k with
  | ForStop => quiet Ready (set_last_error (cstring_lossy <$> result) sh)
  | ForFree => quiet Ready sh
  end.

(** [mcrx_context_start] after its arguments were checked. *)
Definition start_worker (pc : CallPc) (ch : Choice) (sh : Shared) : option (Out CallPc) :=
  match pc, ch with
  | StartLock, Go =>
      match worker_lock sh with
      | Some _ => None
      | None =>
          if worker_poisoned sh
          then quiet Ready (set_last_error (Some "mcrx worker mutex is poisoned") sh)
          else quiet StartTake (set_worker_lock (Some self) sh)
      end
  | StartTake, Go =>
      match worker sh with
      | None => quiet StartGeneration sh
      | Some h =>
          match ended h with
          | Some _ => quiet StartGeneration (set_worker None sh)
          | None => quiet Ready (set_worker_lock None sh)
          end
      end
  | StartGeneration, Go =>
      quiet (StartStore (next_worker_generation sh))
            (set_next (next_generation (next_worker_generation sh)) sh)
  | StartStore g, Go => quiet (StartSpawn g) (set_active g sh)
  | StartSpawn g, Go => Some (mkOut StartClear (set_worker (Some new) sh) false (Some g))
  | StartSpawn g, SpawnFails => quiet Ready (poison_worker (set_worker_lock None sh))
  | StartClear, Go => quiet Ready (set_worker_lock None (set_last_error None sh))
  | _, _ => None
  end.

(** The calls, from a thread of the C program or from inside a callback. *)
Definition call_step (pc : CallPc) (ch : Choice) (sh : Shared) : option (Out CallPc) :=
  match pc with
  | Ready =>
      match ch with
      | CallStop => quiet (StopStore ForStop) sh
      | CallFree => quiet (StopStore ForFree) (set_handle_alive false sh)
      | CallStart true => quiet StartLock sh
      | CallStart false => quiet Ready (set_last_error (Some "callback must not be null") sh)
      | _ => None
      end
  | StopStore _ | StopNotify _ | StopLock _ | StopJoin _ _ =>
      match ch with Go => stop_worker pc sh | _ => None end
  | StopReturn k r => match ch with Go => stop_return k r sh | _ => None end
  | _ => start_worker pc ch sh
  end.

(** [wait_for_worker_wakeup]; [TimeUp] is the end of the timeout, or a spurious
    wakeup of a blocked thread. *)
Definition wait_for_worker_wakeup (generation : Z) (pc : WorkerPc) (ch : Choice) (sh : Shared)
    : option (Out WorkerPc) :=
  let stale := negb (bool_decide (active_worker_generation sh = generation)) in
  let unlock := set_idle_wait None sh in
  match pc, ch with
  | WIdleLock, Go | WWake, Go =>
      match idle_wait sh with
      | Some _ => None
      | None => quiet match pc with WWake => WCondition | _ => WIdleTest end
                      (set_idle_wait (Some self) sh)
      end
  | WIdleTest, Go => if stale then quiet WTest unlock else quiet WCondition sh
  | WCondition, Go => if stale then quiet WTest unlock else quiet WBlock sh
  | WBlock, Go => quiet WSleep unlock
  | WBlock, TimeUp => quiet WTest unlock
  | WSleep, TimeUp => quiet WWake sh
  | _, _ => None
  end.

(** [stop_worker_generation_with_error], with the [break] that follows it. *)
Definition stop_worker_generation_with_error (generation : Z) (pc : WorkerPc) (sh : Shared)
    : option (Out WorkerPc) :=
  match pc with
  | WFail e =>
      if bool_decide (active_worker_generation sh = generation)
      then quiet (WReport e) (set_active 0 sh)
      else quiet (WExit false) sh
  | WReport e => quiet WNotify (set_last_error (Some (cstring_lossy e)) sh)
  | WNotify => notifying (WExit false) sh
  | _ => None
  end.

Definition in_callback (o : Out CallPc) : Out WorkerPc :=
  mkOut (WCallback (o_pc o)) (o_shared o) (o_notify o) (o_spawn o).

Definition worker_loop (generation : Z) (pc : WorkerPc) (ch : Choice) (sh : Shared)
    : option (Out WorkerPc) :=
  match pc with
  | WTest =>
      match ch with
      | Go => quiet (if bool_decide (active_worker_generation sh = generation)
                     then WReceive else WExit false) sh
      | _ => None
      end
  | WReceive =>
      match ch with
      | Receives GotPacket => quiet (WCallback Ready) sh
      | Receives GotNothing => quiet WIdleLock sh
      | Receives (GotError e) => quiet (WFail e) sh
      | Receives GotPanic => quiet (WExit true) sh
      | _ => None
      end
  | WCallback Ready =>
      match ch with
      | CallbackReturns => quiet WTest sh
      | _ => in_callback <$> call_step Ready ch sh
      end
  | WCallback pc => in_callback <$> call_step pc ch sh
  | WIdleLock | WIdleTest | WCondition | WBlock | WSleep | WWake =>
      wait_for_worker_wakeup generation pc ch sh
  | WFail _ | WReport _ | WNotify =>
      match ch with Go => stop_worker_generation_with_error generation pc sh | _ => None end
  | WExit _ => None
  end.

Definition thread_step (t : Thread) (ch : Choice) (sh : Shared) : option (Out Thread) :=
  match t with
  | Control pc =>
      (λ o, mkOut (Control (o_pc o)) (o_shared o) (o_notify o) (o_spawn o)) <$> call_step pc ch sh
  | Worker g pc =>
      (λ o, mkOut (Worker g (o_pc o)) (o_shared o) (o_notify o) (o_spawn o)) <$>
        worker_loop g pc ch sh
  end.
End moves.

(** ** Systems *)

Record System := mkSystem { shared : Shared; threads : list Thread }.

Definition thread_ended (t : Thread) : option bool :=
  match t with Worker _ (WExit panicked) => Some panicked | _ => None end.

(** [notify_all] wakes the threads that are blocked. *)
Definition wake (t : Thread) : Thread :=
  match t with Worker g WSleep => Worker g WWake | _ => t end.

Definition step (s : System) (i : nat) (ch : Choice) : option System :=
  t ← threads s !! i;
  o ← thread_step i (length (threads s)) (λ h, threads s !! h ≫= thread_ended) t ch (shared s);
  let others := if o_notify o then wake <$> threads s else threads s in
  let spawned := match o_spawn o with Some g => [Worker g WTest] | None => [] end in
  Some (mkSystem (o_shared o) (<[i := o_pc o]> others ++ spawned)).

(** Executions: who moves, and what the environment answers. *)
Abbreviation Schedule := (list (nat * Choice)) (only parsing).

Inductive runs : System → Schedule → System → Prop :=
  | runs_nil s : runs s [] s
  | runs_step s i ch s' l s'' :
      step s i ch = Some s' → runs s' l s'' → runs s ((i, ch) :: l) s''.

(** A new context, in a program with some threads. *)
Definition new_system (n : nat) : System := mkSystem new_shared (replicate n (Control Ready)).

(** The execution of a schedule, when every move of it is possible. *)
Fixpoint run_schedule (s : System) (l : Schedule) : option System :=
  match l with
  | [] => Some s
  | (i, ch) :: l => s' ← step s i ch; run_schedule s' l
  end.

Lemma run_schedule_runs s l s' : run_schedule s l = Some s' → runs s l s'.
Proof.
  revert s. induction l as [|[i ch] l IH]; intros s; simpl.
  - intros [= <-]. constructor.
  - destruct (step s i ch) as [s1|] eqn:Hs; [|done]. simpl. intros Hr.
    econstructor; [exact Hs|by apply IH].
Qed.

Lemma runs_trans s l s' l' s'' : runs s l s' → runs s' l' s'' → runs s (l ++ l') s''.
Proof. induction 1 as [|s i ch s1 l s2 Hs Hr IH]; [done|]. intros Hr'. econstructor; eauto. Qed.

(** ** Generations

    The generations that a thread owns: its own when it is a worker, and the
    one it is about to hand to a new worker. *)
Definition pending (pc : CallPc) : list Z :=
  match pc with StartStore g | StartSpawn g => [g] | _ => [] end.
Definition worker_pending (pc : WorkerPc) : list Z :=
  match pc with WCallback pc => pending pc | _ => [] end.
Definition thread_generations (t : Thread) : list Z :=
  match t with Control pc => pending pc | Worker g pc => g :: worker_pending pc end.
Definition thread_pending (t : Thread) : list Z :=
  match t with Control pc => pending pc | Worker _ pc => worker_pending pc end.
Definition generations (s : System) : list Z := threads s ≫= thread_generations.

Lemma step_inv s i ch s' :
  step s i ch = Some s' →
  ∃ t o, threads s !! i = Some t ∧
    thread_step i (length (threads s)) (λ h, threads s !! h ≫= thread_ended) t ch (shared s) = Some o ∧
    shared s' = o_shared o ∧
    threads s' = <[i := o_pc o]> (if o_notify o then wake <$> threads s else threads s) ++
                 match o_spawn o with Some g => [Worker g WTest] | None => [] end.
Proof.
  unfold step. destruct (threads s !! i) as [t|]; [|done]. cbn [mbind option_bind].
  destruct (thread_step _ _ _ t ch (shared s)) as [o|] eqn:Ho; [|done]. cbn [mbind option_bind].
  intros [= <-]. exists t, o. by split_and!.
Qed.

(** How one move of a call changes the generations: at most one is issued, and
    none is made up. *)
Definition spawned {P : Type} (o : Out P) : list Z := match o_spawn o with Some g => [g] | None => [] end.

Definition generation_move {P : Type} (own : list Z) (own' : P → list Z) (pend : list Z)
    (sh : Shared) (o : Out P) : Prop :=
  (∃ issued : list Z,
     (issued = [] ∧ next_worker_generation (o_shared o) = next_worker_generation sh ∨
      issued = [next_worker_generation sh] ∧
      next_worker_generation (o_shared o) = next_generation (next_worker_generation sh)) ∧
     own' (o_pc o) ++ spawned o ⊆+ own ++ issued) ∧
  (active_worker_generation (o_shared o) = active_worker_generation sh ∨
   active_worker_generation (o_shared o) = 0%Z ∨
   active_worker_generation (o_shared o) ∈ pend).

(** A move that issues nothing. *)
Lemma plain_move {P : Type} own (own' : P → list Z) pend sh (o : Out P) :
  next_worker_generation (o_shared o) = next_worker_generation sh →
  own' (o_pc o) ++ spawned o ⊆+ own →
  (active_worker_generation (o_shared o) = active_worker_generation sh ∨
   active_worker_generation (o_shared o) = 0%Z ∨
   active_worker_generation (o_shared o) ∈ pend) →
  generation_move own own' pend sh o.
Proof. intros Hn Ho Ha. split; [|done]. exists []. rewrite app_nil_r. auto. Qed.

Lemma stop_worker_move self ended pc sh o :
  stop_worker self ended pc sh = Some o → generation_move (pending pc) pending (pending pc) sh o.
Proof.
  intros Ho. destruct pc; simpl in Ho; repeat case_match; simplify_eq/=;
    unfold quiet, notifying in *; simplify_eq/=;
    (apply plain_move; simpl; [done|try case_bool_decide; apply submseteq_nil_l|auto]).
Qed.

Lemma start_worker_move self new ended pc ch sh o :
  start_worker self new ended pc ch sh = Some o → generation_move (pending pc) pending (pending pc) sh o.
Proof.
  intros Ho.
  destruct pc, ch; simpl in Ho; repeat case_match; unfold quiet in *; simplify_eq/=;
    try (apply plain_move; simpl; [done|solve [apply submseteq_nil_l|done]|auto]; fail).
  - split; [|by left]. eexists. split; [by right|]. done.
  - apply plain_move; simpl; [done|done|]. right; right. by apply list_elem_of_singleton.
Qed.

Lemma call_step_move self new ended pc ch sh o :
  call_step self new ended pc ch sh = Some o → generation_move (pending pc) pending (pending pc) sh o.
Proof.
  intros Ho. destruct pc; try exact (start_worker_move self new ended _ ch sh o Ho); simpl in Ho.
  - destruct ch as [| | |[]| | | |]; unfold quiet in *; simplify_eq/=;
      (apply plain_move; simpl; [done|apply submseteq_nil_l|auto]).
  - destruct ch; try done. by eapply (stop_worker_move self ended (StopStore k)).
  - destruct ch; try done. by eapply (stop_worker_move self ended (StopNotify k)).
  - destruct ch; try done. by eapply (stop_worker_move self ended (StopLock k)).
  - destruct ch; try done. by eapply (stop_worker_move self ended (StopJoin k handle)).
  - destruct ch; try done. destruct k; unfold stop_return, quiet in *; simplify_eq/=;
      (apply plain_move; simpl; [done|apply submseteq_nil_l|auto]).
Qed.

(** What a worker in its callback can do: return, or move in a call. *)
Lemma worker_loop_callback self new ended g cpc ch sh o :
  worker_loop self new ended g (WCallback cpc) ch sh = Some o →
  (ch = CallbackReturns ∧ cpc = Ready ∧ o = mkOut WTest sh false None) ∨
  (∃ o', call_step self new ended cpc ch sh = Some o' ∧ o = in_callback o').
Proof.
  intros Ho. destruct cpc; try (right; by apply fmap_Some in Ho).
  destruct ch; try (right; by apply fmap_Some in Ho). left. by injection Ho as <-.
Qed.

Lemma worker_loop_move self new ended g pc ch sh o :
  worker_loop self new ended g pc ch sh = Some o →
  generation_move (g :: worker_pending pc) (λ pc, g :: worker_pending pc) (worker_pending pc) sh o.
Proof.
  intros Ho.
  assert (Hcall : ∀ cpc o', call_step self new ended cpc ch sh = Some o' → o = in_callback o' →
    generation_move (g :: pending cpc) (λ pc, g :: worker_pending pc) (pending cpc) sh o).
  { intros cpc o' Hc ->. destruct (call_step_move _ _ _ _ _ _ _ Hc) as [(issued & Hn & Hsub) Ha].
    split; [|done]. exists issued. split; [done|].
    simpl. by apply submseteq_skip. }
  assert (Hplain : next_worker_generation (o_shared o) = next_worker_generation sh →
    worker_pending (o_pc o) = [] → o_spawn o = None →
    (active_worker_generation (o_shared o) = active_worker_generation sh ∨
     active_worker_generation (o_shared o) = 0%Z) →
    generation_move (g :: worker_pending pc) (λ pc, g :: worker_pending pc) (worker_pending pc) sh o).
  { intros Hn Hp Hs Ha. apply plain_move; [done| |tauto].
    unfold spawned. rewrite Hp, Hs. simpl. apply submseteq_skip, submseteq_nil_l. }
  destruct pc as [| |cpc| | | | | | | | | |]; try done.
  3: { destruct (worker_loop_callback _ _ _ _ _ _ _ _ Ho) as [(_ & -> & ->)|(o' & Hc & ->)];
         [by apply Hplain; auto|by eapply (Hcall _ o')]. }
  all: simpl in Ho; unfold wait_for_worker_wakeup, quiet, notifying in Ho;
    repeat case_match; simplify_eq/=; apply Hplain; simpl; auto; by case_bool_decide.
Qed.

Lemma thread_step_move self new ended t ch sh o :
  thread_step self new ended t ch sh = Some o →
  generation_move (thread_generations t) thread_generations (thread_pending t) sh o.
Proof.
  destruct t as [pc|g pc]; simpl; intros (o' & Ho & ->)%fmap_Some.
  - by apply call_step_move in Ho.
  - by apply worker_loop_move in Ho.
Qed.

Lemma bind_lookup_Permutation {A B : Type} (f : A → list B) (l : list A) i x :
  l !! i = Some x →
  ∃ rest, (l ≫= f) ≡ₚ f x ++ rest ∧ ∀ y, (<[i := y]> l ≫= f) ≡ₚ f y ++ rest.
Proof.
  intros Hx. exists ((take i l ≫= f) ++ (drop (S i) l ≫= f)). split.
  - rewrite <-(take_drop_middle l i x Hx) at 1. rewrite bind_app. simpl. solve_Permutation.
  - intros y. rewrite insert_take_drop by (by eapply lookup_lt_Some).
    rewrite bind_app. simpl. solve_Permutation.
Qed.

Lemma wake_generations (l : list Thread) : (wake <$> l) ≫= thread_generations = l ≫= thread_generations.
Proof.
  induction l as [|t l IH]; [done|]. csimpl. rewrite IH. f_equal. by destruct t as [|g []].
Qed.

Lemma spawned_generations {P : Type} (o : Out P) :
  match o_spawn o with Some g => [Worker g WTest] | None => [] end ≫= thread_generations = spawned o.
Proof. unfold spawned. by destruct (o_spawn o). Qed.

Lemma wake_lookup (l : list Thread) i t : l !! i = Some t → (wake <$> l) !! i = Some (wake t).
Proof. intros Hi. by rewrite list_lookup_fmap, Hi. Qed.

Lemma step_generations s i ch s' :
  step s i ch = Some s' →
  (∃ issued : list Z,
     (issued = [] ∧ next_worker_generation (shared s') = next_worker_generation (shared s) ∨
      issued = [next_worker_generation (shared s)] ∧
      next_worker_generation (shared s') = next_generation (next_worker_generation (shared s))) ∧
     generations s' ⊆+ generations s ++ issued) ∧
  (active_worker_generation (shared s') = active_worker_generation (shared s) ∨
   active_worker_generation (shared s') = 0%Z ∨
   ∃ t, threads s !! i = Some t ∧ active_worker_generation (shared s') ∈ thread_pending t).
Proof.
  intros (t & o & Ht & Ho & Hsh & Hth)%step_inv.
  apply thread_step_move in Ho as [(issued & Hn & Hsub) Ha]. rewrite <-Hsh in *.
  split; [|naive_solver]. exists issued. split; [done|].
  unfold generations. rewrite Hth, bind_app, spawned_generations.
  set (others := if o_notify o then wake <$> threads s else threads s).
  assert (Hot : ∃ t', others !! i = Some t' ∧ others ≫= thread_generations = threads s ≫= thread_generations
                 ∧ thread_generations t' = thread_generations t).
  { subst others. destruct (o_notify o); [|by eauto].
    exists (wake t). rewrite wake_generations. split; [by apply wake_lookup|].
    split; [done|]. by destruct t as [|g []]. }
  destruct Hot as (t' & Ht' & Hg & Htg).
  destruct (bind_lookup_Permutation thread_generations others i t' Ht') as (rest & Hall & Hins).
  rewrite Hins, <-Hg, Hall, Htg.
  transitivity ((thread_generations (o_pc o) ++ spawned o) ++ rest).
  { apply Permutation_submseteq. solve_Permutation. }
  transitivity ((thread_generations t ++ issued) ++ rest).
  { by apply submseteq_app. }
  apply Permutation_submseteq. solve_Permutation.
Qed.

(** The generations of the threads are distinct and were issued; so was the
    active one, unless it is 0. *)
Record generations_ok (bound : Z) (s : System) : Prop := {
  go_next : (1 ≤ next_worker_generation (shared s) ≤ bound)%Z;
  go_active : (0 ≤ active_worker_generation (shared s) < next_worker_generation (shared s))%Z;
  go_distinct : NoDup (generations s);
  go_issued : Forall (λ g, 1 ≤ g < next_worker_generation (shared s))%Z (generations s) }.

Lemma in_thread_generations s i t g :
  threads s !! i = Some t → g ∈ thread_generations t → g ∈ generations s.
Proof.
  intros Ht Hg. apply list_elem_of_bind. exists t. split; [done|]. by eapply list_elem_of_lookup_2.
Qed.

Lemma thread_pending_generations t g : g ∈ thread_pending t → g ∈ thread_generations t.
Proof. destruct t; [done|]. simpl. by right. Qed.

Lemma next_generation_small g : (0 ≤ g < u64_max)%Z → next_generation g = (g + 1)%Z.
Proof. intros Hg. unfold next_generation. rewrite wrap64_small by lia. lia. Qed.

Lemma step_generations_ok b s i ch s' :
  step s i ch = Some s' → (b < u64_max)%Z → generations_ok b s → generations_ok (b + 1) s'.
Proof.
  intros Hs Hb [Hnext Hact Hnd Hiss].
  destruct (step_generations s i ch s' Hs) as [(issued & Hi & Hsub) Ha].
  rewrite Forall_forall in Hiss.
  assert (Hn' : (next_worker_generation (shared s) ≤ next_worker_generation (shared s') ≤ b + 1)%Z ∧
                NoDup (generations s ++ issued) ∧
                ∀ g, g ∈ generations s ++ issued → (1 ≤ g < next_worker_generation (shared s'))%Z).
  { destruct Hi as [[-> ->]|[-> ->]].
    - rewrite app_nil_r. split_and!; [lia|lia|done|done].
    - rewrite next_generation_small by lia. split_and!; [lia|lia| |].
      + apply NoDup_app. split; [done|]. split; [|apply NoDup_singleton].
        intros g Hg ->%list_elem_of_singleton. specialize (Hiss _ Hg). simpl in Hiss. lia.
      + intros g [Hg|Hg]%elem_of_app; [|apply list_elem_of_singleton in Hg as ->; lia].
        specialize (Hiss _ Hg). simpl in Hiss. lia. }
  destruct Hn' as (Hle & Hnd' & Hall). split.
  - lia.
  - destruct Ha as [->|[->|(t & Ht & Hg)]]; [lia|lia|].
    specialize (Hiss _ (in_thread_generations s i t _ Ht (thread_pending_generations t _ Hg))).
    simpl in Hiss. lia.
  - apply submseteq_Permutation in Hsub as (k & Hk). rewrite Hk in Hnd'. by apply NoDup_app in Hnd' as [? _].
  - apply Forall_forall. intros g Hg. apply Hall. by eapply elem_of_submseteq.
Qed.

Lemma runs_generations_ok b s l s' :
  runs s l s' → (b + Z.of_nat (length l) < u64_max)%Z → generations_ok b s →
  generations_ok (b + Z.of_nat (length l)) s'.
Proof.
  intros Hr. revert b. induction Hr as [s|s i ch s1 l s2 Hs Hr IH]; intros b Hb Hok.
  { by rewrite Z.add_0_r. }
  simpl in Hb. replace (b + Z.of_nat (length ((i, ch) :: l)))%Z with (b + 1 + Z.of_nat (length l))%Z
    by (simpl; lia).
  apply IH; [lia|]. eapply step_generations_ok; [exact Hs|lia|done].
Qed.

Lemma generations_ok_new n : generations_ok 1 (new_system n).
Proof.
  assert (Hg : generations (new_system n) = []).
  { unfold generations, new_system. simpl. induction n as [|n IH]; [done|]. csimpl. by rewrite IH. }
  split; rewrite ?Hg; simpl; [lia|lia|constructor|constructor].
Qed.

(** C9: whatever the threads do in fewer than 2^64 - 2 moves, the generations
    of the workers, with those about to be handed out, are distinct, lie
    between 1 and the next one, and fit 64 bits; the active one is 0 or was
    issued. So at most one worker has the active generation. *)
Theorem generations_are_distinct n l s :
  runs (new_system n) l s → (Z.of_nat (length l) < u64_max - 1)%Z →
  NoDup (generations s) ∧
  Forall (λ g, 1 ≤ g < next_worker_generation (shared s))%Z (generations s) ∧
  (0 ≤ active_worker_generation (shared s) < next_worker_generation (shared s))%Z ∧
  (next_worker_generation (shared s) ≤ u64_max)%Z.
Proof.
  intros Hr Hl.
  destruct (runs_generations_ok 1 _ _ _ Hr ltac:(lia) (generations_ok_new n)). split_and!; try done; lia.
Qed.

(** The counter of generations may wrap around, but no worker ever gets
    the generation 0, which stands for no worker: in any execution, however
    long, every generation lies between 1 and 2^64 - 1. *)
Theorem generations_are_never_zero n l s :
  runs (new_system n) l s →
  (1 ≤ next_worker_generation (shared s) ≤ u64_max)%Z ∧
  Forall (λ g, 1 ≤ g ≤ u64_max)%Z (generations s).
Proof.
  intros Hr.
  assert (H0 : (1 ≤ next_worker_generation (shared (new_system n)) ≤ u64_max)%Z ∧
               Forall (λ g, 1 ≤ g ≤ u64_max)%Z (generations (new_system n))).
  { destruct (generations_ok_new n) as [_ _ _ Hi]. simpl in *. split; [by unfold u64_max|].
    eapply Forall_impl; [exact Hi|]. intros g Hg. unfold u64_max. simpl in *. lia. }
  revert H0. induction Hr as [s|s i ch s1 l s2 Hs Hr IH]; [done|]. intros [Hn Hg]. apply IH.
  destruct (step_generations _ _ _ _ Hs) as [(issued & Hi & Hsub) _].
  assert (Hn1 : (1 ≤ next_worker_generation (shared s1) ≤ u64_max)%Z).
  { destruct Hi as [[_ ->]|[_ ->]]; [done|]. unfold next_generation.
    pose proof (wrap64_bounds (next_worker_generation (shared s) + 1)). lia. }
  split; [done|]. apply Forall_forall. intros g Hin. eapply elem_of_submseteq in Hin; [|exact Hsub].
  rewrite Forall_forall in Hg. apply elem_of_app in Hin as [Hin|Hin]; [by apply Hg|].
  destruct Hi as [[-> _]|[-> _]]; [by apply elem_of_nil in Hin|].
  by apply list_elem_of_singleton in Hin as ->.
Qed.

(** ** Stale workers

    A worker is stale when its generation is not the active one. *)
Definition is_worker (s : System) (w : nat) (g : Z) (pc : WorkerPc) : Prop :=
  threads s !! w = Some (Worker g pc).

Definition stale (s : System) (w : nat) (pc : WorkerPc) : Prop :=
  ∃ g, is_worker s w g pc ∧ active_worker_generation (shared s) ≠ g.

(** The move of another thread: a blocked worker may be woken. *)
Definition woken (pc pc' : WorkerPc) : Prop := pc' = pc ∨ (pc = WSleep ∧ pc' = WWake).

Lemma step_lookup_other s i ch s' w t :
  step s i ch = Some s' → i ≠ w → threads s !! w = Some t →
  threads s' !! w = Some t ∨ threads s' !! w = Some (wake t).
Proof.
  intros (t' & o & Ht' & Ho & _ & Hth)%step_inv Hne Ht. rewrite Hth.
  rewrite lookup_app_l by (rewrite length_insert; destruct (o_notify o);
    rewrite ?length_fmap; by eapply lookup_lt_Some).
  rewrite list_lookup_insert_ne by done. destruct (o_notify o); [right|by left].
  by apply wake_lookup.
Qed.

Lemma step_lookup_self s i ch s' g pc :
  step s i ch = Some s' → is_worker s i g pc →
  ∃ o, worker_loop i (length (threads s)) (λ h, threads s !! h ≫= thread_ended) g pc ch (shared s)
         = Some o ∧ shared s' = o_shared o ∧ is_worker s' i g (o_pc o).
Proof.
  intros (t & o & Ht & Ho & Hsh & Hth)%step_inv Hw. unfold is_worker in *.
  rewrite Hw in Ht. injection Ht as <-. simpl in Ho. apply fmap_Some in Ho as (o' & Ho' & ->).
  exists o'. split; [done|]. split; [done|]. rewrite Hth. simpl.
  assert (Hlt : i < length (if o_notify o' then wake <$> threads s else threads s)).
  { destruct (o_notify o'); rewrite ?length_fmap; by eapply lookup_lt_Some. }
  rewrite lookup_app_l by (by rewrite length_insert). by apply list_lookup_insert_eq.
Qed.

(** Two threads own no generation in common. *)
Lemma generations_apart {A B : Type} (f : A → list B) (l : list A) i j x y g :
  NoDup (l ≫= f) → l !! i = Some x → l !! j = Some y → i ≠ j → g ∈ f x → g ∈ f y → False.
Proof.
  intros Hnd Hx Hy Hne Hgx Hgy.
  destruct (bind_lookup_Permutation f l i x Hx) as (rest & Hl & Hins).
  assert (g ∈ rest) as Hr.
  { pose proof (Hins x) as Hins'. rewrite list_insert_id in Hins' by done.
    rewrite <-(take_drop_middle l i x Hx), bind_app in Hl. simpl in Hl.
    assert (Hr : (take i l ≫= f) ++ (drop (S i) l ≫= f) ≡ₚ rest).
    { apply (Permutation_app_inv_l (f x)). rewrite <-Hl. solve_Permutation. }
    rewrite <-Hr. apply elem_of_app. destruct (decide (j < i)).
    - left. apply list_elem_of_bind. exists y. split; [done|].
      apply (list_elem_of_lookup_2 _ j). by rewrite lookup_take_lt.
    - right. apply list_elem_of_bind. exists y. split; [done|].
      apply (list_elem_of_lookup_2 _ (j - S i)). rewrite lookup_drop.
      by replace (S i + (j - S i)) with j by lia. }
  rewrite Hl in Hnd. apply NoDup_app in Hnd as (_ & Hd & _). by apply (Hd g).
Qed.

Lemma step_stale b s i ch s' w pc :
  step s i ch = Some s' → generations_ok b s → stale s w pc →
  ∃ pc', stale s' w pc' ∧ (i ≠ w → woken pc pc').
Proof.
  intros Hs Hok (g & Hw & Hact).
  assert (Hg : g ∈ thread_generations (Worker g pc)) by (simpl; left).
  assert (Hg1 : (1 ≤ g)%Z).
  { destruct Hok as [_ _ _ Hi]. rewrite Forall_forall in Hi. apply (Hi g).
    by eapply in_thread_generations. }
  assert (Hact' : active_worker_generation (shared s') ≠ g).
  { destruct (step_generations _ _ _ _ Hs) as [_ [->|[->|(t & Ht & Ha)]]]; [done|lia|].
    intros Heq. rewrite Heq in Ha. destruct Hok as [_ _ Hnd _].
    destruct (decide (i = w)) as [->|Hne].
    - unfold is_worker in Hw. rewrite Hw in Ht. injection Ht as <-.
      destruct (bind_lookup_Permutation thread_generations _ _ _ Hw) as (rest & Hall & _).
      unfold generations in Hnd. rewrite Hall in Hnd. simpl in *.
      by apply NoDup_cons in Hnd as [[]%not_elem_of_app _].
    - eapply (generations_apart thread_generations _ i w); try done.
      by apply thread_pending_generations. }
  destruct (decide (i = w)) as [->|Hne].
  - destruct (step_lookup_self _ _ _ _ _ _ Hs Hw) as (o & _ & _ & Hw').
    exists (o_pc o). split; [|done]. by exists g.
  - destruct (step_lookup_other _ _ _ _ _ _ Hs Hne Hw) as [Hw'|Hw'].
    + exists pc. split; [by exists g|]. intros _. by left.
    + exists (match pc with WSleep => WWake | _ => pc end). split.
      * exists g. split; [|done]. unfold is_worker. rewrite Hw'. by destruct pc.
      * intros _. destruct pc; try (by left). by right.
Qed.

(** The packets that a worker takes in an execution. *)
Definition packets_taken (w : nat) (l : Schedule) : nat :=
  length (filter (λ m, m = (w, Receives GotPacket)) l).

(** A stale worker that has already passed the test of its loop takes one more
    packet at most. *)
Definition packets_left (pc : WorkerPc) : nat := match pc with WReceive => 1 | _ => 0 end.

(** The moves that are left to a stale worker, outside of its callback. *)
Definition moves_left (pc : WorkerPc) : nat :=
  match pc with
  | WExit _ => 0
  | WTest | WNotify | WFail _ => 1
  | WReport _ | WCallback _ | WCondition | WIdleTest => 2
  | WIdleLock | WWake => 3
  | WSleep | WReceive => 4
  | WBlock => 5
  end.

Definition in_a_callback (pc : WorkerPc) : bool :=
  match pc with WCallback _ => true | _ => false end.

Lemma stale_move self new ended g pc ch sh o :
  worker_loop self new ended g pc ch sh = Some o → active_worker_generation sh ≠ g →
  o_pc o ≠ WReceive ∧ (ch = Receives GotPacket → pc = WReceive) ∧
  (in_a_callback pc = false →
   moves_left (o_pc o) < moves_left pc ∧
   active_worker_generation (o_shared o) = active_worker_generation sh ∧
   next_worker_generation (o_shared o) = next_worker_generation sh ∧
   worker (o_shared o) = worker sh ∧ worker_lock (o_shared o) = worker_lock sh ∧
   o_spawn o = None).
Proof.
  intros Ho Hne.
  destruct pc as [| |cpc| | | | | | | | | |]; try done.
  3: { destruct (worker_loop_callback _ _ _ _ _ _ _ _ Ho) as [(-> & -> & ->)|(o' & Hc & ->)];
         split_and!; try done. intros ->. by destruct cpc. }
  all: simpl in Ho; unfold wait_for_worker_wakeup, quiet, notifying in Ho;
    repeat case_match; simplify_eq/=; rewrite ?bool_decide_false in * by done; simplify_eq/=;
    (split_and!; [done|done|intros _; split_and!; (done || lia)]).
Qed.

Lemma woken_packets_left pc pc' : woken pc pc' → packets_left pc' = packets_left pc.
Proof. by intros [->|[-> ->]]. Qed.

Lemma packets_taken_cons w m l :
  packets_taken w (m :: l) = (if bool_decide (m = (w, Receives GotPacket)) then 1 else 0) + packets_taken w l.
Proof. unfold packets_taken. rewrite filter_cons. by repeat case_decide; case_bool_decide. Qed.

Lemma stale_packets b s l s' w pc :
  runs s l s' → (b + Z.of_nat (length l) < u64_max)%Z → generations_ok b s → stale s w pc →
  packets_taken w l ≤ packets_left pc.
Proof.
  intros Hr. revert b pc. induction Hr as [s|s i ch s1 l s2 Hs Hr IH]; intros b pc Hb Hok Hst.
  { unfold packets_taken. simpl. lia. }
  simpl in Hb. destruct (step_stale _ _ _ _ _ _ _ Hs Hok Hst) as (pc' & Hst' & Hother).
  assert (Hok' : generations_ok (b + 1) s1) by (eapply step_generations_ok; [done|lia|done]).
  specialize (IH (b + 1)%Z pc' ltac:(lia) Hok' Hst'). rewrite packets_taken_cons.
  destruct (decide (i = w)) as [->|Hne].
  - destruct Hst as (g & Hw & Hact). destruct Hst' as (g' & Hw' & _).
    destruct (step_lookup_self _ _ _ _ _ _ Hs Hw) as (o & Ho & _ & Hwo).
    unfold is_worker in *. rewrite Hwo in Hw'. injection Hw' as <- <-.
    destruct (stale_move _ _ _ _ _ _ _ _ Ho Hact) as (Hnr & Hgot & _).
    assert (packets_left (o_pc o) = 0) by (by destruct (o_pc o)).
    case_bool_decide as Hm; [|lia]. injection Hm as ->. rewrite (Hgot eq_refl). simpl. lia.
  - rewrite bool_decide_false by congruence. rewrite (woken_packets_left _ _ (Hother Hne)) in IH. lia.
Qed.

(** The invariant at the end of a short execution. *)
Lemma reached_generations_ok n l s :
  runs (new_system n) l s → (Z.of_nat (length l) < u64_max - 1)%Z →
  generations_ok (1 + Z.of_nat (length l)) s.
Proof. intros Hr Hl. apply (runs_generations_ok 1 _ _ _ Hr); [lia|apply generations_ok_new]. Qed.

(** C10: a worker that was stopped or replaced takes no more packets. Once its
    generation is not the active one, whatever all threads do afterwards
    (starting new workers included), it receives at most the packet it was
    already asking for, and none at all when it is in its callback. *)
Theorem stale_worker_takes_no_packets n l s w pc l' s' :
  runs (new_system n) l s → runs s l' s' →
  (Z.of_nat (length l) + Z.of_nat (length l') < u64_max - 1)%Z →
  stale s w pc →
  packets_taken w l' ≤ packets_left pc ∧
  (∀ cpc, pc = WCallback cpc → packets_taken w l' = 0).
Proof.
  intros Hr Hr' Hl Hst.
  pose proof (reached_generations_ok n l s Hr ltac:(lia)) as Hok.
  assert (packets_taken w l' ≤ packets_left pc) as Hp.
  { eapply stale_packets; [exact Hr'| |exact Hok|exact Hst]. lia. }
  split; [done|]. intros cpc ->. simpl in Hp. lia.
Qed.

(** A stale worker does not disturb the worker that replaced it: outside
    of its callback, none of its moves changes the active generation, the next
    one, the handle or the mutex that guards it, and each brings it nearer to
    its end. *)
Theorem stale_worker_winds_down s w pc ch s' :
  step s w ch = Some s' → stale s w pc → in_a_callback pc = false →
  (∃ pc', stale s' w pc' ∧ moves_left pc' < moves_left pc) ∧
  active_worker_generation (shared s') = active_worker_generation (shared s) ∧
  next_worker_generation (shared s') = next_worker_generation (shared s) ∧
  worker (shared s') = worker (shared s) ∧
  worker_lock (shared s') = worker_lock (shared s) ∧
  length (threads s') = length (threads s).
Proof.
  intros Hs (g & Hw & Hact) Hcb.
  destruct (step_lookup_self _ _ _ _ _ _ Hs Hw) as (o & Ho & Hsh & Hw').
  destruct (stale_move _ _ _ _ _ _ _ _ Ho Hact) as (_ & _ & Hm).
  destruct (Hm Hcb) as (Hlt & Ha & Hn & Hh & Hl & Hsp).
  rewrite Hsh. split_and!; try done.
  { exists (o_pc o). split; [|done]. exists g. split; [done|]. by rewrite Hsh, Ha. }
  destruct (step_inv _ _ _ _ Hs) as (t & o' & Ht & Ho' & _ & Hth).
  unfold is_worker in Hw. rewrite Hw in Ht. injection Ht as <-. simpl in Ho'.
  rewrite Ho in Ho'. injection Ho' as <-. rewrite Hth. simpl. rewrite Hsp, app_nil_r, length_insert.
  by destruct (o_notify o); rewrite ?length_fmap.
Qed.

(** ** The idle mutex and the end of a stale worker *)

Definition holds_idle (pc : WorkerPc) : bool :=
  match pc with WIdleTest | WCondition | WBlock => true | _ => false end.

Definition thread_holds_idle (t : Thread) : bool :=
  match t with Worker _ pc => holds_idle pc | Control _ => false end.

(** The holder of the idle mutex is the one thread between its lock and its
    wait. *)
Definition idle_ok (s : System) : Prop :=
  (∀ i t, threads s !! i = Some t → thread_holds_idle t = true ↔ idle_wait (shared s) = Some i) ∧
  (∀ h, idle_wait (shared s) = Some h → h < length (threads s)).

Lemma call_step_idle self new ended pc ch sh o :
  call_step self new ended pc ch sh = Some o → idle_wait (o_shared o) = idle_wait sh.
Proof.
  intros Ho. unfold call_step, stop_worker, start_worker, stop_return, quiet, notifying in Ho.
  repeat case_match; by simplify_eq/=.
Qed.

(** How a move of a thread changes its hold on the mutex. *)
Lemma thread_step_idle self new ended t ch sh o :
  thread_step self new ended t ch sh = Some o →
  (thread_holds_idle t = true ↔ idle_wait sh = Some self) →
  (thread_holds_idle (o_pc o) = true ↔ idle_wait (o_shared o) = Some self) ∧
  (∀ j, j ≠ self → idle_wait (o_shared o) = Some j ↔ idle_wait sh = Some j).
Proof.
  intros Ho Hi. destruct t as [pc|g pc]; simpl in Ho; apply fmap_Some in Ho as (o' & Ho & ->); simpl in *.
  { apply call_step_idle in Ho. by rewrite Ho. }
  destruct pc as [| |cpc| | | | | | | | | |]; try done.
  3: { destruct (worker_loop_callback _ _ _ _ _ _ _ _ Ho) as [(_ & -> & ->)|(o2 & Hc & ->)]; [done|].
       apply call_step_idle in Hc. simpl. by rewrite Hc. }
  all: simpl in Ho; unfold wait_for_worker_wakeup, quiet, notifying in Ho; simpl in Hi;
    repeat case_match; simplify_eq/=; try case_bool_decide; simpl;
    try (split; [exact Hi|done]); naive_solver.
Qed.

Lemma wake_holds t : thread_holds_idle (wake t) = thread_holds_idle t.
Proof. by destruct t as [|g []]. Qed.

Lemma step_idle_ok s i ch s' : step s i ch = Some s' → idle_ok s → idle_ok s'.
Proof.
  intros (t & o & Ht & Ho & Hsh & Hth)%step_inv [Hok Hlt].
  destruct (thread_step_idle _ _ _ _ _ _ _ Ho (Hok i t Ht)) as [Hself Hother].
  set (others := if o_notify o then wake <$> threads s else threads s) in *.
  assert (Hlen : length others = length (threads s))
    by (subst others; destruct (o_notify o); by rewrite ?length_fmap).
  pose proof (lookup_lt_Some _ _ _ Ht) as Hi.
  assert (Hlt' : ∀ h, idle_wait (shared s') = Some h → h < length (threads s)).
  { intros h Hh. rewrite Hsh in Hh. destruct (decide (h = i)) as [->|Hne]; [done|].
    apply Hother in Hh; [|done]. by apply Hlt. }
  split; [|intros h Hh; apply Hlt' in Hh; rewrite Hth, length_app, length_insert; lia].
  intros j t' Hj. rewrite Hth in Hj. destruct (decide (j < length (threads s))) as [Hjlt|Hge].
  - rewrite lookup_app_l in Hj by (rewrite length_insert; lia). rewrite Hsh.
    destruct (decide (j = i)) as [->|Hne].
    + rewrite list_lookup_insert_eq in Hj by lia. by injection Hj as <-.
    + rewrite list_lookup_insert_ne in Hj by done. rewrite Hother by done.
      subst others. destruct (o_notify o); [|by apply Hok].
      rewrite list_lookup_fmap in Hj. apply fmap_Some in Hj as (t0 & Ht0 & ->).
      rewrite wake_holds. by apply Hok.
  - rewrite lookup_app_r in Hj by (rewrite length_insert; lia).
    assert (thread_holds_idle t' = false) as ->.
    { destruct (o_spawn o) as [g|]; [|done].
      destruct (j - length (<[i:=o_pc o]> others)) as [|k]; simpl in Hj; [by injection Hj as <-|done]. }
    split; [done|]. intros Hidle%Hlt'. lia.
Qed.

Lemma runs_idle_ok s l s' : runs s l s' → idle_ok s → idle_ok s'.
Proof. induction 1; eauto using step_idle_ok. Qed.

Lemma idle_ok_new n : idle_ok (new_system n).
Proof.
  split; [|done]. intros i t Ht. unfold new_system in Ht. simpl in *.
  apply lookup_replicate in Ht as [-> _]. done.
Qed.

(** A worker moves alone. *)
Lemma step_worker s w g pc ch o :
  is_worker s w g pc →
  worker_loop w (length (threads s)) (λ h, threads s !! h ≫= thread_ended) g pc ch (shared s) = Some o →
  ∃ s', step s w ch = Some s' ∧ shared s' = o_shared o ∧ is_worker s' w g (o_pc o) ∧
    (o_notify o = false → o_spawn o = None → ∀ j, j ≠ w → threads s' !! j = threads s !! j).
Proof.
  intros Hw Ho. unfold is_worker in *.
  assert (Hs : step s w ch = Some (mkSystem (o_shared o)
    (<[w := Worker g (o_pc o)]> (if o_notify o then wake <$> threads s else threads s) ++
     match o_spawn o with Some g => [Worker g WTest] | None => [] end))).
  { unfold step. rewrite Hw. cbn [mbind option_bind]. simpl. by rewrite Ho. }
  exists (mkSystem (o_shared o)
    (<[w := Worker g (o_pc o)]> (if o_notify o then wake <$> threads s else threads s) ++
     match o_spawn o with Some g => [Worker g WTest] | None => [] end)).
  split; [exact Hs|]. split; [done|]. split.
  - destruct (step_lookup_self _ _ _ _ _ _ Hs Hw) as (o' & Ho' & _ & Hw').
    rewrite Ho in Ho'. by injection Ho' as <-.
  - intros Hn Hsp j Hne. simpl. rewrite Hn, Hsp, app_nil_r. by apply list_lookup_insert_ne.
Qed.

(** [s'] is reached from [s] by moves of the thread [h] alone, which leave the
    other threads, the active generation and the end of nothing to them. *)
Definition reached_alone (h : nat) (bound : nat) (s s' : System) : Prop :=
  ∃ l, runs s l s' ∧ Forall (λ m, m.1 = h) l ∧ length l ≤ bound ∧
    active_worker_generation (shared s') = active_worker_generation (shared s) ∧
    ∀ j, j ≠ h → threads s' !! j = threads s !! j.

Lemma reached_alone_step h k s ch s1 s2 :
  step s h ch = Some s1 →
  active_worker_generation (shared s1) = active_worker_generation (shared s) →
  (∀ j, j ≠ h → threads s1 !! j = threads s !! j) →
  reached_alone h k s1 s2 → reached_alone h (S k) s s2.
Proof.
  intros Hs Ha Hj (l & Hr & Hl & Hlen & Ha2 & Hj2). exists ((h, ch) :: l).
  split_and!; [by econstructor|by constructor|simpl; lia|congruence|].
  intros j Hne. by rewrite Hj2, Hj.
Qed.

Lemma reached_alone_refl h k s : reached_alone h k s s.
Proof. exists []. split_and!; try done; [constructor|simpl; lia]. Qed.

(** The holder of the idle mutex lets it go by itself. *)
Lemma holder_releases s h :
  idle_ok s → idle_wait (shared s) = Some h →
  ∃ s', reached_alone h 3 s s' ∧ idle_wait (shared s') = None.
Proof.
  intros [Hok Hlt] Hh.
  destruct (lookup_lt_is_Some_2 (threads s) h (Hlt h Hh)) as [t Ht].
  pose proof (proj2 (Hok h t Ht) Hh) as Hholds.
  destruct t as [|g pc]; [done|]. simpl in Hholds. clear Hok Hlt Hh.
  assert (Hmove : ∀ k s pc pc' sh, is_worker s h g pc →
    (∀ new ended, worker_loop h new ended g pc Go (shared s) = quiet pc' sh) →
    active_worker_generation sh = active_worker_generation (shared s) →
    (∀ s1, shared s1 = sh → is_worker s1 h g pc' →
       ∃ s', reached_alone h k s1 s' ∧ idle_wait (shared s') = None) →
    ∃ s', reached_alone h (S k) s s' ∧ idle_wait (shared s') = None).
  { intros k s0 pc0 pc' sh Hw Ho Ha Hk.
    destruct (step_worker s0 h g pc0 Go _ Hw (Ho _ _)) as (s1 & Hs1 & Hsh1 & Hw1 & Hj1).
    destruct (Hk s1 Hsh1 Hw1) as (s' & Hr & Hi). exists s'. split; [|done].
    eapply reached_alone_step; [exact Hs1|by rewrite Hsh1|by apply Hj1|done]. }
  assert (Hdone : ∀ k s, idle_wait (shared s) = None →
    ∃ s', reached_alone h k s s' ∧ idle_wait (shared s') = None).
  { intros k s0 Hi. exists s0. split; [apply reached_alone_refl|done]. }
  assert (Hblock : ∀ k s, is_worker s h g WBlock →
    ∃ s', reached_alone h (S k) s s' ∧ idle_wait (shared s') = None).
  { intros k s0 Hw. eapply (Hmove k s0 WBlock); [done|done|done|].
    intros s1 Hsh _. apply Hdone. by rewrite Hsh. }
  assert (Htest : ∀ k pc pc' s, is_worker s h g pc →
    (∀ new ended, worker_loop h new ended g pc Go (shared s) =
       if negb (bool_decide (active_worker_generation (shared s) = g))
       then quiet WTest (set_idle_wait None (shared s)) else quiet pc' (shared s)) →
    (∀ s1, is_worker s1 h g pc' → ∃ s', reached_alone h k s1 s' ∧ idle_wait (shared s') = None) →
    ∃ s', reached_alone h (S k) s s' ∧ idle_wait (shared s') = None).
  { intros k pc0 pc' s0 Hw Ho Hk. destruct (negb _) in Ho.
    - eapply (Hmove k s0 pc0); [done|done|done|]. intros s1 Hsh _. apply Hdone. by rewrite Hsh.
    - eapply (Hmove k s0 pc0); [done|done|done|]. intros s1 _. apply Hk. }
  assert (Hcond : ∀ k s, is_worker s h g WCondition →
    ∃ s', reached_alone h (S (S k)) s s' ∧ idle_wait (shared s') = None).
  { intros k s0 Hw. eapply Htest; [exact Hw|done|]. intros s1. apply Hblock. }
  destruct pc; try done.
  - eapply Htest; [exact Ht|done|]. intros s1. apply Hcond.
  - by apply Hcond.
  - by apply Hblock.
Qed.

(** Outside of its callback, a worker can always move, whatever [receive_one]
    answers and without its unwinding, unless another thread holds the idle
    mutex. *)
Lemma worker_can_move self new ended g pc sh :
  in_a_callback pc = false →
  (∃ p, pc = WExit p) ∨ is_Some (idle_wait sh) ∧ (pc = WIdleLock ∨ pc = WWake) ∨
  ∃ ch, ch ≠ Receives GotPanic ∧ is_Some (worker_loop self new ended g pc ch sh).
Proof.
  intros Hcb. destruct pc as [| |cpc| | | | | | | | | |p]; try done;
    [| | | | | | | | | | |by left; eexists]; right.
  all: try (right; exists Go; split; [done|]; simpl; unfold wait_for_worker_wakeup,
    stop_worker_generation_with_error, quiet, notifying; repeat case_match; by eexists).
  - right. exists (Receives GotNothing). by split; [|eexists].
  - destruct (idle_wait sh) eqn:Hi; [left; split; [by eexists|by left]|].
    right. exists Go. simpl. rewrite Hi. by split; [|eexists].
  - right. exists TimeUp. by split; [|eexists].
  - destruct (idle_wait sh) eqn:Hi; [left; split; [by eexists|by right]|].
    right. exists Go. simpl. rewrite Hi. by split; [|eexists].
Qed.

(** The moves of a worker in an execution, those inside its callback aside. *)
Fixpoint own_moves (w : nat) (s : System) (l : Schedule) : nat :=
  match l with
  | [] => 0
  | (i, ch) :: l =>
      match step s i ch with
      | None => 0
      | Some s' =>
          (if bool_decide (i = w) then
             match threads s !! w with
             | Some (Worker _ pc) => if in_a_callback pc then 0 else 1
             | _ => 0
             end
           else 0) + own_moves w s' l
      end
  end.

Lemma woken_moves_left pc pc' : woken pc pc' → moves_left pc' ≤ moves_left pc.
Proof. intros [->|[-> ->]]; simpl; lia. Qed.

Lemma callback_moves_left self new ended g pc ch sh o :
  worker_loop self new ended g (WCallback pc) ch sh = Some o → moves_left (o_pc o) ≤ 2.
Proof.
  intros [(-> & -> & ->)|(o' & Hc & ->)]%worker_loop_callback; simpl; lia.
Qed.

(** One move of any thread. *)
Lemma step_moves_left b s i ch s' w pc :
  step s i ch = Some s' → generations_ok b s → stale s w pc →
  ∃ pc', stale s' w pc' ∧
    (if bool_decide (i = w) then
       match threads s !! w with
       | Some (Worker _ pc) => if in_a_callback pc then 0 else 1
       | _ => 0
       end
     else 0) + moves_left pc' ≤ moves_left pc.
Proof.
  intros Hs Hok Hst. destruct (step_stale _ _ _ _ _ _ _ Hs Hok Hst) as (pc' & Hst' & Hother).
  exists pc'. split; [done|]. case_bool_decide as Hi; [|by apply woken_moves_left, Hother].
  subst i. destruct Hst as (g & Hw & Hact), Hst' as (g' & Hw' & _).
  destruct (step_lookup_self _ _ _ _ _ _ Hs Hw) as (o & Ho & _ & Hwo).
  unfold is_worker in *. rewrite Hwo in Hw'. injection Hw' as <- <-. rewrite Hw.
  destruct (stale_move _ _ _ _ _ _ _ _ Ho Hact) as (_ & _ & Hm).
  destruct (in_a_callback pc) eqn:Hcb.
  - destruct pc; try done. by apply callback_moves_left in Ho.
  - destruct (Hm eq_refl) as [? _]. lia.
Qed.

Lemma runs_moves_left b s l s' w pc :
  runs s l s' → (b + Z.of_nat (length l) < u64_max)%Z → generations_ok b s → stale s w pc →
  ∃ pc', stale s' w pc' ∧ own_moves w s l + moves_left pc' ≤ moves_left pc.
Proof.
  intros Hr. revert b pc. induction Hr as [s|s i ch s1 l s2 Hs Hr IH]; intros b pc Hb Hok Hst.
  { by exists pc. }
  simpl in Hb. destruct (step_moves_left _ _ _ _ _ _ _ Hs Hok Hst) as (pc1 & Hst1 & H1).
  destruct (IH (b + 1)%Z pc1 ltac:(lia) ltac:(eapply step_generations_ok; [done|lia|done]) Hst1)
    as (pc2 & Hst2 & H2).
  exists pc2. split; [done|]. cbn [own_moves]. rewrite Hs. lia.
Qed.

(** C37: a worker that was stopped or replaced comes to its end under every
    schedule. Whatever all threads do and the environment answers after its
    generation has ceased to be the active one, it makes at most five more
    moves outside of its callback; and wherever they have brought it, it has
    ended, or is in its callback, or can make its next move, whose answer need
    not be a panic, or waits for the idle mutex, whose holder lets it go
    within three moves of its own. A wait on the condition variable is such a
    move: its timeout ends it. The whole execution has fewer than 2^64 - 2
    moves. *)
Theorem stale_worker_ends n l s w pc l' s' :
  runs (new_system n) l s → runs s l' s' →
  (Z.of_nat (length l) + Z.of_nat (length l') < u64_max - 1)%Z →
  stale s w pc →
  ∃ pc', stale s' w pc' ∧ own_moves w s l' + moves_left pc' ≤ moves_left pc ∧ moves_left pc ≤ 5 ∧
    ((∃ p, pc' = WExit p) ∨ in_a_callback pc' = true ∨
     (∃ ch, ch ≠ Receives GotPanic ∧ is_Some (step s' w ch)) ∨
     ∃ h s'', h ≠ w ∧ idle_wait (shared s') = Some h ∧
       reached_alone h 3 s' s'' ∧ idle_wait (shared s'') = None).
Proof.
  intros Hr Hr' Hl Hst. pose proof (reached_generations_ok n l s Hr ltac:(lia)) as Hok.
  destruct (runs_moves_left (1 + Z.of_nat (length l)) _ _ _ _ _ Hr' ltac:(lia) Hok Hst) as (pc' & Hst' & Hm).
  exists pc'. split_and!; [done|done|destruct pc; simpl; lia|].
  destruct (in_a_callback pc') eqn:Hcb; [auto|]. destruct Hst' as (g & Hw & _).
  assert (idle_ok s') as Hidle by (eapply runs_idle_ok, runs_idle_ok, idle_ok_new; done).
  destruct (worker_can_move w (length (threads s')) (λ h, threads s' !! h ≫= thread_ended) g pc'
              (shared s') Hcb) as [Hend|[[[h Hh] Hpc]|(ch & Hch & [o Ho])]]; [auto| |].
  - right; right; right. destruct (holder_releases s' h Hidle Hh) as (s'' & Halone & Hfree).
    exists h, s''. split_and!; try done. intros ->.
    pose proof (proj2 (proj1 Hidle w _ Hw) Hh) as Hhold. by destruct Hpc as [-> | ->].
  - right; right; left. destruct (step_worker s' w g pc' ch o Hw Ho) as (s'' & Hs & _). eauto.
Qed.

(** ** Races

    Schedules on a program with one thread of its own. *)

Definition start_schedule (i : nat) : Schedule :=
  (i, CallStart true) :: replicate 6 (i, Go).

(** The worker is about to block, holding the idle mutex, when the other
    thread stores 0 and notifies without taking that mutex. *)
Definition missed_wakeup_schedule : Schedule :=
  start_schedule 0 ++
  [(1, Go); (1, Receives GotNothing); (1, Go); (1, Go); (1, Go);
   (0, CallStop); (0, Go); (0, Go); (0, Go); (1, Go)].

Definition missed_wakeup_state : System :=
  mkSystem (mkShared 0 2 None None false None None true)
           [Control (StopJoin ForStop 1); Worker 1 WSleep].

Lemma missed_wakeup_runs : runs (new_system 1) missed_wakeup_schedule missed_wakeup_state.
Proof. apply run_schedule_runs. vm_compute. reflexivity. Qed.

(** [mcrx_context_stop] can miss the worker. [stop_worker] notifies
    without holding the idle mutex, so the notification can fall between the
    worker's check of its generation and its wait; the worker then sleeps and
    the stop waits for it until the idle timeout ends, whatever its length:
    nothing else can move. *)
Theorem stop_can_miss_the_wakeup :
  ∃ l s, runs (new_system 1) l s ∧
    threads s = [Control (StopJoin ForStop 1); Worker 1 WSleep] ∧
    active_worker_generation (shared s) = 0%Z ∧
    ∀ i ch s', step s i ch = Some s' → i = 1 ∧ ch = TimeUp.
Proof.
  exists missed_wakeup_schedule, missed_wakeup_state.
  split; [exact missed_wakeup_runs|]. split_and!; [done|done|].
  intros i ch s' Hs. destruct i as [|[|i]]; [| |done].
  - by destruct ch.
  - by destruct ch.
Qed.

(** The callback stops and restarts the worker while another thread is inside
    its own stop, past its store and before it takes the handle. *)
Definition foreign_join_schedule : Schedule :=
  start_schedule 0 ++
  [(1, Go); (1, Receives GotPacket); (0, CallStop); (0, Go); (0, Go);
   (1, CallStop); (1, Go); (1, Go); (1, Go); (1, Go)] ++ start_schedule 1 ++ [(0, Go)].

Definition foreign_join_state : System :=
  mkSystem (mkShared 2 3 None None false None None true)
           [Control (StopJoin ForStop 2); Worker 1 (WCallback Ready); Worker 2 WTest].

Lemma foreign_join_runs : runs (new_system 1) foreign_join_schedule foreign_join_state.
Proof. apply run_schedule_runs. vm_compute. reflexivity. Qed.

(** No further call, and no error of the receiver. *)
Definition undisturbed (m : nat * Choice) : Prop :=
  match m.2 with
  | CallStop | CallFree | CallStart _ | Receives (GotError _) | Receives GotPanic => False
  | _ => True
  end.

Definition busy (pc : WorkerPc) : Prop :=
  match pc with WCallback Ready => True | WCallback _ | WFail _ | WReport _ | WNotify | WExit _ => False
  | _ => True end.
Definition leaving (pc : WorkerPc) : Prop :=
  match pc with WCallback Ready | WTest | WExit _ => True | _ => False end.

Definition foreign_join (s : System) : Prop :=
  ∃ pc1 pc2, threads s = [Control (StopJoin ForStop 2); Worker 1 pc1; Worker 2 pc2] ∧
    active_worker_generation (shared s) = 2%Z ∧ leaving pc1 ∧ busy pc2.

Lemma foreign_join_step s i ch s' :
  step s i ch = Some s' → undisturbed (i, ch) → foreign_join s → foreign_join s'.
Proof.
  intros Hs Hu (pc1 & pc2 & Hth & Ha & H1 & H2). unfold step in Hs. rewrite Hth in Hs.
  destruct i as [|[|[|i]]]; [| | |done].
  - destruct ch; simpl in Hs; try done. by destruct pc2.
  - destruct pc1 as [| |[]| | | | | | | | | |]; try done; destruct ch as [| | | | | |[]|]; try done;
      simpl in Hs; rewrite ?Ha in Hs; simpl in Hs; injection Hs as <-; by repeat eexists.
  - destruct pc2 as [| |[]| | | | | | | | | |]; try done; destruct ch as [| | | | | |[]|]; try done;
      simpl in Hs; rewrite ?Ha in Hs; simpl in Hs;
      try (destruct (idle_wait (shared s)); simpl in Hs; [done|]);
      injection Hs as <-; by repeat eexists.
Qed.

(** A stop can wait for a worker that it did not stop. When a callback
    stops and restarts the worker between the store and the join of another
    thread's stop, that stop takes the handle of the new worker, whose
    generation stays active: as long as nobody makes another call and
    receiving does not fail, it never returns. *)
Theorem stop_can_join_the_replacement :
  ∃ l s, runs (new_system 1) l s ∧
    ∀ l' s', runs s l' s' → Forall undisturbed l' →
      threads s' !! 0 = Some (Control (StopJoin ForStop 2)) ∧
      active_worker_generation (shared s') = 2%Z.
Proof.
  exists foreign_join_schedule, foreign_join_state. split; [exact foreign_join_runs|].
  intros l' s' Hr Hu.
  assert (foreign_join foreign_join_state) as Hf by (by repeat eexists).
  assert (foreign_join s') as (pc1 & pc2 & Hth & Ha & _).
  { induction Hr as [|s i ch s1 l s2 Hs Hr IH]; [done|]. apply Forall_cons in Hu as [Hu Hl].
    apply IH; [done|]. by eapply foreign_join_step. }
  by rewrite Hth.
Qed.

(** The worker fails between its creation and the end of the start. *)
Definition lost_error_schedule (e : string) : Schedule :=
  (0, CallStart true) :: replicate 5 (0, Go) ++
  [(1, Go); (1, Receives (GotError e)); (1, Go); (1, Go); (1, Go); (0, Go)].

(** [mcrx_context_start] clears the last error after it has started the
    worker, so that it can erase the message of a worker that has failed by
    then: the start returns [OK], the worker is gone and no message is left. *)
Theorem start_can_erase_the_worker_error e :
  ∃ s, runs (new_system 1) (lost_error_schedule e) s ∧
    threads s = [Control Ready; Worker 1 (WExit false)] ∧
    last_error (shared s) = None ∧ active_worker_generation (shared s) = 0%Z.
Proof.
  exists (mkSystem (mkShared 0 2 (Some 1) None false None None true)
            [Control Ready; Worker 1 (WExit false)]).
  split; [|done]. apply run_schedule_runs. reflexivity.
Qed.

(** ** Witnesses *)

(** A worker whose callback has stopped and restarted it. *)
Definition restarted_schedule : Schedule :=
  start_schedule 0 ++
  [(1, Go); (1, Receives GotPacket); (1, CallStop); (1, Go); (1, Go); (1, Go); (1, Go)] ++
  start_schedule 1.
Definition restarted_state : System :=
  mkSystem (mkShared 2 3 (Some 2) None false None None true)
           [Control Ready; Worker 1 (WCallback Ready); Worker 2 WTest].

Lemma restarted_runs : runs (new_system 1) restarted_schedule restarted_state.
Proof. apply run_schedule_runs. vm_compute. reflexivity. Qed.

Lemma generations_are_distinct_witness :
  NoDup (generations restarted_state) ∧
  Forall (λ g, 1 ≤ g < next_worker_generation (shared restarted_state))%Z (generations restarted_state) ∧
  (0 ≤ active_worker_generation (shared restarted_state)
     < next_worker_generation (shared restarted_state))%Z ∧
  (next_worker_generation (shared restarted_state) ≤ u64_max)%Z.
Proof. exact (generations_are_distinct 1 _ _ restarted_runs ltac:(done)). Defined.

Lemma generations_are_never_zero_witness :
  (1 ≤ next_worker_generation (shared restarted_state) ≤ u64_max)%Z ∧
  Forall (λ g, 1 ≤ g ≤ u64_max)%Z (generations restarted_state).
Proof. exact (generations_are_never_zero 1 _ _ restarted_runs). Defined.

Lemma stale_worker_takes_no_packets_witness :
  packets_taken 1 [(2, Go); (2, Receives GotPacket); (1, CallbackReturns); (1, Go)] ≤ 0 ∧
  (∀ cpc, WCallback Ready = WCallback cpc →
     packets_taken 1 [(2, Go); (2, Receives GotPacket); (1, CallbackReturns); (1, Go)] = 0).
Proof.
  refine (stale_worker_takes_no_packets 1 _ _ 1 (WCallback Ready) _
    (mkSystem (mkShared 2 3 (Some 2) None false None None true)
       [Control Ready; Worker 1 (WExit false); Worker 2 (WCallback Ready)])
    restarted_runs _ _ _).
  - apply run_schedule_runs. vm_compute. reflexivity.
  - done.
  - by exists 1%Z.
Defined.

Definition returned_state : System :=
  mkSystem (mkShared 2 3 (Some 2) None false None None true)
           [Control Ready; Worker 1 WTest; Worker 2 WTest].

Definition ended_state : System :=
  mkSystem (mkShared 2 3 (Some 2) None false None None true)
           [Control Ready; Worker 1 (WExit false); Worker 2 WTest].

Lemma returned_stale : stale returned_state 1 WTest.
Proof. exists 1%Z. split; [reflexivity|]. simpl. discriminate. Qed.

Lemma stale_worker_winds_down_witness :
  (∃ pc', stale ended_state 1 pc' ∧ moves_left pc' < moves_left WTest) ∧
  active_worker_generation (shared ended_state) = active_worker_generation (shared returned_state) ∧
  next_worker_generation (shared ended_state) = next_worker_generation (shared returned_state) ∧
  worker (shared ended_state) = worker (shared returned_state) ∧
  worker_lock (shared ended_state) = worker_lock (shared returned_state) ∧
  length (threads ended_state) = length (threads returned_state).
Proof.
  assert (step returned_state 1 Go = Some ended_state) as Hs by (vm_compute; reflexivity).
  exact (stale_worker_winds_down returned_state 1 WTest Go ended_state Hs returned_stale eq_refl).
Defined.

(** The callback of the replaced worker returns, and the worker ends. *)
Lemma stale_worker_ends_witness :
  own_moves 1 restarted_state [(1, CallbackReturns); (2, Go); (1, Go)] = 1 ∧
  ∃ pc', stale (mkSystem (shared restarted_state) [Control Ready; Worker 1 (WExit false); Worker 2 WReceive]) 1 pc' ∧
    1 + moves_left pc' ≤ moves_left (WCallback Ready).
Proof.
  split; [vm_compute; reflexivity|].
  destruct (stale_worker_ends 1 _ _ 1 (WCallback Ready) [(1, CallbackReturns); (2, Go); (1, Go)]
    (mkSystem (shared restarted_state) [Control Ready; Worker 1 (WExit false); Worker 2 WReceive])
    restarted_runs) as (pc' & Hst & Hm & _).
  - apply run_schedule_runs. vm_compute. reflexivity.
  - done.
  - by exists 1%Z.
  - exists pc'. split; [exact Hst|exact Hm].
Defined.
