(* ===== verification/Jsonl.v ===== *)
(** * JSON lines output of the metrics ([src/src/jsonl.rs])

    Files that begin with one header object and go on with sample rows. The
    file system and [serde_json] are not part of the repository: they are the
    classes [Fs] and [Json], with what the library relies on in [FsLaws] and
    [JsonLaws]. Paths, lines and the rules for headers and rows are
    definitions. *)

From Stdlib Require Import Strings.Ascii.
From S2P Require Import Prelude Net Metrics Text.

Local Open Scope string_scope.
Local Open Scope list_scope.
Local Open Scope nat_scope.

(** ** [std::path] *)

Inductive Component := RootDir | CurDir | ParentDir | Normal (name : string).

#[global] Instance Component_eq_dec : EqDecision Component.
Proof. solve_decision. Defined.

Abbreviation Path := (list Component) (only parsing).

(** [PathBuf::from] on unix: a first [.] counts, and empty components and the
    other [.] do not. *)
Fixpoint split_slashes (current s : string) : list string :=
  match s with
  | EmptyString => [current]
  | String c s =>
      if Ascii.eqb c "/" then current :: split_slashes "" s
      else split_slashes (current +:+ String c "") s
  end.

Fixpoint components (first : bool) (l : list string) : Path :=
  match l with
  | [] => []
  | name :: l =>
      (if String.eqb name "" then []
       else if String.eqb name "." then (if first then [CurDir] else [])
       else if String.eqb name ".." then [ParentDir]
       else [Normal name]) ++ components false l
  end.

Definition path_of (s : string) : Path :=
  match s with
  | String c r =>
      if Ascii.eqb c "/" then RootDir :: components false (split_slashes "" r)
      else components true (split_slashes "" s)
  | EmptyString => []
  end.

Definition path_parent (p : Path) : option Path :=
  match last p with Some RootDir | None => None | Some _ => Some (removelast p) end.
Definition path_file_name (p : Path) : option string :=
  match last p with Some (Normal name) => Some name | _ => None end.

(** [rsplit_file_at_dot]: the stem, and the extension when there is one. *)
Definition rsplit_file_at_dot (name : string) : string * option string :=
  match rsplit_once "." name with
  | Some (EmptyString, _) | None => (name, None)
  | Some (before, after) => (before, Some after)
  end.
Definition path_file_stem (p : Path) : option string :=
  (λ name, (rsplit_file_at_dot name).1) <$> path_file_name p.
Definition path_extension (p : Path) : option string :=
  name ← path_file_name p; (rsplit_file_at_dot name).2.

(** [OsStr::to_str]. *)
Definition to_str (s : string) : option string := if utf8_valid s then Some s else None.

Definition non_empty (s : string) : option string :=
  match s with EmptyString => None | _ => Some s end.

Definition infer_node_id_from_path (path : Path) : string :=
  let checked name := s ← to_str name; non_empty s in
  match (parent ← path_parent path; name ← path_file_name parent; checked name) with
  | Some name => name
  | None => default "unknown" (stem ← path_file_stem path; checked stem)
  end.

(** ** The file system *)

Class Fs := {
  FsWorld : Type;
  Handle : Type;
  create_dir_all : Path → Io FsWorld unit;
  (* [File::open], and [OpenOptions] with create, read and append *)
  open_read : Path → Io FsWorld Handle;
  open_append : Path → Io FsWorld Handle;
  (* fs2 *)
  try_lock_exclusive : Handle → Io FsWorld unit;
  seek_start : Handle → Io FsWorld unit;
  (* the bytes from the handle's position to the end of the file, or to an
     error *)
  read_bytes : Handle → Call FsWorld (string * option IoError);
  write_all : Handle → string → Io FsWorld unit;
  (* the end of a [File]: it is closed, and its lock released *)
  drop_file : Handle → Call FsWorld unit;
  target_is_windows : bool }.

(** ** serde_json *)

Class Json := {
  Value : Type;
  Value_eq_dec :: EqDecision Value;
  as_object : Value → option (gmap string Value);
  as_str : Value → option string;
  (* [value.as_f64().is_some_and(f64::is_finite)] *)
  as_finite_f64 : Value → bool;
  v_object : gmap string Value → Value;
  v_string : string → Value;
  (* [Value::from] *)
  v_f64 : f64 → Value;
  v_u64 : Z → Value;
  v_bool : bool → Value;
  from_str : string → Value + string;
  to_vec : Value → string + string }.

(** ** Headers and rows *)

Definition HEIMDALL_JSONL_SCHEMA : string := "heimdall-jsonl-v1".
Definition NETWORK_ARTIFACT_TYPE : string := "mcrx-network".
Definition HARDWARE_ARTIFACT_TYPE : string := "process-hardware".
Definition HEADER_ONLY_KEYS : list string := ["schema"; "artifact_type"; "node_id"; "producer"; "flags"].

Definition newline : string := String line_feed "".

Section json.
Context `{Json}.

(** [Value::get]. *)
Definition get (v : Value) (key : string) : option Value := m ← as_object v; m !! key.

Definition unix_timestamp_secs (time : SystemTime) : f64 :=
  match duration_since time 0%Z with
  | Some duration => as_secs_f64 duration
  | None => f64_zero
  end.

Definition header_json (artifact_type producer node_id : string) (created_at : SystemTime)
    (flags : gmap string Value) : Value :=
  v_object (list_to_map
    [("schema", v_string HEIMDALL_JSONL_SCHEMA);
     ("artifact_type", v_string artifact_type);
     ("node_id", v_string node_id);
     ("producer", v_string producer);
     ("created_at", v_f64 (unix_timestamp_secs created_at));
     ("flags", v_object flags)]).

Definition non_empty_str (v : option Value) : bool :=
  match (v ← v; as_str v) with Some (String _ _) => true | _ => false end.

Definition is_header_object (value : Value) : bool :=
  bool_decide (get value "schema" ≫= as_str = Some HEIMDALL_JSONL_SCHEMA)
  && non_empty_str (get value "artifact_type")
  && non_empty_str (get value "node_id")
  && non_empty_str (get value "producer")
  && match get value "created_at" with Some v => as_finite_f64 v | None => false end
  && bool_decide (is_Some (get value "flags" ≫= as_object)).

Definition headers_are_compatible (existing expected : Value) : bool :=
  forallb (λ key, bool_decide (get existing key = get expected key)) HEADER_ONLY_KEYS.

(** [object.contains_key(key)] for the first of the header's keys. *)
Definition repeated_header_field (value : Value) : option string :=
  object ← as_object value;
  snd <$> list_find (λ key, is_Some (object !! key)) HEADER_ONLY_KEYS.

Definition validate_requested_header (header : Value) : Res IoError unit :=
  if is_header_object header then Ok ()
  else Err (io_error_new InvalidInput "requested JSONL header is not a valid Heimdall header object").

Definition validate_sample_row (sample : Value) : Res IoError unit :=
  match as_object sample with
  | None => Err (io_error_new InvalidInput "JSONL sample row must be an object")
  | Some _ =>
      match repeated_header_field sample with
      | Some key =>
          Err (io_error_new InvalidInput
            ("JSONL sample row must not repeat header field '" +:+ key +:+ "'"))
      | None => Ok ()
      end
  end.

(** ** Lines ([BufRead::lines]) *)

Definition invalid_utf8 : IoError := io_error_new InvalidData "stream did not contain valid UTF-8".

Definition checked_line (s : string) : string + IoError :=
  if utf8_valid s then inl s else inr invalid_utf8.

(** The lines of some bytes that are followed by the end of the file or by an
    error; [current] is the beginning of the first line. *)
Fixpoint lines_from (current bytes : string) (error : option IoError) : list (string + IoError) :=
  match bytes with
  | EmptyString =>
      match error, current with
      | Some e, _ => [inr e]
      | None, EmptyString => []
      | None, _ => [checked_line current]
      end
  | String c bytes =>
      if Ascii.eqb c line_feed
      then (if utf8_valid current then inl (strip_cr current) else inr invalid_utf8)
           :: lines_from "" bytes error
      else lines_from (current +:+ String c "") bytes error
  end.

Definition lines (read : string * option IoError) : list (string + IoError) :=
  lines_from "" read.1 read.2.

(** The loop of [validate_header_reader]; [index] counts the non-empty lines. *)
Fixpoint validate_lines (scan_samples : bool) (l : list (string + IoError)) (index : nat)
    (parsed_header : option Value) : Res IoError (option Value) :=
  match l with
  | [] => Ok parsed_header
  | inr e :: _ => Err e
  | inl line :: l =>
      if is_blank line then validate_lines scan_samples l index parsed_header
      else
        let index := S index in
        match from_str line with
        | inr err =>
            Err (io_error_new InvalidData
              (if bool_decide (index = 1) then "existing JSONL header is invalid JSON: " +:+ err
               else "existing JSONL sample line " +:+ display_Z (Z.of_nat index) +:+
                    " is invalid JSON: " +:+ err))
        | inl parsed =>
            if bool_decide (index = 1) then
              if is_header_object parsed then
                if scan_samples then validate_lines scan_samples l index (Some parsed)
                else Ok (Some parsed)
              else Err (io_error_new InvalidData
                     "existing JSONL file does not start with a Heimdall header object")
            else
              match repeated_header_field parsed with
              | Some key =>
                  Err (io_error_new InvalidData
                    ("existing JSONL sample row repeats header field '" +:+ key +:+ "'"))
              | None => validate_lines scan_samples l index parsed_header
              end
        end
  end.

Definition validate_header_reader (read : string * option IoError) (scan_samples : bool)
    : Res IoError (option Value) :=
  validate_lines scan_samples (lines read) 0 None.
End json.

(** ** Files *)

Section files.
Context `{Fs} `{Json}.

Abbreviation FileOp A := (M FsWorld IoError A).

Definition fs_io {A : Type} (m : Io FsWorld A) : FileOp A := λ w,
  match m w with (inl a, w') => (Ok a, w') | (inr e, w') => (Err e, w') end.
Definition fs_call {A : Type} (m : Call FsWorld A) : FileOp A := λ w,
  let '(a, w') := m w in (Ok a, w').

(** A value that owns a file goes out of scope on every path. *)
Definition then_drop {A : Type} (file : Handle) (m : FileOp A) : FileOp A := λ w,
  let '(r, w') := m w in (r, (drop_file file w').2).

(** The file is dropped on the paths that do not return it. *)
Definition drop_on_error {A : Type} (file : Handle) (m : FileOp A) : FileOp A := λ w,
  let '(r, w') := m w in (r, match r with Ok _ => w' | _ => (drop_file file w').2 end).

Definition create_parent_directory (path : Path) : FileOp unit :=
  match path_parent path with
  | Some (c :: parent) => fs_io (create_dir_all (c :: parent))
  | _ => mpure ()
  end.

Definition jsonl_lock_error (err : IoError) : IoError :=
  let message := "JSONL output is already locked by another writer: " +:+ io_text err in
  if target_is_windows && bool_decide (io_raw_os_error err = Some 32%Z ∨ io_raw_os_error err = Some 33%Z)
  then io_error_new WouldBlock message
  else io_error_new (io_kind err) message.

Definition open_locked_jsonl_file (path : Path) : FileOp Handle :=
  create_parent_directory path ;;*
  let* file := fs_io (open_append path) in
  drop_on_error file (
    mmap_err jsonl_lock_error (fs_io (try_lock_exclusive file)) ;;*
    mpure file).

Definition write_json_line (file : Handle) (value : Value) : FileOp unit :=
  let* line := mlift match to_vec value with
                     | inl s => Ok s
                     | inr e => Err (io_error_other e)
                     end in
  fs_io (write_all file (line +:+ newline)).

Definition incompatible_header : IoError :=
  io_error_new InvalidData
    "existing JSONL header does not match the requested schema metadata".

Definition ensure_header_in_locked_file (file : Handle) (header : Value) (scan_samples : bool)
    : FileOp unit :=
  fs_io (seek_start file) ;;*
  let* read := fs_call (read_bytes file) in
  let* existing := mlift (validate_header_reader read scan_samples) in
  match existing with
  | Some existing =>
      if negb (headers_are_compatible existing header) then mthrow incompatible_header else mpure ()
  | None => write_json_line file header
  end.

(** [File::open] with [ErrorKind::NotFound => return Ok(None)]. *)
Definition validate_existing_header (path : Path) : FileOp (option Value) :=
  let* file := mcatch (fs_io (open_read path)) in
  match file with
  | inr err => if bool_decide (io_kind err = NotFound) then mpure None else mthrow err
  | inl file =>
      then_drop file (
        let* read := fs_call (read_bytes file) in
        mlift (validate_header_reader read true))
  end.

(** The loop of [first_non_empty_line]. *)
Fixpoint first_non_blank (l : list (string + IoError)) : Res IoError (option string) :=
  match l with
  | [] => Ok None
  | inr e :: _ => Err e
  | inl line :: l => if is_blank line then first_non_blank l else Ok (Some line)
  end.

Definition first_non_empty_line (path : Path) : FileOp (option string) :=
  let* file := mcatch (fs_io (open_read path)) in
  match file with
  | inr err => if bool_decide (io_kind err = NotFound) then mpure None else mthrow err
  | inl file =>
      then_drop file (
        let* read := fs_call (read_bytes file) in
        mlift (first_non_blank (lines read)))
  end.

Definition ensure_single_header (path : Path) (header : Value) : FileOp unit :=
  mlift (validate_requested_header header) ;;*
  let* file := open_locked_jsonl_file path in
  then_drop file (ensure_header_in_locked_file file header true).

Definition append_jsonl_sample_row (path : Path) (header sample : Value) : FileOp unit :=
  mlift (validate_requested_header header) ;;*
  mlift (validate_sample_row sample) ;;*
  let* file := open_locked_jsonl_file path in
  then_drop file (
    ensure_header_in_locked_file file header false ;;*
    write_json_line file sample).

(** [MetricsJsonlOutputConfig]. *)
Record MetricsJsonlOutputConfig := mkOutputConfig {
  oc_network_path : Path;
  oc_node_id : string;
  oc_flags : gmap string Value }.

(** [MetricsJsonlWriter]. *)
Record MetricsJsonlWriter := mkWriter { jw_path : Path; jw_file : Handle }.

Definition writer_open (path : Path) (header : Value) : FileOp MetricsJsonlWriter :=
  mlift (validate_requested_header header) ;;*
  let* file := open_locked_jsonl_file path in
  drop_on_error file (
    ensure_header_in_locked_file file header true ;;*
    mpure (mkWriter path file)).

Definition append_sample_row (writer : MetricsJsonlWriter) (sample : Value) : FileOp unit :=
  mlift (validate_sample_row sample) ;;*
  write_json_line (jw_file writer) sample.

Definition writer_drop (writer : MetricsJsonlWriter) : FileOp unit :=
  mmap (λ _, ()) (fs_call (drop_file (jw_file writer))).
End files.

(** ** What the library relies on *)

(** What is behind a position of a text. *)
Fixpoint text_from (n : nat) (s : string) : string :=
  match n, s with S n, String _ s => text_from n s | _, _ => s end.

(** Files only grow, a lock has one holder, and no call touches the file or
    the lock of another path. [text] is what is in a file; a missing file has
    nothing in it. A read begins at [offset_of] the handle, of which only
    [seek_start] and the opening of a file for reading say something. *)
Class FsLaws `{Fs} := {
  Handle_eq_dec :: EqDecision Handle;
  text : FsWorld → Path → string;
  locked_by : FsWorld → Path → option Handle;
  handle_path : Handle → Path;
  offset_of : FsWorld → Handle → nat;
  same_files w w' : Prop := ∀ q, text w' q = text w q ∧ locked_by w' q = locked_by w q;
  create_dir_all_law p w : same_files w (create_dir_all p w).2;
  open_read_law p w : same_files w (open_read p w).2 ∧
    match (open_read p w).1 with
    | inl h => handle_path h = p ∧ locked_by w p ≠ Some h ∧ offset_of (open_read p w).2 h = 0
    | inr e => io_kind e = NotFound → text w p = ""
    end;
  open_append_law p w : same_files w (open_append p w).2 ∧
    match (open_append p w).1 with
    | inl h => handle_path h = p ∧ locked_by w p ≠ Some h
    | inr _ => True
    end;
  try_lock_law h w : ∀ q,
    text (try_lock_exclusive h w).2 q = text w q ∧
    locked_by (try_lock_exclusive h w).2 q =
      match (try_lock_exclusive h w).1 with
      | inl _ => if decide (q = handle_path h) then Some h else locked_by w q
      | inr _ => locked_by w q
      end;
  lock_conflict_law h h' w :
    locked_by w (handle_path h) = Some h' → h' ≠ h →
    ∃ e, (try_lock_exclusive h w).1 = inr e ∧
      (io_kind e = WouldBlock ∨
       target_is_windows = true ∧ (io_raw_os_error e = Some 32%Z ∨ io_raw_os_error e = Some 33%Z));
  seek_law h w : same_files w (seek_start h w).2 ∧
    ((seek_start h w).1 = inl () → offset_of (seek_start h w).2 h = 0);
  read_law h w : same_files w (read_bytes h w).2 ∧
    match (read_bytes h w).1 with
    | (bytes, None) => text_from (offset_of w h) (text w (handle_path h)) = bytes
    | (bytes, Some _) => ∃ rest, text_from (offset_of w h) (text w (handle_path h)) = bytes +:+ rest
    end;
  write_law h data w : ∀ q,
    locked_by (write_all h data w).2 q = locked_by w q ∧
    ∃ written,
      text (write_all h data w).2 q =
        (if decide (q = handle_path h) then text w q +:+ written else text w q) ∧
      match (write_all h data w).1 with
      | inl _ => written = data
      | inr _ => ∃ rest, data = written +:+ rest
      end;
  drop_law h w : ∀ q,
    text (drop_file h w).2 q = text w q ∧
    locked_by (drop_file h w).2 q =
      if decide (q = handle_path h ∧ locked_by w q = Some h) then None else locked_by w q }.

(** A value that is written and read again is the same but for the last digits
    of its fractions: [reads_back]. Texts are compact: one line, with nothing
    after it but white space. *)
Class JsonLaws `{Json} := {
  reads_back : Value → Value → Prop;
  object_law v m : as_object v = Some m ↔ v = v_object m;
  string_law v s : as_str v = Some s ↔ v = v_string s;
  (* the seconds of a time are a finite number *)
  secs_law time : as_finite_f64 (v_f64 (unix_timestamp_secs time)) = true;
  to_vec_law v s : to_vec v = inl s →
    utf8_valid s = true ∧ is_blank s = false ∧ lacks line_feed s = true ∧ lacks carriage_return s = true ∧
    ∃ v', from_str s = inl v' ∧ reads_back v v';
  reads_back_object m v' : reads_back (v_object m) v' →
    ∃ m', v' = v_object m' ∧ ∀ k, option_Forall2 reads_back (m !! k) (m' !! k);
  reads_back_string s v' : reads_back (v_string s) v' → v' = v_string s;
  reads_back_u64 n v' : reads_back (v_u64 n) v' → v' = v_u64 n;
  reads_back_bool b v' : reads_back (v_bool b) v' → v' = v_bool b;
  reads_back_finite v v' : reads_back v v' → as_finite_f64 v = true → as_finite_f64 v' = true;
  trailing_law m m' s s' :
    to_vec (v_object m) = inl s → to_vec (v_object m') = inl s' →
    (∃ r, s = String "{" r) ∧ ∃ e, from_str (s +:+ s') = inr e }.

(** ** Reading lines *)

Lemma lines_from_app a : ∀ current b error,
  lines_from current (a +:+ String line_feed b) error =
  lines_from current (a +:+ newline) None ++ lines_from "" b error.
Proof.
  induction a as [|c a IH]; intros current b error;
    rewrite ?string_cons_app, ?string_nil_app; cbn [lines_from newline]; [by rewrite Ascii.eqb_refl|].
  destruct (Ascii.eqb c line_feed); [|apply IH]. cbn. f_equal. apply IH.
Qed.

Lemma lines_from_line s : ∀ current, lacks line_feed s = true →
  lines_from current (s +:+ newline) None =
  [if utf8_valid (current +:+ s) then inl (strip_cr (current +:+ s)) else inr invalid_utf8].
Proof.
  induction s as [|c s IH]; intros current Hs;
    rewrite ?string_cons_app, ?string_nil_app, ?string_app_nil_r; cbn [lines_from newline].
  - by rewrite Ascii.eqb_refl.
  - cbn [lacks] in Hs. destruct (Ascii.eqb c line_feed); [done|].
    rewrite IH by done. by rewrite string_app_assoc, string_cons_app, string_nil_app.
Qed.

(** An error cuts the lines short. *)
Lemma lines_from_error a b e : ∀ current, ∃ l l',
  lines_from current a (Some e) = l ++ [inr e] ∧
  lines_from current (a +:+ b) None = l ++ l'.
Proof.
  induction a as [|c a IH]; intros current; rewrite ?string_cons_app, ?string_nil_app;
    cbn [lines_from].
  - by exists [], (lines_from current b None).
  - destruct (Ascii.eqb c line_feed).
    + destruct (IH "") as (l & l' & -> & ->). by eexists (_ :: l), l'.
    + apply IH.
Qed.

Lemma is_blank_brace r : is_blank (String "{" r) = false.
Proof. by destruct r as [|? []]. Qed.

(** Every line of the text ends with a line feed. *)
Definition terminated (t : string) : Prop := t = "" ∨ ∃ a, t = a +:+ newline.

(** [s] is one line of JSON. *)
Definition compact_line (s : string) : Prop :=
  utf8_valid s = true ∧ is_blank s = false ∧ lacks line_feed s = true ∧ lacks carriage_return s = true.

Lemma lines_line s : compact_line s → lines (s +:+ newline, None) = [inl s].
Proof.
  intros (Hu & _ & Hl & Hc). unfold lines; cbn [fst snd].
  rewrite lines_from_line, string_nil_app, Hu, strip_cr_lacks by done. done.
Qed.

Lemma lines_snoc t s : terminated t → compact_line s →
  lines (t +:+ s +:+ newline, None) = lines (t, None) ++ [inl s] ∧
  terminated (t +:+ s +:+ newline).
Proof.
  intros Ht Hs. split; [|right; eexists; symmetry; apply string_app_assoc].
  destruct Ht as [->|[a ->]]; [by rewrite string_nil_app, lines_line|].
  rewrite <- lines_line by done. unfold lines; cbn [fst snd].
  rewrite string_app_assoc. unfold newline at 1. rewrite string_cons_app, string_nil_app.
  apply lines_from_app.
Qed.

Lemma lines_from_unfinished s : ∀ current, lacks line_feed s = true → current +:+ s ≠ "" →
  lines_from current s None = [checked_line (current +:+ s)].
Proof.
  induction s as [|c s IH]; intros current Hs Hne; cbn [lines_from].
  - rewrite string_app_nil_r in *. by destruct current.
  - cbn [lacks] in Hs. destruct (Ascii.eqb c line_feed); [done|].
    rewrite IH; rewrite ?string_app_assoc, ?string_cons_app, ?string_nil_app; [done..|].
    by destruct current.
Qed.

(** ** The document in a file *)

Section document.
Context `{Json}.

Fixpoint parse_lines (l : list (string + IoError)) : option (list Value) :=
  match l with
  | [] => Some []
  | inr _ :: _ => None
  | inl line :: l =>
      if is_blank line then parse_lines l
      else match from_str line with
           | inl v => vs ← parse_lines l; Some (v :: vs)
           | inr _ => None
           end
  end.

Definition is_row (v : Value) : bool := bool_decide (repeated_header_field v = None).

Definition valid_document (vs : list Value) : bool :=
  match vs with [] => true | header :: rows => is_header_object header && forallb is_row rows end.

(** What is in a valid file: nothing, or a header and its rows. *)
Definition document (t : string) : option (list Value) :=
  vs ← parse_lines (lines (t, None)); if valid_document vs then Some vs else None.

Lemma parse_lines_snoc l s v : is_blank s = false → from_str s = inl v →
  parse_lines (l ++ [inl s]) = (λ vs, vs ++ [v]) <$> parse_lines l.
Proof.
  intros Hb Hv. induction l as [|[line|e] l IH]; cbn; [by rewrite Hb, Hv| |done].
  destruct (is_blank line); [done|]. destruct (from_str line); [|done].
  rewrite IH. by destruct (parse_lines l).
Qed.

Lemma valid_document_snoc vs v : valid_document vs = true →
  (if vs is [] then is_header_object v = true else is_row v = true) →
  valid_document (vs ++ [v]) = true.
Proof.
  destruct vs as [|h rows]; cbn; [by intros _ ->|].
  rewrite forallb_app; cbn. intros [-> ->]%andb_prop ->. done.
Qed.

Lemma document_snoc t vs s v : document t = Some vs → terminated t →
  compact_line s → from_str s = inl v →
  (if vs is [] then is_header_object v = true else is_row v = true) →
  document (t +:+ s +:+ newline) = Some (vs ++ [v]) ∧ terminated (t +:+ s +:+ newline).
Proof.
  unfold document. intros Hd Ht Hs Hv Hr. destruct (lines_snoc t s Ht Hs) as [Hl Ht'].
  split; [|done]. destruct Hs as (_ & Hb & _). rewrite Hl, (parse_lines_snoc _ _ v) by done.
  destruct (parse_lines _) as [vs0|]; [|done]. cbn in *.
  destruct (valid_document vs0) eqn:E; [|done]. simplify_eq.
  by rewrite valid_document_snoc.
Qed.

Lemma validate_rows l : ∀ i header r, i ≠ 0 →
  validate_lines true l i header = Ok r ↔
  ∃ vs, parse_lines l = Some vs ∧ forallb is_row vs = true ∧ r = header.
Proof.
  induction l as [|[line|e] l IH]; intros i header r Hi; cbn [validate_lines parse_lines].
  - split; [intros [= ->]; by exists []|]. by intros (? & [= <-] & _ & ->).
  - destruct (is_blank line); [by apply IH|].
    destruct (from_str line) as [v|e]; [|by split; [|intros (? & ? & _)]].
    rewrite bool_decide_eq_false_2 by lia.
    destruct (repeated_header_field v) as [key|] eqn:E.
    + split; [done|]. intros (vs & Hvs & Hr & ->). destruct (parse_lines l); [|done].
      injection Hvs as <-. cbn in Hr. unfold is_row at 1 in Hr. by rewrite E in Hr.
    + rewrite IH by lia. split.
      * intros (vs & -> & Hr & ->). exists (v :: vs). cbn. unfold is_row at 1.
        by rewrite E, Hr.
      * intros (vs & Hvs & Hr & ->). destruct (parse_lines l) as [vs0|]; [|done].
        injection Hvs as <-. exists vs0. cbn in Hr. by apply andb_prop in Hr as [_ Hr].
  - split; [done|]. by intros (? & ? & _).
Qed.

Lemma validate_document l r :
  validate_lines true l 0 None = Ok r ↔
  ∃ vs, parse_lines l = Some vs ∧ valid_document vs = true ∧ r = head vs.
Proof.
  induction l as [|[line|e] l IH]; cbn [validate_lines parse_lines].
  - split; [intros [= <-]; by exists []|]. by intros (? & [= <-] & _ & ->).
  - destruct (is_blank line); [done|].
    destruct (from_str line) as [v|e]; [|by split; [|intros (? & ? & _)]].
    rewrite bool_decide_eq_true_2 by done.
    destruct (is_header_object v) eqn:E.
    + rewrite validate_rows by lia. split.
      * intros (vs & -> & Hr & ->). exists (v :: vs). cbn. by rewrite E, Hr.
      * intros (vs & Hvs & Hr & ->). destruct (parse_lines l) as [vs0|]; [|done].
        injection Hvs as <-. exists vs0. cbn in Hr. by apply andb_prop in Hr as [_ Hr].
    + split; [done|]. intros (vs & Hvs & Hr & ->). destruct (parse_lines l) as [vs0|]; [|done].
      injection Hvs as <-. cbn in Hr. by rewrite E in Hr.
  - split; [done|]. by intros (? & ? & _).
Qed.

(** Without the scan only the first line counts. *)
Lemma validate_first_line l r :
  validate_lines true l 0 None = Ok r → validate_lines false l 0 None = Ok r.
Proof.
  induction l as [|[line|e] l IH]; cbn [validate_lines]; [done| |done].
  destruct (is_blank line); [done|]. destruct (from_str line); [|done].
  rewrite bool_decide_eq_true_2 by done. destruct (is_header_object v); [|done].
  by intros (? & _ & _ & ->)%validate_rows.
Qed.

Lemma validate_cut scan l l' e : ∀ i header r,
  validate_lines scan (l ++ [inr e]) i header = Ok r →
  validate_lines scan (l ++ l') i header = Ok r.
Proof.
  induction l as [|[line|e'] l IH]; intros i header r; cbn [app validate_lines]; [done| |done].
  repeat case_match; eauto.
Qed.

Lemma validate_read scan bytes rest e r :
  validate_header_reader (bytes, Some e) scan = Ok r →
  validate_header_reader (bytes +:+ rest, None) scan = Ok r.
Proof.
  unfold validate_header_reader, lines; cbn [fst snd].
  destruct (lines_from_error bytes rest e "") as (l & l' & -> & ->). apply validate_cut.
Qed.

Lemma validation_document t r :
  validate_header_reader (t, None) true = Ok r ↔ ∃ vs, document t = Some vs ∧ r = head vs.
Proof.
  unfold validate_header_reader, document. rewrite validate_document. split.
  - intros (vs & -> & Hv & ->). exists vs. cbn. by rewrite Hv.
  - intros (vs & Hd & ->). destruct (parse_lines _) as [vs0|]; [|done]. cbn in Hd.
    exists vs0. by destruct (valid_document vs0); simplify_eq.
Qed.
(** C34: what [validate_header_reader] accepts are the documents: files whose
    non-empty lines are JSON, the first a header object and no later one with
    a key of the header; and what it returns is the first of them, if any. *)
Theorem validation_accepts_documents t r :
  validate_header_reader (t, None) true = Ok r ↔
  ∃ vs, document t = Some vs ∧ r = head vs.
Proof. apply validation_document. Qed.
End document.

(** ** Calls *)

Section calls.
Context {files : Fs} {fs_laws : FsLaws} {serde : Json}.

(** From [w] to [w'] only the file at [p] changed, and it grew by [more]. *)
Definition grew (p : Path) (more : string) (w w' : FsWorld) : Prop :=
  text w' p = text w p +:+ more ∧ ∀ q, q ≠ p → text w' q = text w q.

Definition same_locks (w w' : FsWorld) : Prop := ∀ q, locked_by w' q = locked_by w q.

Lemma same_files_alt w w' p : same_files w w' ↔ grew p "" w w' ∧ same_locks w w'.
Proof.
  unfold same_files, grew, same_locks. rewrite string_app_nil_r. split.
  - intros Hs. repeat split; intros; apply Hs.
  - intros [[Hp Hq] Hl] q. destruct (decide (q = p)) as [->|]; auto.
Qed.

Lemma same_files_trans w1 w2 w3 : same_files w1 w2 → same_files w2 w3 → same_files w1 w3.
Proof.
  intros H1 H2 q. destruct (H1 q) as [<- <-], (H2 q) as [<- <-]. done.
Qed.

Lemma grew_trans p a b w1 w2 w3 :
  grew p a w1 w2 → grew p b w2 w3 → grew p (a +:+ b) w1 w3.
Proof.
  intros [H1 H1'] [H2 H2']. split.
  - by rewrite H2, H1, string_app_assoc.
  - intros q Hq. by rewrite H2', H1'.
Qed.

Lemma grew_nil_l p b w1 w2 w3 : grew p "" w1 w2 → grew p b w2 w3 → grew p b w1 w3.
Proof. intros H1 H2. exact (grew_trans _ _ _ _ _ _ H1 H2). Qed.

Lemma same_locks_trans w1 w2 w3 : same_locks w1 w2 → same_locks w2 w3 → same_locks w1 w3.
Proof. intros H1 H2 q. by rewrite H2, H1. Qed.

(** The end of a file that does not hold the lock of its path changes nothing. *)
Lemma drop_unlocked h w : locked_by w (handle_path h) ≠ Some h → same_files w (drop_file h w).2.
Proof.
  intros Hh q. destruct (drop_law h w q) as [-> ->]. split; [done|].
  destruct (decide _) as [[-> ?]|]; done.
Qed.

Lemma drop_locked h w w' :
  (∀ q, locked_by w q = if decide (q = handle_path h) then Some h else locked_by w' q) →
  locked_by w' (handle_path h) = None → same_locks w' (drop_file h w).2.
Proof.
  intros Hw Hn q. destruct (drop_law h w q) as [_ ->]. rewrite Hw.
  destruct (decide (q = handle_path h)) as [->|].
  - by rewrite decide_True by done.
  - by rewrite decide_False by naive_solver.
Qed.

Lemma create_parent_law path w :
  same_files w (create_parent_directory path w).2 ∧
  returns (create_parent_directory path w).1.
Proof.
  unfold create_parent_directory. destruct (path_parent path) as [[|c p]|]; [done| |done].
  unfold fs_io. pose proof (create_dir_all_law (c :: p) w) as Hw.
  by destruct (create_dir_all _ w) as [[] w'].
Qed.

Lemma jsonl_lock_error_kind e :
  io_kind e = WouldBlock ∨
  target_is_windows = true ∧ (io_raw_os_error e = Some 32%Z ∨ io_raw_os_error e = Some 33%Z) →
  io_kind (jsonl_lock_error e) = WouldBlock.
Proof.
  unfold jsonl_lock_error. intros [Hk|[-> Hr]].
  - by destruct (target_is_windows && _).
  - by rewrite bool_decide_eq_true_2.
Qed.

Lemma open_locked_law path w :
  let '(r, w') := open_locked_jsonl_file path w in
  match r with
  | Ok h =>
      grew path "" w w' ∧ handle_path h = path ∧ locked_by w path = None ∧
      ∀ q, locked_by w' q = if decide (q = path) then Some h else locked_by w q
  | Err e =>
      same_files w w' ∧
      (is_Some (locked_by w path) →
       (∃ w1, create_parent_directory path w = (Ok (), w1) ∧ ∃ h, (open_append path w1).1 = inl h) →
       io_kind e = WouldBlock)
  | _ => False
  end.
Proof.
  unfold open_locked_jsonl_file, mthen. destruct (create_parent_law path w) as [H1 Hr].
  destruct (create_parent_directory path w) as [[[]|e1| |] w1] eqn:E1; try done; cbn in H1.
  2: { split; [done|]. intros _ (? & ? & _). done. }
  destruct (open_append_law path w1) as [H2 H2']. unfold fs_io at 1.
  destruct (open_append path w1) as [[h|e2] w2] eqn:E2; cbn in H2, H2'.
  2: { split; [by eapply same_files_trans|]. intros _ (? & [= <-] & h & Hh). by rewrite E2 in Hh. }
  destruct H2' as [Hp Hh]. pose proof (same_files_trans _ _ _ H1 H2) as H12.
  assert (locked_by w2 (handle_path h) ≠ Some h) as Hh'.
  { rewrite Hp. by destruct (H2 path) as [_ ->]. }
  unfold drop_on_error, mmap_err, mpure, fs_io.
  pose proof (try_lock_law h w2) as H3. pose proof (lock_conflict_law h) as Hc.
  specialize (Hc (default h (locked_by w2 path)) w2).
  destruct (try_lock_exclusive h w2) as [[[]|e3] w3] eqn:E3; cbn in H3, Hc |- *.
  - assert (locked_by w path = None) as Hn.
    { destruct (H12 path) as [_ <-]. rewrite Hp in Hc, Hh'.
      destruct (locked_by w2 path) as [h'|]; [|done]. cbn in Hc.
      destruct Hc as (? & ? & _); [done| |done]. congruence. }
    split_and!; [|done..|].
    + split; [|intros q Hq]; rewrite (proj1 (H3 _)), (proj1 (H12 _)); [|done].
      by rewrite string_app_nil_r.
    + intros q. rewrite (proj2 (H3 q)), (proj2 (H12 q)), Hp. done.
  - assert (same_files w2 w3) as H23 by (intros q; apply H3).
    split.
    + eapply same_files_trans; [exact H12|]. eapply same_files_trans; [exact H23|].
      apply drop_unlocked. by destruct (H23 (handle_path h)) as [_ ->].
    + intros [h' Hh''] _. rewrite Hp, (proj2 (H12 path)), Hh'' in Hc, Hh'. cbn in Hc.
      destruct Hc as (e & [= <-] & He); [done|congruence|].
      by apply jsonl_lock_error_kind.
Qed.

Lemma write_law_json file v w :
  let '(r, w') := write_json_line file v w in
  same_locks w w' ∧
  match r with
  | Ok _ => ∃ s, to_vec v = inl s ∧ grew (handle_path file) (s +:+ newline) w w'
  | Err _ => ∃ more, grew (handle_path file) more w w'
  | _ => False
  end.
Proof.
  unfold write_json_line, mthen, mlift. destruct (to_vec v) as [s|e].
  2: { split; [done|]. exists "". by apply same_files_alt. }
  unfold fs_io. pose proof (write_law file (s +:+ newline) w) as Hw.
  set (p := handle_path file) in *.
  assert (∃ more, grew p more w (write_all file (s +:+ newline) w).2 ∧
    ((write_all file (s +:+ newline) w).1 = inl () → more = s +:+ newline)) as (more & Hg & Hm).
  { destruct (Hw p) as (_ & more & Ht & Hm). rewrite decide_True in Ht by done.
    exists more. split; [split; [done|]|by intros Hr; rewrite Hr in Hm].
    intros q Hq. destruct (Hw q) as (_ & ? & Ht' & _). by rewrite decide_False in Ht'. }
  assert (same_locks w (write_all file (s +:+ newline) w).2) as Hl by (intros q; apply Hw).
  destruct (write_all file (s +:+ newline) w) as [[[]|e] w']; cbn in *; split; eauto.
  exists s. split; [done|]. by rewrite <- Hm.
Qed.

Lemma ensure_header_law file header scan w :
  let '(r, w') := ensure_header_in_locked_file file header scan w in
  let p := handle_path file in
  same_locks w w' ∧
  match r with
  | Ok _ =>
      (∃ existing, validate_header_reader (text w p, None) scan = Ok (Some existing) ∧
         headers_are_compatible existing header = true ∧ grew p "" w w') ∨
      (validate_header_reader (text w p, None) scan = Ok None ∧
         ∃ s, to_vec header = inl s ∧ grew p (s +:+ newline) w w')
  | Err _ => ∃ more, grew p more w w' ∧
      (validate_header_reader (text w p, None) scan ≠ Ok None → more = "")
  | _ => False
  end.
Proof.
  unfold ensure_header_in_locked_file. cbn zeta. set (p := handle_path file).
  unfold mthen, fs_io at 1. destruct (seek_law file w) as [H1 H0].
  destruct (seek_start file w) as [[[]|e1] w1]; cbn in H1, H0.
  2: { apply (same_files_alt _ _ p) in H1 as []. split; [done|]. by exists "". }
  unfold fs_call. destruct (read_law file w1) as [H2 Hread]. rewrite H0 in Hread by done.
  cbn [text_from] in Hread.
  destruct (read_bytes file w1) as [[bytes error] w2]; cbn in H2, Hread.
  pose proof (same_files_trans _ _ _ H1 H2) as H12.
  apply (same_files_alt _ _ p) in H12 as [Hg Hl].
  assert (∀ r, validate_header_reader (bytes, error) scan = Ok r →
    validate_header_reader (text w p, None) scan = Ok r) as Hv.
  { intros r. destruct (H1 p) as [<- _]. destruct error as [e|].
    - destruct Hread as [rest Hrest]. fold p in Hrest. rewrite Hrest. apply validate_read.
    - fold p in Hread. by rewrite Hread. }
  unfold mlift. assert (returns (validate_header_reader (bytes, error) scan)) as Hret.
  { unfold validate_header_reader. generalize (lines (bytes, error)) as l, 0, (@None Value).
    induction l as [|[line|e] l IH]; intros i h; cbn [validate_lines]; try done.
    repeat case_match; try done; apply IH. }
  destruct (validate_header_reader (bytes, error) scan) as [r|e| |] eqn:Er; try done.
  2: { split; [done|]. by exists "". }
  specialize (Hv _ eq_refl). destruct r as [existing|].
  - destruct (headers_are_compatible existing header) eqn:Hc; cbn; (split; [done|]).
    + left. eauto.
    + by exists "".
  - pose proof (write_law_json file header w2) as Hw.
    destruct (write_json_line file header w2) as [r w3]. destruct Hw as [Hl3 Hr].
    split; [by eapply same_locks_trans|]. destruct r as [[]|e| |]; try done.
    + destruct Hr as (s & Hs & Hg3). right. split; [done|]. exists s.
      split; [done|]. by eapply grew_nil_l.
    + destruct Hr as (more & Hg3). exists more. split; [by eapply grew_nil_l|done].
Qed.
End calls.

(** ** Values that were written *)

Section reads_back.
Context {serde : Json} {serde_laws : JsonLaws}.

Lemma as_object_v_object m : as_object (v_object m) = Some m.
Proof. by apply object_law. Qed.

Lemma as_str_v_string s : as_str (v_string s) = Some s.
Proof. by apply string_law. Qed.

Lemma reads_back_str v v' s : reads_back v v' → as_str v = Some s → as_str v' = Some s.
Proof. intros Hv ->%string_law. apply reads_back_string in Hv as ->. apply as_str_v_string. Qed.

Lemma reads_back_get v v' m key : as_object v = Some m → reads_back v v' →
  option_Forall2 reads_back (get v key) (get v' key).
Proof.
  intros ->%object_law (m' & -> & Hm)%reads_back_object.
  unfold get. rewrite !as_object_v_object. apply Hm.
Qed.

Lemma is_header_object_object v : is_header_object v = true → ∃ m, as_object v = Some m.
Proof.
  unfold is_header_object, get. destruct (as_object v); [by eauto|]. cbn. by rewrite andb_false_r.
Qed.

Lemma non_empty_str_true o : non_empty_str o = true ↔ ∃ v s, o = Some v ∧ as_str v = Some s ∧ s ≠ "".
Proof.
  unfold non_empty_str. destruct o as [v|]; cbn; [|naive_solver].
  destruct (as_str v) as [[]|] eqn:E; naive_solver.
Qed.

Lemma reads_back_non_empty_str o o' : option_Forall2 reads_back o o' →
  non_empty_str o = true → non_empty_str o' = true.
Proof.
  rewrite !non_empty_str_true. intros Ho (v & s & -> & Hs & Hne).
  inversion Ho as [x y Hxy|]; subst. exists y, s. eauto using reads_back_str.
Qed.

Lemma is_header_object_reads_back v v' :
  is_header_object v = true → reads_back v v' → is_header_object v' = true.
Proof.
  intros Hh Hv. destruct (is_header_object_object v Hh) as [m Hm].
  pose proof (λ key, reads_back_get v v' m key Hm Hv) as Hget.
  unfold is_header_object in *. rewrite !andb_true_iff, !bool_decide_eq_true in Hh |- *.
  destruct Hh as (((((Hs & Ha) & Hn) & Hp) & Hc) & Hf). split_and!.
  - destruct (Hget "schema"); cbn in *; [by eapply reads_back_str|done].
  - by eapply reads_back_non_empty_str.
  - by eapply reads_back_non_empty_str.
  - by eapply reads_back_non_empty_str.
  - destruct (Hget "created_at"); [by eapply reads_back_finite|done].
  - destruct (Hget "flags") as [x y Hxy|]; cbn in *; [|by destruct Hf].
    destruct Hf as [fm Hfm]. apply object_law in Hfm as ->.
    apply reads_back_object in Hxy as (fm' & -> & _). rewrite as_object_v_object. by eexists.
Qed.

Lemma repeated_header_field_None m :
  repeated_header_field (v_object m) = None ↔ Forall (λ key, m !! key = None) HEADER_ONLY_KEYS.
Proof.
  unfold repeated_header_field. rewrite as_object_v_object. cbn [mbind option_bind].
  rewrite fmap_None, list_find_None. apply Forall_proper; [|done]. intros key.
  by rewrite <- eq_None_not_Some.
Qed.

Lemma is_row_reads_back v v' :
  validate_sample_row v = Ok () → reads_back v v' → is_row v' = true.
Proof.
  unfold validate_sample_row, is_row. destruct (as_object v) as [m|] eqn:Hm; [|done].
  apply object_law in Hm as ->. destruct (repeated_header_field (v_object m)) eqn:E; [done|].
  intros _ (m' & -> & Hm')%reads_back_object. rewrite bool_decide_eq_true.
  rewrite repeated_header_field_None in E |- *. eapply Forall_impl; [exact E|]. cbn.
  intros key Hk. specialize (Hm' key). rewrite Hk in Hm'. by inversion Hm'.
Qed.

Lemma compact_line_to_vec v s : to_vec v = inl s →
  compact_line s ∧ ∃ v', from_str s = inl v' ∧ reads_back v v'.
Proof. intros (? & ? & ? & ? & ?)%to_vec_law. done. Qed.

(** A row after a document, and a header in an empty one. *)
Lemma document_row t vs sample s :
  document t = Some vs → terminated t → vs ≠ [] →
  validate_sample_row sample = Ok () → to_vec sample = inl s →
  ∃ sample', reads_back sample sample' ∧
    document (t +:+ s +:+ newline) = Some (vs ++ [sample']) ∧ terminated (t +:+ s +:+ newline).
Proof.
  intros Hd Ht Hvs Hv Hs. destruct (compact_line_to_vec _ _ Hs) as (Hline & v' & Hv' & Hb).
  exists v'. split; [done|]. eapply document_snoc; [done..|].
  destruct vs; [done|]. by eapply is_row_reads_back.
Qed.

Lemma document_header t header s :
  document t = Some [] → terminated t → is_header_object header = true → to_vec header = inl s →
  ∃ header', reads_back header header' ∧
    document (t +:+ s +:+ newline) = Some [header'] ∧ terminated (t +:+ s +:+ newline).
Proof.
  intros Hd Ht Hh Hs. destruct (compact_line_to_vec _ _ Hs) as (Hline & v' & Hv' & Hb).
  exists v'. split; [done|].
  apply (document_snoc t [] s v'); [done..|]. by eapply is_header_object_reads_back.
Qed.

Lemma infer_node_id_not_empty path : infer_node_id_from_path path ≠ "".
Proof.
  unfold infer_node_id_from_path.
  assert (∀ name s, (s ← to_str name; non_empty s) = Some s → s ≠ "") as Hc.
  { intros name s. unfold to_str. case_match; [|done]. by destruct name; cbn; intros [= <-]. }
  destruct (parent ← path_parent path; _) as [name|] eqn:E.
  - destruct (path_parent path) as [parent|]; [|done]. cbn in E.
    destruct (path_file_name parent); [|done]. by eapply Hc.
  - destruct (path_file_stem path) as [stem|]; [|done]. cbn [mbind option_bind].
    destruct (s ← to_str stem; non_empty s) as [s|] eqn:E'; [by eapply Hc|discriminate].
Qed.

(** The fields of a header that was built. *)
Lemma get_header_json artifact producer node time flags key :
  get (header_json artifact producer node time flags) key =
  if decide (key = "schema") then Some (v_string HEIMDALL_JSONL_SCHEMA)
  else if decide (key = "artifact_type") then Some (v_string artifact)
  else if decide (key = "node_id") then Some (v_string node)
  else if decide (key = "producer") then Some (v_string producer)
  else if decide (key = "created_at") then Some (v_f64 (unix_timestamp_secs time))
  else if decide (key = "flags") then Some (v_object flags) else None.
Proof.
  unfold get, header_json. rewrite as_object_v_object. cbn [mbind option_bind list_to_map foldr fst snd].
  repeat (case_decide; [subst; by rewrite ?lookup_insert_ne, lookup_insert_eq by done|]).
  by rewrite !lookup_insert_ne by done.
Qed.

Lemma header_json_fields artifact producer node time flags :
  let header := header_json artifact producer node time flags in
  get header "schema" = Some (v_string HEIMDALL_JSONL_SCHEMA) ∧
  get header "artifact_type" = Some (v_string artifact) ∧
  get header "node_id" = Some (v_string node) ∧
  get header "producer" = Some (v_string producer) ∧
  get header "created_at" = Some (v_f64 (unix_timestamp_secs time)) ∧
  get header "flags" = Some (v_object flags).
Proof. cbn zeta. rewrite !get_header_json. by split_and!. Qed.

Lemma header_json_is_header artifact producer node time flags :
  artifact ≠ "" → producer ≠ "" → node ≠ "" →
  is_header_object (header_json artifact producer node time flags) = true.
Proof.
  intros Ha Hp Hn. unfold is_header_object.
  destruct (header_json_fields artifact producer node time flags) as (-> & -> & -> & -> & -> & ->).
  cbn [mbind option_bind].
  rewrite secs_law, as_object_v_object, as_str_v_string, !bool_decide_eq_true_2 by done.
  by rewrite !(proj2 (non_empty_str_true _)) by eauto using as_str_v_string.
Qed.
End reads_back.

(** ** The operations on documents *)

Section operations.
Context {files : Fs} {fs_laws : FsLaws} {serde : Json} {serde_laws : JsonLaws}.

Lemma validate_sample_row_returns v : returns (validate_sample_row v).
Proof. unfold validate_sample_row. by repeat case_match. Qed.

(** The document of a file whose header was ensured. *)
Definition begun (header : Value) (vs vs' : list Value) : Prop :=
  (vs' = vs ∧ ∃ existing rows, vs = existing :: rows ∧ headers_are_compatible existing header = true) ∨
  (vs = [] ∧ ∃ header', reads_back header header' ∧ vs' = [header']).

(** What is in the file after its header was ensured. *)
Lemma ensured_document file header scan w vs :
  document (text w (handle_path file)) = Some vs → terminated (text w (handle_path file)) →
  is_header_object header = true →
  (ensure_header_in_locked_file file header scan w).1 = Ok () →
  let w' := (ensure_header_in_locked_file file header scan w).2 in
  ∃ vs' more, grew (handle_path file) more w w' ∧ same_locks w w' ∧
    document (text w' (handle_path file)) = Some vs' ∧ terminated (text w' (handle_path file)) ∧
    begun header vs vs'.
Proof.
  intros Hd Ht Hh Hr. cbn zeta. pose proof (ensure_header_law file header scan w) as Hl.
  destruct (ensure_header_in_locked_file file header scan w) as [r w']. cbn [fst snd] in *. subst r.
  destruct Hl as (Hlocks & Hcase).
  assert (validate_header_reader (text w (handle_path file), None) scan = Ok (head vs)) as Hv.
  { assert (validate_header_reader (text w (handle_path file), None) true = Ok (head vs)) as Ht'
      by (apply validation_document; eauto).
    destruct scan; [done|]. by apply validate_first_line. }
  destruct Hcase as [(existing & Hv' & Hc & Hg)|(Hv' & s & Hs & Hg)].
  - exists vs, "". split_and!; [done..| | |].
    + by rewrite (proj1 Hg), string_app_nil_r.
    + by rewrite (proj1 Hg), string_app_nil_r.
    + left. split; [done|]. rewrite Hv in Hv'. destruct vs as [|v rows]; [done|].
      injection Hv' as ->. eauto.
  - rewrite Hv in Hv'. destruct vs; [|done].
    destruct (document_header _ _ _ Hd Ht Hh Hs) as (header' & Hb & Hd' & Ht').
    exists [header'], (s +:+ newline). rewrite (proj1 Hg). split_and!; try done. right. eauto.
Qed.

(** A row that is written after a document. *)
Lemma written_row file sample w vs :
  document (text w (handle_path file)) = Some vs → terminated (text w (handle_path file)) →
  vs ≠ [] → validate_sample_row sample = Ok () →
  (write_json_line file sample w).1 = Ok () →
  let w' := (write_json_line file sample w).2 in
  ∃ sample' more, reads_back sample sample' ∧ grew (handle_path file) more w w' ∧ same_locks w w' ∧
    document (text w' (handle_path file)) = Some (vs ++ [sample']) ∧
    terminated (text w' (handle_path file)).
Proof.
  intros Hd Ht Hvs Hv Hr. cbn zeta. pose proof (write_law_json file sample w) as Hl.
  destruct (write_json_line file sample w) as [r w']. cbn [fst snd] in *. subst r.
  destruct Hl as (Hlocks & s & Hs & Hg).
  destruct (document_row _ _ _ _ Hd Ht Hvs Hv Hs) as (sample' & Hb & Hd' & Ht').
  exists sample', (s +:+ newline). rewrite (proj1 Hg). split_and!; eauto.
Qed.

(** How a document grows: a header when there was none, and rows. *)
Definition extended (header : Value) (vs : list Value) (rows : list Value) (vs' : list Value) : Prop :=
  ∃ rows', Forall2 reads_back rows rows' ∧
    ((∃ existing old, vs = existing :: old ∧ headers_are_compatible existing header = true ∧
        vs' = vs ++ rows') ∨
     (vs = [] ∧ ∃ header', reads_back header header' ∧ vs' = header' :: rows')).

Lemma begun_extended header vs vs2 samples rows :
  begun header vs vs2 → Forall2 reads_back samples rows → extended header vs samples (vs2 ++ rows).
Proof.
  intros Hvs Hb. exists rows. split; [done|].
  destruct Hvs as [(-> & existing & old & -> & Hc)|(-> & header' & Hb' & ->)]; eauto 10.
Qed.

(** The end of a session: opened in [w1], the header ensured in [w2], rows
    written in [w3]; then the file is dropped. *)
Definition extends (path : Path) (header : Value) (samples vs : list Value) (w w' : FsWorld) : Prop :=
  (∃ more, grew path more w w') ∧ same_locks w w' ∧ locked_by w path = None ∧
  terminated (text w' path) ∧
  ∃ vs', document (text w' path) = Some vs' ∧ extended header vs samples vs'.

Lemma closed_document file header samples rows w w2 w3 vs vs2 more2 more3 :
  let path := handle_path file in
  grew path more2 w w2 → locked_by w path = None →
  (∀ q, locked_by w2 q = if decide (q = path) then Some file else locked_by w q) →
  begun header vs vs2 →
  Forall2 reads_back samples rows → grew path more3 w2 w3 → same_locks w2 w3 →
  document (text w3 path) = Some (vs2 ++ rows) → terminated (text w3 path) →
  extends path header samples vs w (drop_file file w3).2.
Proof.
  intros path Hg2 Hfree Hl2 Hvs Hb Hg3 Hl3 Hd Ht.
  assert (∀ q, text (drop_file file w3).2 q = text w3 q) as Htext by (intros q; apply drop_law).
  pose proof (grew_trans _ _ _ _ _ _ Hg2 Hg3) as Hg.
  split_and!; [|by apply drop_locked; [intros q; by rewrite Hl3, Hl2|]|done|by rewrite Htext|].
  - exists (more2 +:+ more3). split; [by rewrite Htext, (proj1 Hg)|].
    intros q Hq. by rewrite Htext, (proj2 Hg).
  - exists (vs2 ++ rows). rewrite Htext. split; [done|]. by apply begun_extended.
Qed.

Lemma header_first header vs vs2 : begun header vs vs2 → vs2 ≠ [].
Proof. by intros [(-> & ? & ? & -> & _)|(_ & ? & _ & ->)]. Qed.

(** C8: on a file that holds a document whose last line is ended by a line
    feed (an empty or missing file is one), a row that
    [append_jsonl_sample_row] accepts is the new end of the document, whose
    last line is again ended. A file without a header gets the requested one
    first; the header of any other is the requested one up to [created_at]. No
    other file changes, what was in the file stays, and the lock is free. After
    a line that is not ended the property fails: see
    [row_after_unfinished_line]. *)
Theorem append_extends_the_document path header sample w w' vs :
  document (text w path) = Some vs → terminated (text w path) →
  append_jsonl_sample_row path header sample w = (Ok (), w') →
  extends path header [sample] vs w w'.
Proof.
  intros Hd Ht. unfold append_jsonl_sample_row, validate_requested_header.
  unfold mthen at 1, mlift at 1. destruct (is_header_object header) eqn:Hh; [|done].
  unfold mthen at 1, mlift at 1. pose proof (validate_sample_row_returns sample) as Hret.
  destruct (validate_sample_row sample) as [[]| | |] eqn:Hs; try done.
  unfold mthen at 1. pose proof (open_locked_law path w) as Ho.
  destruct (open_locked_jsonl_file path w) as [[file| | |] w1]; try done.
  destruct Ho as (Hg1 & <- & Hfree & Hl1). set (path := handle_path file) in *.
  assert (text w1 path = text w path) as Ht1 by (by rewrite (proj1 Hg1), string_app_nil_r).
  unfold then_drop, mthen. rewrite <- Ht1 in Hd, Ht.
  pose proof (ensured_document file header false w1 vs Hd Ht Hh) as He.
  destruct (ensure_header_in_locked_file file header false w1) as [[[]| | |] w2]; try done.
  destruct (He eq_refl) as (vs2 & more2 & Hg2 & Hl2 & Hd2 & Ht2 & Hvs). cbn [fst snd] in *.
  pose proof (written_row file sample w2 vs2 Hd2 Ht2 (header_first _ _ _ Hvs) Hs) as Hw.
  destruct (write_json_line file sample w2) as [[[]| | |] w3]; try done.
  destruct (Hw eq_refl) as (sample' & more3 & Hb & Hg3 & Hl3 & Hd3 & Ht3). cbn [fst snd] in *.
  intros [= <-]. eapply closed_document; [by eapply grew_nil_l|done|..]; eauto.
  intros q. by rewrite Hl2, Hl1.
Qed.

(** A run of a writer: opened, rows appended, dropped. *)
Fixpoint append_rows (writer : MetricsJsonlWriter) (samples : list Value) : M FsWorld IoError unit :=
  match samples with
  | [] => mpure ()
  | sample :: samples => append_sample_row writer sample ;;* append_rows writer samples
  end.

Definition writer_session (path : Path) (header : Value) (samples : list Value)
    : M FsWorld IoError unit :=
  let* writer := writer_open path header in
  append_rows writer samples ;;*
  writer_drop writer.

Lemma appended_rows writer samples : ∀ w w' vs,
  document (text w (handle_path (jw_file writer))) = Some vs →
  terminated (text w (handle_path (jw_file writer))) → vs ≠ [] →
  append_rows writer samples w = (Ok (), w') →
  ∃ rows more, Forall2 reads_back samples rows ∧
    grew (handle_path (jw_file writer)) more w w' ∧ same_locks w w' ∧
    document (text w' (handle_path (jw_file writer))) = Some (vs ++ rows) ∧
    terminated (text w' (handle_path (jw_file writer))).
Proof.
  induction samples as [|sample samples IH]; intros w w' vs Hd Ht Hvs; cbn [append_rows].
  - intros [= <-]. exists [], "". rewrite app_nil_r. split_and!; try done.
    split; [by rewrite string_app_nil_r|done].
  - unfold append_sample_row, mthen, mlift. pose proof (validate_sample_row_returns sample) as Hret.
    destruct (validate_sample_row sample) as [[]| | |] eqn:Hs; try done.
    pose proof (written_row (jw_file writer) sample w vs Hd Ht Hvs Hs) as Hw.
    destruct (write_json_line (jw_file writer) sample w) as [[[]| | |] w1]; try done.
    destruct (Hw eq_refl) as (sample' & more & Hb & Hg & Hl & Hd' & Ht'). cbn [fst snd] in *.
    intros Hrest. destruct (IH _ _ _ Hd' Ht' ltac:(by destruct vs) Hrest)
      as (rows & more' & Hrows & Hg' & Hl' & Hd'' & Ht'').
    exists (sample' :: rows), (more +:+ more'). rewrite <- app_assoc in Hd''.
    split_and!; eauto using grew_trans, same_locks_trans.
Qed.

Lemma opened_document path header w w' writer vs :
  document (text w path) = Some vs → terminated (text w path) →
  writer_open path header w = (Ok writer, w') →
  handle_path (jw_file writer) = path ∧ locked_by w path = None ∧
  (∀ q, locked_by w' q = if decide (q = path) then Some (jw_file writer) else locked_by w q) ∧
  ∃ vs2 more, grew path more w w' ∧ document (text w' path) = Some vs2 ∧
    terminated (text w' path) ∧ begun header vs vs2.
Proof.
  intros Hd Ht. unfold writer_open, validate_requested_header, mthen at 1, mlift.
  destruct (is_header_object header) eqn:Hh; [|done].
  unfold mthen at 1. pose proof (open_locked_law path w) as Ho.
  destruct (open_locked_jsonl_file path w) as [[file| | |] w1]; try done.
  destruct Ho as (Hg1 & <- & Hfree & Hl1). set (path := handle_path file) in *.
  assert (text w1 path = text w path) as Ht1 by (by rewrite (proj1 Hg1), string_app_nil_r).
  rewrite <- Ht1 in Hd, Ht. unfold drop_on_error, mthen, mpure.
  pose proof (ensured_document file header true w1 vs Hd Ht Hh) as He.
  destruct (ensure_header_in_locked_file file header true w1) as [[[]| | |] w2]; try done.
  destruct (He eq_refl) as (vs2 & more2 & Hg2 & Hl2 & Hd2 & Ht2 & Hvs). cbn [fst snd] in *.
  intros [= <- <-]. cbn [jw_file]. split_and!; [done..|intros q; by rewrite Hl2, Hl1|].
  exists vs2, more2. split_and!; [by eapply grew_nil_l|done..].
Qed.

(** A writer that is opened on a document and whose appends all succeed
    leaves the document with exactly its rows added, in order, the header
    before them when there was none, and the lock free. *)
Theorem writer_session_adds_its_rows path header samples w w' vs :
  document (text w path) = Some vs → terminated (text w path) →
  writer_session path header samples w = (Ok (), w') →
  extends path header samples vs w w'.
Proof.
  intros Hd Ht. unfold writer_session.
  intros (writer & w2 & Hopen & (? & w3 & Hrows & Hdrop)%mthen_inv)%mthen_inv.
  destruct (opened_document _ _ _ _ _ _ Hd Ht Hopen)
    as (<- & Hfree & Hl2 & vs2 & more2 & Hg2 & Hd2 & Ht2 & Hvs). destruct x.
  destruct (appended_rows writer samples w2 w3 vs2 Hd2 Ht2 (header_first _ _ _ Hvs) Hrows)
    as (rows & more3 & Hb & Hg3 & Hl3 & Hd3 & Ht3).
  revert Hdrop. unfold writer_drop, mmap, mthen, fs_call, mpure.
  destruct (drop_file (jw_file writer) w3) as [[] w4] eqn:Edrop. intros [= <-].
  replace w4 with (drop_file (jw_file writer) w3).2 by (by rewrite Edrop).
  eapply closed_document; eauto.
Qed.

(** One call of the library on the file at [path]. *)
Inductive JsonlCall :=
  | CAppend (header sample : Value)
  | CEnsure (header : Value)
  | COpen (header : Value)
  | CRow (file : Handle) (sample : Value).

Definition run_call (path : Path) (c : JsonlCall) : M FsWorld IoError unit :=
  match c with
  | CAppend header sample => append_jsonl_sample_row path header sample
  | CEnsure header => ensure_single_header path header
  | COpen header => mmap (λ _, ()) (writer_open path header)
  | CRow file sample => append_sample_row (mkWriter path file) sample
  end.

Lemma ensure_header_grows file header scan w :
  let '(r, w') := ensure_header_in_locked_file file header scan w in
  returns r ∧ ∃ more, grew (handle_path file) more w w'.
Proof.
  pose proof (ensure_header_law file header scan w) as Hl.
  destruct (ensure_header_in_locked_file file header scan w) as [[[]| | |] w']; [| |by destruct Hl..].
  - destruct Hl as (_ & [(? & _ & _ & Hg)|(_ & ? & _ & Hg)]); (split; [done|]); by eexists.
  - destruct Hl as (_ & more & Hg & _). (split; [done|]); by eexists.
Qed.

Lemma write_json_line_grows file v w :
  let '(r, w') := write_json_line file v w in
  returns r ∧ ∃ more, grew (handle_path file) more w w'.
Proof.
  pose proof (write_law_json file v w) as Hl.
  destruct (write_json_line file v w) as [[[]| | |] w']; [| |by destruct Hl..].
  - destruct Hl as (_ & ? & _ & Hg). (split; [done|]); by eexists.
  - destruct Hl as (_ & ? & Hg). (split; [done|]); by eexists.
Qed.

Lemma drop_grows file p more w w' : grew p more w w' → grew p more w (drop_file file w').2.
Proof.
  intros [Hp Hq]. split; [|intros q Hne]; rewrite (proj1 (drop_law file w' _)); auto.
Qed.

(** [grows p m]: [m] returns, and changes no file but the one at [p], which grows. *)
Definition grows {A : Type} (p : Path) (m : M FsWorld IoError A) : Prop := ∀ w,
  let '(r, w') := m w in returns r ∧ ∃ more, grew p more w w'.

Lemma grows_then {A B : Type} p (m : M FsWorld IoError A) (k : A → M FsWorld IoError B) :
  grows p m → (∀ a, grows p (k a)) → grows p (mthen m k).
Proof.
  intros Hm Hk w. unfold mthen. specialize (Hm w). destruct (m w) as [[a|e| |] w1]; try done.
  destruct Hm as (_ & more & Hg). specialize (Hk a w1). destruct (k a w1) as [r w2].
  destruct Hk as (Hr & more' & Hg'). eauto using grew_trans.
Qed.

Lemma grows_lift {A : Type} p (r : Res IoError A) : returns r → grows p (mlift r).
Proof. intros Hr w. split; [done|]. exists "". by apply same_files_alt. Qed.

Lemma grows_locked {A : Type} p (k : Handle → M FsWorld IoError A) :
  (∀ h, handle_path h = p → grows p (k h)) → grows p (mthen (open_locked_jsonl_file p) k).
Proof.
  intros Hk w. unfold mthen. pose proof (open_locked_law p w) as Ho.
  destruct (open_locked_jsonl_file p w) as [[h|e| |] w1]; try done.
  - destruct Ho as (Hg & Hp & _). specialize (Hk h Hp w1). destruct (k h w1) as [r w2].
    destruct Hk as (Hr & more & Hg'). split; [done|].
    exists more. by apply (grew_nil_l _ _ _ w1).
  - split; [done|]. exists "". by apply same_files_alt, Ho.
Qed.

Lemma grows_drop {A : Type} p h (m : M FsWorld IoError A) :
  grows p m → grows p (then_drop h m) ∧ grows p (drop_on_error h m).
Proof.
  intros Hm. split; intros w; unfold then_drop, drop_on_error; specialize (Hm w);
    destruct (m w) as [r w']; destruct Hm as (Hr & more & Hg); (split; [done|]);
    exists more; destruct r; eauto using drop_grows.
Qed.

Lemma validate_requested_header_returns v : returns (validate_requested_header v).
Proof. unfold validate_requested_header. by case_match. Qed.

Lemma writer_open_grows path header : grows path (writer_open path header).
Proof.
  unfold writer_open. apply grows_then; [apply grows_lift, validate_requested_header_returns|intros _].
  apply grows_locked. intros h <-. apply grows_drop, grows_then;
    [intros w1; apply ensure_header_grows|intros _; by apply (grows_lift _ (Ok _))].
Qed.

(** No call of the library unwinds, and whatever it returns, no file but
    its own is touched, and nothing that was in that file is changed: it can
    only grow. A writer's rows go to the file it has open. *)
Theorem jsonl_calls_only_append path c w :
  (if c is CRow file _ then handle_path file = path else True) →
  let '(r, w') := run_call path c w in
  returns r ∧ (∃ more, text w' path = text w path +:+ more) ∧
  ∀ q, q ≠ path → text w' q = text w q.
Proof.
  intros Hc. assert (grows path (run_call path c)) as Hg.
  { destruct c as [header sample|header|header|file sample]; cbn [run_call].
    - do 2 (apply grows_then; [apply grows_lift; auto using validate_requested_header_returns,
        validate_sample_row_returns|intros _]).
      apply grows_locked. intros h <-. apply grows_drop, grows_then;
        [intros w1; apply ensure_header_grows|intros _ w1; apply write_json_line_grows].
    - apply grows_then; [apply grows_lift, validate_requested_header_returns|intros _].
      apply grows_locked. intros h <-. apply grows_drop. intros w1. apply ensure_header_grows.
    - unfold mmap. apply grows_then; [apply writer_open_grows|intros ?; by apply (grows_lift _ (Ok _))].
    - rewrite <- Hc. apply grows_then; [apply grows_lift, validate_sample_row_returns|intros _ w1].
      apply write_json_line_grows. }
  specialize (Hg w). destruct (run_call path c w) as [r w'].
  destruct Hg as (Hr & more & Hp & Hq). eauto.
Qed.

(** While another writer holds the lock of a file, a writer cannot be
    opened on it and no row can be appended: nothing changes, and the error is
    [WouldBlock] on every platform when the file itself could be opened. *)
Theorem locked_file_is_refused path c w holder :
  locked_by w path = Some holder → (if c is CRow _ _ then False else True) →
  ∃ e, (run_call path c w).1 = Err e ∧ same_files w (run_call path c w).2 ∧
    (∀ header sample, c = CAppend header sample →
       is_header_object header = true → validate_sample_row sample = Ok () →
       (∃ w1, create_parent_directory path w = (Ok (), w1) ∧
              ∃ h, (open_append path w1).1 = inl h) → io_kind e = WouldBlock).
Proof.
  intros Hheld Hc. pose proof (open_locked_law path w) as Ho.
  destruct (open_locked_jsonl_file path w) as [r w1] eqn:Eopen.
  assert (∃ e, r = Err e) as [e ->].
  { destruct r as [h|e| |]; try done; [|eauto]. destruct Ho as (_ & _ & Hn & _). congruence. }
  destruct Ho as [Hsame Hkind].
  destruct c as [header sample|header|header|file sample]; [..|done];
    cbn [run_call]; unfold mmap, append_jsonl_sample_row, ensure_single_header, writer_open,
      validate_requested_header, mthen, mlift;
    (destruct (is_header_object header) eqn:Hh; [|by eexists; split_and!; [done| |congruence]]).
  - pose proof (validate_sample_row_returns sample) as Hret.
    destruct (validate_sample_row sample) as [[]|e'| |] eqn:Hs; try done.
    + rewrite Eopen. exists e. split_and!; [done..|]. intros ? ? _ _ _ Hop. by apply Hkind.
    + exists e'. split_and!; [done..|]. intros ? ? [= <- <-]. congruence.
  - rewrite Eopen. exists e. by split_and!.
  - rewrite Eopen. exists e. by split_and!.
Qed.

(** The header that [header_json] builds for a file, whatever the file is
    called, is accepted; and it is still accepted after it was written and
    read back and the program was started again, at another time, provided
    that the flags are values that reading gives back exactly, as strings,
    integers and truth values are. *)
Theorem built_header_survives_restart artifact producer path flags time time' s :
  artifact ≠ "" → producer ≠ "" →
  (∀ key v v', flags !! key = Some v → reads_back v v' → v' = v) →
  let header := λ t, header_json artifact producer (infer_node_id_from_path path) t flags in
  to_vec (header time) = inl s →
  validate_requested_header (header time) = Ok () ∧
  ∃ header', validate_header_reader (s +:+ newline, None) true = Ok (Some header') ∧
    headers_are_compatible header' (header time') = true.
Proof.
  intros Ha Hp Hflags header Hs.
  assert (is_header_object (header time) = true) as Hh
    by (unfold header; apply header_json_is_header; auto using infer_node_id_not_empty).
  split; [unfold validate_requested_header; by rewrite Hh|].
  destruct (document_header "" (header time) s) as (header' & Hb & Hd & _);
    [done|by left|done..|]. rewrite string_nil_app in Hd.
  exists header'. split; [by apply validation_document; eauto|].
  destruct (is_header_object_object _ Hh) as [m Hm].
  pose proof (λ key, reads_back_get _ _ _ key Hm Hb) as Hget.
  pose proof (λ t, header_json_fields artifact producer (infer_node_id_from_path path) t flags) as Hf.
  cbn zeta in Hf. fold header in Hf.
  assert (∀ t, get (header t) "schema" = Some (v_string HEIMDALL_JSONL_SCHEMA)) as H1 by apply Hf.
  assert (∀ t, get (header t) "artifact_type" = Some (v_string artifact)) as H2 by apply Hf.
  assert (∀ t, get (header t) "node_id" = Some (v_string (infer_node_id_from_path path))) as H3 by apply Hf.
  assert (∀ t, get (header t) "producer" = Some (v_string producer)) as H4 by apply Hf.
  assert (∀ t, get (header t) "flags" = Some (v_object flags)) as H6 by apply Hf.
  clear Hf. clearbody header.
  unfold headers_are_compatible, HEADER_ONLY_KEYS. cbn [forallb].
  assert (∀ key t, get (header time) key = Some (v_string t) → get header' key = Some (v_string t))
    as Hstr.
  { intros key t Ht. specialize (Hget key). rewrite Ht in Hget.
    inversion Hget as [? v' Hv|]; subst. by apply reads_back_string in Hv as ->. }
  rewrite (Hstr _ _ (H1 _)), (Hstr _ _ (H2 _)), (Hstr _ _ (H3 _)), (Hstr _ _ (H4 _)), H1, H2, H3, H4, H6.
  assert (get header' "flags" = Some (v_object flags)) as ->; [|by rewrite !bool_decide_eq_true_2].
  specialize (Hget "flags"). rewrite H6 in Hget.
  inversion Hget as [? v' Hv|]; subst.
  apply reads_back_object in Hv as (flags' & -> & Hf). do 2 f_equal.
  apply map_eq. intros key. specialize (Hf key). destruct (flags !! key) as [v|] eqn:Ev.
  - inversion Hf as [? v' Hv|]; subst. by rewrite (Hflags _ _ _ Ev Hv).
  - by inversion Hf.
Qed.

(** A file whose last line has no line feed is accepted, and ruined by the
    next row: the row goes on in the same line, and what was a valid file is
    refused from then on. Here the line is the header, in a file that was cut
    after its last byte or edited by hand. *)
Theorem row_after_unfinished_line m sample w w' s path :
  let header := v_object m in
  to_vec header = inl s → is_header_object header = true →
  text w path = s →
  append_jsonl_sample_row path header sample w = (Ok (), w') →
  (∃ header', validate_header_reader (text w path, None) true = Ok (Some header')) ∧
  ∃ e, validate_header_reader (text w' path, None) false = Err e ∧ io_kind e = InvalidData.
Proof.
  intros header Hs Hh Htext. destruct (compact_line_to_vec _ _ Hs) as (Hline & header' & Hv & Hb).
  assert (∀ scan, validate_header_reader (text w path, None) scan = Ok (Some header')) as Hvalid.
  { intros scan. destruct Hline as (Hu & Hblank & Hl & _). rewrite Htext.
    unfold validate_header_reader, lines; cbn [fst snd].
    rewrite lines_from_unfinished, string_nil_app by (try done; by destruct s).
    unfold checked_line. rewrite Hu. cbn [validate_lines]. rewrite Hblank, Hv.
    rewrite bool_decide_eq_true_2, (is_header_object_reads_back _ _ Hh Hb) by done.
    by destruct scan. }
  unfold append_jsonl_sample_row, validate_requested_header.
  unfold mthen at 1, mlift at 1. rewrite Hh. unfold mthen at 1, mlift at 1.
  destruct (validate_sample_row sample) as [[]| | |] eqn:Hrow; try done.
  unfold mthen at 1. pose proof (open_locked_law path w) as Ho.
  destruct (open_locked_jsonl_file path w) as [[file| | |] w1]; try done.
  destruct Ho as (Hg1 & <- & _). set (path := handle_path file) in *.
  assert (text w1 path = text w path) as Ht1 by (by rewrite (proj1 Hg1), string_app_nil_r).
  unfold then_drop, mthen. pose proof (ensure_header_law file header false w1) as He.
  destruct (ensure_header_in_locked_file file header false w1) as [[[]| | |] w2]; try done.
  cbn zeta in He. fold path in He. rewrite Ht1, Hvalid in He.
  destruct He as (_ & [(? & _ & _ & Hg2)|[? _]]); [|done].
  pose proof (write_law_json file sample w2) as Hw.
  destruct (write_json_line file sample w2) as [[[]| | |] w3]; try done.
  destruct Hw as (_ & s' & Hs' & Hg3). fold path in Hg3. intros [= <-]. split; [eauto|].
  rewrite (proj1 (drop_law _ _ _)), (proj1 Hg3), (proj1 Hg2), string_app_nil_r, Ht1, Htext.
  assert (∃ m', sample = v_object m') as [m' ->].
  { unfold validate_sample_row in Hrow. destruct (as_object sample) eqn:E; [|done].
    eexists. by apply object_law. }
  destruct (trailing_law _ _ _ _ Hs Hs') as ([r Hr] & e & He).
  destruct (compact_line_to_vec _ _ Hs') as ((_ & _ & Hl' & Hcr') & _).
  destruct Hline as (_ & _ & Hl & Hcr).
  unfold validate_header_reader, lines; cbn [fst snd]. rewrite <- string_app_assoc.
  rewrite lines_from_line, string_nil_app by (by rewrite lacks_app, Hl, Hl').
  destruct (utf8_valid (s +:+ s')); cbn [validate_lines]; [|by eexists].
  rewrite strip_cr_lacks by (by rewrite lacks_app, Hcr, Hcr').
  assert (is_blank (s +:+ s') = false) as ->
    by (rewrite Hr, string_cons_app; apply is_blank_brace).
  rewrite He. by eexists.
Qed.
End operations.

(** ** A concrete file system and serde_json *)

Module Sample.

Definition Tree : Type := gen_tree (string + Z).

Fixpoint fields (l : list (string * Tree)) : list Tree :=
  match l with [] => [] | (k, v) :: l => GenLeaf (inl k) :: v :: fields l end.

Fixpoint unfields (l : list Tree) : option (list (string * Tree)) :=
  match l with
  | [] => Some []
  | GenLeaf (inl k) :: v :: l => (λ l, (k, v) :: l) <$> unfields l
  | _ => None
  end.

Lemma unfields_fields l : unfields (fields l) = Some l.
Proof. induction l as [|[k v] l IH]; [done|]. cbn. by rewrite IH. Qed.

Definition tree_object (m : gmap string Tree) : Tree := GenNode 0 (fields (map_to_list m)).

Definition tree_as_object (v : Tree) : option (gmap string Tree) :=
  match v with
  | GenNode 0 l =>
      l ← unfields l;
      let m := list_to_map l in
      if decide (v = tree_object m) then Some m else None
  | _ => None
  end.

Lemma tree_object_law v m : tree_as_object v = Some m ↔ v = tree_object m.
Proof.
  split.
  - destruct v as [|[] l]; [done| |done]. cbn. destruct (unfields l); [|done]. cbn.
    case_decide; [|done]. by intros [= <-].
  - intros ->. unfold tree_as_object, tree_object at 1. rewrite unfields_fields. cbn.
    rewrite list_to_map_to_list. by rewrite decide_True.
Qed.

Fixpoint bits (p : positive) : string :=
  match p with
  | xH => "}"
  | xO p => String "0" (bits p)
  | xI p => String "1" (bits p)
  end.

Fixpoint unbits (s : string) : option positive :=
  match s with
  | String "0" s => xO <$> unbits s
  | String "1" s => xI <$> unbits s
  | String "}" EmptyString => Some xH
  | _ => None
  end.

Lemma unbits_bits p : unbits (bits p) = Some p.
Proof. induction p as [p IH|p IH|]; cbn; [by rewrite IH..|done]. Qed.

Lemma unbits_trailing p c t : unbits (bits p +:+ String c t) = None.
Proof.
  induction p as [p IH|p IH|]; cbn [bits]; rewrite !string_cons_app; [cbn; by rewrite IH..|done].
Qed.

Lemma bits_clean p :
  utf8_valid (bits p) = true ∧ lacks line_feed (bits p) = true ∧ lacks carriage_return (bits p) = true.
Proof. by induction p. Qed.

Definition tree_text (v : Tree) : string := String "{" (bits (encode v)).

Definition tree_from_str (s : string) : Tree + string :=
  match s with
  | String "{" s =>
      match (p ← unbits s; decode p) with Some v => inl v | None => inr "trailing characters" end
  | _ => inr "expected value"
  end.

Definition tree_f64 (x : f64) : Tree :=
  GenNode 1 match x with
            | SpecFloat.S754_finite s m e =>
                [GenLeaf (inr (if s : bool then Zneg m else Zpos m)); GenLeaf (inr e)]
            | _ => []
            end.

#[export] Instance tree_json : Json := {|
  Value := Tree;
  as_object := tree_as_object;
  as_str v := match v with GenLeaf (inl s) => Some s | _ => None end;
  as_finite_f64 v := match v with GenLeaf (inr _) | GenNode 1 _ => true | _ => false end;
  v_object := tree_object;
  v_string s := GenLeaf (inl s);
  v_f64 := tree_f64;
  v_u64 n := GenLeaf (inr n);
  v_bool b := GenNode (if b : bool then 3 else 4) [];
  from_str := tree_from_str;
  to_vec v := inl (tree_text v) |}.

#[export] Instance tree_json_laws : JsonLaws.
Proof.
  refine {| reads_back := @eq (@Value tree_json) |}.
  - apply tree_object_law.
  - intros v s. cbn. split; [|by intros ->]. destruct v as [[]|]; [|done..]. by intros [= ->].
  - done.
  - intros v s [= <-]. destruct (bits_clean (encode v)) as (Hu & Hl & Hc). unfold tree_text.
    split_and!; [done|apply is_blank_brace| | |].
    + exact Hl.
    + exact Hc.
    + exists v. split; [|done]. change (tree_from_str (tree_text v) = inl v).
      unfold tree_from_str, tree_text. rewrite unbits_bits. cbn [mbind option_bind].
      by rewrite decode_encode.
  - intros m v' <-. exists m. split; [done|]. intros k. by destruct (m !! k); constructor.
  - by intros s v' <-.
  - by intros n v' <-.
  - by intros b v' <-.
  - by intros v v' <-.
  - intros m m' s s' [= <-] [= <-]. split; [by eexists|]. eexists. unfold tree_text.
    rewrite string_cons_app. cbn. by rewrite unbits_trailing.
Defined.

(** Files, the holders of their locks, and the positions of the handles. A file
    opened for appending stands at its end. *)
Record Disk := mkDisk {
  files : Path → string;
  locks : Path → option (nat * Path);
  positions : nat * Path → nat }.

Definition update {K A : Type} `{EqDecision K} (k : K) (a : A) (f : K → A) : K → A :=
  λ q, if decide (q = k) then a else f q.

Definition disk_seek (h : nat * Path) (n : nat) (w : Disk) : Disk :=
  mkDisk (files w) (locks w) (update h n (positions w)).

Definition disk_open (p : Path) (at_end : bool) : Io Disk (nat * Path) := λ w,
  let h := (S (default 0 (fst <$> locks w p)), p) in
  (inl h, disk_seek h (if at_end then String.length (files w p) else 0) w).

Definition disk_lock (h : nat * Path) : Io Disk unit := λ w,
  if decide (locks w h.2 = None ∨ locks w h.2 = Some h)
  then (inl (), mkDisk (files w) (update h.2 (Some h) (locks w)) (positions w))
  else (inr (io_error_new WouldBlock "Resource temporarily unavailable"), w).

Definition disk_read (h : nat * Path) : Call Disk (string * option IoError) := λ w,
  ((text_from (positions w h) (files w h.2), None), disk_seek h (String.length (files w h.2)) w).

Definition disk_write (h : nat * Path) (data : string) : Io Disk unit := λ w,
  (inl (), mkDisk (update h.2 (files w h.2 +:+ data) (files w)) (locks w)
             (update h (String.length (files w h.2 +:+ data)) (positions w))).

Definition disk_drop (h : nat * Path) : Call Disk unit := λ w,
  ((), if decide (locks w h.2 = Some h)
       then mkDisk (files w) (update h.2 None (locks w)) (positions w) else w).

#[export] Instance disk_fs : Fs := {|
  FsWorld := Disk;
  Handle := nat * Path;
  create_dir_all _ w := (inl (), w);
  open_read p := disk_open p false;
  open_append p := disk_open p true;
  try_lock_exclusive := disk_lock;
  seek_start h w := (inl (), disk_seek h 0 w);
  read_bytes := disk_read;
  write_all := disk_write;
  drop_file := disk_drop;
  target_is_windows := false |}.

Lemma disk_open_fresh p w : locks w p ≠ Some (S (default 0 (fst <$> locks w p)), p).
Proof. destruct (locks w p) as [[n q]|]; [|done]. cbn. intros [= ? _]. lia. Qed.

Lemma update_here {K A : Type} `{EqDecision K} (k : K) (a : A) f : update k a f k = a.
Proof. unfold update. by rewrite decide_True. Qed.

#[export] Instance disk_laws : FsLaws.
Proof.
  refine {| text := files; locked_by := locks; handle_path := snd; offset_of := positions |}.
  - done.
  - intros p w. split; [done|]. split_and!; [done|apply disk_open_fresh|apply update_here].
  - intros p w. split; [done|]. split; [done|apply disk_open_fresh].
  - intros h w q. cbn. unfold disk_lock, update. by case_decide.
  - intros h h' w Hh Hne. cbn in *. unfold disk_lock. rewrite decide_False.
    + eexists. split; [done|]. by left.
    + rewrite Hh. naive_solver.
  - intros h w. split; [done|]. intros _. apply update_here.
  - done.
  - intros h data w q. split; [done|]. exists data. split; [|done].
    cbn. unfold update. by case_decide; subst.
  - intros h w q. cbn. unfold disk_drop, update. case_decide as Hl; cbn.
    + split; [done|]. destruct (decide (q = h.2)) as [->|].
      * by rewrite decide_True.
      * by rewrite decide_False by naive_solver.
    + split; [done|]. rewrite decide_False; [done|]. by intros [-> ?].
Defined.

Definition blank_disk : Disk := mkDisk (λ _, "") (λ _, None) (λ _, 0).
Definition network_path : Path :=
  [RootDir; Normal "tmp"; Normal "client-0001"; Normal "network-metrics.jsonl"].
Definition receiver_flags : gmap string Tree := {["role" := GenLeaf (inl "receiver")]}.
Definition network_header (t : Z) : Tree :=
  header_json NETWORK_ARTIFACT_TYPE "mcrx-core/test" (infer_node_id_from_path network_path) t receiver_flags.
Definition sample_row (n : Z) : Tree := tree_object {["packets_received_total" := GenLeaf (inr n)]}.

Lemma ok_run {S E : Type} (m : M S E unit) s : (m s).1 = Ok () → m s = (Ok (), (m s).2).
Proof. destruct (m s). by intros [= ->]. Qed.

Example node_id_is_the_directory : infer_node_id_from_path network_path = "client-0001".
Proof. reflexivity. Qed.

Lemma append_extends_the_document_witness :
  extends network_path (network_header 10) [sample_row 5] [] blank_disk
    (append_jsonl_sample_row network_path (network_header 10) (sample_row 5) blank_disk).2.
Proof.
  refine (append_extends_the_document network_path (network_header 10) (sample_row 5) blank_disk _ []
    _ _ _); [reflexivity|by left|].
  apply ok_run. vm_compute. reflexivity.
Defined.

Lemma writer_session_adds_its_rows_witness :
  extends network_path (network_header 10) [sample_row 5; sample_row 10] [] blank_disk
    (writer_session network_path (network_header 10) [sample_row 5; sample_row 10] blank_disk).2.
Proof.
  refine (writer_session_adds_its_rows network_path (network_header 10) [sample_row 5; sample_row 10]
    blank_disk _ [] _ _ _); [reflexivity|by left|].
  apply ok_run. vm_compute. reflexivity.
Defined.

Definition sample_append : JsonlCall (files := disk_fs) (serde := tree_json) :=
  CRow (files := disk_fs) (serde := tree_json) (1, network_path) (sample_row 5).

Lemma jsonl_calls_only_append_witness :
  let '(r, w') := run_call network_path sample_append blank_disk in
  returns r ∧
  (∃ more, text (FsLaws := disk_laws) w' network_path = text (FsLaws := disk_laws) blank_disk network_path +:+ more) ∧
  ∀ q, q ≠ network_path → text (FsLaws := disk_laws) w' q = text (FsLaws := disk_laws) blank_disk q.
Proof. exact (jsonl_calls_only_append (files := disk_fs) network_path sample_append blank_disk eq_refl). Defined.

(** A writer is open. *)
Definition held_disk : Disk := (writer_open network_path (network_header 10) blank_disk).2.

Definition second_append : JsonlCall (files := disk_fs) (serde := tree_json) :=
  CAppend (files := disk_fs) (serde := tree_json) (network_header 10) (sample_row 5).

Lemma locked_file_is_refused_witness :
  ∃ e, (append_jsonl_sample_row network_path (network_header 10) (sample_row 5) held_disk).1 = Err e ∧
    io_kind e = WouldBlock.
Proof.
  destruct (locked_file_is_refused (files := disk_fs) network_path second_append held_disk
    (1, network_path)) as (e & Hr & _ & Hk); [vm_compute; reflexivity|exact I|].
  exists e. split; [exact Hr|]. apply (Hk _ _ eq_refl); [vm_compute; reflexivity..|].
  eexists. split; [vm_compute; reflexivity|]. eexists. vm_compute. reflexivity.
Defined.

Lemma built_header_survives_restart_witness :
  ∃ header', validate_header_reader (tree_text (network_header 10) +:+ newline, None) true = Ok (Some header') ∧
    headers_are_compatible header' (network_header 99) = true.
Proof.
  refine (proj2 (built_header_survives_restart NETWORK_ARTIFACT_TYPE "mcrx-core/test" network_path
    receiver_flags 10%Z 99%Z (tree_text (network_header 10)) _ _ _ _)); [done|done| |reflexivity].
  by intros key v v' _ <-.
Defined.

(** The header was written without a line feed. *)
Definition header_fields : gmap string Tree := default ∅ (tree_as_object (network_header 10)).
Definition cut_disk : Disk :=
  mkDisk (update network_path (tree_text (tree_object header_fields)) (λ _, "")) (λ _, None) (λ _, 0).
Definition cut_append : Res IoError unit * Disk :=
  append_jsonl_sample_row (H := disk_fs) (H0 := tree_json) network_path
    (tree_object header_fields) (sample_row 5) cut_disk.

Lemma row_after_unfinished_line_witness :
  ∃ e, validate_header_reader (files cut_append.2 network_path, None) false = Err e ∧
    io_kind e = InvalidData.
Proof.
  pose proof (row_after_unfinished_line (files := disk_fs) (serde := tree_json) header_fields
    (sample_row 5) cut_disk cut_append.2 (tree_text (tree_object header_fields)) network_path) as Hcut.
  cbn zeta in Hcut.
  apply Hcut.
  - reflexivity.
  - vm_compute. reflexivity.
  - vm_compute. reflexivity.
  - apply (ok_run (append_jsonl_sample_row (H := disk_fs) (H0 := tree_json) network_path
      (tree_object header_fields) (sample_row 5)) cut_disk). vm_compute. reflexivity.
Defined.
End Sample.
