(* ===== verification/TokioAdapter.v ===== *)
(** * The Tokio adapter ([src/src/tokio_adapter.rs])

    [recv] and [recv_with_metadata] are futures: [poll_recv] is what one poll
    of them does, up to the next [await]. The runtime (readiness of a file
    descriptor, timers) is not part of the repository: it is the class
    [Tokio]. *)

From S2P Require Import Prelude Net Errors Config Packet Metrics Os SampleOs Platform Subscription.

Local Open Scope list_scope.
Local Open Scope nat_scope.

(** [Poll]. *)
Inductive Poll (A : Type) := Ready (a : A) | Pending.
Arguments Ready {A} _.
Arguments Pending {A}.

(** [TokioReceiveError]. *)
Inductive TokioReceiveError := Readiness (e : IoError) | Receive (e : McrxError).

Class Tokio `{Os} := {
  Runtime : Type;
  (* the registration of a file descriptor *)
  AsyncFd : Type;
  async_fd_new : Socket → Io Runtime AsyncFd;
  async_fd_into_inner : AsyncFd → Call Runtime unit;
  poll_read_ready : AsyncFd → Call Runtime (Poll (unit + IoError));
  clear_ready : AsyncFd → Runtime → Runtime;
  (* tokio::time::sleep, with nanoseconds; a poll tells whether it is over *)
  Sleep : Type;
  sleep_new : Z → Call Runtime Sleep;
  poll_sleep : Sleep → Call Runtime bool }.

Section adapter.
Context `{Tokio}.

(** [TokioSubscription]: the registration on unix, the poll interval
    elsewhere. *)
Inductive Waiting := Registered (fd : AsyncFd) | Interval (poll_interval : Z).
Record TokioSubscription := mkTokio { ts_inner : Subscription; ts_waiting : Waiting }.

Definition DEFAULT_POLL_INTERVAL : Z := 10 * 1000000.

Definition TokioSubscription_new (subscription : Subscription) : M Runtime IoError TokioSubscription :=
  λ r,
  if cfg_unix target then
    match async_fd_new (sub_raw_socket subscription) r with
    | (inl fd, r) => (Ok (mkTokio subscription (Registered fd)), r)
    | (inr e, r) => (Err e, r)
    end
  else (Ok (mkTokio subscription (Interval DEFAULT_POLL_INTERVAL)), r).

Definition subscription (t : TokioSubscription) : Subscription := ts_inner t.

Definition into_subscription (t : TokioSubscription) : Call Runtime Subscription := λ r,
  match ts_waiting t with
  | Registered fd => let '((), r) := async_fd_into_inner fd r in (ts_inner t, r)
  | Interval _ => (ts_inner t, r)
  end.

(** It exists on the platforms that are not unix. *)
Definition with_poll_interval (t : TokioSubscription) (poll_interval : Z) : TokioSubscription :=
  mkTokio (ts_inner t) (Interval poll_interval).

(** ** Receive

    The subscription, the kernel and the runtime; and one poll of the future:
    it is ready, or pending with the sleep it waits for. The two methods differ
    in the receive method they call. *)
Definition Shared : Type := Subscription * World * Runtime.
Definition TokioOp (A : Type) : Type := M Shared TokioReceiveError A.
Definition runtime_call {A : Type} (m : Call Runtime A) : TokioOp A := on_snd (λ r,
  let '(a, r) := m r in (Ok a, r)).

Section receive.
Context {A : Type} (receive : Op (Subscription * World) (option A)).

(** The loop of the unix variant: [readable_mut().await], then [receive]. *)
Fixpoint recv_unix (fuel : nat) (fd : AsyncFd) : TokioOp (Poll A) :=
  match fuel with
  | O => mfuel
  | S fuel =>
      let* readiness := runtime_call (poll_read_ready fd) in
      match readiness with
      | Pending => mpure Pending
      | Ready (inr e) => mthrow (Readiness e)
      | Ready (inl _) =>
          let* received := mmap_err Receive (on_fst receive) in
          match received with
          | Some packet => mpure (Ready packet)
          | None => on_snd (mmodify (clear_ready fd)) ;;* recv_unix fuel fd
          end
      end
  end.

(** The loop of the other variant, from [try_recv] on. *)
Fixpoint recv_polling (fuel : nat) (poll_interval : Z) : TokioOp (Poll A * option Sleep) :=
  match fuel with
  | O => mfuel
  | S fuel =>
      let* received := mmap_err Receive (on_fst receive) in
      match received with
      | Some packet => mpure (Ready packet, None)
      | None =>
          let* sleep := runtime_call (sleep_new poll_interval) in
          let* over := runtime_call (poll_sleep sleep) in
          if over : bool then recv_polling fuel poll_interval else mpure (Pending, Some sleep)
      end
  end.

(** One poll of the future; [sleeping] is where it was suspended. *)
Definition poll_recv (fuel : nat) (t : Waiting) (sleeping : option Sleep)
    : TokioOp (Poll A * option Sleep) :=
  match t with
  | Registered fd => mmap (λ p, (p, None)) (recv_unix fuel fd)
  | Interval poll_interval =>
      match sleeping with
      | None => recv_polling fuel poll_interval
      | Some sleep =>
          let* over := runtime_call (poll_sleep sleep) in
          if over : bool then recv_polling fuel poll_interval else mpure (Pending, Some sleep)
      end
  end.
End receive.

Definition poll_recv_packet := poll_recv try_recv.
Definition poll_recv_with_metadata := poll_recv try_recv_with_metadata.

(** ** Receive methods that count *)

Definition packets_received (s : Subscription) : Z := sm_packets_received (sub_metrics s).

(** A received packet is counted, nothing else is. *)
Definition counts {B : Type} (recv : Op (Subscription * World) (option B)) : Prop := ∀ s w,
  packets_received (recv (s, w)).2.1 =
    if (recv (s, w)).1 is Ok (Some _) then fetch_add (packets_received s) 1 else packets_received s.

Lemma try_recv_as_counts {B : Type} (packet_of : B → Packet) recv : counts (try_recv_as packet_of recv).
Proof.
  intros s w. unfold try_recv_as, mthen, mget, mcatch, on_snd, mthrow, record_received_packet,
    record_would_block, record_receive_error, mthen, on_snd, on_fst, mmodify, call, mpure,
    packets_received. simpl.
  destruct (sub_is_joined s); simpl; [|done].
  destruct (recv _ _ _ w) as [[[p|]|e| |] w'] eqn:Hr; simpl; try done.
  by destruct (system_time_now w').
Qed.

(** ** One poll *)

Section one_poll.
Context {A : Type} (receive : Op (Subscription * World) (option A)).

(** Receive calls that would block, and calls of the runtime in between. *)
Inductive idle : Shared → Shared → Prop :=
  | idle_refl x : idle x x
  | idle_block s r s' y : receive s = (Ok None, s') → idle (s', r) y → idle (s, r) y
  | idle_runtime s r r' y : idle (s, r') y → idle (s, r) y.

(** What a poll answers: it is pending, or an error of the runtime, and every
    call of [receive] would block; or the last call did not, and the poll
    answers what it answered. *)
Inductive poll_answer (x : Shared) : Res TokioReceiveError (Poll A) → Shared → Prop :=
  | answer_pending y : idle x y → poll_answer x (Ok Pending) y
  | answer_readiness y e : idle x y → poll_answer x (Err (Readiness e)) y
  | answer_packet s r p s' : idle x (s, r) → receive s = (Ok (Some p), s') →
      poll_answer x (Ok (Ready p)) (s', r)
  | answer_error s r e s' : idle x (s, r) → receive s = (Err e, s') →
      poll_answer x (Err (Receive e)) (s', r).

Lemma poll_answer_idle x r y s s' rt :
  receive s = (Ok None, s') → x = (s', rt) → poll_answer x r y → poll_answer (s, rt) r y.
Proof.
  intros Hr -> Ha. destruct Ha; econstructor; eauto using idle_block.
Qed.

Lemma poll_answer_runtime s rt rt' r y :
  poll_answer (s, rt') r y → poll_answer (s, rt) r y.
Proof. intros Ha. destruct Ha; econstructor; eauto using idle_runtime. Qed.

Definition first {B : Type} (r : Res TokioReceiveError (Poll A * B)) : Res TokioReceiveError (Poll A) :=
  match r with Ok (p, _) => Ok p | Err e => Err e | Panic => Panic | OutOfFuel => OutOfFuel end.

Lemma recv_unix_answer (Hret : total receive) fuel fd : ∀ x,
  let '(r, y) := recv_unix receive fuel fd x in r = OutOfFuel ∨ poll_answer x r y.
Proof.
  induction fuel as [|fuel IH]; intros [s rt]; cbn [recv_unix]; [by left|].
  unfold mthen at 1, runtime_call, on_snd at 1; cbn [fst snd].
  destruct (poll_read_ready fd rt) as [[[[]|e]|] rt1]; [| |].
  - unfold mthen at 1, mmap_err, on_fst at 1; cbn [fst snd].
    specialize (Hret s). destruct (receive s) as [[[p|]|e| |] s1] eqn:Er; try done; cbn.
    + right. eapply poll_answer_runtime, answer_packet; [apply idle_refl|done].
    + unfold mthen, on_snd, mmodify; cbn [fst snd]. specialize (IH (s1, clear_ready fd rt1)).
      destruct (recv_unix receive fuel fd _) as [r y]. destruct IH as [->|IH]; [by left|right].
      eapply (poll_answer_runtime _ _ (clear_ready fd rt1)).
      by eapply poll_answer_idle.
    + right. eapply poll_answer_runtime, answer_error; [apply idle_refl|done].
  - cbn. right. eapply poll_answer_runtime, answer_readiness, idle_refl.
  - cbn. right. eapply poll_answer_runtime, answer_pending, idle_refl.
Qed.

Lemma recv_polling_answer (Hret : total receive) fuel interval : ∀ x,
  let '(r, y) := recv_polling receive fuel interval x in
  r = OutOfFuel ∨ poll_answer x (first r) y.
Proof.
  induction fuel as [|fuel IH]; intros [s rt]; cbn [recv_polling]; [by left|].
  unfold mthen at 1, mmap_err, on_fst at 1; cbn [fst snd].
  specialize (Hret s). destruct (receive s) as [[[p|]|e| |] s1] eqn:Er; try done; cbn.
  - right. eapply answer_packet; [apply idle_refl|done].
  - unfold mthen at 1, runtime_call, on_snd at 1; cbn [fst snd].
    destruct (sleep_new interval rt) as [sleep rt1].
    unfold mthen, on_snd; cbn [fst snd]. destruct (poll_sleep sleep rt1) as [[] rt2].
    + specialize (IH (s1, rt2)). destruct (recv_polling receive fuel interval _) as [r y].
      destruct IH as [->|IH]; [by left|right].
      eapply (poll_answer_runtime _ _ rt2). by eapply poll_answer_idle.
    + right. cbn. apply answer_pending. eapply idle_block; [done|].
      eapply idle_runtime, idle_refl.
  - right. eapply answer_error; [apply idle_refl|done].
Qed.

Lemma poll_recv_answer (Hret : total receive) fuel t sleeping x :
  let '(r, y) := poll_recv receive fuel t sleeping x in
  r = OutOfFuel ∨ poll_answer x (first r) y.
Proof.
  unfold poll_recv. destruct t as [fd|interval].
  - unfold mmap, mthen. pose proof (recv_unix_answer Hret fuel fd x) as Ha.
    destruct (recv_unix receive fuel fd x) as [[p|e| |] y]; cbn;
      destruct Ha as [[=]|Ha]; auto.
  - destruct sleeping as [sleep|]; [|apply recv_polling_answer, Hret].
    destruct x as [s rt]. unfold mthen, runtime_call, on_snd; cbn [fst snd].
    destruct (poll_sleep sleep rt) as [[] rt1].
    + pose proof (recv_polling_answer Hret fuel interval (s, rt1)) as Ha.
      destruct (recv_polling receive fuel interval _) as [r y].
      destruct Ha as [->|Ha]; [by left|right]. by eapply poll_answer_runtime.
    + right. cbn. eapply poll_answer_runtime, answer_pending, idle_refl.
Qed.

Lemma idle_keeps x y : counts receive → (∀ s w, same_identity s (receive (s, w)).2.1) →
  idle x y → packets_received y.1.1 = packets_received x.1.1 ∧ same_identity x.1.1 y.1.1.
Proof.
  intros Hc Hi. induction 1 as [x|[s w] r [s' w'] y Hr Hid [IH IH']|s r r' y Hid IH]; cbn in *.
  - split; [done|reflexivity].
  - specialize (Hc s w). specialize (Hi s w). rewrite Hr in Hc, Hi. cbn in *.
    split; [by rewrite IH|]. by etrans.
  - done.
Qed.
End one_poll.

(** ** Polls, cancellations and the world around the task *)

(** What happens to a task that calls [recv] in a loop: its future is polled
    or dropped, and in between the kernel and the runtime go on. *)
Inductive TaskEvent := PollFuture | DropFuture | Environment (f : World → World) (g : Runtime → Runtime).

(** The results that were delivered, and the state the task is left in. *)
Fixpoint run_task {A : Type} (receive : Op (Subscription * World) (option A)) (fuel : nat)
    (t : Waiting) (events : list TaskEvent) (sleeping : option Sleep) (x : Shared)
    : list (Res TokioReceiveError A) * Shared :=
  match events with
  | [] => ([], x)
  | PollFuture :: events =>
      match poll_recv receive fuel t sleeping x with
      | (Ok (Ready packet, _), y) =>
          let '(l, z) := run_task receive fuel t events None y in (Ok packet :: l, z)
      | (Ok (Pending, sleeping), y) => run_task receive fuel t events sleeping y
      | (Err e, y) => let '(l, z) := run_task receive fuel t events None y in (Err e :: l, z)
      | (Panic, y) => ([Panic], y)
      | (OutOfFuel, y) => ([OutOfFuel], y)
      end
  | DropFuture :: events => run_task receive fuel t events None x
  | Environment f g :: events =>
      let '(s, w, r) := x in run_task receive fuel t events sleeping (s, f w, g r)
  end.

Fixpoint delivered {A : Type} (l : list (Res TokioReceiveError A)) : Z :=
  match l with
  | [] => 0
  | Ok _ :: l => 1 + delivered l
  | _ :: l => delivered l
  end.

(** Documented behaviour of the runtime: after [clear_ready] a descriptor is
    not ready until a new event arrives, and a sleep takes time. *)
Class TokioLaws := {
  cleared_law fd r : (poll_read_ready fd (clear_ready fd r)).1 ≠ Ready (inl ());
  sleep_law interval r : (0 < interval)%Z →
    (poll_sleep (sleep_new interval r).1 (sleep_new interval r).2).1 = false }.

Section laws.
Context {tokio_laws : TokioLaws} {A : Type} (receive : Op (Subscription * World) (option A)).
Context (receive_returns : total receive).

Lemma recv_unix_cleared fuel fd s rt :
  returns (recv_unix receive (S fuel) fd (s, clear_ready fd rt)).1.
Proof.
  cbn [recv_unix]. unfold mthen at 1, runtime_call, on_snd at 1; cbn [fst snd].
  pose proof (cleared_law fd rt) as Hc.
  destruct (poll_read_ready fd (clear_ready fd rt)) as [[[[]|e]|] rt1]; done.
Qed.

Lemma recv_unix_returns fuel fd x : returns (recv_unix receive (S (S fuel)) fd x).1.
Proof.
  destruct x as [s rt]. change (recv_unix receive (S (S fuel)) fd) with
    (let* readiness := runtime_call (poll_read_ready fd) in
      match readiness with
      | Pending => mpure Pending
      | Ready (inr e) => mthrow (Readiness e)
      | Ready (inl _) =>
          let* received := mmap_err Receive (on_fst receive) in
          match received with
          | Some packet => mpure (Ready packet)
          | None => on_snd (mmodify (clear_ready fd)) ;;* recv_unix receive (S fuel) fd
          end
      end : TokioOp (Poll A)).
  unfold mthen at 1, runtime_call, on_snd at 1; cbn [fst snd].
  destruct (poll_read_ready fd rt) as [[[[]|e]|] rt1]; [|done..].
  unfold mthen at 1, mmap_err, on_fst at 1; cbn [fst snd].
  specialize (receive_returns s). destruct (receive s) as [[[p|]|e| |] s1]; try done.
  apply (recv_unix_cleared fuel fd s1 rt1).
Qed.

Lemma recv_polling_returns fuel interval x : (0 < interval)%Z →
  returns (recv_polling receive (S fuel) interval x).1.
Proof.
  intros Hi. destruct x as [s rt]. cbn [recv_polling].
  unfold mthen at 1, mmap_err, on_fst at 1; cbn [fst snd].
  specialize (receive_returns s). destruct (receive s) as [[[p|]|e| |] s1]; try done; cbn.
  unfold mthen at 1, runtime_call, on_snd at 1; cbn [fst snd].
  pose proof (sleep_law interval rt Hi) as Hs.
  destruct (sleep_new interval rt) as [sleep rt1]. cbn [fst snd] in Hs.
  unfold mthen, on_snd; cbn [fst snd]. destruct (poll_sleep sleep rt1) as [[] rt2]; done.
Qed.

(** The waiting of an adapter, with an interval that is not zero. *)
Definition waits (t : Waiting) : Prop :=
  match t with Registered _ => True | Interval i => (0 < i)%Z end.

Lemma poll_recv_returns fuel t sleeping x : waits t →
  returns (poll_recv receive (S (S fuel)) t sleeping x).1.
Proof.
  destruct t as [fd|interval]; unfold poll_recv; intros Hi.
  - pose proof (recv_unix_returns fuel fd x) as Hr. unfold mmap, mthen.
    by destruct (recv_unix receive (S (S fuel)) fd x) as [[] ?].
  - destruct sleeping as [sleep|]; [|by apply recv_polling_returns].
    destruct x as [s rt]. unfold mthen, runtime_call, on_snd; cbn [fst snd].
    destruct (poll_sleep sleep rt) as [[] rt1]; [|done]. by apply recv_polling_returns.
Qed.
End laws.

(** One poll of [recv] always ends (after at most one receive call that
    would block on unix), and it answers what the receive method answered: a
    packet or an error is the result of the last receive call of the poll, and
    all calls before it, and all calls of a poll that is pending, would have
    blocked. The other errors are those of the runtime. *)
Theorem recv_answers_like_try_recv {A : Type} (receive : Op (Subscription * World) (option A))
    (fuel : nat) (t : Waiting) (sleeping : option Sleep) (x : Shared) :
  TokioLaws → ReceiveMethod receive → waits t →
  let '(r, y) := poll_recv receive (S (S fuel)) t sleeping x in
  returns r ∧ poll_answer receive x (first r) y.
Proof.
  intros Hlaws Hm Ht.
  pose proof (poll_recv_answer receive receive_total (S (S fuel)) t sleeping x) as Ha.
  pose proof (poll_recv_returns receive receive_total fuel t sleeping x Ht) as Hr.
  destruct (poll_recv receive (S (S fuel)) t sleeping x) as [r y]. cbn in Hr.
  split; [done|]. by destruct Ha as [->|Ha].
Qed.

Lemma poll_counts {A : Type} (receive : Op (Subscription * World) (option A)) x r y :
  counts receive → (∀ s w, same_identity s (receive (s, w)).2.1) →
  poll_answer receive x r y →
  same_identity x.1.1 y.1.1 ∧
  packets_received y.1.1 =
    if r is Ok (Ready _) then fetch_add (packets_received x.1.1) 1 else packets_received x.1.1.
Proof.
  intros Hc Hi Ha. destruct Ha as [y Hid|y e Hid|[s w] r p [s' w'] Hid Hr|[s w] r e [s' w'] Hid Hr];
    destruct (idle_keeps receive _ _ Hc Hi Hid) as [Hp Hs]; cbn [fst snd] in *; [done..| |];
    specialize (Hc s w); specialize (Hi s w); rewrite Hr in Hc, Hi; cbn [fst snd] in *;
    (split; [by etrans|by rewrite Hc, Hp]).
Qed.

(** C22: cancelling [recv] loses no packet. However the polls of a task, the
    drops of its future, and the changes of the kernel and of the runtime
    follow each other: every packet that the subscription counted as received
    was delivered to the task, as long as the counter does not overflow. The
    poll interval, which only targets other than Unix use, is positive. *)
Theorem cancellation_loses_no_packet {A : Type} (receive : Op (Subscription * World) (option A))
    (fuel : nat) (t : Waiting) (events : list TaskEvent) (sleeping : option Sleep) (x : Shared) :
  TokioLaws → ReceiveMethod receive → counts receive → waits t →
  (0 ≤ packets_received x.1.1)%Z →
  let '(l, y) := run_task receive (S (S fuel)) t events sleeping x in
  (packets_received x.1.1 + delivered l ≤ u64_max)%Z →
  Forall returns l ∧ same_identity x.1.1 y.1.1 ∧
  packets_received y.1.1 = (packets_received x.1.1 + delivered l)%Z.
Proof.
  intros Hlaws Hm Hc Ht. revert sleeping x.
  assert (∀ l : list (Res TokioReceiveError A), 0 ≤ delivered l)%Z as Hpos.
  { induction l as [|[] l IH]; cbn; lia. }
  induction events as [|[| |f g] events IH]; intros sleeping x H0x; cbn [run_task].
  - intros _. split_and!; [done|reflexivity|cbn; lia].
  - pose proof (poll_recv_answer receive receive_total (S (S fuel)) t sleeping x) as Ha.
    pose proof (poll_recv_returns receive receive_total fuel t sleeping x Ht) as Hr.
    destruct (poll_recv receive (S (S fuel)) t sleeping x) as [r y]. cbn [fst] in Hr.
    destruct Ha as [->|Ha]; [done|].
    destruct (poll_counts receive _ _ _ Hc receive_identity Ha) as [Hs Hp].
    destruct r as [[[p|] sl]|e| |]; try done; cbn [first] in Hp.
    + specialize (IH None y). destruct (run_task receive _ t events None y) as [l z].
      cbn [delivered]. intros Hb. specialize (Hpos l).
      rewrite fetch_add_small in Hp by (unfold u64_max in *; lia).
      destruct IH as (Hl & Hs' & Hp'); [lia..|]. split_and!; [by constructor|by etrans|lia].
    + specialize (IH sl y). destruct (run_task receive _ t events sl y) as [l z]. intros Hb.
      destruct IH as (Hl & Hs' & Hp'); [lia..|]. split_and!; [done|by etrans|lia].
    + specialize (IH None y). destruct (run_task receive _ t events None y) as [l z].
      cbn [delivered]. intros Hb.
      destruct IH as (Hl & Hs' & Hp'); [lia..|]. split_and!; [by constructor|by etrans|lia].
  - apply IH. done.
  - destruct x as [[s w] r]. apply (IH sleeping (s, f w, g r)). done.
Qed.
End adapter.

(** ** A runtime with edge-triggered readiness *)

(** Datagrams in the order in which they arrived. *)
Definition queue_recvmsg (_ : nat) : Io (list UnixMsg) UnixMsg := λ q,
  match q with
  | [] => (inr (mkIoError WouldBlock (Some 11%Z) "would block"), [])
  | m :: q => (inl m, q)
  end.

Definition queue_os : Os :=
  quiet_os Linux (list UnixMsg) length queue_recvmsg (λ _, io_ok ()) (λ _, io_ok ()).

Definition edge_tokio : @Tokio queue_os := {|
  Runtime := bool;
  AsyncFd := unit;
  async_fd_new _ r := (inl (), r);
  async_fd_into_inner _ r := ((), r);
  poll_read_ready _ r := (if r then Ready (inl ()) else Pending, r);
  clear_ready _ _ := false;
  Sleep := unit;
  sleep_new _ r := ((), r);
  poll_sleep _ r := (false, r) |}.

#[export] Instance edge_tokio_laws : @TokioLaws queue_os edge_tokio.
Proof. by split. Qed.

(** A datagram for another group that reaches the same socket. *)
Definition foreign_message : UnixMsg :=
  mkUnixMsg [byte_of 104] (Some sample_source) 32
    [mkCmsg IPPROTO_IP IP_PKTINFO
       ([byte_of 3; Byte.x00; Byte.x00; Byte.x00] ++ v4_octets (v4 10 0 0 2) ++ v4_octets (v4 239 9 9 9))].

Definition queue_socket : @ReceiveSocket queue_os :=
  @mkReceiveSocket queue_os 4 (Some (SockV4 v4_unspecified 5000)) None None.
Definition joined_sample : @Subscription queue_os :=
  (mark_joined (with_socket 1 sample_config queue_socket)).2.

(** A poll or a drop of the future: nothing arrives. *)
Definition task_only {O : Os} {T : @Tokio O} (e : TaskEvent) : bool :=
  match e with Environment _ _ => false | _ => true end.

(** 256 foreign datagrams and one of the subscription's, not yet read. *)
Definition burst : @Shared queue_os edge_tokio :=
  (joined_sample,
   (replicate MAX_FILTERED_DATAGRAMS_PER_RECEIVE foreign_message ++ [sample_message] : list UnixMsg), true).

(** [recv] can wait forever for a packet that is already there. A receive
    call gives up after 256 datagrams of other groups and answers [None], as
    if the socket were empty; the adapter then clears the readiness, and with
    edge-triggered events nothing sets it again. Here 256 foreign datagrams
    and one of the subscription's are queued and the descriptor is ready: no
    sequence of polls delivers the packet, though [try_recv] would. *)
Theorem budget_strands_a_packet (events : list (@TaskEvent queue_os edge_tokio)) :
  forallb task_only events = true →
  let '(l, (s, w, ready)) :=
    run_task (H0 := edge_tokio) try_recv 2 (Registered (H0 := edge_tokio) ()) (PollFuture :: events) None burst in
  l = [] ∧ w = [sample_message] ∧ ready = false ∧
  ∃ p, (try_recv (H := queue_os) (s, w)).1 = Ok (Some p).
Proof.
  intros He.
  set (y0 := (poll_recv (H0 := edge_tokio) try_recv 2 (Registered (H0 := edge_tokio) ()) None burst).2).
  assert (poll_recv (H0 := edge_tokio) try_recv 2 (Registered (H0 := edge_tokio) ()) None burst =
    (Ok (Pending, None), y0)) as Hpoll by (vm_compute; reflexivity).
  assert (y0.1.2 = [sample_message] ∧ y0.2 = false ∧
    ∃ p, (try_recv (H := queue_os) y0.1).1 = Ok (Some p)) as (Hw & Hready & Hp).
  { split_and!; [vm_compute; reflexivity..|]. eexists. vm_compute. reflexivity. }
  cbn [run_task]. rewrite Hpoll. clear Hpoll. clearbody y0.
  destruct y0 as [[s w] ready]. cbn [fst snd] in *. subst w ready.
  induction events as [|[| |f g] events IH]; cbn in He; [|apply IH, He..|done].
  cbn [run_task]. by split_and!.
Qed.

Lemma budget_strands_a_packet_witness :
  let '(l, (s, w, ready)) :=
    run_task (H0 := edge_tokio) try_recv 2 (Registered (H0 := edge_tokio) ())
      [PollFuture; PollFuture; DropFuture; PollFuture] None burst in
  l = [] ∧ w = [sample_message] ∧ ready = false ∧
  ∃ p, (try_recv (H := queue_os) (s, w)).1 = Ok (Some p).
Proof. apply (budget_strands_a_packet [PollFuture; DropFuture; PollFuture]). reflexivity. Defined.

Lemma recv_answers_like_try_recv_witness :
  let x : @Shared queue_os edge_tokio := (joined_sample, [foreign_message; sample_message], true) in
  let '(r, y) := poll_recv (H0 := edge_tokio) try_recv 2 (Registered (H0 := edge_tokio) ()) None x in
  returns r ∧ poll_answer (H0 := edge_tokio) try_recv x (first r) y.
Proof.
  apply (recv_answers_like_try_recv (H0 := edge_tokio) try_recv 0);
    [apply edge_tokio_laws|by apply (try_recv_method (H := queue_os), (unix_laws (H := queue_os)))|done].
Defined.

(** A datagram arrives. *)
Definition arrival (m : UnixMsg) : @TaskEvent queue_os edge_tokio :=
  @Environment queue_os edge_tokio (λ q, q ++ [m]) (λ _, true).

Lemma cancellation_loses_no_packet_witness :
  let x : @Shared queue_os edge_tokio := (joined_sample, [], false) in
  let '(l, y) := run_task (H0 := edge_tokio) try_recv 2 (Registered (H0 := edge_tokio) ())
    [PollFuture; DropFuture; arrival foreign_message; PollFuture; arrival sample_message; PollFuture]
    None x in
  Forall returns l ∧ same_identity x.1.1 y.1.1 ∧ packets_received (H := queue_os) y.1.1 = 1%Z.
Proof.
  cbn zeta.
  pose proof (cancellation_loses_no_packet (H0 := edge_tokio) try_recv 0 (Registered (H0 := edge_tokio) ())
    [PollFuture; DropFuture; arrival foreign_message; PollFuture; arrival sample_message; PollFuture]
    None (joined_sample, [], false) edge_tokio_laws (try_recv_method (H := queue_os) (unix_laws (H := queue_os) eq_refl))
    (try_recv_as_counts _ _) I) as Hrun.
  destruct (run_task _ _ _ _ _ _) as [l y] eqn:E. vm_compute in E. injection E as <- <-.
  apply Hrun; vm_compute; discriminate.
Defined.
