(* ===== verification/Hardware.v ===== *)
(** * Process metrics ([src/src/metrics.rs], [capture_current_process])

    The hardware snapshot of the running process: on Linux the fields of
    [/proc/self/stat] and two lines of [/proc/self/status], on macOS two system
    calls. Reading files, directories and the clock are calls of the class
    [Process]. *)

From Stdlib Require Import Strings.Ascii.
From S2P Require Import Prelude Net Os SampleOs Metrics Text.

Local Open Scope string_scope.
Local Open Scope list_scope.
Local Open Scope nat_scope.

Inductive SysconfName := SC_PAGESIZE | SC_CLK_TCK.

(** The C structures of macOS, with the fields that are read. *)
Record TimeVal := mkTimeVal { tv_sec : Z; tv_usec : Z }.
Record RUsage := mkRUsage {
  ru_utime : TimeVal;
  ru_stime : TimeVal;
  ru_minflt : Z;
  ru_majflt : Z;
  ru_nvcsw : Z;
  ru_nivcsw : Z }.
Record ProcTaskInfo := mkProcTaskInfo {
  pti_virtual_size : Z;
  pti_resident_size : Z;
  pti_threadnum : Z }.

(** The size of the C structure: six 64-bit and twelve 32-bit fields. *)
Definition proc_task_info_size : Z := 6 * 8 + 12 * 4.

Class Process `{Os} := {
  (* [fs::read_to_string]: valid UTF-8, or an error *)
  read_to_string : string → Io World string;
  (* the number of entries that [fs::read_dir] yields *)
  read_dir_count : string → Io World Z;
  sysconf : SysconfName → Call World Z;
  (* the result and the structure that was filled in *)
  getrusage_self : Call World (Z * RUsage);
  proc_pidinfo_task_info : Call World (Z * ProcTaskInfo);
  last_os_error : Call World IoError }.

Section capture.
Context `{Process}.

Abbreviation FileRead A := (M World IoError A).

Definition read_io {A : Type} (m : Io World A) : FileRead A := λ w,
  match m w with (inl a, w) => (Ok a, w) | (inr e, w) => (Err e, w) end.
Definition read_call {A : Type} (m : Call World A) : FileRead A := λ w,
  let '(a, w) := m w in (Ok a, w).

(** ** Linux *)

Record ProcSnapshot := mkProcSnapshot {
  utime_ticks : Z;
  stime_ticks : Z;
  minflt : Z;
  majflt : Z;
  num_threads : Z;
  vsize_bytes : Z;
  rss_bytes : Z;
  voluntary_ctxt_switches : Z;
  nonvoluntary_ctxt_switches : Z;
  open_fds : Z }.

Definition linux_sysconf (name : SysconfName) (fallback : Z) : FileRead Z :=
  let* value := read_call (sysconf name) in
  mpure (if (0 <? value)%Z then value else fallback).
Definition linux_page_size : FileRead Z := linux_sysconf SC_PAGESIZE 4096.
Definition linux_clk_tck : FileRead Z := linux_sysconf SC_CLK_TCK 100.

Definition invalid_data (message : string) : IoError := io_error_new InvalidData message.

(** The fields after the process name, which is in parentheses and may
    contain parentheses and spaces itself. *)
Definition stat_fields (stat_content : string) : Res IoError (list string) :=
  let? _ := guard (lacks "(" stat_content) (invalid_data "missing '(' in /proc/self/stat") in
  let? (_, after) := ok_or (rsplit_once ")" stat_content)
                       (invalid_data "missing ')' in /proc/self/stat") in
  let fields := split_whitespace (trim after) in
  if bool_decide (length fields < 22) then Err (invalid_data "too few fields in /proc/self/stat")
  else Ok fields.

(** [fields[index]] unwinds out of range. *)
Definition field (fields : list string) (index : nat) : Res IoError string :=
  expect (fields !! index).

Definition parse_u64 (fields : list string) (index : nat) (name : string) : Res IoError Z :=
  let? f := field fields index in
  res_map_err (λ e, invalid_data ("failed to parse " +:+ name +:+ " from /proc/self/stat: " +:+ int_error_text e))
    (parse_uint u64_max f).
Definition parse_i64 (fields : list string) (index : nat) (name : string) : Res IoError Z :=
  let? f := field fields index in
  res_map_err (λ e, invalid_data ("failed to parse " +:+ name +:+ " from /proc/self/stat: " +:+ int_error_text e))
    (parse_int (-9223372036854775808) 9223372036854775807 f).

Definition rss_of_pages (rss_pages page_size : Z) : Z :=
  if (rss_pages <=? 0)%Z then 0%Z else Z.min (rss_pages * page_size) u64_max.

Definition voluntary_prefix : string := "voluntary_ctxt_switches:".
Definition nonvoluntary_prefix : string := "nonvoluntary_ctxt_switches:".

Definition parse_switches (name value : string) : Res IoError Z :=
  res_map_err (λ e, invalid_data ("failed to parse " +:+ name +:+ ": " +:+ int_error_text e))
    (parse_uint u64_max (trim value)).

(** The loop over the lines of [/proc/self/status]. *)
Fixpoint status_loop (l : list string) (voluntary nonvoluntary : Z) : Res IoError (Z * Z) :=
  match l with
  | [] => Ok (voluntary, nonvoluntary)
  | line :: l =>
      match strip_prefix voluntary_prefix line with
      | Some value =>
          let? voluntary := parse_switches "voluntary_ctxt_switches" value in
          status_loop l voluntary nonvoluntary
      | None =>
          match strip_prefix nonvoluntary_prefix line with
          | Some value =>
              let? nonvoluntary := parse_switches "nonvoluntary_ctxt_switches" value in
              status_loop l voluntary nonvoluntary
          | None => status_loop l voluntary nonvoluntary
          end
      end
  end.

Definition read_proc_snapshot (page_size : Z) : FileRead ProcSnapshot :=
  let* stat_content := read_io (read_to_string "/proc/self/stat") in
  let* fields := mlift (stat_fields stat_content) in
  let* minflt := mlift (parse_u64 fields 7 "minflt") in
  let* majflt := mlift (parse_u64 fields 9 "majflt") in
  let* utime_ticks := mlift (parse_u64 fields 11 "utime") in
  let* stime_ticks := mlift (parse_u64 fields 12 "stime") in
  let* num_threads := mlift (parse_u64 fields 17 "num_threads") in
  let* vsize_bytes := mlift (parse_u64 fields 20 "vsize") in
  let* rss_pages := mlift (parse_i64 fields 21 "rss") in
  let rss_bytes := rss_of_pages rss_pages page_size in
  let* status_content := read_io (read_to_string "/proc/self/status") in
  let* (voluntary, nonvoluntary) := mlift (status_loop (str_lines status_content) 0 0) in
  let* count := read_io (read_dir_count "/proc/self/fd") in
  mpure (mkProcSnapshot utime_ticks stime_ticks minflt majflt num_threads vsize_bytes rss_bytes
    voluntary nonvoluntary (saturating_sub count 1)).

Definition capture_current_process_linux : FileRead HardwareMetricsSnapshot :=
  let* page_size := linux_page_size in
  let* clk_tck := linux_clk_tck in
  let* proc := read_proc_snapshot page_size in
  let* now := read_call system_time_now in
  mpure (mkHwSnapshot
    (f64_div (f64_of_Z (utime_ticks proc)) (f64_of_Z clk_tck))
    (f64_div (f64_of_Z (stime_ticks proc)) (f64_of_Z clk_tck))
    (rss_bytes proc) (vsize_bytes proc) (num_threads proc) (open_fds proc)
    (minflt proc) (majflt proc) (voluntary_ctxt_switches proc) (nonvoluntary_ctxt_switches proc)
    now).

(** ** macOS *)

Definition timeval_to_secs (value : TimeVal) : f64 :=
  f64_add (f64_of_Z (tv_sec value)) (f64_div (f64_of_Z (tv_usec value)) (f64_of_Z 1000000)).

Definition nonnegative_i64_to_u64 (value : Z) : Z := if (value <=? 0)%Z then 0%Z else value.

Definition read_macos_rusage : FileRead RUsage :=
  let* (result, usage) := read_call getrusage_self in
  if bool_decide (result = 0)%Z then mpure usage
  else let* e := read_call last_os_error in mthrow e.

Definition read_macos_task_info : FileRead ProcTaskInfo :=
  let* (written, info) := read_call proc_pidinfo_task_info in
  if bool_decide (written = proc_task_info_size) then mpure info
  else if (written <? 0)%Z then let* e := read_call last_os_error in mthrow e
  else mthrow (io_error_new UnexpectedEof
         ("proc_pidinfo(PROC_PIDTASKINFO) returned " +:+ display_Z written +:+
          " bytes, expected " +:+ display_Z proc_task_info_size)).

(** [pti_threadnum as u64] of an [i32]. *)
Definition i32_as_u64 (z : Z) : Z := wrap64 z.

Definition capture_current_process_macos : FileRead HardwareMetricsSnapshot :=
  let* task_info := read_macos_task_info in
  let* rusage := read_macos_rusage in
  let* count := read_io (read_dir_count "/dev/fd") in
  let* now := read_call system_time_now in
  mpure (mkHwSnapshot
    (timeval_to_secs (ru_utime rusage)) (timeval_to_secs (ru_stime rusage))
    (pti_resident_size task_info) (pti_virtual_size task_info)
    (i32_as_u64 (pti_threadnum task_info)) (saturating_sub count 1)
    (nonnegative_i64_to_u64 (ru_minflt rusage)) (nonnegative_i64_to_u64 (ru_majflt rusage))
    (nonnegative_i64_to_u64 (ru_nvcsw rusage)) (nonnegative_i64_to_u64 (ru_nivcsw rusage))
    now).

(** It exists on these two targets. *)
Definition capture_current_process : FileRead HardwareMetricsSnapshot :=
  if bool_decide (target = MacOs) then capture_current_process_macos
  else capture_current_process_linux.

(** ** Totality *)

Lemma total_read_io {A : Type} (m : Io World A) : total (read_io m).
Proof. intros w. unfold read_io. by destruct (m w) as [[]?]. Qed.
Lemma total_read_call {A : Type} (m : Call World A) : total (read_call m).
Proof. intros w. unfold read_call. by destruct (m w). Qed.
#[local] Hint Resolve total_read_io total_read_call : total.

Lemma stat_fields_length s fields : stat_fields s = Ok fields → 22 ≤ length fields.
Proof.
  unfold stat_fields. destruct (lacks "(" s); [done|]. cbn.
  destruct (rsplit_once ")" s) as [[b a]|]; [|done]. cbn.
  case_bool_decide; [done|]. intros [= <-]. lia.
Qed.

Lemma returns_stat_fields s : returns (stat_fields s).
Proof.
  unfold stat_fields. destruct (lacks "(" s); [done|]. cbn.
  destruct (rsplit_once ")" s) as [[b a]|]; [|done]. cbn. by case_bool_decide.
Qed.

Lemma returns_parse_field fields index name :
  22 ≤ length fields → index < 22 → returns (parse_u64 fields index name).
Proof.
  intros Hl Hi. unfold parse_u64, field. destruct (lookup_lt_is_Some_2 fields index ltac:(lia)) as [f ->].
  cbn. pose proof (returns_parse_uint u64_max f). by destruct (parse_uint u64_max f).
Qed.

Lemma returns_parse_int min max s : returns (parse_int min max s).
Proof.
  assert (∀ s acc, returns (parse_negative min acc s)) as Hn.
  { clear s. induction s as [|c s IH]; intros acc; cbn; [done|].
    destruct (to_digit 10 c); [|done]. by case_bool_decide. }
  unfold parse_int. pose proof (returns_parse_uint max s).
  destruct s as [|c s]; [done|]. destruct (Ascii.eqb c "-"); [|done]. destruct s; [done|apply Hn].
Qed.

Lemma returns_parse_rss fields name : 22 ≤ length fields → returns (parse_i64 fields 21 name).
Proof.
  intros Hl. unfold parse_i64, field. destruct (lookup_lt_is_Some_2 fields 21 ltac:(lia)) as [f ->].
  cbn. pose proof (returns_parse_int (-9223372036854775808) 9223372036854775807 f).
  by destruct (parse_int _ _ f).
Qed.

Lemma returns_status_loop l : ∀ v n, returns (status_loop l v n).
Proof.
  induction l as [|line l IH]; intros v n; cbn [status_loop]; [done|].
  destruct (strip_prefix voluntary_prefix line) as [value|].
  - unfold parse_switches. pose proof (returns_parse_uint u64_max (trim value)).
    destruct (parse_uint _ _); cbn; try done; apply IH.
  - destruct (strip_prefix nonvoluntary_prefix line) as [value|]; [|apply IH].
    unfold parse_switches. pose proof (returns_parse_uint u64_max (trim value)).
    destruct (parse_uint _ _); cbn; try done; apply IH.
Qed.

Lemma read_proc_snapshot_total page_size : total (read_proc_snapshot page_size).
Proof.
  unfold read_proc_snapshot. apply total_then; [apply total_read_io|]. intros stat.
  unfold mthen at 1, mlift at 1. intros w. pose proof (returns_stat_fields stat) as Hr.
  pose proof (stat_fields_length stat) as Hl.
  destruct (stat_fields stat) as [fields|e| |]; try done. specialize (Hl fields eq_refl).
  revert w. change (total (
    let* a := mlift (parse_u64 fields 7 "minflt") in
    let* b := mlift (parse_u64 fields 9 "majflt") in
    let* c := mlift (parse_u64 fields 11 "utime") in
    let* d := mlift (parse_u64 fields 12 "stime") in
    let* e := mlift (parse_u64 fields 17 "num_threads") in
    let* f := mlift (parse_u64 fields 20 "vsize") in
    let* g := mlift (parse_i64 fields 21 "rss") in
    let r := rss_of_pages g page_size in
    let* status_content := read_io (read_to_string "/proc/self/status") in
    let* (v, n) := mlift (status_loop (str_lines status_content) 0 0) in
    let* count := read_io (read_dir_count "/proc/self/fd") in
    mpure (mkProcSnapshot c d a b e f r v n (saturating_sub count 1)))).
  do 6 (apply total_then; [apply total_mlift, returns_parse_field; lia|intros ?]).
  apply total_then; [by apply total_mlift, returns_parse_rss|intros ?].
  apply total_then; [apply total_read_io|intros ?].
  apply total_then; [apply total_mlift, returns_status_loop|intros [? ?]].
  apply total_then; [apply total_read_io|intros ?]. apply total_mpure.
Qed.

Lemma capture_total w : returns (capture_current_process w).1.
Proof.
  assert (total capture_current_process) as Ht; [|apply Ht].
  unfold capture_current_process. case_bool_decide.
  - unfold capture_current_process_macos, read_macos_task_info, read_macos_rusage.
    apply total_then.
    { apply total_then; [apply total_read_call|intros [written info]].
      case_bool_decide; [apply total_mpure|]. destruct (written <? 0)%Z; [|apply total_mthrow].
      apply total_then; [apply total_read_call|intros ?; apply total_mthrow]. }
    intros task. apply total_then.
    { apply total_then; [apply total_read_call|intros [result usage]].
      case_bool_decide; [apply total_mpure|].
      apply total_then; [apply total_read_call|intros ?; apply total_mthrow]. }
    intros usage. apply total_then; [apply total_read_io|intros count].
    apply total_then; [apply total_read_call|intros now; apply total_mpure].
  - unfold capture_current_process_linux, linux_page_size, linux_clk_tck, linux_sysconf.
    do 2 (apply total_then; [apply total_then; [apply total_read_call|intros ?; apply total_mpure]|intros ?]).
    apply total_then; [apply read_proc_snapshot_total|intros ?].
    apply total_then; [apply total_read_call|intros ?; apply total_mpure].
Qed.

(** Capturing a snapshot never unwinds, whatever [/proc] or the system
    calls answer: it returns a snapshot or an I/O error. *)
Theorem capture_is_total w : returns (capture_current_process w).1.
Proof. apply capture_total. Qed.

(** ** What Linux writes *)

(** The fields of [/proc/self/stat] after the name: the ones that are read,
    and any other words. *)
Definition stat_words (p : ProcSnapshot) (rss_pages : Z) (others : nat → string) (n : nat) : list string :=
  (λ i, match i with
        | 7 => display_Z (minflt p)
        | 9 => display_Z (majflt p)
        | 11 => display_Z (utime_ticks p)
        | 12 => display_Z (stime_ticks p)
        | 17 => display_Z (num_threads p)
        | 20 => display_Z (vsize_bytes p)
        | 21 => display_Z rss_pages
        | _ => others i
        end) <$> seq 0 (22 + n).

Definition stat_text (pid : Z) (comm : string) (words : list string) : string :=
  display_Z pid +:+ " (" +:+ comm +:+ ")" +:+ spaced words +:+ String line_feed "".

Definition tab : ascii := Ascii.ascii_of_nat 9.
Definition switches_line (prefix : string) (n : Z) : string := prefix +:+ String tab (display_Z n).

(** A line of [/proc/self/status] about something else. *)
Definition other_line (l : string) : Prop :=
  is_line l ∧ strip_prefix voluntary_prefix l = None ∧ strip_prefix nonvoluntary_prefix l = None.

Definition is_u64 (z : Z) : Prop := (0 ≤ z ≤ u64_max)%Z.

Lemma stat_words_lookup p rss others n i :
  i < 22 → stat_words p rss others n !! i =
    Some match i with
         | 7 => display_Z (minflt p)
         | 9 => display_Z (majflt p)
         | 11 => display_Z (utime_ticks p)
         | 12 => display_Z (stime_ticks p)
         | 17 => display_Z (num_threads p)
         | 20 => display_Z (vsize_bytes p)
         | 21 => display_Z rss
         | _ => others i
         end.
Proof.
  intros Hi. unfold stat_words. rewrite list_lookup_fmap, lookup_seq_lt by lia. done.
Qed.

Lemma stat_fields_text pid comm words :
  Forall is_word words → 22 ≤ length words →
  stat_fields (stat_text pid comm words) = Ok words.
Proof.
  intros Hw Hl. unfold stat_fields, stat_text.
  assert (lacks "(" (display_Z pid +:+ " (" +:+ comm +:+ ")" +:+ spaced words +:+ String line_feed "") = false)
    as -> by (rewrite !lacks_app; cbn; by rewrite andb_false_r).
  cbn [guard res_bind].
  rewrite <- (string_app_assoc (display_Z pid)), <- (string_app_assoc (display_Z pid +:+ " (")).
  assert (lacks ")" (spaced words +:+ String line_feed "") = true) as Hp.
  { rewrite lacks_app, andb_true_r. clear Hl.
    induction Hw as [|t ts [Ht _] _ IH]; [done|]. cbn [spaced foldr]. fold (spaced ts).
    rewrite !lacks_app, IH, (plain_lacks ")" t) by done. done. }
  rewrite string_cons_app, string_nil_app, rsplit_once_app by done. cbn [ok_or res_bind].
  rewrite split_whitespace_spaced by done. by rewrite bool_decide_eq_false_2 by lia.
Qed.

Lemma status_loop_other l1 l2 v n : Forall other_line l1 →
  status_loop (l1 ++ l2) v n = status_loop l2 v n.
Proof. induction 1 as [|l ls (_ & Hv & Hn) _ IH]; [done|]. cbn [app status_loop]. by rewrite Hv, Hn. Qed.

Lemma switches_line_is_line prefix n : (0 ≤ n)%Z → is_line prefix → is_line (switches_line prefix n).
Proof.
  intros Hn [H1 H2]. destruct (plain_line (display_Z n)) as [H3 H4]; [by apply display_Z_word|].
  unfold switches_line. split; rewrite lacks_app; cbn; by rewrite ?H1, ?H2, ?H3, ?H4.
Qed.

Lemma parse_switches_value name n : is_u64 n →
  parse_switches name (String tab (display_Z n)) = Ok n.
Proof.
  intros [H1 H2]. unfold parse_switches. rewrite trim_tab by (by apply display_Z_word).
  by rewrite parse_uint_display.
Qed.

(** C25: on what Linux writes, the values are read back exactly, whatever the
    name of the process is, parentheses and spaces included, and whatever else
    the files say. *)
Theorem proc_files_roundtrip (p : ProcSnapshot) (rss_pages page_size pid : Z) (comm : string)
    (others : nat → string) (n : nat) (l1 l2 l3 : list string) (w w1 w2 w3 : World) :
  Forall is_u64 [minflt p; majflt p; utime_ticks p; stime_ticks p; num_threads p; vsize_bytes p;
                 voluntary_ctxt_switches p; nonvoluntary_ctxt_switches p] →
  (0 ≤ rss_pages ≤ 9223372036854775807)%Z → (0 ≤ open_fds p)%Z →
  rss_bytes p = rss_of_pages rss_pages page_size →
  (∀ i, is_word (others i)) → Forall (Forall other_line) [l1; l2; l3] →
  read_to_string "/proc/self/stat" w =
    (inl (stat_text pid comm (stat_words p rss_pages others n)), w1) →
  read_to_string "/proc/self/status" w1 =
    (inl (unlines (l1 ++ switches_line voluntary_prefix (voluntary_ctxt_switches p) ::
            l2 ++ switches_line nonvoluntary_prefix (nonvoluntary_ctxt_switches p) :: l3)), w2) →
  read_dir_count "/proc/self/fd" w2 = (inl (open_fds p + 1)%Z, w3) →
  read_proc_snapshot page_size w = (Ok p, w3).
Proof.
  intros Hu Hrss Hfds Hbytes Hothers Hl Hstat Hstatus Hdir.
  rewrite !Forall_cons in Hu. rewrite !Forall_cons in Hl. destruct_and!.
  assert (Forall is_word (stat_words p rss_pages others n)) as Hwords.
  { apply Forall_fmap, Forall_forall. intros i _. cbn. unfold is_u64 in *.
    do 22 (destruct i as [|i]; [first [apply Hothers|apply display_Z_word; lia]|]). apply Hothers. }
  assert (∀ i name z, is_u64 z → i < 22 → stat_words p rss_pages others n !! i = Some (display_Z z) →
    parse_u64 (stat_words p rss_pages others n) i name = Ok z) as Hparse.
  { intros i name z [Hz1 Hz2] Hi Hlook. unfold parse_u64, field. rewrite Hlook. cbn.
    by rewrite parse_uint_display. }
  unfold read_proc_snapshot. unfold mthen at 1, read_io at 1. rewrite Hstat.
  unfold mthen at 1, mlift at 1. rewrite stat_fields_text; [|done|].
  2: { unfold stat_words. rewrite length_fmap, length_seq. lia. }
  unfold mthen, mlift. 
  rewrite (Hparse 7 _ (minflt p)), (Hparse 9 _ (majflt p)), (Hparse 11 _ (utime_ticks p)),
    (Hparse 12 _ (stime_ticks p)), (Hparse 17 _ (num_threads p)), (Hparse 20 _ (vsize_bytes p))
    by first [done|lia|by apply stat_words_lookup; lia].
  assert (parse_i64 (stat_words p rss_pages others n) 21 "rss" = Ok rss_pages) as ->.
  { unfold parse_i64, field. rewrite stat_words_lookup by lia. cbn. unfold parse_int.
    pose proof (parse_uint_display 9223372036854775807 rss_pages ltac:(lia)) as Hp.
    destruct (display_Z_word rss_pages) as [Hpl Hne]; [lia|].
    pose proof (digits_text_all _ (display_Z_digits rss_pages ltac:(lia))) as [_ Had].
    destruct (display_Z rss_pages) as [|c s]; [done|].
    destruct (Ascii.eqb_spec c "-") as [->|]; [done|]. by rewrite Hp. }
  unfold read_io. rewrite Hstatus, str_lines_unlines.
  2: { rewrite !Forall_app, !Forall_cons, !Forall_app, !Forall_cons. unfold is_u64 in *.
       split_and!; try (eapply Forall_impl; [eassumption|by intros ? []]);
         apply switches_line_is_line; done || lia. }
  rewrite status_loop_other by done. cbn [status_loop].
  unfold switches_line at 1. rewrite strip_prefix_app, parse_switches_value by done. cbn [res_bind].
  rewrite status_loop_other by done. cbn [status_loop].
  change (strip_prefix voluntary_prefix (switches_line nonvoluntary_prefix _)) with (@None string).
  unfold switches_line. rewrite strip_prefix_app, parse_switches_value by done. cbn [res_bind].
  rewrite <- (app_nil_r l3), status_loop_other by done. cbn [status_loop].
  rewrite Hdir. unfold mpure. rewrite <- Hbytes. unfold saturating_sub.
  replace (Z.max (open_fds p + 1 - 1) 0)%Z with (open_fds p) by lia. by destruct p.
Qed.
End capture.

(** ** A process *)

Definition sample_proc : ProcSnapshot := mkProcSnapshot 120 30 900 2 4 10485760 8192 17 5 11.

Definition sample_stat : string :=
  stat_text 4242 "mc (recv) 2" (stat_words sample_proc 2 (λ _, "S") 3).
Definition sample_status : string :=
  unlines (["Name:" +:+ String tab "mc"] ++
    switches_line voluntary_prefix 17 :: [] ++ switches_line nonvoluntary_prefix 5 :: []).

#[export] Instance sample_process : Process := {|
  read_to_string path w :=
    ((if String.eqb path "/proc/self/stat" then inl sample_stat
      else if String.eqb path "/proc/self/status" then inl sample_status
      else inr sample_error), w);
  read_dir_count _ w := (inl 12%Z, w);
  sysconf name w := (match name with SC_PAGESIZE => 4096%Z | SC_CLK_TCK => 100%Z end, w);
  getrusage_self w := ((0%Z, mkRUsage (mkTimeVal 1 500000) (mkTimeVal 0 1) 1 2 3 4), w);
  proc_pidinfo_task_info w := ((proc_task_info_size, mkProcTaskInfo 1 2 3), w);
  last_os_error w := (sample_error, w) |}.

Lemma proc_files_roundtrip_witness : read_proc_snapshot (H0 := sample_process) 4096 3 = (Ok sample_proc, 3).
Proof.
  refine (proc_files_roundtrip (H0 := sample_process) sample_proc 2 4096 4242 "mc (recv) 2" (λ _, "S") 3
    ["Name:" +:+ String tab "mc"] [] [] 3 3 3 3 _ _ _ _ _ _ _ _ _).
  - repeat constructor; vm_compute; discriminate.
  - vm_compute. split; discriminate.
  - vm_compute. discriminate.
  - vm_compute. reflexivity.
  - intros _. split; [reflexivity|discriminate].
  - repeat constructor.
  - vm_compute. reflexivity.
  - vm_compute. reflexivity.
  - vm_compute. reflexivity.
Defined.
