(* ===== verification/Receiver.v ===== *)
(** * The command-line receiver ([src/src/bin/mcrx_recv.rs])

    The program from its arguments and its environment to the loop that
    receives, prints, and appends metrics to its JSON lines files. What it
    prints is the list of the lines on standard output and standard error; a
    write that fails makes it unwind. *)

From Stdlib Require Import Strings.Ascii Strings.String Strings.Byte Floats.SpecFloat.
From S2P Require Import Prelude Hoare Net Errors Config Packet Metrics Os SampleOs Platform Subscription Context Text RecvArgs Hardware Jsonl.

Local Open Scope string_scope.
Local Open Scope list_scope.
Local Open Scope nat_scope.

Definition MAX_PREVIEW_LEN : nat := 64.
Definition POLL_INTERVAL : Z := 10000000.
Definition RECEIVER_PRODUCER : string := "mcrx-core/mcrx_recv".

(** ** Texts *)

(** [Display] of [SocketAddr]. *)
Definition sock_display (a : SocketAddr) : string :=
  match a with
  | SockV4 ip port => v4_display ip +:+ ":" +:+ display_Z port
  | SockV6 ip port _ scope =>
      "[" +:+ v6_display ip +:+ (if (scope =? 0)%Z then "" else "%" +:+ display_Z scope) +:+
      "]:" +:+ display_Z port
  end.

Definition source_string (source : option IpAddr) : string :=
  match source with Some source => ip_display source | None => "any" end.

Definition interface_string (interface : option IpAddr) (interface_index : option Z) : string :=
  match interface, interface_index with
  | Some (V6 interface), Some interface_index =>
      v6_display interface +:+ "%" +:+ display_Z interface_index
  | Some interface, _ => ip_display interface
  | None, Some interface_index => "ifindex:" +:+ display_Z interface_index
  | None, None => "default"
  end.

Definition truncate_preview (text : string) (max_len : nat) : string :=
  if length (chars text) <=? max_len then text
  else of_chars (take max_len (chars text)) +:+ "...".

Definition hex_byte (b : byte) : string := hex_digit (u8 b / 16) +:+ hex_digit (u8 b mod 16).

Fixpoint join (separator : string) (l : list string) : string :=
  match l with
  | [] => ""
  | [s] => s
  | s :: l => s +:+ separator +:+ join separator l
  end.

Definition format_payload (payload : list byte) : string :=
  let text := String.string_of_list_byte payload in
  if utf8_valid text then truncate_preview text MAX_PREVIEW_LEN
  else
    let preview_len := Nat.min (length payload) 16 in
    let hex_preview := join " " (hex_byte <$> take preview_len payload) in
    if preview_len <? length payload
    then "0x" +:+ hex_preview +:+ " ... (" +:+ display_Z (Z.of_nat (length payload)) +:+ " bytes total)"
    else "0x" +:+ hex_preview.

(** [{:.n}] of an [f64]: the exact value, rounded to [n] decimals, halves to
    the even digit. *)
Definition round_half_even (numerator denominator : Z) : Z :=
  let q := (numerator `div` denominator)%Z in
  let r := (numerator `mod` denominator)%Z in
  match (2 * r ?= denominator)%Z with
  | Lt => q
  | Gt => (q + 1)%Z
  | Eq => if Z.even q then q else (q + 1)%Z
  end.

Definition zeros (n : nat) : string := of_chars (replicate n "0").
Definition display_decimals (decimals : nat) (scaled : Z) : string :=
  let unit := (10 ^ Z.of_nat decimals)%Z in
  let fraction := display_Z (scaled `mod` unit) in
  display_Z (scaled `div` unit) +:+ "." +:+ zeros (decimals - String.length fraction) +:+ fraction.

Definition scaled_f64 (decimals : nat) (m e : Z) : Z :=
  round_half_even (m * 10 ^ Z.of_nat decimals * 2 ^ Z.max e 0) (2 ^ Z.max (- e) 0).

Definition display_fixed (decimals : nat) (x : f64) : string :=
  let signed (s : bool) text := (if s then "-" else "") +:+ text in
  match x with
  | S754_nan => "NaN"
  | S754_infinity s => signed s "inf"
  | S754_zero s => signed s (display_decimals decimals 0)
  | S754_finite s m e => signed s (display_decimals decimals (scaled_f64 decimals (Zpos m) e))
  end.

Definition print_metrics_summary (snapshot : ContextMetricsSnapshot) (delta : ContextMetricsDelta)
    : list string :=
  ["[metrics]";
   "  interval_secs:         " +:+ display_fixed 3 (cd_interval_secs delta);
   "  active_subscriptions:  " +:+ display_Z (cs_active_subscriptions snapshot);
   "  joined_subscriptions:  " +:+ display_Z (cs_joined_subscriptions snapshot);
   "  packets_received_total: " +:+ display_Z (cs_total_packets_received snapshot);
   "  packets_received_delta: " +:+ display_Z (cd_packets_received delta);
   "  bytes_received_total:   " +:+ display_Z (cs_total_bytes_received snapshot);
   "  bytes_received_delta:   " +:+ display_Z (cd_bytes_received delta);
   "  would_block_count_total: " +:+ display_Z (cs_total_would_block_count snapshot);
   "  would_block_count_delta: " +:+ display_Z (cd_would_block_count delta);
   "  receive_errors_total:   " +:+ display_Z (cs_total_receive_errors snapshot);
   "  receive_errors_delta:   " +:+ display_Z (cd_receive_errors delta);
   "  join_count_total:       " +:+ display_Z (cs_total_join_count snapshot);
   "  join_count_delta:       " +:+ display_Z (cd_join_count delta);
   "  leave_count_total:      " +:+ display_Z (cs_total_leave_count snapshot);
   "  leave_count_delta:      " +:+ display_Z (cd_leave_count delta);
   "  batch_calls_total:      " +:+ display_Z (cs_batch_calls snapshot);
   "  batch_calls_delta:      " +:+ display_Z (cd_batch_calls delta);
   "  batch_packets_received_total: " +:+ display_Z (cs_batch_packets_received snapshot);
   "  batch_packets_received_delta: " +:+ display_Z (cd_batch_packets_received delta);
   "  packets_per_sec:       " +:+ display_fixed 3 (cd_packets_per_sec delta);
   "  bytes_per_sec:         " +:+ display_fixed 3 (cd_bytes_per_sec delta);
   "  would_block_per_sec:   " +:+ display_fixed 3 (cd_would_block_per_sec delta);
   "  recv_errors_per_sec:   " +:+ display_fixed 3 (cd_receive_errors_per_sec delta)].

Definition print_hardware_metrics_summary (delta : HardwareMetricsDelta) : list string :=
  ["[hardware]";
   "  interval_secs:              " +:+ display_fixed 3 (hd_interval_secs delta);
   "  cpu_user_secs:              " +:+ display_fixed 6 (hd_cpu_user_secs delta);
   "  cpu_system_secs:            " +:+ display_fixed 6 (hd_cpu_system_secs delta);
   "  cpu_total_secs:             " +:+ display_fixed 6 (hd_cpu_total_secs delta);
   "  cpu_util_percent:           " +:+ display_fixed 3 (hd_cpu_util_percent delta);
   "  rss_bytes:                  " +:+ display_Z (hd_rss_bytes delta);
   "  virtual_memory_bytes:       " +:+ display_Z (hd_virtual_memory_bytes delta);
   "  thread_count:               " +:+ display_Z (hd_thread_count delta);
   "  open_fds:                   " +:+ display_Z (hd_open_fds delta);
   "  page_faults_minor:          " +:+ display_Z (hd_page_faults_minor delta);
   "  page_faults_major:          " +:+ display_Z (hd_page_faults_major delta);
   "  ctx_switches_voluntary:     " +:+ display_Z (hd_ctx_switches_voluntary delta);
   "  ctx_switches_involuntary:   " +:+ display_Z (hd_ctx_switches_involuntary delta)].

Lemma round_half_even_nearest n d : (0 < d)%Z → (2 * Z.abs (n - round_half_even n d * d) ≤ d)%Z.
Proof.
  intros Hd. unfold round_half_even. cbn zeta.
  pose proof (Z.div_mod n d ltac:(lia)) as Hn. pose proof (Z.mod_pos_bound n d Hd) as Hr.
  destruct (Z.compare_spec (2 * (n `mod` d)) d); [case_match|..]; nia.
Qed.

(** Seconds and rates are printed to half a unit of the last place: a finite
    number [m * 2^e] is shown as [scaled_f64 decimals m e] units. *)
Lemma scaled_f64_nearest decimals m e :
  (2 * Z.abs (m * 10 ^ Z.of_nat decimals * 2 ^ Z.max e 0 -
              scaled_f64 decimals m e * 2 ^ Z.max (- e) 0) ≤ 2 ^ Z.max (- e) 0)%Z.
Proof. apply round_half_even_nearest. apply Z.pow_pos_nonneg; lia. Qed.

Example printed_rate : display_fixed 6 (rate_per_sec 1 (as_secs_f64 3000000000)) = "0.333333".
Proof. vm_compute. reflexivity. Qed.

(** ** Environment variables

    [env] answers for the variables that are set to valid Unicode. *)
Section env.
Context (env : string → option string).

(** The interval in nanoseconds. *)
Definition summary_interval_from_env : option Z :=
  raw ← env "MCRX_METRICS_SUMMARY_SECS";
  secs ← res_ok (parse_uint u64_max raw);
  if (secs =? 0)%Z then None else Some (secs * nanos_per_sec)%Z.

Definition summary_file_from_env : option Path :=
  raw ← env "MCRX_METRICS_SUMMARY_FILE";
  if is_blank raw then None else Some (path_of raw).

Definition metrics_node_id_from_env : option string :=
  value ← env "MCRX_METRICS_NODE_ID"; non_empty (trim value).

Section flags.
Context `{Json}.

Definition metrics_flags_from_env : Res string (gmap string Value) :=
  match env "MCRX_METRICS_FLAGS_JSON" with
  | None => Ok ∅
  | Some raw =>
      match trim raw with
      | EmptyString => Ok ∅
      | trimmed =>
          let? parsed := match from_str trimmed with
                         | inl v => Ok v
                         | inr err => Err ("MCRX_METRICS_FLAGS_JSON must be valid JSON: " +:+ err)
                         end in
          ok_or (as_object parsed) "MCRX_METRICS_FLAGS_JSON must be a JSON object"
      end
  end.

Definition receiver_flags (group : IpAddr) (dst_port : Z) (source interface : option IpAddr)
    (interface_index : option Z) : gmap string Value :=
  let flags := list_to_map
    [("transport", v_string "udp-multicast");
     ("role", v_string "receiver");
     ("multicast_group", v_string (ip_display group));
     ("multicast_port", v_u64 dst_port);
     ("multicast_interface", v_string (interface_string interface interface_index));
     ("join_mode", v_string (if source then "ssm" else "asm"));
     ("source_filter", v_string (if source then "source-specific" else "any"));
     ("batch_receive_enabled", v_bool false)] in
  match source with
  | Some source => <["source_addr" := v_string (ip_display source)]> flags
  | None => flags
  end.

(** [flags.entry(key).or_insert(value)] for every variable's field. *)
Definition build_receiver_metrics_flags (group : IpAddr) (dst_port : Z)
    (source interface : option IpAddr) (interface_index : option Z) : Res string (gmap string Value) :=
  let flags := receiver_flags group dst_port source interface interface_index in
  let? from_env := metrics_flags_from_env in
  Ok (flags ∪ from_env).

Definition summary_output_from_env (group : IpAddr) (dst_port : Z)
    (source interface : option IpAddr) (interface_index : option Z)
    : Res string (option MetricsJsonlOutputConfig) :=
  match summary_file_from_env with
  | None => Ok None
  | Some network_path =>
      let? flags := build_receiver_metrics_flags group dst_port source interface interface_index in
      Ok (Some (mkOutputConfig network_path
        (default (infer_node_id_from_path network_path) metrics_node_id_from_env) flags))
  end.
End flags.
End env.

Definition hardware_summary_file_path (network_path : Path) : Path :=
  let parent := default [] (path_parent network_path) in
  let stem := default "metrics" (stem ← path_file_stem network_path; to_str stem) in
  let extension := ext ← path_extension network_path; to_str ext in
  let file_name := match extension with
                   | Some (String c ext) => stem +:+ "_hardware." +:+ String c ext
                   | _ => stem +:+ "_hardware"
                   end in
  parent ++ [Normal file_name].

(** ** JSON lines output *)

Record MetricsJsonlWriters `{Fs} := mkWriters {
  network : MetricsJsonlWriter;
  hardware : option MetricsJsonlWriter }.

Section rows.
Context `{Json}.

Definition network_header (output : MetricsJsonlOutputConfig) (created_at : SystemTime) : Value :=
  header_json NETWORK_ARTIFACT_TYPE RECEIVER_PRODUCER (oc_node_id output) created_at (oc_flags output).
Definition hardware_header (output : MetricsJsonlOutputConfig) (created_at : SystemTime) : Value :=
  header_json HARDWARE_ARTIFACT_TYPE RECEIVER_PRODUCER (oc_node_id output) created_at (oc_flags output).

(** The sample of [write_metrics_summary_jsonl]. *)
Definition metrics_summary (snapshot : ContextMetricsSnapshot) (delta : ContextMetricsDelta) : Value :=
  v_object (list_to_map
    [("ts", v_f64 (unix_timestamp_secs (cs_captured_at snapshot)));
     ("interval_secs", v_f64 (cd_interval_secs delta));
     ("active_subscriptions", v_u64 (cs_active_subscriptions snapshot));
     ("joined_subscriptions", v_u64 (cs_joined_subscriptions snapshot));
     ("packets_received_total", v_u64 (cs_total_packets_received snapshot));
     ("bytes_received_total", v_u64 (cs_total_bytes_received snapshot));
     ("packets_received_delta", v_u64 (cd_packets_received delta));
     ("bytes_received_delta", v_u64 (cd_bytes_received delta));
     ("would_block_count_total", v_u64 (cs_total_would_block_count snapshot));
     ("would_block_count_delta", v_u64 (cd_would_block_count delta));
     ("receive_errors_total", v_u64 (cs_total_receive_errors snapshot));
     ("receive_errors_delta", v_u64 (cd_receive_errors delta));
     ("join_count_total", v_u64 (cs_total_join_count snapshot));
     ("join_count_delta", v_u64 (cd_join_count delta));
     ("leave_count_total", v_u64 (cs_total_leave_count snapshot));
     ("leave_count_delta", v_u64 (cd_leave_count delta));
     ("batch_calls_total", v_u64 (cs_batch_calls snapshot));
     ("batch_calls_delta", v_u64 (cd_batch_calls delta));
     ("batch_packets_received_total", v_u64 (cs_batch_packets_received snapshot));
     ("batch_packets_received_delta", v_u64 (cd_batch_packets_received delta));
     ("packets_per_sec", v_f64 (cd_packets_per_sec delta));
     ("bytes_per_sec", v_f64 (cd_bytes_per_sec delta));
     ("would_block_per_sec", v_f64 (cd_would_block_per_sec delta));
     ("receive_errors_per_sec", v_f64 (cd_receive_errors_per_sec delta))]).

(** The sample of [write_hardware_metrics_summary_jsonl]. *)
Definition hardware_summary (snapshot : HardwareMetricsSnapshot) (delta : HardwareMetricsDelta) : Value :=
  v_object (list_to_map
    [("ts", v_f64 (unix_timestamp_secs (hs_captured_at snapshot)));
     ("interval_secs", v_f64 (hd_interval_secs delta));
     ("cpu_user_secs", v_f64 (hd_cpu_user_secs delta));
     ("cpu_system_secs", v_f64 (hd_cpu_system_secs delta));
     ("cpu_total_secs", v_f64 (hd_cpu_total_secs delta));
     ("cpu_util_percent", v_f64 (hd_cpu_util_percent delta));
     ("rss_bytes", v_u64 (hd_rss_bytes delta));
     ("virtual_memory_bytes", v_u64 (hd_virtual_memory_bytes delta));
     ("thread_count", v_u64 (hd_thread_count delta));
     ("open_fds", v_u64 (hd_open_fds delta));
     ("page_faults_minor", v_u64 (hd_page_faults_minor delta));
     ("page_faults_major", v_u64 (hd_page_faults_major delta));
     ("ctx_switches_voluntary", v_u64 (hd_ctx_switches_voluntary delta));
     ("ctx_switches_involuntary", v_u64 (hd_ctx_switches_involuntary delta))]).
End rows.

Section writers.
Context `{Fs} `{Json}.

Definition metrics_jsonl_writers_from_output (output : MetricsJsonlOutputConfig)
    (include_hardware : bool) (created_at : SystemTime) : M FsWorld IoError MetricsJsonlWriters :=
  let* network := writer_open (oc_network_path output) (network_header output created_at) in
  if include_hardware then
    let* hardware := drop_on_error (jw_file network)
      (writer_open (hardware_summary_file_path (oc_network_path output))
         (hardware_header output created_at)) in
    mpure (mkWriters _ network (Some hardware))
  else mpure (mkWriters _ network None).

Definition write_metrics_summary_jsonl (snapshot : ContextMetricsSnapshot) (delta : ContextMetricsDelta)
    (writer : MetricsJsonlWriter) : M FsWorld IoError unit :=
  append_sample_row writer (metrics_summary snapshot delta).
Definition write_hardware_metrics_summary_jsonl (snapshot : HardwareMetricsSnapshot)
    (delta : HardwareMetricsDelta) (writer : MetricsJsonlWriter) : M FsWorld IoError unit :=
  append_sample_row writer (hardware_summary snapshot delta).
End writers.

(** ** The program *)

(** A line on standard output or standard error. *)
Inductive Printed :=
  | Line (s : string)
  | ErrLine (s : string).

Definition usage_text (program : string) : list string :=
  ["Usage:";
   "  " +:+ program +:+ " <group> <dst_port> [source] [interface]";
   "  " +:+ program +:+ " <group> <dst_port> [--source <source>] [--interface <interface>]";
   "";
   "Examples:";
   "  " +:+ program +:+ " 239.1.2.3 5000";
   "  " +:+ program +:+ " 232.1.2.3 5000 192.168.1.10";
   "  " +:+ program +:+ " 232.1.2.3 5000 192.168.1.10 192.168.1.20";
   "  " +:+ program +:+ " ff01::1234 5000";
   "  " +:+ program +:+ " ff01::1234 5000 --interface ::1";
   "  " +:+ program +:+ " ff12::8000:1234 5000 --interface fe80::1%7";
   "  " +:+ program +:+ " ff12::8000:1234 5000 --interface fe80::1%en0";
   "  " +:+ program +:+ " ff1e::8000:1234 5000 --interface 7";
   "  " +:+ program +:+ " ff31::8000:1234 5000 <sender-ipv6> --interface <receiver-ipv6>";
   "";
   "Notes:";
   "  - omit <source> for ASM";
   "  - provide <source> for SSM";
   "  - for IPv4 SSM, use 232.0.0.0/8 groups such as 232.1.2.3";
   "  - use --interface for ASM when you want to set the join interface without also setting a source";
   "  - <interface> selects the local join interface address";
   "  - for IPv6, <interface> may also be a scoped address like fe80::1%7 or fe80::1%en0, or a numeric interface index";
   "  - for IPv6 SSM, use ff3x::/32 groups such as ff31::8000:1234 or ff3e::8000:1234";
   "  - for IPv6 SSM, pass --interface <receiver-ipv6-or-ifindex>; this is required on macOS";
   "  - for link-local IPv6 SSM groups such as ff32::/32, send from a fe80:: source"].

(** The lines of the [metrics] feature. *)
Definition usage_metrics `{Os} : list string :=
  ["";
   "Metrics (when built with --features metrics):";
   "  MCRX_METRICS_SUMMARY_SECS=<n>   emit a delta metrics summary every n seconds";
   "  MCRX_METRICS_NODE_ID=<id>       override JSONL header node_id (defaults to parent dir, then file stem)";
   "  MCRX_METRICS_FLAGS_JSON=<json>  merge extra JSON object fields into the header flags map"] ++
  if bool_decide (target = Linux ∨ target = MacOs)
  then ["  MCRX_METRICS_SUMMARY_FILE=<p>   write single-header JSONL network metrics to <p> and process hardware metrics to a sibling *_hardware file"]
  else ["  MCRX_METRICS_SUMMARY_FILE=<p>   write single-header JSONL network metrics to <p>"].

(** [Instant] in nanoseconds: there is a last one, beyond which an addition
    unwinds. *)
Class Clock `{Os} := {
  instant_now : Call World Z;
  last_instant : Z;
  thread_sleep : Z → Call World unit }.

Definition instant_add {E : Type} (last_instant i duration : Z) : Res E Z :=
  if bool_decide (i + duration ≤ last_instant)%Z then Ok (i + duration)%Z else Panic.

Section program.
Context {os : Os} {process : Process} {clock : Clock} {files : Fs} {serde : Json}.
Context {terminal : Terminal}.
Context (env : string → option string).

Record App := mkApp {
  app_context : Context;
  app_world : World;
  app_files : FsWorld;
  app_printed : list Printed }.

Abbreviation AppOp A := (M App string A).

(** [println!] and [eprintln!]. *)
Definition println (p : Printed) : AppOp unit :=
  write_line (λ a, length (app_printed a))
    (λ a, mkApp (app_context a) (app_world a) (app_files a) (app_printed a ++ [p])).

Fixpoint print_all (l : list Printed) : AppOp unit :=
  match l with [] => mpure () | p :: l => println p ;;* print_all l end.

Definition print_usage (program : string) : AppOp unit :=
  print_all (ErrLine <$> usage_text program ++ usage_metrics).

(** An operation on a part of the program's state, its error made a message. *)
Definition on_context {A : Type} (message : McrxError → string) (m : Op (Context * World) A)
    : AppOp A := λ a,
  let '(r, (c, w)) := m (app_context a, app_world a) in
  (res_map_err message r, mkApp c w (app_files a) (app_printed a)).
Definition on_world {E A : Type} (message : E → string) (m : M World E A) : AppOp A := λ a,
  let '(r, w) := m (app_world a) in
  (res_map_err message r, mkApp (app_context a) w (app_files a) (app_printed a)).
Definition on_files {A : Type} (message : IoError → string) (m : M FsWorld IoError A) : AppOp A := λ a,
  let '(r, f) := m (app_files a) in
  (res_map_err message r, mkApp (app_context a) (app_world a) f (app_printed a)).
Definition world_call {A : Type} (m : Call World A) : AppOp A :=
  on_world (λ s, s) (λ w, let '(x, w) := m w in (Ok x, w)).

Definition has_hardware : bool := bool_decide (target = Linux ∨ target = MacOs).

Definition init_hardware_metrics_sampler : AppOp (option (option HardwareMetricsSnapshot)) :=
  if has_hardware then
    let* snapshot := on_world (λ err, "failed to capture initial hardware metrics: " +:+ io_text err)
                       capture_current_process in
    mpure (Some (HardwareMetricsSampler_sample sampler_new snapshot).2)
  else mpure None.

Definition capture_hardware_metrics_snapshot : AppOp (option HardwareMetricsSnapshot) :=
  if has_hardware then
    mmap Some (on_world (λ err, "failed to capture hardware metrics: " +:+ io_text err)
                 capture_current_process)
  else mpure None.

(** The variables of [run] that its loop uses. *)
Record RunState := mkRun {
  run_interval : option Z;
  run_sampler : option ContextMetricsSnapshot;
  run_hardware_sampler : option (option HardwareMetricsSnapshot);
  run_writers : option MetricsJsonlWriters;
  run_next_summary_at : option Z }.

Definition config_of_args (a : ReceiveCliArgs) : SubscriptionConfig :=
  let config := match ra_source a with
                | Some source => SubscriptionConfig.ssm_ip (ra_group a) source (ra_dst_port a)
                | None => SubscriptionConfig.asm_ip (ra_group a) (ra_dst_port a)
                end in
  mkConfig (cfg_group config) (cfg_source config) (cfg_dst_port config)
    (ra_interface a) (ra_interface_index a).

Definition snapshot_context : AppOp ContextMetricsSnapshot := λ a,
  on_world mcrx_error_to_string (context_metrics_snapshot (app_context a)) a.

(** [summary_interval.map(|interval| Instant::now() + interval)]. *)
Definition deadline (interval : option Z) : AppOp (option Z) :=
  match interval with
  | Some interval =>
      let* now := world_call instant_now in
      mmap Some (mlift (instant_add last_instant now interval))
  | None => mpure None
  end.

(** [run] up to its loop. *)
Definition run_start (args : list string) : AppOp RunState :=
  let* args := collect_args args in
  let* parsed := or_usage 3 print_usage (λ args, on_world (λ s, s) (parse_receive_cli_args args)) args in
  let config := config_of_args parsed in
  let* subscription_id := on_context
    (λ err, "failed to add subscription: " +:+ mcrx_error_to_string err) (add_subscription config) in
  on_context (λ err, "failed to join subscription: " +:+ mcrx_error_to_string err)
    (join_subscription subscription_id) ;;*
  println (Line "mcrx-recv ready") ;;*
  println (Line ("  group:      " +:+ ip_display (ra_group parsed))) ;;*
  println (Line ("  dst_port:   " +:+ display_Z (ra_dst_port parsed))) ;;*
  println (Line ("  source:     " +:+ source_string (ra_source parsed))) ;;*
  println (Line ("  interface:  " +:+ interface_string (ra_interface parsed) (ra_interface_index parsed))) ;;*
  println (Line ("  sub_id:     " +:+ display_Z subscription_id)) ;;*
  println (Line "") ;;*
  println (Line "waiting for packets ...") ;;*
  let summary_interval := summary_interval_from_env env in
  let* summary_output := mlift (summary_output_from_env env (ra_group parsed) (ra_dst_port parsed)
                           (ra_source parsed) (ra_interface parsed) (ra_interface_index parsed)) in
  let* snapshot := snapshot_context in
  let metrics_sampler := (ContextMetricsSampler_sample sampler_new snapshot).2 in
  let* hardware_sampler := init_hardware_metrics_sampler in
  let* writers :=
    match summary_output with
    | Some output =>
        let* created_at := world_call system_time_now in
        mmap Some (on_files (λ err, "failed to initialize metrics JSONL output: " +:+ io_text err)
          (metrics_jsonl_writers_from_output output (if hardware_sampler then true else false) created_at))
    | None => mpure None
    end in
  let* next_summary_at := deadline summary_interval in
  mpure (mkRun summary_interval metrics_sampler hardware_sampler writers next_summary_at).

(** The packet or the pause at the head of the loop. *)
Definition receive_and_print : AppOp unit :=
  let* received := on_context (λ err, "receive failed: " +:+ mcrx_error_to_string err) try_recv_any in
  match received with
  | Some packet =>
      println (Line ("[recv] sub=" +:+ display_Z (pk_subscription_id packet) +:+
        " src=" +:+ sock_display (pk_source packet) +:+ " group=" +:+ ip_display (pk_group packet) +:+
        " dst_port=" +:+ display_Z (pk_dst_port packet) +:+
        " len=" +:+ display_Z (Z.of_nat (length (pk_payload packet))))) ;;*
      println (Line ("       payload: " +:+ format_payload (pk_payload packet)))
  | None => world_call (thread_sleep POLL_INTERVAL)
  end.

Definition summarize_network (run : RunState) : AppOp RunState :=
  let* snapshot := snapshot_context in
  let '(delta, sampler) := ContextMetricsSampler_sample (run_sampler run) snapshot in
  let run := mkRun (run_interval run) sampler (run_hardware_sampler run) (run_writers run)
               (run_next_summary_at run) in
  match delta with
  | Some delta =>
      match run_writers run with
      | Some writers =>
          on_files (λ err, "failed to write metrics summary: " +:+ io_text err)
            (write_metrics_summary_jsonl snapshot delta (network writers))
      | None => print_all (Line <$> print_metrics_summary snapshot delta)
      end
  | None => mpure ()
  end ;;*
  mpure run.

Definition summarize_hardware (run : RunState) : AppOp RunState :=
  match run_hardware_sampler run with
  | None => mpure run
  | Some sampler =>
      let* captured := capture_hardware_metrics_snapshot in
      match captured with
      | None => mpure run
      | Some snapshot =>
          let '(delta, sampler) := HardwareMetricsSampler_sample sampler snapshot in
          let run := mkRun (run_interval run) (run_sampler run) (Some sampler) (run_writers run)
                       (run_next_summary_at run) in
          match delta with
          | Some delta =>
              match run_writers run with
              | Some writers =>
                  match hardware writers with
                  | Some writer =>
                      on_files (λ err, "failed to write hardware metrics summary: " +:+ io_text err)
                        (write_hardware_metrics_summary_jsonl snapshot delta writer)
                  | None => mpure ()
                  end
              | None => print_all (Line <$> print_hardware_metrics_summary delta)
              end
          | None => mpure ()
          end ;;*
          mpure run
      end
  end.

(** One round of the loop. *)
Definition run_round (run : RunState) : AppOp RunState :=
  receive_and_print ;;*
  match run_interval run, run_next_summary_at run with
  | Some interval, Some next =>
      let* now := world_call instant_now in
      if bool_decide (next ≤ now)%Z then
        let* run := summarize_network run in
        let* run := summarize_hardware run in
        let* next := deadline (Some interval) in
        mpure (mkRun (run_interval run) (run_sampler run) (run_hardware_sampler run)
                 (run_writers run) next)
      else mpure run
  | _, _ => mpure run
  end.

(** [fuel] rounds of the loop, which only an error ends. *)
Fixpoint run_loop (fuel : nat) (run : RunState) : AppOp unit :=
  match fuel with
  | O => mfuel
  | S fuel => let* run := run_round run in run_loop fuel run
  end.

Definition run (fuel : nat) (args : list string) : AppOp unit :=
  let* state := run_start args in run_loop fuel state.

(** The exit code. *)
Definition main (fuel : nat) (args : list string) : AppOp Z :=
  exit_with "mcrx-recv" (λ line, println (ErrLine line)) (run fuel args).
End program.

(** ** The environment *)

Section env_facts.
Context (env : string → option string) {serde : Json}.

Lemma trim_not_empty o : non_empty o = Some "" → False.
Proof. by destruct o. Qed.

Lemma summary_output_node_id group port source interface index output :
  summary_output_from_env env group port source interface index = Ok (Some output) →
  oc_node_id output ≠ "".
Proof.
  unfold summary_output_from_env. destruct (summary_file_from_env env) as [path|]; [|done].
  destruct (build_receiver_metrics_flags _ _ _ _ _ _) as [flags|e| |]; try done.
  cbn [res_bind]. intros [= <-]. cbn [oc_node_id].
  destruct (metrics_node_id_from_env env) as [id|] eqn:E; cbn [default].
  - unfold metrics_node_id_from_env in E. destruct (env _); [|done]. cbn [mbind option_bind] in E.
    unfold non_empty in E. by destruct (trim _); simplify_eq.
  - apply infer_node_id_not_empty.
Qed.

Lemma summary_output_path group port source interface index o np :
  summary_output_from_env env group port source interface index = Ok o →
  summary_file_from_env env = Some np → ∃ output, o = Some output ∧ oc_network_path output = np.
Proof.
  unfold summary_output_from_env. intros Ho Hnp. rewrite Hnp in Ho.
  destruct (build_receiver_metrics_flags _ _ _ _ _ _); try done. injection Ho as <-. eauto.
Qed.
End env_facts.

(** ** Two files *)

Lemma string_app_cancel (s t u : string) : s +:+ t = s +:+ u → t = u.
Proof.
  induction s as [|c s IH]; [by rewrite !string_nil_app|]. rewrite !string_cons_app.
  intros [= ?]. by apply IH.
Qed.

Lemma string_app_length (s t : string) : String.length (s +:+ t) = String.length s + String.length t.
Proof. induction s as [|c s IH]; [done|]. rewrite string_cons_app. cbn. by rewrite IH. Qed.

Lemma rsplit_once_Some c s l r : rsplit_once c s = Some (l, r) → s = l +:+ String c r ∧ lacks c r = true.
Proof.
  revert l. induction s as [|c' s IH]; intros l; cbn [rsplit_once]; [done|].
  destruct (rsplit_once c s) as [[l' r']|] eqn:E.
  - intros [= <- <-]. destruct (IH l' eq_refl) as [-> Hr]. by rewrite string_cons_app.
  - destruct (Ascii.eqb_spec c c') as [->|]; [|done]. intros [= <- <-]. split; [done|].
    clear IH. induction s as [|d s IH]; [done|]. cbn [rsplit_once lacks] in *.
    destruct (rsplit_once c' s) as [[]|]; [done|]. rewrite IH by done.
    rewrite andb_true_r. destruct (Ascii.eqb_spec d c') as [->|]; [|done].
    by rewrite Ascii.eqb_refl in E.
Qed.

(** A file name without an extension. *)
Lemma metrics_name_alone name stem :
  stem = default "metrics" (to_str name) → name = stem +:+ "_hardware" → False.
Proof.
  unfold to_str. intros -> Hn. destruct (utf8_valid name) eqn:Ev; cbn [default] in Hn.
  - apply (f_equal String.length) in Hn. rewrite string_app_length in Hn. cbn in Hn. lia.
  - by subst name.
Qed.

Definition hardware_name (name : string) : string :=
  let stem := default "metrics" (to_str (rsplit_file_at_dot name).1) in
  match (ext ← (rsplit_file_at_dot name).2; to_str ext) with
  | Some (String c ext) => stem +:+ "_hardware." +:+ String c ext
  | _ => stem +:+ "_hardware"
  end.

Lemma hardware_name_differs name : hardware_name name ≠ name.
Proof.
  assert (to_str "metrics_hardware" = Some "metrics_hardware") as Hvalid by reflexivity.
  unfold hardware_name, rsplit_file_at_dot. intros Hn.
  destruct (rsplit_once "." name) as [[b a]|] eqn:E; [destruct b as [|c b]|];
    cbn [fst snd mbind option_bind] in Hn; [by eapply metrics_name_alone| |by eapply metrics_name_alone].
  destruct (rsplit_once_Some _ _ _ _ E) as [Hsplit Hlacks]. set (before := String c b) in *.
  destruct (to_str before) as [s|] eqn:Ev; cbn [default] in Hn.
  - unfold to_str in Ev. destruct (utf8_valid before); [|done]. injection Ev as <-.
    rewrite Hsplit in Hn. destruct (to_str a) as [[|d e]|]; by apply string_app_cancel in Hn.
  - destruct (to_str a) as [[|d e]|] eqn:Ea; try by subst name.
    unfold to_str in Ea. destruct (utf8_valid a); [|done]. injection Ea as ->.
    change ("metrics" +:+ "_hardware." +:+ String d e)
      with ("metrics_hardware" +:+ String "." (String d e)) in Hn.
    rewrite <- Hn, rsplit_once_app in E by done.
    injection E as <- <-. subst before. by rewrite Hvalid in Ev.
Qed.

(** The metrics of the process never go to the file of the network
    metrics: the two paths differ, so that opening the second does not run
    into the lock of the first, whatever the name of the file is. *)
Theorem hardware_path_is_another p : hardware_summary_file_path p ≠ p.
Proof.
  intros Hp. assert (∃ name, path_file_name p = Some name) as [name Hname].
  { rewrite <- Hp. unfold hardware_summary_file_path, path_file_name. rewrite last_snoc. eauto. }
  assert (path_file_name (hardware_summary_file_path p) = Some (hardware_name name)) as Hh.
  { unfold hardware_summary_file_path. unfold path_file_stem, path_extension. rewrite Hname.
    unfold path_file_name. by rewrite last_snoc. }
  rewrite Hp, Hname in Hh. injection Hh as Hh. by apply (hardware_name_differs name).
Qed.

(** ** Headers and rows *)

Lemma row_is_valid {serde : Json} {serde_laws : JsonLaws} (l : list (string * Value)) :
  Forall (λ key, key ∉ l.*1) HEADER_ONLY_KEYS →
  validate_sample_row (v_object (list_to_map l)) = Ok ().
Proof.
  intros Hl. unfold validate_sample_row. rewrite as_object_v_object.
  assert (repeated_header_field (v_object (list_to_map l)) = None) as ->; [|done].
  apply repeated_header_field_None. eapply Forall_impl; [exact Hl|]. cbn.
  intros key Hkey. by apply not_elem_of_list_to_map_1.
Qed.

(** C40: a configuration that comes from the environment never makes the
    program refuse its own output: both of its headers are valid, whatever the
    variables hold, and so is every row. *)
Theorem own_headers_and_rows_are_valid {serde : Json} {serde_laws : JsonLaws}
    (env : string → option string) group port source interface index output created_at
    snapshot delta hardware_snapshot hardware_delta :
  summary_output_from_env env group port source interface index = Ok (Some output) →
  validate_requested_header (network_header output created_at) = Ok () ∧
  validate_requested_header (hardware_header output created_at) = Ok () ∧
  validate_sample_row (metrics_summary snapshot delta) = Ok () ∧
  validate_sample_row (hardware_summary hardware_snapshot hardware_delta) = Ok ().
Proof.
  intros Hout%summary_output_node_id. unfold validate_requested_header, network_header, hardware_header.
  rewrite !header_json_is_header by done.
  unfold metrics_summary, hardware_summary. split_and!; [done..| |]; apply row_is_valid; cbn [fmap list_fmap fst]; apply Forall_forall;
    intros key Hkey; repeat (apply elem_of_cons in Hkey as [->|Hkey];
      [by apply (bool_decide_unpack _)|]); by apply elem_of_nil in Hkey.
Qed.

(** ** The files of a run *)

(** The summaries of a run, in the order in which they are taken. *)
Inductive Summary :=
  | NetworkRow (snapshot : ContextMetricsSnapshot) (delta : ContextMetricsDelta)
  | HardwareRow (snapshot : HardwareMetricsSnapshot) (delta : HardwareMetricsDelta).

Definition network_rows {serde : Json} (l : list Summary) : list Value :=
  omap (λ s, match s with NetworkRow s d => Some (metrics_summary s d) | _ => None end) l.
Definition hardware_rows {serde : Json} (l : list Summary) : list Value :=
  omap (λ s, match s with HardwareRow s d => Some (hardware_summary s d) | _ => None end) l.

(** The two samplers of a run, and the summaries that they give between two
    states of them: each shows the difference of a snapshot to the one before,
    unless a counter or the clock went back. *)
Definition Samplers : Type :=
  option ContextMetricsSnapshot * option (option HardwareMetricsSnapshot).

Inductive sampled (s : Samplers) : list Summary → Samplers → Prop :=
  | sampled_nothing : sampled s [] s
  | sampled_network l n h snapshot delta n' :
      sampled s l (n, h) → ContextMetricsSampler_sample n snapshot = (delta, n') →
      sampled s (l ++ option_list (NetworkRow snapshot <$> delta)) (n', h)
  | sampled_hardware l n h snapshot delta h' :
      sampled s l (n, Some h) → HardwareMetricsSampler_sample h snapshot = (delta, h') →
      sampled s (l ++ option_list (HardwareRow snapshot <$> delta)) (n, Some h').

Lemma network_rows_app {serde : Json} l l' : network_rows (l ++ l') = network_rows l ++ network_rows l'.
Proof. apply omap_app. Qed.
Lemma hardware_rows_app {serde : Json} l l' : hardware_rows (l ++ l') = hardware_rows l ++ hardware_rows l'.
Proof. apply omap_app. Qed.

Section files.
Context {files : Fs} {fs_laws : FsLaws} {serde : Json} {serde_laws : JsonLaws}.

(** The operations on a file return. *)
Lemma total_grows {A : Type} p (m : M FsWorld IoError A) : grows p m → total m.
Proof. intros Hm w. specialize (Hm w). destruct (m w) as [r w']. by destruct Hm. Qed.

Lemma total_append_row writer sample : total (append_sample_row writer sample).
Proof.
  apply (total_grows (handle_path (jw_file writer))). unfold append_sample_row.
  apply grows_then; [apply grows_lift, validate_sample_row_returns|intros _ w].
  apply write_json_line_grows.
Qed.

Lemma total_writer_open path header : total (writer_open path header).
Proof. apply (total_grows path), writer_open_grows. Qed.

(** A file holds a document that began as [vs] and went on with [rows]. *)
Definition holds (p : Path) (vs rows : list Value) (w : FsWorld) : Prop :=
  terminated (text w p) ∧
  ∃ rows', document (text w p) = Some (vs ++ rows') ∧ Forall2 reads_back rows rows'.

Lemma holds_same p vs rows w w' : text w' p = text w p → holds p vs rows w → holds p vs rows w'.
Proof. intros Heq. unfold holds. by rewrite Heq. Qed.

Lemma append_row_holds p writer vs rows sample w w' :
  handle_path (jw_file writer) = p → holds p vs rows w → vs ≠ [] →
  append_sample_row writer sample w = (Ok (), w') →
  holds p vs (rows ++ [sample]) w' ∧ ∀ q, q ≠ p → text w' q = text w q.
Proof.
  intros <- (Ht & rows' & Hd & Hb) Hne. unfold append_sample_row, mthen, mlift.
  destruct (validate_sample_row sample) as [[]| | |] eqn:Hs; try done.
  pose proof (written_row (jw_file writer) sample w (vs ++ rows') Hd Ht ltac:(by destruct vs) Hs) as Hw.
  destruct (write_json_line (jw_file writer) sample w) as [r w1]. intros [= -> ->].
  destruct (Hw eq_refl) as (sample' & more & Hb' & Hg & _ & Hd' & Ht'). cbn [snd] in *.
  split; [|apply Hg]. split; [done|]. exists (rows' ++ [sample']). rewrite app_assoc.
  split; [done|]. by apply Forall2_app; [|constructor].
Qed.

Lemma opened_holds path header w w' writer vs :
  document (text w path) = Some vs → terminated (text w path) →
  writer_open path header w = (Ok writer, w') →
  handle_path (jw_file writer) = path ∧ (∀ q, q ≠ path → text w' q = text w q) ∧
  ∃ vs2, holds path vs2 [] w' ∧ begun header vs vs2.
Proof.
  intros Hd Ht Hopen.
  destruct (opened_document _ _ _ _ _ _ Hd Ht Hopen) as (Hp & _ & _ & vs2 & more & Hg & Hd2 & Ht2 & Hvs).
  split_and!; [done|apply Hg|]. exists vs2. split; [|done]. split; [done|]. exists [].
  by rewrite app_nil_r.
Qed.

(** The files of a start: what was in them and a header. *)
Lemma writers_hold output include created_at w w' ws vs hs :
  let np := oc_network_path output in
  let hp := hardware_summary_file_path np in
  document (text w np) = Some vs → terminated (text w np) →
  document (text w hp) = Some hs → terminated (text w hp) →
  metrics_jsonl_writers_from_output output include created_at w = (Ok ws, w') →
  handle_path (jw_file (network ws)) = np ∧
  (∃ vs2, holds np vs2 [] w' ∧ begun (network_header output created_at) vs vs2) ∧
  match hardware ws with
  | Some hw => include = true ∧ handle_path (jw_file hw) = hp ∧
      ∃ hs2, holds hp hs2 [] w' ∧ begun (hardware_header output created_at) hs hs2
  | None => include = false ∧ text w' hp = text w hp
  end.
Proof.
  intros np hp Hd Ht Hhd Hht. unfold metrics_jsonl_writers_from_output.
  assert (np ≠ hp) as Hne by (intros Heq; by apply (hardware_path_is_another np)).
  intros (nw & w0 & Hopen & Hrest)%mthen_inv. fold np hp in Hopen, Hrest.
  destruct (opened_holds _ _ _ _ _ _ Hd Ht Hopen) as (Hn & Hother & vs2 & Hvs & Hbegun).
  assert (text w0 hp = text w hp) as Hsame by (by apply Hother).
  destruct include; [|by injection Hrest as <- <-; split_and!; [|eexists|..]].
  apply mthen_inv in Hrest as (hw & w1 & Hhopen & [= <- <-]).
  unfold drop_on_error in Hhopen.
  destruct (writer_open hp (hardware_header output created_at) w0) as [r w1'] eqn:Ho.
  destruct r as [hw'| | |]; try done. injection Hhopen as -> ->. rewrite <- Hsame in Hhd, Hht.
  destruct (opened_holds _ _ _ _ _ _ Hhd Hht Ho) as (Hh & Hhother & hs2 & Hhs & Hhbegun).
  cbn [network hardware]. split_and!; [done| |done|done|by exists hs2].
  exists vs2. split; [|done]. eapply holds_same; [|exact Hvs]. by apply Hhother.
Qed.
End files.

(** *** What the steps of the program do to the files *)

Section run_files.
Context {os : Os} {process : Process} {clock : Clock} {terminal : Terminal}.
Context {files : Fs} {fs_laws : FsLaws} {serde : Json} {serde_laws : JsonLaws}.

(** An assertion on the files. *)
Definition files_are (I : FsWorld → Prop) (a : App) : Prop := I (app_files a).

(** As long as no error is answered: [Q] after a value, [R] where the run was
    cut off. *)
Definition goes_on {A : Type} (P : App → Prop) (m : M App string A) (Q : A → App → Prop)
    (R : App → Prop) : Prop :=
  ∀ a, P a → match m a with
             | (Ok x, a') => Q x a'
             | (Err _, _) => True
             | (Panic, a') | (OutOfFuel, a') => R a'
             end.

Lemma goes_on_then {A B : Type} P (m : M App string A) (k : A → M App string B) Q' Q R :
  goes_on P m Q' R → (∀ x, goes_on (Q' x) (k x) Q R) → goes_on P (mthen m k) Q R.
Proof.
  intros Hm Hk a Ha. specialize (Hm a Ha). unfold mthen.
  destruct (m a) as [[x|e| |] a']; try done. by apply Hk.
Qed.
Lemma goes_on_pure {A : Type} P (x : A) (Q : A → App → Prop) R :
  (∀ a, P a → Q x a) → goes_on P (mpure x) Q R.
Proof. intros H a. apply H. Qed.
Lemma goes_on_match {A : Type} (X : Prop) P (m : M App string A) Q R :
  (X → goes_on P m Q R) → goes_on (λ a, X ∧ P a) m Q R.
Proof. intros Hm a [HX Ha]. by apply (Hm HX). Qed.

(** An operation that leaves the files alone. *)
Definition leaves_files {A : Type} (m : M App string A) : Prop :=
  ∀ a, app_files (m a).2 = app_files a.

Lemma goes_on_leaves {A : Type} I R (m : M App string A) :
  leaves_files m → (∀ w, I w → R w) → goes_on (files_are I) m (λ _, files_are I) (files_are R).
Proof.
  intros Hm HR a Ha. specialize (Hm a). unfold files_are in *.
  destruct (m a) as [[x|e| |] a']; cbn in Hm; rewrite ?Hm; auto.
Qed.

Lemma leaves_files_then {A B : Type} (m : M App string A) (k : A → M App string B) :
  leaves_files m → (∀ x, leaves_files (k x)) → leaves_files (mthen m k).
Proof.
  intros Hm Hk a. specialize (Hm a). unfold mthen.
  destruct (m a) as [[x|e| |] a']; cbn in *; try done. by rewrite Hk.
Qed.
Lemma leaves_files_pure {A : Type} (x : A) : leaves_files (mpure x).
Proof. done. Qed.
Lemma leaves_files_lift {A : Type} (x : Res string A) : leaves_files (mlift x).
Proof. done. Qed.
Lemma leaves_files_world {E A : Type} message (m : M World E A) : leaves_files (on_world message m).
Proof. intros a. unfold on_world. by destruct (m (app_world a)). Qed.
Lemma leaves_files_context {A : Type} message (m : Op (Context * World) A) :
  leaves_files (on_context message m).
Proof. intros a. unfold on_context. by destruct (m _) as [? []]. Qed.
Lemma leaves_files_println p : leaves_files (println p).
Proof. intros a. unfold println, write_line. by case_match. Qed.
Lemma leaves_files_print_all l : leaves_files (print_all l).
Proof.
  induction l as [|p l IH]; [done|]. apply leaves_files_then; [apply leaves_files_println|by intros []].
Qed.
Lemma leaves_files_snapshot : leaves_files snapshot_context.
Proof. intros a. apply leaves_files_world. Qed.

Lemma leaves_files_capture : leaves_files capture_hardware_metrics_snapshot.
Proof.
  unfold capture_hardware_metrics_snapshot. case_match; [|done].
  apply leaves_files_then; [apply leaves_files_world|done].
Qed.
Lemma leaves_files_deadline interval : leaves_files (deadline interval).
Proof.
  destruct interval; [|done]. apply leaves_files_then; [apply leaves_files_world|].
  intros now. by apply leaves_files_then.
Qed.
Lemma leaves_files_receive : leaves_files receive_and_print.
Proof.
  apply leaves_files_then; [apply leaves_files_context|]. intros [packet|]; [|apply leaves_files_world].
  apply leaves_files_then; [|intros []]; apply leaves_files_println.
Qed.

(** A loop that writes through [ws] to the two files, which began as [vs] and
    [hs]; without hardware metrics the second stays as it was. *)
Section loop.
Context (np hp : Path) (vs hs : list Value) (ws : MetricsJsonlWriters) (untouched : string).
Context (s0 : Samplers).

Definition wrote (l : list Summary) (w : FsWorld) : Prop :=
  holds np vs (network_rows l) w ∧
  match hardware ws with
  | Some _ => holds hp hs (hardware_rows l) w
  | None => text w hp = untouched
  end.

(** Where the loop may be cut off, and where a round begins. *)
Definition written (w : FsWorld) : Prop := ∃ l s, sampled s0 l s ∧ wrote l w.
Definition round_files (run : RunState) (w : FsWorld) : Prop :=
  run_writers run = Some ws ∧
  ∃ l, sampled s0 l (run_sampler run, run_hardware_sampler run) ∧ wrote l w.

Lemma round_files_written run w : round_files run w → written w.
Proof. intros (_ & l & Hs & Hw). by exists l, (run_sampler run, run_hardware_sampler run). Qed.

Lemma goes_on_quiet {A B : Type} run (m : M App string A) (k : A → M App string B) Q :
  leaves_files m →
  (∀ x, goes_on (files_are (round_files run)) (k x) Q (files_are written)) →
  goes_on (files_are (round_files run)) (mthen m k) Q (files_are written).
Proof.
  intros Hm Hk. eapply goes_on_then; [apply goes_on_leaves; [done|apply round_files_written]|exact Hk].
Qed.

Context (network_path_is : handle_path (jw_file (network ws)) = np).
Context (hardware_path_is : ∀ hw, hardware ws = Some hw → handle_path (jw_file hw) = hp).
Context (two_files : np ≠ hp) (begun_network : vs ≠ []) (begun_hardware : hs ≠ []).

Lemma network_row_written l snapshot delta w w' :
  wrote l w → write_metrics_summary_jsonl snapshot delta (network ws) w = (Ok (), w') →
  wrote (l ++ [NetworkRow snapshot delta]) w'.
Proof.
  intros [Hn Hh] Hw. destruct (append_row_holds _ _ _ _ _ _ _ network_path_is Hn begun_network Hw) as [Hn' Hq].
  unfold wrote. rewrite network_rows_app, hardware_rows_app. cbn [hardware_rows omap list_omap].
  split; [exact Hn'|]. rewrite app_nil_r. destruct (hardware ws).
  - eapply holds_same; [|exact Hh]. by apply Hq.
  - by rewrite Hq.
Qed.

Lemma hardware_row_written l hw snapshot delta w w' :
  hardware ws = Some hw → wrote l w →
  write_hardware_metrics_summary_jsonl snapshot delta hw w = (Ok (), w') →
  wrote (l ++ [HardwareRow snapshot delta]) w'.
Proof.
  unfold wrote. intros Hhw [Hn Hh] Hw. pose proof (hardware_path_is hw Hhw) as Hpath. rewrite Hhw in *.
  destruct (append_row_holds _ _ _ _ _ _ _ Hpath Hh begun_hardware Hw) as [Hh' Hq].
  rewrite network_rows_app, hardware_rows_app. cbn [network_rows omap list_omap].
  split; [|exact Hh']. rewrite app_nil_r. eapply holds_same; [|exact Hn]. by apply Hq.
Qed.

(** A row that has no file of its own. *)
Lemma hardware_row_skipped l snapshot delta w :
  hardware ws = None → wrote l w → wrote (l ++ [HardwareRow snapshot delta]) w.
Proof.
  unfold wrote. intros ->. rewrite network_rows_app. cbn [network_rows omap list_omap]. by rewrite app_nil_r.
Qed.

(** An append that succeeds takes the files from one assertion to another. *)
Lemma goes_on_append message writer row (P Q R : FsWorld → Prop) :
  (∀ w w', P w → append_sample_row writer row w = (Ok (), w') → Q w') →
  goes_on (files_are P) (on_files message (append_sample_row writer row)) (λ _, files_are Q) (files_are R).
Proof.
  intros Hw a Ha. unfold on_files, files_are in *. specialize (Hw (app_files a)).
  assert (total (append_sample_row writer row)) as Ht by apply total_append_row. specialize (Ht (app_files a)).
  destruct (append_sample_row writer row (app_files a)) as [[[]|e| |] w']; try done. by apply Hw.
Qed.

Lemma goes_on_summarize_network run :
  goes_on (files_are (round_files run)) (summarize_network run)
    (λ run', files_are (round_files run')) (files_are written).
Proof.
  unfold summarize_network. apply goes_on_quiet; [apply leaves_files_snapshot|]. intros snapshot.
  destruct (ContextMetricsSampler_sample (run_sampler run) snapshot) as [delta sampler] eqn:Hs. cbn zeta.
  set (run' := mkRun _ _ _ _ _).
  assert (Hnext : ∀ l w, run_writers run = Some ws →
    sampled s0 l (run_sampler run, run_hardware_sampler run) →
    wrote (l ++ option_list (NetworkRow snapshot <$> delta)) w → round_files run' w).
  { intros l w Hws Hl Hw. split; [done|]. eexists. split; [|exact Hw].
    by apply (sampled_network _ _ (run_sampler run)). }
  eapply (goes_on_then _ _ _ (λ _, files_are (round_files run'))); [|intros ?; by apply goes_on_pure].
  intros a (Hws & l & Hl & Hw). revert a Hws Hw.
  destruct delta as [delta|].
  2: { intros a Hws Hw. apply (Hnext l); [done..|]. by rewrite app_nil_r. }
  intros a Hws Hw. cbn [run_writers run']. rewrite Hws. revert a Hw.
  apply (goes_on_append _ _ _ (wrote l)). intros w w' Hw Happend.
  apply (Hnext l); [done..|]. by eapply network_row_written.
Qed.

Lemma goes_on_summarize_hardware run :
  goes_on (files_are (round_files run)) (summarize_hardware run)
    (λ run', files_are (round_files run')) (files_are written).
Proof.
  unfold summarize_hardware. destruct (run_hardware_sampler run) as [hsampler|] eqn:Eh;
    [|by apply goes_on_pure].
  apply goes_on_quiet; [apply leaves_files_capture|].
  intros [snapshot|]; [|by apply goes_on_pure].
  destruct (HardwareMetricsSampler_sample hsampler snapshot) as [delta sampler] eqn:Hs. cbn zeta.
  set (run' := mkRun _ _ _ _ _).
  assert (Hnext : ∀ l w, run_writers run = Some ws →
    sampled s0 l (run_sampler run, run_hardware_sampler run) →
    wrote (l ++ option_list (HardwareRow snapshot <$> delta)) w → round_files run' w).
  { intros l w Hws Hl Hw. split; [done|]. eexists. split; [|exact Hw]. rewrite Eh in Hl.
    by apply (sampled_hardware _ _ _ hsampler). }
  eapply (goes_on_then _ _ _ (λ _, files_are (round_files run'))); [|intros ?; by apply goes_on_pure].
  intros a (Hws & l & Hl & Hw). revert a Hws Hw.
  destruct delta as [delta|].
  2: { intros a Hws Hw. apply (Hnext l); [done..|]. by rewrite app_nil_r. }
  intros a Hws Hw. cbn [run_writers run']. rewrite Hws.
  assert (Ehw : hardware ws = None ∨ ∃ hw, hardware ws = Some hw) by (destruct (hardware ws); eauto).
  destruct Ehw as [Ehw|[hw Ehw]]; rewrite Ehw.
  { apply (Hnext l); [done..|]. by apply hardware_row_skipped. }
  revert a Hw. apply (goes_on_append _ _ _ (wrote l)). intros w w' Hw Happend.
  apply (Hnext l); [done..|]. by eapply hardware_row_written.
Qed.

Lemma goes_on_round run :
  goes_on (files_are (round_files run)) (run_round run)
    (λ run', files_are (round_files run')) (files_are written).
Proof.
  unfold run_round. apply goes_on_quiet; [apply leaves_files_receive|]. intros [].
  destruct (run_interval run) as [interval|]; [|by apply goes_on_pure].
  destruct (run_next_summary_at run) as [next|]; [|by apply goes_on_pure].
  apply goes_on_quiet; [apply leaves_files_world|]. intros now.
  case_bool_decide; [|by apply goes_on_pure].
  eapply goes_on_then; [apply goes_on_summarize_network|]. intros run1.
  eapply goes_on_then; [apply goes_on_summarize_hardware|]. intros run2.
  apply goes_on_quiet; [apply leaves_files_deadline|]. intros next'. by apply goes_on_pure.
Qed.

Lemma loop_files fuel run a :
  round_files run (app_files a) →
  let '(r, a') := run_loop fuel run a in (∀ message, r ≠ Err message) → written (app_files a').
Proof.
  revert run a. induction fuel as [|fuel IH]; intros run a Ha; cbn [run_loop].
  { intros _. by eapply round_files_written. }
  unfold mthen. pose proof (goes_on_round run a Ha) as Hround.
  destruct (run_round run a) as [[run'|message| |] a']; [by apply IH| |by intros _..].
  intros Hne. by destruct (Hne message).
Qed.
End loop.

(** *** The start *)

Lemma leaves_files_inv {A B : Type} (m : M App string A) (k : A → M App string B) a b a' :
  mthen m k a = (Ok b, a') → leaves_files m →
  ∃ x a1, m a = (Ok x, a1) ∧ k x a1 = (Ok b, a') ∧ app_files a1 = app_files a.
Proof.
  intros (x & a1 & Hm & Hk)%mthen_inv Hl. exists x, a1. split_and!; [done..|].
  specialize (Hl a). by rewrite Hm in Hl.
Qed.

Lemma leaves_files_usage program : leaves_files (print_usage program).
Proof. apply leaves_files_print_all. Qed.

Lemma or_usage_Ok args parsed a a1 :
  or_usage 3 print_usage (λ args, on_world (λ s, s) (parse_receive_cli_args args)) args a = (Ok parsed, a1) →
  app_files a1 = app_files a ∧
  ∃ w, parse_receive_cli_args args (app_world a) = (Ok parsed, w).
Proof.
  unfold or_usage.
  assert (Husage : ∀ err b, ((let* program := mlift (expect (args !! 0)) in print_usage program) ;;*
    mthrow err) b ≠ (Ok parsed, a1)).
  { intros err b (? & ? & _ & ?)%mthen_inv. done. }
  case_bool_decide; [by intros ?%Husage|]. unfold mthen at 1, mcatch, on_world.
  destruct (parse_receive_cli_args args (app_world a)) as [[p|e| |] w]; cbn; [|by intros ?%Husage|done..].
  intros [= -> <-]. cbn. eauto.
Qed.

Lemma hardware_sampler_iff a x a1 :
  init_hardware_metrics_sampler a = (Ok x, a1) →
  app_files a1 = app_files a ∧ (if x then true else false) = has_hardware.
Proof.
  unfold init_hardware_metrics_sampler. destruct has_hardware.
  - intros (snapshot & a2 & _ & [= <- <-] & Hf)%leaves_files_inv; [done|apply leaves_files_world].
  - by intros [= <- <-].
Qed.

(** What a start with a summary file leaves behind. *)
Lemma run_start_files env args a state a1 np :
  run_start env args a = (Ok state, a1) → summary_file_from_env env = Some np →
  ∃ parsed w output created_at ws,
    parse_receive_cli_args args (app_world a) = (Ok parsed, w) ∧
    summary_output_from_env env (ra_group parsed) (ra_dst_port parsed) (ra_source parsed)
      (ra_interface parsed) (ra_interface_index parsed) = Ok (Some output) ∧
    oc_network_path output = np ∧
    metrics_jsonl_writers_from_output output has_hardware created_at (app_files a) = (Ok ws, app_files a1) ∧
    run_writers state = Some ws.
Proof.
  intros Hrun Hnp. unfold run_start in Hrun.
  apply mthen_inv in Hrun as (l & a' & Hargs & Hrun).
  unfold collect_args in Hargs. destruct (forallb utf8_valid args); [|done]. injection Hargs as <- <-.
  apply mthen_inv in Hrun as (parsed & b1 & (Hf1 & w & Hparse)%or_usage_Ok & Hrun). cbn zeta in Hrun.
  apply leaves_files_inv in Hrun as (id & b2 & _ & Hrun & Hf2); [|apply leaves_files_context].
  apply leaves_files_inv in Hrun as ([] & b3 & _ & Hrun & Hf3); [|apply leaves_files_context].
  rewrite <- Hf1, <- Hf2, <- Hf3. clear Hf1 Hf2 Hf3.
  do 8 (apply leaves_files_inv in Hrun as ([] & ? & _ & Hrun & <-); [|apply leaves_files_println]).
  apply leaves_files_inv in Hrun as (o & b4 & Hout & Hrun & <-); [|apply leaves_files_lift].
  apply leaves_files_inv in Hrun as (snapshot & b5 & _ & Hrun & <-); [|apply leaves_files_snapshot].
  apply mthen_inv in Hrun as (hsampler & b6 & (<- & Hh)%hardware_sampler_iff & Hrun).
  apply mthen_inv in Hrun as (writers & b7 & Hwriters & Hrun).
  apply leaves_files_inv in Hrun as (next & b8 & _ & [= <- <-] & ->); [|apply leaves_files_deadline].
  cbn [run_writers]. unfold mlift in Hout. injection Hout as Hout _.
  destruct (summary_output_path _ _ _ _ _ _ _ _ Hout Hnp) as (output & -> & Hpath).
  apply leaves_files_inv in Hwriters as (created_at & b9 & _ & Hwriters & <-); [|apply leaves_files_world].
  apply mthen_inv in Hwriters as (ws & b10 & Hopen & [= <- <-]).
  exists parsed, w, output, created_at, ws. split_and!; try done.
  unfold on_files in Hopen. rewrite Hh in Hopen.
  destruct (metrics_jsonl_writers_from_output _ _ _ _) as [[]] eqn:E; try done.
  by injection Hopen as -> <-.
Qed.

End run_files.

(** ** The program does not unwind *)

Section no_unwinding.
Context {os : Os} {process : Process} {clock : Clock} {files : Fs} {serde : Json}.
Context {terminal : Terminal} {terminal_laws : TerminalLaws}.
Context {fs_laws : FsLaws} (env : string → option string).
Context (laws : OsLaws).

(** The first deadline, and every later one, can be represented. *)
Context (deadlines : ∀ interval w, summary_interval_from_env env = Some interval →
  ((instant_now w).1 + interval ≤ last_instant)%Z).

(** The context satisfies its invariant, with a bound on the identifiers. *)
Definition app_inv (bound : Z) (a : App) : Prop := inv_upto bound (app_context a).

Lemma keeps_println b p : keeps (app_inv b) (println p).
Proof. intros a Ha. unfold println. by rewrite write_line_accepted. Qed.

Lemma keeps_print_all b l : keeps (app_inv b) (print_all l).
Proof.
  induction l as [|p l IH]; [by apply hoare_pure|].
  eapply hoare_then; [apply keeps_println|intros []; exact IH].
Qed.

Lemma keeps_on_world {E A : Type} b (message : E → string) (m : M World E A) :
  total m → keeps (app_inv b) (on_world message m).
Proof.
  intros Hm a Ha. unfold on_world. specialize (Hm (app_world a)).
  by destruct (m (app_world a)) as [[] w].
Qed.

Lemma keeps_on_files {A : Type} b (message : IoError → string) (m : M FsWorld IoError A) :
  total m → keeps (app_inv b) (on_files message m).
Proof.
  intros Hm a Ha. unfold on_files. specialize (Hm (app_files a)).
  by destruct (m (app_files a)) as [[] w].
Qed.

Lemma keeps_world_call {A : Type} b (m : Call World A) : keeps (app_inv b) (world_call m).
Proof. apply keeps_on_world. intros w. by destruct (m w). Qed.

Lemma keeps_context_op {A : Type} b message (m : Op (Context * World) A) :
  safe (inv_upto b) m → keeps (app_inv b) (on_context message m).
Proof.
  intros Hm a Ha. unfold on_context. destruct (Hm (app_context a, app_world a) Ha) as [Hr Hi].
  by destruct (m (app_context a, app_world a)) as [[] [c w]].
Qed.

Lemma keeps_snapshot b : keeps (app_inv b) snapshot_context.
Proof.
  intros a Ha. refine (keeps_on_world b _ (context_metrics_snapshot (app_context a)) _ a Ha).
  apply total_then; [|intros ?; apply total_mpure]. intros w. unfold call. by destruct (system_time_now w).
Qed.

Lemma keeps_capture b : keeps (app_inv b) capture_hardware_metrics_snapshot.
Proof.
  unfold capture_hardware_metrics_snapshot. case_match; [|by apply hoare_pure].
  apply keeps_mmap, keeps_on_world. intros w. apply capture_total.
Qed.

Lemma keeps_deadline b : keeps (app_inv b) (deadline (summary_interval_from_env env)).
Proof.
  destruct (summary_interval_from_env env) as [interval|] eqn:E; [|by apply hoare_pure].
  intros a Ha. unfold deadline, mmap, mthen, world_call, on_world.
  pose proof (deadlines interval (app_world a) eq_refl) as Hd.
  destruct (instant_now (app_world a)) as [now w]. cbn in *.
  unfold mlift, instant_add. by rewrite bool_decide_eq_true_2.
Qed.

Lemma keeps_receive_and_print b : keeps (app_inv b) receive_and_print.
Proof.
  unfold receive_and_print. eapply hoare_then; [apply keeps_context_op|].
  - apply safe_upto. intros. apply safe_try_recv_from_joined. by apply try_recv_method.
  - intros [packet|]; [|apply keeps_world_call].
    eapply hoare_then; [apply keeps_println|intros []; apply keeps_println].
Qed.

(** The state of the loop keeps the interval of the environment. *)
Definition from_env (run : RunState) : Prop := run_interval run = summary_interval_from_env env.

Lemma hoare_summarize_network b run : from_env run →
  hoare (app_inv b) (summarize_network run) (λ run' a, app_inv b a ∧ from_env run') (app_inv b).
Proof.
  intros Hrun. unfold summarize_network. eapply hoare_then; [apply keeps_snapshot|]. intros snapshot.
  destruct (ContextMetricsSampler_sample _ snapshot) as [delta sampler]. cbn zeta.
  eapply (hoare_then _ _ _ (λ _, app_inv b)); [|intros _; by apply hoare_pure].
  destruct delta as [delta|]; [|by apply hoare_pure].
  destruct (run_writers _); [|apply keeps_print_all].
  apply keeps_on_files, total_append_row.
Qed.

Lemma hoare_summarize_hardware b run : from_env run →
  hoare (app_inv b) (summarize_hardware run) (λ run' a, app_inv b a ∧ from_env run') (app_inv b).
Proof.
  intros Hrun. unfold summarize_hardware. destruct (run_hardware_sampler run) as [sampler|];
    [|by apply hoare_pure].
  eapply hoare_then; [apply keeps_capture|]. intros [snapshot|]; [|by apply hoare_pure].
  destruct (HardwareMetricsSampler_sample sampler snapshot) as [delta sampler']. cbn zeta.
  eapply (hoare_then _ _ _ (λ _, app_inv b)); [|intros _; by apply hoare_pure].
  destruct delta as [delta|]; [|by apply hoare_pure].
  destruct (run_writers _) as [writers|]; [|apply keeps_print_all].
  destruct (hardware writers); [|by apply hoare_pure].
  apply keeps_on_files, total_append_row.
Qed.

Lemma hoare_run_round b run : from_env run →
  hoare (app_inv b) (run_round run) (λ run' a, app_inv b a ∧ from_env run') (app_inv b).
Proof.
  intros Hrun. unfold run_round. eapply hoare_then; [apply keeps_receive_and_print|]. intros [].
  destruct (run_interval run) as [interval|] eqn:Ei; [|by apply hoare_pure].
  destruct (run_next_summary_at run) as [next|]; [|by apply hoare_pure].
  eapply hoare_then; [apply keeps_world_call|]. intros now.
  case_bool_decide; [|by apply hoare_pure].
  eapply hoare_then; [by apply hoare_summarize_network|]. intros run1.
  intros a [Ha Hrun1]. revert a Ha.
  change (hoare (app_inv b)
    (let* run := summarize_hardware run1 in
     let* next := deadline (Some interval) in
     mpure (mkRun (run_interval run) (run_sampler run) (run_hardware_sampler run)
              (run_writers run) next)) (λ run' a, app_inv b a ∧ from_env run') (app_inv b)).
  eapply hoare_then; [by apply hoare_summarize_hardware|]. intros run2 a [Ha Hrun2]. revert a Ha.
  change (hoare (app_inv b)
    (let* next := deadline (Some interval) in
     mpure (mkRun (run_interval run2) (run_sampler run2) (run_hardware_sampler run2)
              (run_writers run2) next)) (λ run' a, app_inv b a ∧ from_env run') (app_inv b)).
  unfold from_env in Hrun. rewrite Ei in Hrun. rewrite Hrun.
  eapply hoare_then; [apply keeps_deadline|]. intros next'. by apply hoare_pure.
Qed.

Lemma run_loop_outcome fuel : ∀ b run a, from_env run → app_inv b a →
  let '(r, a') := run_loop fuel run a in
  (r = OutOfFuel ∨ ∃ message, r = Err message) ∧ app_inv b a'.
Proof.
  induction fuel as [|fuel IH]; intros b run a Hrun Ha; cbn [run_loop]; [split; [by left|done]|].
  pose proof (hoare_run_round b run Hrun a Ha) as Hround. unfold mthen.
  destruct (run_round run a) as [[run'|message| |] a']; [|by split; [right; eauto|]|done..].
  destruct Hround as [Ha' Hrun']. by apply IH.
Qed.

Lemma total_writers output include created_at :
  total (metrics_jsonl_writers_from_output output include created_at).
Proof.
  unfold metrics_jsonl_writers_from_output. apply total_then; [apply total_writer_open|]. intros nw.
  destruct include; [|apply total_mpure]. apply total_then; [|intros ?; apply total_mpure].
  intros w. unfold drop_on_error. pose proof (total_writer_open
    (hardware_summary_file_path (oc_network_path output)) (hardware_header output created_at) w) as Hr.
  by destruct (writer_open _ _ w) as [[] ?].
Qed.

Lemma returns_summary_output group port source interface index :
  returns (summary_output_from_env env group port source interface index).
Proof.
  unfold summary_output_from_env. destruct (summary_file_from_env env); [|done].
  unfold build_receiver_metrics_flags, metrics_flags_from_env.
  destruct (env "MCRX_METRICS_FLAGS_JSON") as [raw|]; [|done].
  destruct (trim raw) as [|c s]; [done|]. destruct (from_str _) as [v|e]; [|done]. cbn.
  by destruct (as_object v).
Qed.

Lemma app_inv_weaken b b' a : (b ≤ b')%Z → app_inv b a → app_inv b' a.
Proof. intros Hb. apply inv_upto_weaken, Hb. Qed.

Lemma hoare_add message config :
  hoare (app_inv 1) (on_context message (add_subscription config)) (λ _, app_inv 2) (app_inv 2).
Proof.
  intros a Ha. unfold on_context.
  pose proof (safe_add_with 1 config (open_bound_socket config) (app_context a, app_world a)
    (total_open_bound_socket config) Ha) as Hs.
  cbv zeta in Hs. fold (add_subscription config) in Hs. destruct Hs as [Hr Hi]; [done|].
  by destruct (add_subscription config (app_context a, app_world a)) as [[] [c w]].
Qed.

Lemma keeps_lift {A : Type} b (r : Res string A) : returns r → keeps (app_inv b) (mlift r).
Proof. intros Hr a Ha. by destruct r. Qed.

Lemma hoare_run_start args : args ≠ [] → forallb utf8_valid args = true →
  hoare (app_inv 1) (run_start env args) (λ run a, app_inv 2 a ∧ from_env run) (app_inv 2).
Proof.
  intros Hargs Hunicode. unfold run_start. assert (Hw : ∀ a, app_inv 1 a → app_inv 2 a).
  { intros a. apply app_inv_weaken. lia. }
  unfold collect_args. rewrite Hunicode.
  eapply (hoare_then _ _ _ (λ l a, l = args ∧ app_inv 1 a)); [by apply hoare_pure|].
  intros l. apply hoare_match_pure. intros ->.
  eapply (hoare_then (app_inv 1) _ _ (λ _, app_inv 1)).
  { apply hoare_or_usage; [done| |intros ?; apply keeps_print_all|exact Hw].
    eapply hoare_conseq; [apply (keeps_on_world 1 (λ s, s)), total_receive_cli_args|done..|exact Hw]. }
  intros parsed. cbn zeta. eapply hoare_then; [apply hoare_add|]. intros id.
  eapply hoare_then; [apply keeps_context_op, safe_upto; intros; by apply safe_join|]. intros [].
  do 8 (eapply hoare_then; [apply keeps_println|intros []]).
  eapply hoare_then; [apply keeps_lift, returns_summary_output|]. intros output.
  eapply hoare_then; [apply keeps_snapshot|]. intros snapshot.
  eapply (hoare_then _ _ _ (λ _, app_inv 2)).
  { unfold init_hardware_metrics_sampler. case_match; [|by apply hoare_pure].
    eapply hoare_then; [apply keeps_on_world; intros w; apply capture_total|]. intros ?. by apply hoare_pure. }
  intros hardware_sampler. eapply (hoare_then _ _ _ (λ _, app_inv 2)).
  { destruct output as [output|]; [|by apply hoare_pure].
    eapply hoare_then; [apply keeps_world_call|]. intros created_at.
    apply keeps_mmap, keeps_on_files, total_writers. }
  intros writers. eapply hoare_then; [apply keeps_deadline|]. intros next. by apply hoare_pure.
Qed.
End no_unwinding.

(** C38: the whole program, from its start on a new context, runs until an
    error ends it with exit code 1 and the message on standard error: in every
    environment, whatever the operating system, the file system and the clock
    answer, it does not unwind, and its context stays well formed. This is
    said of a command line whose arguments are Unicode and name the program
    ([env::args] and [args[0]] unwind otherwise), of a terminal that accepts
    what is written to it ([println!] unwinds otherwise), and of a summary
    interval that ends before the last representable instant. On Unix nothing
    else is assumed; on Windows it relies on [OsLaws]. *)
Theorem receiver_never_unwinds {os : Os} {process : Process} {clock : Clock} {files : Fs}
    {serde : Json} {terminal : Terminal} {fs_laws : FsLaws} (env : string → option string)
    (args : list string) (fuel : nat) (w : World) (f : FsWorld) :
  OsLaws → TerminalLaws → args ≠ [] → forallb utf8_valid args = true →
  (∀ interval w, summary_interval_from_env env = Some interval →
     ((instant_now w).1 + interval ≤ last_instant)%Z) →
  let '(r, a) := main env fuel args (mkApp Context_new w f []) in
  (r = OutOfFuel ∨
   r = Ok 1%Z ∧ ∃ message, last (app_printed a) = Some (ErrLine ("mcrx-recv: " +:+ message))) ∧
  ctx_inv (app_context a).
Proof.
  intros Hl Hterminal Hargs Hunicode Hd.
  assert (app_inv 1 (mkApp Context_new w f [])) as Ha by (split; [apply ctx_inv_new|done]).
  pose proof (hoare_run_start env Hl Hd args Hargs Hunicode _ Ha) as Hstart.
  unfold main. rewrite exit_with_eq. unfold run, mthen at 1.
  assert (Hexit : ∀ message a, ((println (ErrLine ("mcrx-recv" +:+ ": " +:+ message)) ;;* mpure 1%Z) a : Res string Z * App) =
    (Ok 1%Z, mkApp (app_context a) (app_world a) (app_files a)
               (app_printed a ++ [ErrLine ("mcrx-recv" +:+ ": " +:+ message)]))).
  { intros message a. unfold mthen, println. by rewrite write_line_accepted. }
  destruct (run_start env args _) as [[state|message| |] a]; [| |done..].
  - destruct Hstart as [Ha' Hstate].
    pose proof (run_loop_outcome env Hl Hd fuel 2 state a Hstate Ha') as Hloop.
    destruct (run_loop fuel state a) as [r a']. destruct Hloop as [[->|[message ->]] [Hi _]].
    + by split; [left|].
    + cbv beta. rewrite Hexit. split; [|done]. right. split; [done|]. exists message. apply last_snoc.
  - cbv beta. rewrite Hexit. split; [|by destruct Hstart]. right. split; [done|]. exists message. apply last_snoc.
Qed.

(** An argument that is not Unicode makes the program unwind before it has
    looked at any. *)
Theorem non_unicode_argument_unwinds {os : Os} {process : Process} {clock : Clock} {files : Fs}
    {serde : Json} {terminal : Terminal} (env : string → option string) fuel args arg a :
  arg ∈ args → utf8_valid arg = false → main env fuel args a = (Panic, a).
Proof.
  intros Hin Hbad. unfold main. rewrite exit_with_eq. unfold run, mthen at 1, run_start, mthen at 1.
  by rewrite (collect_args_refuses _ _ Hin Hbad).
Qed.

(** A summary interval that is too long makes the program unwind when it
    starts: [u64] seconds are accepted from the environment, and adding them
    to the current instant overflows. *)
Theorem long_interval_unwinds {os : Os} {process : Process} {clock : Clock} {files : Fs}
    {serde : Json} {terminal : Terminal} (env : string → option string) (args : list string) (a : App) :
  env "MCRX_METRICS_SUMMARY_SECS" = Some "18446744073709551615" →
  (∀ w, 0 ≤ (instant_now w).1)%Z → (last_instant < u64_max * nanos_per_sec)%Z →
  (deadline (summary_interval_from_env env) a).1 = Panic ∧
  ∀ state, (run_start env args a).1 ≠ Ok state.
Proof.
  intros Henv Hnow Hlast.
  assert (summary_interval_from_env env = Some (u64_max * nanos_per_sec)%Z) as Hi.
  { unfold summary_interval_from_env. by rewrite Henv. }
  assert (∀ a, (deadline (summary_interval_from_env env) a).1 = Panic) as Hpanic.
  { intros a'. rewrite Hi. unfold deadline, mmap, mthen, world_call, on_world.
    specialize (Hnow (app_world a')). destruct (instant_now (app_world a')) as [now w]. cbn in *.
    unfold mlift, instant_add. by rewrite bool_decide_eq_false_2 by lia. }
  split; [apply Hpanic|]. intros state Hok.
  destruct (run_start env args a) as [r a'] eqn:Hrun. cbn in Hok. subst r.
  unfold run_start in Hrun.
  repeat match type of Hrun with
  | mthen _ _ _ = (Ok _, _) => apply mthen_inv in Hrun as (? & ? & ? & Hrun); cbv beta in Hrun; cbn zeta in Hrun
  end.
  match goal with H : deadline _ ?s = (Ok _, _) |- _ => specialize (Hpanic s); by rewrite H in Hpanic end.
Qed.

(** ** A run *)

(** The clock of Linux: 64-bit seconds. *)
Definition sample_clock : @Clock sample_os := {|
  instant_now := (λ w, (Z.of_nat w, S w)) : @Call nat Z;
  last_instant := 9223372036854775807 * nanos_per_sec + 999999999;
  thread_sleep _ := (λ w, ((), w)) : @Call nat unit |}.

Definition sample_env (name : string) : option string :=
  if String.eqb name "MCRX_METRICS_SUMMARY_FILE" then Some "/tmp/client-0001/network-metrics.jsonl"
  else if String.eqb name "MCRX_METRICS_NODE_ID" then Some "   "
  else if String.eqb name "MCRX_METRICS_SUMMARY_SECS" then Some "5"
  else None.

Definition sample_request : Res string (option (@MetricsJsonlOutputConfig Sample.tree_json)) :=
  summary_output_from_env sample_env (H := Sample.tree_json) (V4 sample_group) 5000 None None None.
Definition sample_output : @MetricsJsonlOutputConfig Sample.tree_json :=
  match sample_request with
  | Ok (Some output) => output
  | _ => mkOutputConfig (H0 := Sample.tree_json) [] "" ∅
  end.

Lemma sample_output_from_env : sample_request = Ok (Some sample_output).
Proof.
  assert (match sample_request with Ok (Some _) => true | _ => false end = true) as Hok
    by (vm_compute; reflexivity).
  unfold sample_output. by destruct sample_request as [[]| | |].
Qed.

Example sample_node_id : oc_node_id sample_output = "client-0001".
Proof. vm_compute. reflexivity. Qed.

Definition sample_delta : ContextMetricsDelta :=
  (mkCtxDelta (as_secs_f64 1000000000) 10 1000 1 0 0 0 1 10)%Z.
Definition sample_hardware (n : Z) : HardwareMetricsSnapshot :=
  (mkHwSnapshot (as_secs_f64 n) f64_zero 8192 10485760 4 11 1 2 3 4 n)%Z.
Definition sample_hardware_delta : HardwareMetricsDelta :=
  (mkHwDelta f64_zero f64_zero f64_zero f64_zero f64_zero f64_zero 1 2 3 4 5 6 7 8)%Z.

Lemma own_headers_and_rows_are_valid_witness :
  validate_requested_header (H := Sample.tree_json) (network_header sample_output 7%Z) = Ok () ∧
  validate_requested_header (H := Sample.tree_json) (hardware_header sample_output 7%Z) = Ok ().
Proof.
  destruct (own_headers_and_rows_are_valid (serde := Sample.tree_json)
    (serde_laws := Sample.tree_json_laws) sample_env (V4 sample_group) 5000 None None None
    sample_output 7%Z (sample_snapshot 1) sample_delta (sample_hardware 1) sample_hardware_delta
    sample_output_from_env) as (H1 & H2 & _ & _).
  exact (conj H1 H2).
Defined.

Definition hardware_path : Path :=
  [RootDir; Normal "tmp"; Normal "client-0001"; Normal "network-metrics_hardware.jsonl"].

(** Ten seconds pass between two looks at the clock. *)
Definition slow_clock : @Clock sample_os := {|
  instant_now := (λ w, (Z.of_nat w * 10000000000, S w)%Z) : @Call nat Z;
  last_instant := 9223372036854775807 * nanos_per_sec + 999999999;
  thread_sleep _ := (λ w, ((), w)) : @Call nat unit |}.

(** The program on empty files, with a summary at the end of every round. *)
Definition sample_args : list string := ["mcrx-recv"; "239.1.2.3"; "5000"].
Definition sample_started :=
  run_start (process := sample_process) (clock := slow_clock) (files := Sample.disk_fs)
    (serde := Sample.tree_json) (terminal := open_terminal) sample_env sample_args
    (mkApp (os := sample_os) (files := Sample.disk_fs) Context_new (0 : nat) Sample.blank_disk []).
Definition sample_state : @RunState Sample.disk_fs :=
  if sample_started.1 is Ok state then state
  else mkRun (files := Sample.disk_fs) None None None None None.
Definition sample_ran (rounds : nat) :=
  run_loop (process := sample_process) (clock := slow_clock) (files := Sample.disk_fs)
    (serde := Sample.tree_json) (terminal := open_terminal) rounds sample_state sample_started.2.
Definition sample_file (rounds : nat) (p : Path) : option (list Sample.Tree) :=
  document (H := Sample.tree_json) (Sample.files (app_files (sample_ran rounds).2) p).

Lemma ok_second {E A S : Type} (x : Res E A * S) a : x.1 = Ok a → x = (Ok a, x.2).
Proof. destruct x. by intros [= ->]. Qed.

#[local] Opaque run_start run_loop.


#[local] Transparent run_start run_loop.

Lemma receiver_never_unwinds_witness :
  let '(r, a) := main (process := sample_process) (clock := sample_clock) (files := Sample.disk_fs)
    (serde := Sample.tree_json) (terminal := open_terminal) (λ _, None) 3 ["mcrx-recv"; "239.1.2.3"; "5000"]
    (mkApp (os := sample_os) (files := Sample.disk_fs) Context_new (0 : nat) Sample.blank_disk []) in
  (r = OutOfFuel ∨
   r = Ok 1%Z ∧ ∃ message, last (app_printed a) = Some (ErrLine ("mcrx-recv: " +:+ message))) ∧
  ctx_inv (app_context a).
Proof.
  apply (receiver_never_unwinds (process := sample_process) (clock := sample_clock)
    (files := Sample.disk_fs) (fs_laws := Sample.disk_laws) (serde := Sample.tree_json)
    (terminal := open_terminal));
    [apply sample_laws|apply open_terminal_laws|discriminate|reflexivity|].
  intros interval w. discriminate.
Defined.

Lemma long_interval_unwinds_witness :
  (deadline (clock := sample_clock) (files := Sample.disk_fs)
    (summary_interval_from_env (λ _, Some "18446744073709551615"))
    (mkApp (os := sample_os) (files := Sample.disk_fs) Context_new (0 : nat) Sample.blank_disk [])).1 = Panic.
Proof.
  refine (proj1 (long_interval_unwinds (process := sample_process) (clock := sample_clock)
    (files := Sample.disk_fs) (serde := Sample.tree_json) (terminal := open_terminal) (λ _, Some "18446744073709551615")
    ["mcrx-recv"] _ _ _ _)); [reflexivity| |vm_compute; reflexivity].
  intros w. apply Zle_0_nat.
Defined.
