(* ===== verification/Python.v ===== *)
(** * The Python bindings ([src/mcrx-core-py/src/lib.rs])

    The classes [Context] and [Subscription] of the extension module, which
    share one library context behind a [RefCell], and the packet classes that
    copy what was received. A Python exception is an error of type [PyErr];
    creating an object cannot fail here. *)

From Stdlib Require Import Strings.Ascii.
From S2P Require Import Prelude Hoare Net Errors Config Packet Metrics Os SampleOs Platform Subscription Context Text Ffi.

Local Open Scope string_scope.
Local Open Scope list_scope.
Local Open Scope nat_scope.

(** The exceptions that the module raises. *)
Inductive PyErr :=
  | PyValueError (message : string)
  | PyLookupError (message : string)
  | PyOSError (message : string)
  | PyRuntimeError (message : string).

#[global] Instance PyErr_eq_dec : EqDecision PyErr.
Proof. solve_decision. Defined.

Definition invalid_argument (message : string) : PyErr := PyValueError message.

Definition borrow_error (kind : string) : PyErr :=
  PyRuntimeError ("mcrx_core " +:+ kind +:+ " is already borrowed by another operation").

Definition mcrx_error_to_py (err : McrxError) : PyErr :=
  match err with
  | InvalidDestinationPort | InvalidMulticastGroup | SsmGroupRequiresSource
  | InvalidSourceAddress | InvalidIpv4SsmGroup | InvalidIpv6SsmGroup
  | SourceAddressFamilyMismatch | InterfaceAddressFamilyMismatch | InvalidInterfaceIndex
  | InterfaceIndexRequiresIpv6 | InvalidSubscriptionAddressFamily
  | Ipv6SourceSpecificMulticastRequiresInterface => PyValueError (mcrx_error_to_string err)
  | SubscriptionNotFound => PyLookupError (mcrx_error_to_string err)
  | SocketCreateFailed io_err | SocketOptionFailed io_err | SocketBindFailed io_err
  | RawSocketCreateFailed io_err | RawSocketBindFailed io_err | SocketLocalAddrFailed io_err
  | SocketIoctlFailed io_err | MulticastJoinFailed io_err | MulticastLeaveFailed io_err
  | ReceiveFailed io_err | InterfaceProbeBindFailed io_err | InterfaceProbeConnectFailed io_err
  | InterfaceProbeLocalAddrFailed io_err => PyOSError (io_text io_err)
  | other => PyRuntimeError (mcrx_error_to_string other)
  end.

(** ** Text *)

Definition parse_ip_addr (raw field : string) : Res PyErr IpAddr :=
  ok_or (Text.parse_ip_addr raw)
        (invalid_argument ("invalid " +:+ field +:+ " IP address: " +:+ raw)).

Definition parse_optional_ip_addr (raw : option string) (field : string)
    : Res PyErr (option IpAddr) :=
  match raw with
  | None => Ok None
  | Some value => res_map Some (parse_ip_addr value field)
  end.

Definition addr_to_tuple (addr : SocketAddr) : string * Z :=
  (ip_display (sock_ip addr), sock_port addr).

Definition opt_addr_to_tuple (addr : option SocketAddr) : option (string * Z) :=
  addr_to_tuple <$> addr.

Definition source_filter_string (filter : SourceFilter) : string * option string :=
  match filter with
  | SourceAny => ("asm", None)
  | Source source => ("ssm", Some (ip_display source))
  end.

Definition subscription_state_name (state : SubscriptionState) : string :=
  match state with Bound => "bound" | Joined => "joined" end.

(** [{:?}] of a string that needs no escapes (addresses and names of states),
    and of a pair. *)
Definition quoted (s : string) : string :=
  String (Ascii.ascii_of_nat 34) (s +:+ String (Ascii.ascii_of_nat 34) "").
Definition debug_tuple (t : string * Z) : string :=
  "(" +:+ quoted t.1 +:+ ", " +:+ display_Z t.2 +:+ ")".

(** ** Packets *)

Record PyPacket := mkPyPacket {
  pp_subscription_id : Z;
  pp_source_addr : string;
  pp_source_port : Z;
  pp_group : string;
  pp_dst_port : Z;
  pp_payload : list byte }.

Definition PyPacket_from (packet : Packet) : PyPacket :=
  mkPyPacket (pk_subscription_id packet) (ip_display (sock_ip (pk_source packet)))
    (sock_port (pk_source packet)) (ip_display (pk_group packet)) (pk_dst_port packet)
    (pk_payload packet).

Definition pp_source (p : PyPacket) : string * Z := (pp_source_addr p, pp_source_port p).
Definition pp_payload_len (p : PyPacket) : nat := length (pp_payload p).

Definition PyPacket_repr (p : PyPacket) : string :=
  "Packet(subscription_id=" +:+ display_Z (pp_subscription_id p) +:+
  ", source=(" +:+ pp_source_addr p +:+ ", " +:+ display_Z (pp_source_port p) +:+
  "), group=" +:+ quoted (pp_group p) +:+ ", dst_port=" +:+ display_Z (pp_dst_port p) +:+
  ", payload_len=" +:+ display_Z (Z.of_nat (length (pp_payload p))) +:+ ")".

Record PyReceiveMetadata := mkPyMetadata {
  pym_socket_local_addr : option (string * Z);
  pym_configured_interface : option string;
  pym_configured_interface_index : option Z;
  pym_destination_local_ip : option string;
  pym_ingress_interface_index : option Z }.

Definition PyReceiveMetadata_from (metadata : ReceiveMetadata) : PyReceiveMetadata :=
  mkPyMetadata (opt_addr_to_tuple (md_socket_local_addr metadata))
    (ip_display <$> md_configured_interface metadata)
    (md_configured_interface_index metadata)
    (ip_display <$> md_destination_local_ip metadata)
    (md_ingress_interface_index metadata).

Definition PyReceiveMetadata_repr (m : PyReceiveMetadata) : string :=
  "ReceiveMetadata(socket_local_addr=" +:+ debug_option debug_tuple (pym_socket_local_addr m) +:+
  ", configured_interface=" +:+ debug_option quoted (pym_configured_interface m) +:+
  ", configured_interface_index=" +:+ debug_option display_Z (pym_configured_interface_index m) +:+
  ", destination_local_ip=" +:+ debug_option quoted (pym_destination_local_ip m) +:+
  ", ingress_interface_index=" +:+ debug_option display_Z (pym_ingress_interface_index m) +:+ ")".

Record PyPacketWithMetadata := mkPyPacketWithMetadata {
  ppm_packet : PyPacket;
  ppm_metadata : PyReceiveMetadata }.

Definition PyPacketWithMetadata_from (packet : PacketWithMetadata) : PyPacketWithMetadata :=
  mkPyPacketWithMetadata (PyPacket_from (pm_packet packet))
    (PyReceiveMetadata_from (pm_metadata packet)).

Definition PyPacketWithMetadata_repr (p : PyPacketWithMetadata) : string :=
  "PacketWithMetadata(packet=" +:+ PyPacket_repr (ppm_packet p) +:+
  ", metadata=" +:+ PyReceiveMetadata_repr (ppm_metadata p) +:+ ")".

Section python.
Context `{Os}.

(** ** Configuration from text *)

Definition interface_name_to_index (raw : string) : M World PyErr Z :=
  if has_nul raw then mthrow (invalid_argument "interface name must not contain NUL bytes")
  else λ w, let '(index, w') := if_nametoindex raw w in
            (if bool_decide (index = 0)%Z
             then Err (invalid_argument ("unknown interface name: " +:+ raw))
             else Ok index, w').

Definition parse_interface_scope (raw : string) : M World PyErr Z :=
  if all_digits raw then
    let* scope := mlift (res_map_err
                           (λ _, invalid_argument ("invalid interface scope index: " +:+ raw))
                           (parse_uint u32_max raw)) in
    if bool_decide (scope = 0)%Z then mthrow (invalid_argument "interface scope index must not be 0")
    else mpure scope
  else interface_name_to_index raw.

Definition parse_interface_selector (group : IpAddr) (raw : option string)
    : M World PyErr (option IpAddr * option Z) :=
  match raw with
  | None => mpure (None, None)
  | Some raw =>
      let address := mmap (λ ip, (Some ip, None)) (mlift (parse_ip_addr raw "interface")) in
      match group with
      | V4 _ => address
      | V6 _ =>
          match rsplit_once "%" raw with
          | Some (addr, scope) =>
              let* addr := mlift (ok_or (parse_ipv6_addr addr)
                             (invalid_argument ("invalid interface IP address: " +:+ raw))) in
              let* scope := parse_interface_scope scope in
              mpure (Some (V6 addr), Some scope)
          | None =>
              if all_digits raw then mmap (λ scope, (None, Some scope)) (parse_interface_scope raw)
              else address
          end
      end
  end.

Definition build_subscription_config (group : string) (dst_port : Z)
    (source interface : option string) : M World PyErr SubscriptionConfig :=
  let* group := mlift (parse_ip_addr group "group") in
  let* source_addr := mlift (parse_optional_ip_addr source "source") in
  let* (interface_addr, interface_index) := parse_interface_selector group interface in
  let config := match source_addr with
                | Some source_addr => SubscriptionConfig.ssm_ip group source_addr dst_port
                | None => SubscriptionConfig.asm_ip group dst_port
                end in
  mpure (mkConfig (cfg_group config) (cfg_source config) (cfg_dst_port config)
                  interface_addr interface_index).

(** ** The shared context

    [py_borrow] is the flag of the [RefCell]: 0 when it is free, the number of
    readers, or -1 under a writer. The objects of one Python context are its
    identifiers: [PyContext] is the state itself, a [PySubscription] the
    identifier of its subscription. *)

Record SharedContext := mkPyShared {
  py_context : Context;
  py_borrow : Z;
  py_world : World }.

Definition SharedContext_new (w : World) : SharedContext := mkPyShared Context_new 0 w.

Definition set_borrow (b : Z) (st : SharedContext) : SharedContext :=
  mkPyShared (py_context st) b (py_world st).

Abbreviation PyOp A := (M SharedContext PyErr A).

(** The guard of a borrow is dropped on every path, unwinding included. *)
Definition with_context {A : Type} (f : PyOp A) : PyOp A := λ st,
  if bool_decide (py_borrow st < 0)%Z then (Err (borrow_error "context"), st)
  else
    let '(r, st') := f (set_borrow (py_borrow st + 1) st) in
    (r, set_borrow (py_borrow st' - 1) st').

Definition with_context_mut {A : Type} (f : PyOp A) : PyOp A := λ st,
  if bool_decide (py_borrow st = 0)%Z then
    let '(r, st') := f (set_borrow (-1) st) in (r, set_borrow 0 st')
  else (Err (borrow_error "context"), st).

(** A method of the borrowed context, [map_err(mcrx_error_to_py)]. *)
Definition on_context {A : Type} (m : Op (Context * World) A) : PyOp A := λ st,
  let '(r, (c, w)) := m (py_context st, py_world st) in
  (res_map_err mcrx_error_to_py r, mkPyShared c (py_borrow st) w).
Definition on_world {A : Type} (m : M World PyErr A) : PyOp A := λ st,
  let '(r, w) := m (py_world st) in (r, mkPyShared (py_context st) (py_borrow st) w).

(** ** [Context] *)

Definition ctx_subscription_count : PyOp nat :=
  with_context (mreads (λ st, subscription_count (py_context st))).

Definition ctx_add_subscription (group : string) (dst_port : Z) (source interface : option string)
    : PyOp SubscriptionId :=
  let* config := on_world (build_subscription_config group dst_port source interface) in
  with_context_mut (on_context (add_subscription config)).

Definition ctx_get_subscription (subscription_id : SubscriptionId) : PyOp SubscriptionId :=
  with_context (
    let* st := mget in
    if contains_subscription (py_context st) subscription_id then mpure ()
    else mthrow (PyLookupError ("mcrx_core subscription " +:+ display_Z subscription_id +:+
                                " not found"))) ;;*
  mpure subscription_id.

Definition ctx_remove_subscription (subscription_id : SubscriptionId) : PyOp bool :=
  with_context_mut (on_context (remove_subscription subscription_id)).

Definition recv_any_nowait : PyOp (option PyPacket) :=
  mmap (fmap PyPacket_from) (with_context_mut (on_context try_recv_any)).

Definition recv_any_with_metadata_nowait : PyOp (option PyPacketWithMetadata) :=
  mmap (fmap PyPacketWithMetadata_from) (with_context_mut (on_context try_recv_any_with_metadata)).

Definition ctx_repr : PyOp string :=
  let* count := ctx_subscription_count in
  mpure ("Context(subscription_count=" +:+ display_Z (Z.of_nat count) +:+ ")").

(** ** [Subscription] *)

Definition subscription_not_found : PyErr := PyLookupError "mcrx_core subscription not found".

(** [context.get_subscription(self.id).ok_or_else(..)?]. *)
Definition borrowed_subscription (id : SubscriptionId) : PyOp Subscription :=
  let* st := mget in mlift (ok_or (get_subscription (py_context st) id) subscription_not_found).

Definition getter {A : Type} (f : Subscription → A) (id : SubscriptionId) : PyOp A :=
  with_context (let* subscription := borrowed_subscription id in mpure (f subscription)).

Definition py_group : SubscriptionId → PyOp string :=
  getter (λ s, ip_display (cfg_group (sub_config s))).
Definition py_dst_port : SubscriptionId → PyOp Z := getter (λ s, cfg_dst_port (sub_config s)).
Definition py_interface : SubscriptionId → PyOp (option string) :=
  getter (λ s, ip_display <$> cfg_interface (sub_config s)).
Definition py_interface_index : SubscriptionId → PyOp (option Z) :=
  getter (λ s, cfg_interface_index (sub_config s)).
Definition py_join_mode : SubscriptionId → PyOp string :=
  getter (λ s, (source_filter_string (cfg_source (sub_config s))).1).
Definition py_source : SubscriptionId → PyOp (option string) :=
  getter (λ s, (source_filter_string (cfg_source (sub_config s))).2).

Definition py_join (id : SubscriptionId) : PyOp unit :=
  with_context_mut (on_context (join_subscription id)).
Definition py_leave (id : SubscriptionId) : PyOp unit :=
  with_context_mut (on_context (leave_subscription id)).
Definition py_remove (id : SubscriptionId) : PyOp bool :=
  with_context_mut (on_context (remove_subscription id)).

Definition py_is_joined : SubscriptionId → PyOp bool := getter sub_is_joined.
Definition py_state : SubscriptionId → PyOp string :=
  getter (λ s, subscription_state_name (sub_state s)).

Definition py_local_addr (id : SubscriptionId) : PyOp (option (string * Z)) :=
  with_context (
    let* subscription := borrowed_subscription id in
    let* addr := on_context (on_snd (sub_local_addr subscription)) in
    mpure (Some (addr_to_tuple addr))).

(** A [&self] receive method on the borrowed subscription. *)
Definition receiving {A : Type} (recv : Op (Subscription * World) (option A)) (id : SubscriptionId)
    : PyOp (option A) :=
  with_context (
    let* st := mget in
    match position_of (py_context st) id with
    | None => mthrow subscription_not_found
    | Some i => on_context (on_subscription i recv)
    end).

Definition recv_nowait (id : SubscriptionId) : PyOp (option PyPacket) :=
  mmap (fmap PyPacket_from) (receiving try_recv id).
Definition recv_with_metadata_nowait (id : SubscriptionId) : PyOp (option PyPacketWithMetadata) :=
  mmap (fmap PyPacketWithMetadata_from) (receiving try_recv_with_metadata id).

Definition py_repr (id : SubscriptionId) : PyOp string :=
  let* group := py_group id in
  let* port := py_dst_port id in
  let* state := py_state id in
  mpure ("Subscription(id=" +:+ display_Z id +:+ ", group=" +:+ quoted group +:+
         ", port=" +:+ display_Z port +:+ ", state=" +:+ quoted state +:+ ")").
End python.

(** ** The calls as data *)

Section calls.
Context `{Os}.

Inductive Method :=
  | Group | DstPort | Interface | InterfaceIndex | JoinMode | GetSource | Join | Leave | Remove
  | IsJoined | State | LocalAddr | Recv | RecvWithMetadata | Repr.

Inductive PyCall :=
  | SubscriptionCount
  | AddSubscription (group : string) (dst_port : Z) (source interface : option string)
  | GetSubscription (id : SubscriptionId)
  | RemoveSubscription (id : SubscriptionId)
  | RecvAny
  | RecvAnyWithMetadata
  | ContextRepr
  | OnSubscription (id : SubscriptionId) (m : Method).

Definition ignored {A : Type} (m : M SharedContext PyErr A) : M SharedContext PyErr unit :=
  mmap (λ _, ()) m.

Definition method_call (id : SubscriptionId) (m : Method) : M SharedContext PyErr unit :=
  match m with
  | Group => ignored (py_group id)
  | DstPort => ignored (py_dst_port id)
  | Interface => ignored (py_interface id)
  | InterfaceIndex => ignored (py_interface_index id)
  | JoinMode => ignored (py_join_mode id)
  | GetSource => ignored (py_source id)
  | Join => py_join id
  | Leave => py_leave id
  | Remove => ignored (py_remove id)
  | IsJoined => ignored (py_is_joined id)
  | State => ignored (py_state id)
  | LocalAddr => ignored (py_local_addr id)
  | Recv => ignored (recv_nowait id)
  | RecvWithMetadata => ignored (recv_with_metadata_nowait id)
  | Repr => ignored (py_repr id)
  end.

Definition py_call (k : PyCall) : M SharedContext PyErr unit :=
  match k with
  | SubscriptionCount => ignored ctx_subscription_count
  | AddSubscription group dst_port source interface =>
      ignored (ctx_add_subscription group dst_port source interface)
  | GetSubscription id => ignored (ctx_get_subscription id)
  | RemoveSubscription id => ignored (ctx_remove_subscription id)
  | RecvAny => ignored recv_any_nowait
  | RecvAnyWithMetadata => ignored recv_any_with_metadata_nowait
  | ContextRepr => ignored ctx_repr
  | OnSubscription id m => method_call id m
  end.

(** What a program's calls answer, one after the other, exceptions caught. *)
Fixpoint py_run (l : list PyCall) (st : SharedContext) : list (Res PyErr unit) * SharedContext :=
  match l with
  | [] => ([], st)
  | k :: l =>
      let '(r, st1) := py_call k st in
      let '(rs, st2) := py_run l st1 in
      (r :: rs, st2)
  end.

(** *** Both bindings read the same text *)

Lemma parse_ip_agrees raw field :
  parse_ip_addr raw field = res_map_err PyValueError (Ffi.parse_ip_addr raw field).
Proof. unfold parse_ip_addr, Ffi.parse_ip_addr. by destruct (Text.parse_ip_addr raw). Qed.

Lemma parse_optional_ip_agrees raw field :
  parse_optional_ip_addr raw field = res_map_err PyValueError (Ffi.parse_optional_ip_addr raw field).
Proof.
  destruct raw as [s|]; [|done]. simpl. rewrite parse_ip_agrees. by destruct (Ffi.parse_ip_addr s field).
Qed.

Lemma mmap_err_then {S E F A B : Type} (f : E → F) (m : M S E A) (k : A → M S E B) s :
  mmap_err f (mthen m k) s = mthen (mmap_err f m) (λ a, mmap_err f (k a)) s.
Proof. unfold mmap_err, mthen. by destruct (m s) as [[] s']. Qed.

Lemma mthen_ext {S E A B : Type} (m m' : M S E A) (k k' : A → M S E B) s :
  m s = m' s → (∀ a s, k a s = k' a s) → mthen m k s = mthen m' k' s.
Proof. intros Hm Hk. unfold mthen. rewrite Hm. by destruct (m' s) as [[] s']. Qed.

Lemma name_to_index_agrees raw w :
  interface_name_to_index raw w = mmap_err PyValueError (Ffi.interface_name_to_index raw) w.
Proof.
  unfold interface_name_to_index, Ffi.interface_name_to_index. destruct (has_nul raw); [done|].
  unfold mmap_err. destruct (if_nametoindex raw w). by case_bool_decide.
Qed.

Lemma interface_scope_agrees raw w :
  parse_interface_scope raw w = mmap_err PyValueError (Ffi.parse_interface_scope raw) w.
Proof.
  unfold parse_interface_scope, Ffi.parse_interface_scope. destruct (all_digits raw);
    [|apply name_to_index_agrees].
  rewrite mmap_err_then. apply mthen_ext.
  - unfold mlift, mmap_err. by destruct (parse_uint u32_max raw).
  - intros scope s. by case_bool_decide.
Qed.

Lemma interface_selector_agrees group raw w :
  parse_interface_selector group raw w = mmap_err PyValueError (Ffi.parse_interface_selector group raw) w.
Proof.
  unfold parse_interface_selector, Ffi.parse_interface_selector. destruct raw as [raw|]; [|done].
  assert (Ha : ∀ w : World,
    mmap (λ ip, (Some ip, @None Z)) (mlift (parse_ip_addr raw "interface")) w =
    mmap_err PyValueError (mmap (λ ip, (Some ip, @None Z)) (mlift (Ffi.parse_ip_addr raw "interface"))) w).
  { intros w'. rewrite parse_ip_agrees. by destruct (Ffi.parse_ip_addr raw "interface"). }
  destruct group; [apply Ha|]. destruct (rsplit_once "%" raw) as [[addr scope]|].
  - rewrite mmap_err_then. apply mthen_ext.
    { unfold mlift, mmap_err. by destruct (parse_ipv6_addr addr). }
    intros ip s. rewrite mmap_err_then. by apply mthen_ext; [apply interface_scope_agrees|].
  - destruct (all_digits raw); [|apply Ha]. unfold mmap. rewrite mmap_err_then.
    by apply mthen_ext; [apply interface_scope_agrees|].
Qed.

(** The Python and the C interface read the same text as the same
    configuration, for every group, port, source and interface, and refuse the
    same text: what the one reports as an invalid argument the other raises as
    [ValueError], with the same message. *)
Theorem bindings_read_the_same_text group port source interface w :
  build_subscription_config group port source interface w =
    mmap_err PyValueError (Ffi.build_subscription_config group port source interface) w.
Proof.
  unfold build_subscription_config, Ffi.build_subscription_config.
  rewrite mmap_err_then. apply mthen_ext; [by rewrite parse_ip_agrees|]. intros g s.
  rewrite mmap_err_then. apply mthen_ext; [by rewrite parse_optional_ip_agrees|]. intros src s'.
  rewrite mmap_err_then. apply mthen_ext; [apply interface_selector_agrees|]. by intros [i x].
Qed.

(** *** Safety *)

(** A call that returns, does not find the context borrowed, leaves the borrow
    flag as it was, and leads from contexts in [I] to contexts in [J]. *)
Definition py_ok (b : Z) (I J : Context → Prop) {A : Type} (m : M SharedContext PyErr A) : Prop :=
  ∀ st, py_borrow st = b → I (py_context st) →
    returns (m st).1 ∧ (m st).1 ≠ Err (borrow_error "context") ∧
    py_borrow (m st).2 = b ∧ J (py_context (m st).2).

Lemma py_ok_then {A B : Type} b (I K J : Context → Prop) (m : M SharedContext PyErr A)
    (k : A → M SharedContext PyErr B) :
  (∀ c, K c → J c) → py_ok b I K m → (∀ a, py_ok b K J (k a)) → py_ok b I J (mthen m k).
Proof.
  intros HK Hm Hk st Hb HI. destruct (Hm st Hb HI) as (Hr & He & Hb' & HK').
  unfold mthen. destruct (m st) as [[a|e| |] st']; simpl in *; try done; [by apply Hk|].
  split_and!; [done| |done|by apply HK]. intros [= ->]. by apply He.
Qed.

Lemma py_ok_pure {A : Type} b (I : Context → Prop) (a : A) : py_ok b I I (mpure a).
Proof. by intros st. Qed.
Lemma py_ok_throw {A : Type} b (I : Context → Prop) e :
  e ≠ borrow_error "context" → py_ok b I I (mthrow e : M SharedContext PyErr A).
Proof. intros He st Hb HI. split_and!; try done. by intros [= ->]. Qed.
Lemma py_ok_mmap {A B : Type} b I J (f : A → B) (m : M SharedContext PyErr A) :
  py_ok b I J m → py_ok b I J (mmap f m).
Proof. intros Hm. eapply py_ok_then; [done|exact Hm|]. intros. apply py_ok_pure. Qed.
Lemma py_ok_weaken {A : Type} b (I J J' : Context → Prop) (m : M SharedContext PyErr A) :
  (∀ c, J c → J' c) → py_ok b I J m → py_ok b I J' m.
Proof. intros HJ Hm st Hb HI. destruct (Hm st Hb HI) as (? & ? & ? & ?). auto. Qed.

Lemma py_ok_with_context {A : Type} I J (f : M SharedContext PyErr A) :
  py_ok 1 I J f → py_ok 0 I J (with_context f).
Proof.
  intros Hf st Hb HI. unfold with_context. rewrite Hb.
  change (0 + 1)%Z with 1%Z. simpl. destruct (Hf (set_borrow 1 st) eq_refl HI) as (Hr & He & Hb' & HJ).
  destruct (f (set_borrow 1 st)) as [r st']. simpl in *. by rewrite Hb'.
Qed.

Lemma py_ok_with_context_mut {A : Type} I J (f : M SharedContext PyErr A) :
  py_ok (-1) I J f → py_ok 0 I J (with_context_mut f).
Proof.
  intros Hf st Hb HI. unfold with_context_mut. rewrite Hb. simpl.
  destruct (Hf (set_borrow (-1) st) eq_refl HI) as (Hr & He & Hb' & HJ).
  by destruct (f (set_borrow (-1) st)) as [r st'].
Qed.

Lemma mcrx_error_is_not_a_borrow err : mcrx_error_to_py err ≠ borrow_error "context".
Proof. by destruct err. Qed.

Lemma py_ok_on_context {A : Type} b (I J : Context → Prop) (m : Op (Context * World) A) :
  (∀ st, I st.1 → returns (m st).1 ∧ J (m st).2.1) → py_ok b I J (on_context m).
Proof.
  intros Hm st Hb HI. destruct (Hm (py_context st, py_world st) HI) as [Hr HJ].
  unfold on_context. destruct (m _) as [r [c w]]. simpl in *. split_and!; try done.
  - by destruct r.
  - destruct r; try done. intros [= He]. by eapply mcrx_error_is_not_a_borrow.
Qed.

Lemma py_ok_mget {A : Type} b I J (k : SharedContext → M SharedContext PyErr A) :
  (∀ st, py_borrow st = b → I (py_context st) →
     returns (k st st).1 ∧ (k st st).1 ≠ Err (borrow_error "context") ∧
     py_borrow (k st st).2 = b ∧ J (py_context (k st st).2)) →
  py_ok b I J (mthen mget k).
Proof. intros Hk st. apply Hk. Qed.

Lemma py_ok_borrowed {A : Type} b I J id (k : Subscription → M SharedContext PyErr A) :
  (∀ c, I c → J c) → (∀ s, py_ok b I J (k s)) →
  py_ok b I J (mthen (borrowed_subscription id) k).
Proof.
  intros HIJ Hk. eapply (py_ok_then b I I J); [done| |exact Hk]. intros st Hb HI.
  unfold borrowed_subscription, mthen, mget, mlift. by destruct (get_subscription _ id).
Qed.

Lemma py_ok_getter {A : Type} I (f : Subscription → A) id : py_ok 0 I I (getter f id).
Proof. apply py_ok_with_context, py_ok_borrowed; [done|]. intros. apply py_ok_pure. Qed.

Lemma py_ok_build b I group port source interface :
  py_ok b I I (on_world (build_subscription_config group port source interface)).
Proof.
  intros st Hb HI. unfold on_world. rewrite bindings_read_the_same_text.
  pose proof (total_build_config group port source interface (py_world st)) as Hr.
  unfold mmap_err. destruct (Ffi.build_subscription_config _ _ _ _ _) as [[] w]; by split_and!.
Qed.

(** What the calls need of a family of assertions on the context, indexed by a
    bound on its identifier counter. *)
Record kept (I : Z → Context → Prop) : Prop := {
  kept_weaken : ∀ b b' c, (b ≤ b')%Z → I b c → I b' c;
  kept_add : ∀ b config st, (b < u64_max)%Z → I b st.1 →
    returns (add_subscription config st).1 ∧ I (b + 1)%Z (add_subscription config st).2.1;
  kept_take : ∀ b id, safe (I b) (take_subscription id);
  kept_join : ∀ b id, safe (I b) (join_subscription id);
  kept_leave : ∀ b id, safe (I b) (leave_subscription id);
  kept_receive : ∀ b T (recv : Op (Subscription * World) (option T)) len,
    ReceiveMethod recv → safe (I b) (try_recv_from_joined recv len);
  kept_method : ∀ b T (recv : Op (Subscription * World) (option T)) i st,
    ReceiveMethod recv → i < length (subscriptions st.1) → I b st.1 →
    returns (on_subscription i recv st).1 ∧ I b (on_subscription i recv st).2.1 }.

Section kept.
Context (I : Z → Context → Prop) (HI : kept I) (laws : OsLaws).

Lemma total_sub_local_addr s : total (sub_local_addr s).
Proof.
  pose proof total_try_socket_local_addr as Ht.
  apply total_then; [|intros []; [done|apply Ht]].
  apply total_mcatch, total_then; [|intros; apply total_mlift, returns_ok_or].
  destruct (rs_local_addr _); [done|]. by apply total_ok.
Qed.

Lemma py_ok_receiving {A : Type} (recv : Op (Subscription * World) (option A)) b id :
  ReceiveMethod recv → py_ok 0 (I b) (I b) (receiving recv id).
Proof.
  intros Hrecv. apply py_ok_with_context, py_ok_mget. intros st Hb Hc.
  destruct (position_of (py_context st) id) as [i|] eqn:Hpos; [|by apply py_ok_throw].
  apply (py_ok_on_context 1 (λ c, I b c ∧ i < length (subscriptions c))); [|done|].
  - intros st' [Hi Hlt]. by apply (kept_method I HI).
  - split; [done|]. destruct (position_of_lookup _ _ _ Hpos) as (s & Hs & _).
    by eapply lookup_lt_Some.
Qed.

Lemma py_ok_mut {A : Type} b (m : Op (Context * World) A) :
  safe (I b) m → py_ok 0 (I b) (I b) (with_context_mut (on_context m)).
Proof. intros Hm. by apply py_ok_with_context_mut, py_ok_on_context. Qed.

Lemma py_ok_method b id m : py_ok 0 (I b) (I b) (method_call id m).
Proof.
  pose proof (try_recv_method laws). pose proof (try_recv_with_metadata_method laws).
  destruct m; simpl; unfold ignored; try (apply py_ok_mmap);
    try (apply py_ok_getter); try (apply py_ok_mut).
  - apply (kept_join I HI).
  - apply (kept_leave I HI).
  - apply safe_mmap, (kept_take I HI).
  - apply py_ok_with_context, py_ok_borrowed; [done|]. intros s.
    eapply py_ok_then; [done| |intros; apply py_ok_pure].
    apply py_ok_on_context, safe_on_snd, total_sub_local_addr.
  - by apply py_ok_mmap, py_ok_receiving.
  - by apply py_ok_mmap, py_ok_receiving.
  - do 3 (eapply py_ok_then; [done|apply py_ok_getter|intros ?]). apply py_ok_pure.
Qed.

Lemma py_ok_call b k : (b < u64_max)%Z → py_ok 0 (I b) (I (b + 1)%Z) (py_call k).
Proof.
  intros Hb. pose proof (kept_weaken I HI b (b + 1)) as Hw.
  assert (Hcount : py_ok 0 (I b) (I b) ctx_subscription_count)
    by (apply py_ok_with_context; by intros st).
  destruct k as [|g p s i|id|id| | | |id m]; simpl; unfold ignored; try apply py_ok_mmap.
  - apply (py_ok_weaken 0 (I b) (I b)); [intros; apply Hw; [lia|done]|done].
  - eapply py_ok_then; [|apply py_ok_build|intros config]; [intros; apply Hw; [lia|done]|].
    apply py_ok_with_context_mut, py_ok_on_context. intros st Hst. by apply (kept_add I HI).
  - apply (py_ok_weaken 0 (I b) (I b)); [intros; apply Hw; [lia|done]|].
    eapply py_ok_then; [done| |intros; apply py_ok_pure].
    apply py_ok_with_context, py_ok_mget. intros st Hst Hc.
    by destruct (contains_subscription (py_context st) id); [apply py_ok_pure|apply py_ok_throw].
  - apply (py_ok_weaken 0 (I b) (I b)); [intros; apply Hw; [lia|done]|].
    apply py_ok_mut, safe_mmap, (kept_take I HI).
  - apply (py_ok_weaken 0 (I b) (I b)); [intros; apply Hw; [lia|done]|].
    apply py_ok_mmap, py_ok_mut, (kept_receive I HI). by apply try_recv_method.
  - apply (py_ok_weaken 0 (I b) (I b)); [intros; apply Hw; [lia|done]|].
    apply py_ok_mmap, py_ok_mut, (kept_receive I HI). by apply try_recv_with_metadata_method.
  - apply (py_ok_weaken 0 (I b) (I b)); [intros; apply Hw; [lia|done]|].
    eapply py_ok_then; [done|exact Hcount|intros; apply py_ok_pure].
  - apply (py_ok_weaken 0 (I b) (I b)); [intros; apply Hw; [lia|done]|]. apply py_ok_method.
Qed.

Lemma py_run_kept l b st :
  (b + Z.of_nat (length l) < u64_max)%Z → py_borrow st = 0%Z → I b (py_context st) →
  let '(rs, st') := py_run l st in
  Forall (λ r, returns r ∧ r ≠ Err (borrow_error "context")) rs ∧
  py_borrow st' = 0%Z ∧ I (b + Z.of_nat (length l))%Z (py_context st').
Proof.
  revert b st. induction l as [|k l IH]; intros b st Hlen Hb Hc.
  { simpl. split_and!; [done..|]. by rewrite Z.add_0_r. }
  cbn [py_run length] in *. destruct (py_ok_call b k ltac:(lia) st Hb Hc) as (Hr & He & Hb1 & Hc1).
  destruct (py_call k st) as [r st1]. simpl in *.
  specialize (IH (b + 1)%Z st1 ltac:(lia) Hb1 Hc1). destruct (py_run l st1) as [rs st2].
  destruct IH as (Hrs & Hb2 & Hc2). split_and!; [by constructor|done|].
  by replace (b + Z.of_nat (S (length l)))%Z with (b + 1 + Z.of_nat (length l))%Z by lia.
Qed.
End kept.

Lemma kept_inv : OsLaws → kept inv_upto.
Proof.
  intros Hu. split.
  - intros. by eapply inv_upto_weaken.
  - intros b config st Hb Hc. apply (safe_add_with b config (open_bound_socket config) st); [|done..].
    apply total_open_bound_socket.
  - intros. apply safe_take.
  - intros. apply safe_upto. intros. by apply safe_join.
  - intros. apply safe_upto. intros. by apply safe_leave.
  - intros. apply safe_upto. intros. by apply safe_try_recv_from_joined.
  - intros b T recv i st Hrecv Hlt [Hi Hn].
    destruct (safe_on_subscription recv (length (subscriptions st.1)) (next_subscription_id st.1)
                i Hrecv Hlt st) as (Hr & Hi' & _ & Hn'); [done|].
    split; [done|]. split; [done|]. lia.
Qed.

(** C33: no program that calls the module makes it unwind: whatever calls are
    made on a new [Context] and on its subscriptions, removed or never added
    ones included (at most as many as there are 64-bit identifiers), every one
    answers a value or raises an exception, none raises the error of a borrowed
    context, the context is free between the calls and stays well formed. On
    Unix this holds whatever the operating system answers; on Windows it relies
    on [OsLaws]: [GetAdaptersAddresses] does not ask for a larger buffer 64
    times in a row, and control messages end inside their buffer. *)
Theorem python_calls_are_safe l w :
  OsLaws → (Z.of_nat (length l) < u64_max - 1)%Z →
  let '(rs, st) := py_run l (SharedContext_new w) in
  Forall (λ r, returns r ∧ r ≠ Err (borrow_error "context")) rs ∧
  py_borrow st = 0%Z ∧ ctx_inv (py_context st).
Proof.
  intros Hu Hl.
  pose proof (py_run_kept _ (kept_inv Hu) Hu l 1 (SharedContext_new w) ltac:(lia) eq_refl) as Hrun.
  destruct (py_run l _) as [rs st].
  destruct Hrun as (? & ? & [? _]); [by split; [apply ctx_inv_new|]|]. done.
Qed.

(** *** Identifiers are not used twice *)

(** The identifiers of [c'] are among those of [c]. *)
Definition no_new_ids (c c' : Context) : Prop :=
  next_subscription_id c' = next_subscription_id c ∧
  (sub_id <$> subscriptions c') ⊆ (sub_id <$> subscriptions c).

#[local] Instance no_new_ids_preorder : PreOrder no_new_ids.
Proof.
  split; [by intros c|]. intros c1 c2 c3 [Hn1 Hs1] [Hn2 Hs2]. split; [congruence|]. by etrans.
Qed.

Definition issues_none {A : Type} (m : Op (Context * World) A) : Prop :=
  ∀ st, no_new_ids st.1 (m st).2.1.

Lemma issues_none_then {A B : Type} (m : Op (Context * World) A) (k : A → Op (Context * World) B) :
  issues_none m → (∀ a, issues_none (k a)) → issues_none (mthen m k).
Proof.
  intros Hm Hk st. specialize (Hm st). unfold mthen.
  destruct (m st) as [[a|e| |] st']; try done. etrans; [exact Hm|apply Hk].
Qed.
Lemma issues_none_get {A : Type} (k : Context * World → Op (Context * World) A) :
  (∀ st0, issues_none (k st0)) → issues_none (mthen mget k).
Proof. intros Hk st. apply Hk. Qed.
Lemma issues_none_lift {A : Type} (r : Result A) : issues_none (mlift r).
Proof. by intros st. Qed.
Lemma issues_none_on_snd {A : Type} (m : Op World A) : issues_none (on_snd m).
Proof. intros st. unfold on_snd. by destruct (m st.2). Qed.
Lemma issues_none_bump k n : issues_none (bump_counter k n).
Proof. by intros st. Qed.
Lemma issues_none_catch {A : Type} (m : Op (Context * World) A) :
  issues_none m → issues_none (mcatch (E := McrxError) m).
Proof. intros Hm st. specialize (Hm st). unfold mcatch. by destruct (m st) as [[]?]. Qed.

Lemma same_identity_ids l l' : Forall2 same_identity l l' → sub_id <$> l' = sub_id <$> l.
Proof. induction 1 as [|s s' l l' (Hid & _) _ IH]; [done|]. by rewrite !fmap_cons, Hid, IH. Qed.

Lemma issues_none_on_subscription {T : Type} (recv : Op (Subscription * World) (option T)) i :
  ReceiveMethod recv → issues_none (on_subscription i recv).
Proof.
  intros Hr st. destruct (on_subscription_same recv i st Hr) as (Hs & _ & Hn). split; [done|].
  by rewrite (same_identity_ids _ _ Hs).
Qed.

Lemma issues_none_scan {T : Type} (recv : Op (Subscription * World) (option T)) len n count index :
  ReceiveMethod recv → issues_none (recv_scan recv len n count index).
Proof.
  intros Hr. revert index. induction n as [|n IH]; intros index; [by intros st|]. cbn [recv_scan].
  apply issues_none_get. intros st0.
  apply issues_none_then; [apply issues_none_lift|intros s].
  destruct (negb (sub_is_joined s)); [apply IH|].
  apply issues_none_then; [by apply issues_none_catch, issues_none_on_subscription|].
  intros [[packet|]|err]; [by intros st| |by intros st].
  apply issues_none_then; [apply issues_none_bump|intros; apply IH].
Qed.

Lemma issues_none_receive {T : Type} (recv : Op (Subscription * World) (option T)) len :
  ReceiveMethod recv → issues_none (try_recv_from_joined recv len).
Proof.
  intros Hr. apply issues_none_get. intros st. cbv zeta. case_bool_decide; [by intros ?|].
  by apply issues_none_scan.
Qed.

Lemma issues_none_mark i (mark : Subscription → Result unit * Subscription) :
  (∀ s, sub_id (mark s).2 = sub_id s) → issues_none (with_subscription_mut i mark).
Proof.
  intros Hm st. unfold with_subscription_mut, mthen at 1, mget.
  destruct (subscriptions st.1 !! i) as [s|] eqn:Hs; [|done].
  specialize (Hm s). destruct (mark s) as [r s']. simpl in *. split; [done|]. simpl.
  by rewrite (fmap_insert_same _ _ _ _ _ Hs Hm).
Qed.

Lemma issues_none_join id : issues_none (join_subscription id).
Proof.
  apply issues_none_get. intros st0. destruct (position_of st0.1 id) as [i|]; [|by intros st].
  apply issues_none_then; [apply issues_none_lift|intros s].
  apply issues_none_then; [apply issues_none_lift|intros _].
  apply issues_none_then; [apply issues_none_on_snd|intros _].
  apply issues_none_then; [|intros _; apply issues_none_bump].
  apply issues_none_mark. intros. by apply mark_joined_facts.
Qed.

Lemma issues_none_leave id : issues_none (leave_subscription id).
Proof.
  apply issues_none_get. intros st0. destruct (position_of st0.1 id) as [i|]; [|by intros st].
  apply issues_none_then; [apply issues_none_lift|intros s].
  apply issues_none_then; [apply issues_none_lift|intros _].
  apply issues_none_then; [apply issues_none_on_snd|intros _].
  apply issues_none_then; [|intros _; apply issues_none_bump].
  apply issues_none_mark. intros. by apply mark_bound_facts.
Qed.

Lemma issues_none_take id : issues_none (take_subscription id).
Proof.
  intros st. unfold take_subscription, mthen, mget.
  destruct (position_of st.1 id) as [i|]; [|done]. unfold mmap, mthen at 1.
  destruct (swap_remove i (subscriptions st.1)) as [[removed rest]|] eqn:Hsw.
  - rewrite (finish_removal_eq _ _ _ _ Hsw). simpl. split; [done|]. simpl.
    apply swap_remove_Permutation in Hsw. rewrite Hsw. set_solver.
  - unfold finish_subscription_removal, mthen, mget. by rewrite Hsw.
Qed.

(** An identifier that was issued and is not in use. *)
Definition dead (id : SubscriptionId) (c : Context) : Prop :=
  id ∉ sub_id <$> subscriptions c ∧ (id < next_subscription_id c)%Z.

Lemma dead_no_new_ids id c c' : no_new_ids c c' → dead id c → dead id c'.
Proof. intros [Hn Hs] [Hid Hlt]. split; [set_solver|lia]. Qed.

Lemma dead_not_found id c : dead id c → position_of c id = None.
Proof.
  intros [Hid _]. destruct (position_of c id) as [i|] eqn:Hpos; [|done].
  destruct (position_of_lookup _ _ _ Hpos) as (s & Hs & <-).
  destruct Hid. apply list_elem_of_fmap. exists s. split; [done|]. by eapply list_elem_of_lookup_2.
Qed.

Lemma dead_add id b config st :
  (b < u64_max)%Z → inv_upto b st.1 → dead id st.1 → dead id (add_subscription config st).2.1.
Proof.
  intros Hb [_ Hn] Hd. unfold add_subscription, mthen, mlift, mget, on_snd.
  repeat (case_match; simplify_eq; try done).
  unfold insert_subscription, mthen, mget, mlift. simpl. rewrite next_id_small by (simpl in *; lia).
  simpl. destruct Hd as [Hid Hlt]. split; simpl in *; [|lia].
  rewrite fmap_app, elem_of_app. simpl. rewrite list_elem_of_singleton. intros [?|?]; [done|lia].
Qed.

Lemma kept_dead id :
  OsLaws → kept (λ b c, inv_upto b c ∧ dead id c).
Proof.
  intros Hu. pose proof (kept_inv Hu) as HI.
  assert (Hboth : ∀ b A (m : Op (Context * World) A), issues_none m → safe (inv_upto b) m →
            safe (λ c, inv_upto b c ∧ dead id c) m).
  { intros b A m Hm Hs st [Hc Hd]. destruct (Hs st Hc). split; [done|split; [done|]].
    eapply dead_no_new_ids; [apply Hm|done]. }
  split.
  - intros b b' c Hle [Hc Hd]. split; [by eapply inv_upto_weaken|done].
  - intros b config st Hb [Hc Hd]. destruct (kept_add _ HI b config st Hb Hc).
    split; [done|split; [done|]]. by eapply dead_add.
  - intros. apply Hboth; [apply issues_none_take|apply (kept_take _ HI)].
  - intros. apply Hboth; [apply issues_none_join|apply (kept_join _ HI)].
  - intros. apply Hboth; [apply issues_none_leave|apply (kept_leave _ HI)].
  - intros. apply Hboth; [by apply issues_none_receive|by apply (kept_receive _ HI)].
  - intros b T recv i st Hr Hi [Hc Hd]. destruct (kept_method _ HI b T recv i st Hr Hi Hc).
    split; [done|split; [done|]]. eapply dead_no_new_ids; [by apply issues_none_on_subscription|done].
Qed.

(** The exception of a call on an object whose subscription is gone, and the
    answer of the one call that raises none. *)
Definition raises_lookup_error (id : SubscriptionId) (m : Method) (st : SharedContext) : Prop :=
  match m with
  | Remove => py_remove id st = (Ok false, st)
  | _ => ∃ message, method_call id m st = (Err (PyLookupError message), st)
  end.

Lemma dead_method id m st :
  py_borrow st = 0%Z → dead id (py_context st) → raises_lookup_error id m st.
Proof.
  intros Hb Hd%dead_not_found. destruct st as [c b w]. simpl in *. subst b.
  assert (Hg : get_subscription c id = None) by (unfold get_subscription; by rewrite Hd).
  assert (Hget : ∀ A (f : Subscription → A),
    getter f id (mkPyShared c 0 w) = (Err subscription_not_found, mkPyShared c 0 w)).
  { intros A f. unfold getter, with_context, borrowed_subscription, mthen, mget, mlift. simpl.
    by rewrite Hg. }
  assert (Hrecv : ∀ A (recv : Op (Subscription * World) (option A)),
    receiving recv id (mkPyShared c 0 w) = (Err subscription_not_found, mkPyShared c 0 w)).
  { intros A recv. unfold receiving, with_context, mthen, mget. simpl. by rewrite Hd. }
  destruct m; simpl; unfold ignored, mmap; try eexists;
    try (unfold mthen, py_group, py_dst_port, py_interface, py_interface_index, py_join_mode,
           py_source, py_is_joined, py_state; rewrite Hget; reflexivity).
  - unfold py_join, with_context_mut, on_context, join_subscription, mthen, mget. simpl.
    by rewrite Hd.
  - unfold py_leave, with_context_mut, on_context, leave_subscription, mthen, mget. simpl.
    by rewrite Hd.
  - unfold py_remove, with_context_mut, on_context, remove_subscription, take_subscription, mmap,
      mthen, mget. simpl. by rewrite Hd.
  - unfold py_local_addr, with_context, borrowed_subscription, mthen, mget, mlift. simpl.
    by rewrite Hg.
  - unfold recv_nowait, mmap, mthen. by rewrite Hrecv.
  - unfold recv_with_metadata_nowait, mmap, mthen. by rewrite Hrecv.
  - unfold py_repr, py_group, mthen. by rewrite Hget.
Qed.

Lemma removed_is_dead id c w st' :
  ctx_inv c → remove_subscription id (c, w) = (Ok true, st') → dead id st'.1.
Proof.
  intros Hinv. unfold remove_subscription, take_subscription, mmap, mthen, mget. simpl.
  destruct (position_of c id) as [i|] eqn:Hpos; [|done].
  destruct (position_of_lookup _ _ _ Hpos) as (s & Hs & Hid).
  destruct (swap_remove_is_Some i (subscriptions c)) as [[removed rest] Hsw];
    [by eapply lookup_lt_Some|].
  rewrite (finish_removal_eq i (c, w) _ _ Hsw). simpl. intros [= <-]. simpl.
  assert (Hr : subscriptions c !! i = Some removed).
  { unfold swap_remove in Hsw. by repeat (case_match; simplify_eq/=). }
  rewrite Hs in Hr. injection Hr as <-. apply swap_remove_Permutation in Hsw.
  destruct Hinv as [Hids Hiss _ _ _ _]. rewrite Hsw in Hids, Hiss.
  apply NoDup_cons in Hids as [Hn _]. apply Forall_cons in Hiss as [Hi _].
  subst id. split; simpl; [done|lia].
Qed.

(** C20: a [Subscription] object whose subscription was removed never refers to
    another one. Whatever calls were made before and are made afterwards (new
    subscriptions included, fewer than 2^64 - 2 in all), none of its methods
    changes anything: [remove] answers [False] and raises nothing, every other
    method raises [LookupError]. On Windows this relies on [OsLaws], on Unix on
    nothing. *)
Theorem removed_subscription_stays_removed l1 l2 w id m :
  OsLaws → (Z.of_nat (length l1) + Z.of_nat (length l2) < u64_max - 1)%Z →
  let st := (py_run l1 (SharedContext_new w)).2 in
  (py_remove id st).1 = Ok true →
  raises_lookup_error id m (py_run l2 (py_remove id st).2).2.
Proof.
  intros Hu Hl st Hrem.
  assert (Hnew : inv_upto 1 Context_new) by (split; [apply ctx_inv_new|done]).
  pose proof (py_run_kept _ (kept_inv Hu) Hu l1 1 (SharedContext_new w) ltac:(lia) eq_refl Hnew) as H1.
  subst st. destruct (py_run l1 _) as [rs1 st]. destruct H1 as (_ & Hb & Hc). cbn [snd] in *.
  destruct (py_ok_mut inv_upto _ (remove_subscription id)
    (safe_mmap _ _ _ (safe_take (1 + Z.of_nat (length l1)) id)) st Hb Hc) as (_ & _ & Hb' & Hc').
  change (with_context_mut (on_context (remove_subscription id))) with (py_remove id) in *.
  assert (Hdead : dead id (py_context (py_remove id st).2)).
  { revert Hrem. unfold py_remove, with_context_mut, on_context. rewrite Hb. cbn [bool_decide decide].
    simpl. destruct (remove_subscription id _) as [r [c w']] eqn:Hr. simpl.
    destruct r as [b|e| |]; try done. intros [= ->].
    exact (removed_is_dead id _ _ _ (proj1 Hc) Hr). }
  pose proof (py_run_kept _ (kept_dead id Hu) Hu l2 (1 + Z.of_nat (length l1)) _ ltac:(lia)
    Hb' (conj Hc' Hdead)) as H2.
  destruct (py_run l2 _) as [rs2 st2]. destruct H2 as (_ & Hb2 & _ & Hd2). by apply dead_method.
Qed.

(** *** What the objects show *)

Lemma add_subscription_Ok config c w id st' :
  ctx_inv c → (next_subscription_id c < u64_max)%Z →
  add_subscription config (c, w) = (Ok id, st') →
  SubscriptionConfig.validate config = Ok () ∧
  ∃ rs, get_subscription st'.1 id = Some (from_receive_socket id config rs).
Proof.
  intros Hinv Hn. unfold add_subscription, mthen, mlift, mget, on_snd.
  destruct (SubscriptionConfig.validate config) as [[]|e| |]; [|done..]. simpl.
  destruct (ensure_subscription_config_is_unique c config) as [[]|e| |]; [|done..].
  destruct (open_bound_socket config w) as [[rs|e| |] w']; [|done..].
  unfold insert_subscription, mthen, mget, mlift. simpl. rewrite next_id_small by done. simpl.
  intros [= <- <-]. split; [done|]. exists rs. simpl.
  assert (Hpos : position_of (mkContext (subscriptions c ++
            [from_receive_socket (next_subscription_id c) config rs])
            (next_subscription_id c + 1) (next_recv_index c)
            (bump SubscriptionsAdded 1 (ctx_metrics c))) (next_subscription_id c) =
          Some (length (subscriptions c))).
  { unfold position_of. simpl. apply position_app_last; [|by apply bool_decide_true].
    intros y Hy. apply bool_decide_eq_false. intros He.
    pose proof (proj1 (Forall_forall _ _) (inv_ids_issued _ Hinv) y Hy) as Hb. simpl in Hb. lia. }
  unfold get_subscription. unfold set_ctx_metrics. simpl in *. rewrite Hpos. simpl.
  by rewrite lookup_app_r, Nat.sub_diag by lia.
Qed.

(** C39: a subscription that was added shows what was asked for. On a free
    context with identifiers left, an [add_subscription] that answers has built
    a valid configuration from its arguments, and the attributes of the new
    object are that configuration's: its addresses as text that parses back,
    its port, index and mode; the object is bound and not joined. *)
Theorem added_subscription_reads_back group port source interface st id st' :
  py_borrow st = 0%Z → ctx_inv (py_context st) →
  (next_subscription_id (py_context st) < u64_max)%Z →
  ctx_add_subscription group port source interface st = (Ok id, st') →
  ∃ c w text,
    build_subscription_config group port source interface (py_world st) = (Ok c, w) ∧
    SubscriptionConfig.validate c = Ok () ∧
    py_group id st' = (Ok text, st') ∧ Text.parse_ip_addr text = Some (cfg_group c) ∧
    py_dst_port id st' = (Ok (cfg_dst_port c), st') ∧
    py_interface id st' = (Ok (ip_display <$> cfg_interface c), st') ∧
    py_interface_index id st' = (Ok (cfg_interface_index c), st') ∧
    py_source id st' = (Ok (source_text (cfg_source c)), st') ∧
    py_join_mode id st' =
      (Ok match cfg_source c with SourceAny => "asm" | Source _ => "ssm" end, st') ∧
    py_state id st' = (Ok "bound", st') ∧ py_is_joined id st' = (Ok false, st').
Proof.
  destruct st as [c0 b w0]. simpl. intros -> Hinv Hn. unfold ctx_add_subscription, mthen, on_world.
  simpl. destruct (build_subscription_config group port source interface w0) as [[c|e| |] w]; try done.
  unfold with_context_mut, on_context. simpl.
  destruct (add_subscription c (c0, w)) as [r [c1 w1]] eqn:Hadd. simpl.
  destruct r as [i|e| |]; try done. intros [= -> <-].
  destruct (add_subscription_Ok c c0 w id (c1, w1) Hinv Hn Hadd) as (Hv & rs & Hg). simpl in Hg.
  assert (Hget : ∀ A (f : Subscription → A),
    getter f id (set_borrow 0 (mkPyShared c1 (-1) w1)) =
      (Ok (f (from_receive_socket id c rs)), set_borrow 0 (mkPyShared c1 (-1) w1))).
  { intros A f. unfold getter, with_context, borrowed_subscription, mthen, mget, mlift. simpl.
    by rewrite Hg. }
  exists c, w, (ip_display (cfg_group c)).
  unfold py_group, py_dst_port, py_interface, py_interface_index, py_source, py_join_mode, py_state,
    py_is_joined. rewrite !Hget, parse_ip_display. simpl.
  split_and!; try done; by destruct (cfg_source c).
Qed.
End calls.

(** Reading the addresses of a packet object. *)
Definition read_address (t : string * Z) : option (IpAddr * Z) :=
  ip ← Text.parse_ip_addr t.1; Some (ip, t.2).
Definition read_optional {A B : Type} (read : A → option B) (o : option A) : option (option B) :=
  match o with None => Some None | Some a => Some <$> read a end.

Lemma read_address_tuple a : read_address (addr_to_tuple a) = Some (sock_ip a, sock_port a).
Proof. unfold read_address, addr_to_tuple. simpl. by rewrite parse_ip_display. Qed.

(** The packet objects lose nothing that the library knows of a packet but
    the flow and scope of its IPv6 socket addresses: payload, identifier,
    ports, indices and every address, where absent values stay absent. *)
Theorem python_packet_roundtrip packet :
  let p := pm_packet packet in
  let m := pm_metadata packet in
  let v := PyPacketWithMetadata_from packet in
  pp_payload (ppm_packet v) = pk_payload p ∧
  pp_payload_len (ppm_packet v) = payload_len p ∧
  pp_subscription_id (ppm_packet v) = pk_subscription_id p ∧
  read_address (pp_source (ppm_packet v)) = Some (sock_ip (pk_source p), sock_port (pk_source p)) ∧
  Text.parse_ip_addr (pp_group (ppm_packet v)) = Some (pk_group p) ∧
  pp_dst_port (ppm_packet v) = pk_dst_port p ∧
  read_optional read_address (pym_socket_local_addr (ppm_metadata v)) =
    Some ((λ a, (sock_ip a, sock_port a)) <$> md_socket_local_addr m) ∧
  read_optional Text.parse_ip_addr (pym_configured_interface (ppm_metadata v)) =
    Some (md_configured_interface m) ∧
  pym_configured_interface_index (ppm_metadata v) = md_configured_interface_index m ∧
  read_optional Text.parse_ip_addr (pym_destination_local_ip (ppm_metadata v)) =
    Some (md_destination_local_ip m) ∧
  pym_ingress_interface_index (ppm_metadata v) = md_ingress_interface_index m.
Proof.
  assert (Hip : ∀ o, read_optional Text.parse_ip_addr (ip_display <$> o) = Some o)
    by (intros [a|]; simpl; [by rewrite parse_ip_display|done]).
  cbv zeta. simpl. rewrite !Hip, parse_ip_display. split_and!; try done.
  - exact (read_address_tuple (pk_source (pm_packet packet))).
  - destruct (md_socket_local_addr _) as [a|]; simpl; [by rewrite read_address_tuple|done].
Qed.

(** ** Witnesses *)

Definition python_new : @SharedContext sample_os := @SharedContext_new sample_os 0.
Definition python_calls : list PyCall :=
  [AddSubscription "239.1.2.3" 5000 None None; OnSubscription 1 Join; OnSubscription 1 Recv;
   RecvAnyWithMetadata; OnSubscription 1 Repr; AddSubscription "127.0.0.1" 5000 None None;
   OnSubscription 7 Group].

Example python_calls_answer :
  (py_run python_calls python_new).1 =
    [Ok (); Ok (); Ok (); Ok (); Ok ();
     Err (PyValueError "MCRX: group must be a multicast IP address");
     Err (PyLookupError "mcrx_core subscription not found")].
Proof. vm_compute. reflexivity. Qed.

Example python_repr :
  (py_repr 1 (py_run python_calls python_new).2).1 =
    Ok ("Subscription(id=1, group=" +:+ quoted "239.1.2.3" +:+ ", port=5000, state=" +:+
        quoted "joined" +:+ ")").
Proof. vm_compute. reflexivity. Qed.

Lemma python_calls_are_safe_witness :
  let '(rs, st) := py_run python_calls python_new in
  Forall (λ r, returns r ∧ r ≠ Err (borrow_error "context")) rs ∧
  py_borrow st = 0%Z ∧ ctx_inv (py_context st).
Proof. exact (@python_calls_are_safe sample_os python_calls 0 sample_laws eq_refl). Defined.

Definition later_calls : list PyCall :=
  [AddSubscription "239.1.2.3" 5000 None None; GetSubscription 2; OnSubscription 1 Join].

Lemma removed_subscription_stays_removed_witness :
  raises_lookup_error 1 Recv
    (py_run later_calls (py_remove 1 (py_run python_calls python_new).2).2).2.
Proof.
  refine (@removed_subscription_stays_removed sample_os python_calls later_calls 0 1 Recv sample_laws
            eq_refl _).
  vm_compute. reflexivity.
Defined.

Definition python_add := ctx_add_subscription "232.1.2.3" 5000 (Some "10.0.0.1")
  (Some "10.0.0.2") python_new.

Lemma added_subscription_reads_back_witness :
  ∃ c w text,
    build_subscription_config "232.1.2.3" 5000 (Some "10.0.0.1") (Some "10.0.0.2")
      (0 : @World sample_os) = (Ok c, w) ∧
    SubscriptionConfig.validate c = Ok () ∧
    py_group 1 python_add.2 = (Ok text, python_add.2) ∧ Text.parse_ip_addr text = Some (cfg_group c) ∧
    py_dst_port 1 python_add.2 = (Ok (cfg_dst_port c), python_add.2) ∧
    py_interface 1 python_add.2 = (Ok (ip_display <$> cfg_interface c), python_add.2) ∧
    py_interface_index 1 python_add.2 = (Ok (cfg_interface_index c), python_add.2) ∧
    py_source 1 python_add.2 = (Ok (source_text (cfg_source c)), python_add.2) ∧
    py_join_mode 1 python_add.2 =
      (Ok match cfg_source c with SourceAny => "asm" | Source _ => "ssm" end, python_add.2) ∧
    py_state 1 python_add.2 = (Ok "bound", python_add.2) ∧
    py_is_joined 1 python_add.2 = (Ok false, python_add.2).
Proof.
  refine (@added_subscription_reads_back sample_os "232.1.2.3" 5000 (Some "10.0.0.1")
            (Some "10.0.0.2") python_new 1 python_add.2 eq_refl ctx_inv_new eq_refl _).
  vm_compute. reflexivity.
Defined.
