(* ===== verification/Receivers.v ===== *)
(** * The other receiver programs ([src/src/bin/mcrx_recv_meta.rs],
    [src/src/bin/mcrx_raw_recv.rs], [src/src/bin/mcrx_tokio_recv.rs])

    Each joins the group of its command line and prints what it receives: with
    metadata, as complete datagrams, or through the Tokio adapter until it is
    interrupted. Their texts but the usage messages are those of [Receiver],
    which the sources repeat. *)

From Stdlib Require Import Strings.Ascii Strings.String.
From S2P Require Import Prelude Hoare Net Errors Config Packet Metrics Os SampleOs Platform Subscription Context IpDatagram RawPlatform RawContext Text RecvArgs TokioAdapter Hardware Jsonl Receiver.

Local Open Scope string_scope.
Local Open Scope list_scope.
Local Open Scope nat_scope.

(** ** Programs that print

    A state and the lines on standard output and standard error; an error is
    the message that [main] prints before it exits. Printing unwinds when the
    write fails. *)
Record Program (S : Type) := mkProgram {
  pr_state : S;
  pr_printed : list string;
  pr_errors : list string }.
Arguments mkProgram {S}.
Arguments pr_state {S}.
Arguments pr_printed {S}.
Arguments pr_errors {S}.

Section program.
Context {terminal : Terminal} {S : Type}.

Definition lines_written (p : Program S) : nat := length (pr_printed p) + length (pr_errors p).
Definition println (line : string) : M (Program S) string unit :=
  write_line lines_written (λ p, mkProgram (pr_state p) (pr_printed p ++ [line]) (pr_errors p)).
Definition eprintln (line : string) : M (Program S) string unit :=
  write_line lines_written (λ p, mkProgram (pr_state p) (pr_printed p) (pr_errors p ++ [line])).

Fixpoint eprint_lines (l : list string) : M (Program S) string unit :=
  match l with [] => mpure () | line :: l => eprintln line ;;* eprint_lines l end.
Fixpoint print_lines (l : list string) : M (Program S) string unit :=
  match l with [] => mpure () | line :: l => println line ;;* print_lines l end.

(** [m.map_err(message)?]. *)
Definition or_exit {E A : Type} (message : E → string) (m : M S E A) : M (Program S) string A := λ p,
  let '(r, s) := m (pr_state p) in (res_map_err message r, mkProgram s (pr_printed p) (pr_errors p)).

Definition main (name : string) (run : M (Program S) string unit) : M (Program S) string Z :=
  exit_with name eprintln run.

(** [fuel] rounds of a loop that only an error ends. *)
Fixpoint rounds (round : M (Program S) string unit) (fuel : nat) : M (Program S) string unit :=
  match fuel with O => mfuel | Datatypes.S fuel => round ;;* rounds round fuel end.
End program.

(** A program that has printed nothing. *)
Definition started {S : Type} (s : S) : Program S := mkProgram s [] [].

Definition call_of {S E A : Type} (m : Call S A) : M S E A := λ s, let '(a, s) := m s in (Ok a, s).

(** ** The receiver that prints metadata *)

(** The lines that all programs but the raw one begin with. *)
Definition ready_lines (name waiting : string) (parsed : ReceiveCliArgs) (id : SubscriptionId)
    : list string :=
  [name +:+ " ready";
   "  group:      " +:+ ip_display (ra_group parsed);
   "  dst_port:   " +:+ display_Z (ra_dst_port parsed);
   "  source:     " +:+ source_string (ra_source parsed);
   "  interface:  " +:+ interface_string (ra_interface parsed) (ra_interface_index parsed);
   "  sub_id:     " +:+ display_Z id;
   "";
   waiting].

(** The three lines of a packet with its metadata. *)
Definition packet_lines (packet : PacketWithMetadata) : list string :=
  let p := pm_packet packet in
  let m := pm_metadata packet in
  ["[recv] sub=" +:+ display_Z (pk_subscription_id p) +:+ " src=" +:+ sock_display (pk_source p) +:+
     " group=" +:+ ip_display (pk_group p) +:+ " dst_port=" +:+ display_Z (pk_dst_port p) +:+
     " len=" +:+ display_Z (Z.of_nat (length (pk_payload p)));
   "       meta: socket_local_addr=" +:+ debug_option sock_display (md_socket_local_addr m) +:+
     " configured_interface=" +:+ debug_option ip_display (md_configured_interface m) +:+
     " configured_interface_index=" +:+ debug_option display_Z (md_configured_interface_index m) +:+
     " destination_local_ip=" +:+ debug_option ip_display (md_destination_local_ip m) +:+
     " ingress_ifindex=" +:+ debug_option display_Z (md_ingress_interface_index m);
   "       payload: " +:+ format_payload (pk_payload p)].

Section meta.
Context {os : Os} {clock : Clock} {terminal : Terminal}.

Abbreviation Meta A := (M (Program (Context * World)) string A).

(** The start that the meta and the Tokio program share: a new context with
    one joined subscription. *)
Definition join_from_args (usage : string → list string) (args : list string)
    : M (Program (Context * World)) string (ReceiveCliArgs * SubscriptionId) :=
  let* args := collect_args args in
  let* parsed := or_usage 3 (λ program, eprint_lines (usage program))
                   (λ args, or_exit (λ s, s) (on_snd (parse_receive_cli_args args))) args in
  let config := config_of_args parsed in
  let* subscription_id := or_exit (λ err, "failed to add subscription: " +:+ mcrx_error_to_string err)
                            (add_subscription config) in
  or_exit (λ err, "failed to join subscription: " +:+ mcrx_error_to_string err)
    (join_subscription subscription_id) ;;*
  mpure (parsed, subscription_id).

Definition meta_usage (program : string) : list string :=
  ["usage: " +:+ program +:+ " <group> <dst_port> [source] [interface]";
   "       " +:+ program +:+ " <group> <dst_port> [--source <source>] [--interface <interface>]";
   "  group      multicast group, e.g. 239.1.2.3 or ff01::1234";
   "  dst_port   destination UDP port";
   "  source     optional source for SSM";
   "  interface  optional local interface address";
   "examples:";
   "  " +:+ program +:+ " ff01::1234 5000 --interface ::1";
   "  " +:+ program +:+ " ff12::8000:1234 5000 --interface fe80::1%7";
   "  " +:+ program +:+ " ff12::8000:1234 5000 --interface fe80::1%en0";
   "  " +:+ program +:+ " ff1e::8000:1234 5000 --interface 7";
   "  " +:+ program +:+ " ff31::8000:1234 5000 <sender-ipv6> --interface <receiver-ipv6>";
   "  " +:+ program +:+ " ff32::8000:1234 5000 <sender-fe80> --interface <receiver-fe80-or-other-local-ipv6>";
   "notes:";
   "  - for IPv4 SSM, use 232.0.0.0/8 groups such as 232.1.2.3";
   "  - for IPv6 SSM, use ff3x::/32 groups such as ff3e::8000:1234";
   "  - for IPv6 SSM, pass --interface <receiver-ipv6-or-ifindex>; this is required on macOS"].

Definition meta_start (args : list string) : Meta unit :=
  let* (parsed, subscription_id) := join_from_args meta_usage args in
  print_lines (ready_lines "mcrx-recv-meta" "waiting for packets with rich metadata ..." parsed
                 subscription_id).

Definition meta_round : Meta unit :=
  let* received := or_exit (λ err, "receive failed: " +:+ mcrx_error_to_string err)
                     try_recv_any_with_metadata in
  match received with
  | Some packet => print_lines (packet_lines packet)
  | None => or_exit (λ s, s) (on_snd (call_of (thread_sleep POLL_INTERVAL)))
  end.

Definition meta_run (fuel : nat) (args : list string) : Meta unit :=
  meta_start args ;;* rounds meta_round fuel.
Definition meta_main (fuel : nat) (args : list string) : M (Program (Context * World)) string Z :=
  main "mcrx-recv-meta" (meta_run fuel args).
End meta.

(** ** The receiver of complete datagrams *)

(** [{:02x?}] of a slice. *)
Definition debug_hex (l : list byte) : string := "[" +:+ join ", " (hex_byte <$> l) +:+ "]".

Section raw.
Context {os : Os} {transport : RawTransport} {clock : Clock} {terminal : Terminal}.

Abbreviation Raw A := (M (Program (RawContext * World)) string A).

Definition raw_config_of_args (a : RawReceiveCliArgs) : RawSubscriptionConfig :=
  let config := match rra_source a with
                | Some source => RawSubscriptionConfig.ssm_ip (rra_group a) source
                | None => RawSubscriptionConfig.asm_ip (rra_group a)
                end in
  mkRawConfig (raw_group config) (raw_source config) (rra_interface a) (rra_interface_index a).

Definition raw_interface_string (interface : option IpAddr) (interface_index : option Z) : string :=
  match interface, interface_index with
  | Some interface, Some index => ip_display interface +:+ "%" +:+ display_Z index
  | Some interface, None => ip_display interface
  | None, Some index => display_Z index
  | None, None => "default"
  end.

Definition raw_usage (program : string) : list string :=
  ["usage: " +:+ program +:+ " <group> [source] [interface]";
   "       " +:+ program +:+ " <group> [--source <source>] [--interface <interface>]";
   "  group      multicast group, e.g. 239.1.2.3 or ff1e::8000:1234";
   "  source     optional source for SSM";
   "  interface  optional local interface address or IPv6 interface index";
   "examples:";
   "  " +:+ program +:+ " 239.1.2.3 --interface 192.168.1.20";
   "  " +:+ program +:+ " ff1e::8000:1234 --interface 7";
   "  " +:+ program +:+ " ff3e::8000:1234 2001:db8::10 --interface 2001:db8::20";
   "notes:";
   "  - for IPv4 SSM, use 232.0.0.0/8 groups such as 232.1.2.3";
   "  - for IPv6 SSM, use ff3x::/32 groups such as ff3e::8000:1234"].

Definition raw_start (args : list string) : Raw unit :=
  let* args := collect_args args in
  let* parsed := or_usage 2 (λ program, eprint_lines (raw_usage program))
                   (λ args, or_exit (λ s, s) (on_snd (parse_raw_receive_cli_args args))) args in
  let config := raw_config_of_args parsed in
  let* id := or_exit (λ err, "failed to add raw subscription: " +:+ mcrx_error_to_string err)
               (rc_add_subscription config) in
  or_exit (λ err, "failed to join raw subscription: " +:+ mcrx_error_to_string err)
    (rc_join_subscription id) ;;*
  print_lines
    ["mcrx-raw-recv ready";
     "  group:      " +:+ ip_display (rra_group parsed);
     "  source:     " +:+ source_string (rra_source parsed);
     "  interface:  " +:+ raw_interface_string (rra_interface parsed) (rra_interface_index parsed);
     "  sub_id:     " +:+ display_Z id;
     "";
     "waiting for raw multicast IP datagrams ..."].

(** What is printed of a datagram; slicing unwinds out of range. *)
Definition print_raw_packet (packet : RawPacket) : Raw unit :=
  println ("received " +:+ display_Z (Z.of_nat (datagram_len packet)) +:+ " raw bytes source=" +:+
        debug_option ip_display (rp_source_ip packet) +:+ " group=" +:+
        debug_option ip_display (rp_group packet) +:+ " protocol=" +:+
        debug_option display_Z (rp_ip_protocol packet) +:+ " ingress_if=" +:+
        debug_option display_Z (md_ingress_interface_index (rp_metadata packet))) ;;*
  let preview_len := Nat.min (datagram_len packet) MAX_PREVIEW_LEN in
  let* preview := mlift (expect (slice (rp_datagram packet) 0 preview_len)) in
  println ("  first bytes: " +:+ debug_hex preview).

Definition raw_round : Raw unit :=
  let* received := or_exit (λ err, "failed to receive raw packet: " +:+ mcrx_error_to_string err)
                     rc_try_recv_any in
  match received with
  | Some packet => print_raw_packet packet
  | None => or_exit (λ s, s) (on_snd (call_of (thread_sleep POLL_INTERVAL)))
  end.

Definition raw_run (fuel : nat) (args : list string) : Raw unit :=
  raw_start args ;;* rounds raw_round fuel.
Definition raw_main (fuel : nat) (args : list string) : M (Program (RawContext * World)) string Z :=
  main "mcrx-raw-recv" (raw_run fuel args).
End raw.

(** ** The receiver on the Tokio runtime *)

Section tokio.
Context {os : Os} {tokio : Tokio} {terminal : Terminal}.

(** [Display] of [TokioReceiveError]. *)
Definition tokio_error_to_string (e : TokioReceiveError) : string :=
  match e with
  | Readiness e => "MCRX: tokio readiness failed: " +:+ io_text e
  | Receive e => mcrx_error_to_string e
  end.

Definition tokio_usage (program : string) : list string :=
  ["usage: " +:+ program +:+ " <group> <dst_port> [source] [interface]";
   "       " +:+ program +:+ " <group> <dst_port> [--source <source>] [--interface <interface>]";
   "  group      multicast group, e.g. 239.1.2.3 or ff01::1234";
   "  dst_port   destination UDP port";
   "  source     optional source for SSM";
   "  interface  optional local interface address";
   "examples:";
   "  " +:+ program +:+ " ff01::1234 5000 --interface ::1";
   "  " +:+ program +:+ " ff12::8000:1234 5000 --interface fe80::1%7";
   "  " +:+ program +:+ " ff12::8000:1234 5000 --interface fe80::1%en0";
   "  " +:+ program +:+ " ff1e::8000:1234 5000 --interface 7";
   "  " +:+ program +:+ " ff31::8000:1234 5000 <sender-ipv6> --interface <receiver-ipv6>";
   "notes:";
   "  - for IPv4 SSM, use 232.0.0.0/8 groups such as 232.1.2.3";
   "  - for IPv6 SSM, use ff3x::/32 groups such as ff3e::8000:1234";
   "  - for IPv6 SSM, pass --interface <receiver-ipv6-or-ifindex>; this is required on macOS"].

(** The context, the kernel and the runtime at the start; the adapter's
    subscription takes the place of the context in the loop. *)
Definition tokio_start (args : list string)
    : M (Program (Context * World * Runtime)) string TokioSubscription := λ p,
  let '(c, w, rt) := pr_state p in
  match join_from_args tokio_usage args (mkProgram (c, w) (pr_printed p) (pr_errors p)) with
  | (Ok (parsed, subscription_id), p1) =>
      (let* o := or_exit mcrx_error_to_string (on_fst (take_subscription subscription_id)) in
       let* s := mlift (ok_or o "failed to extract subscription from context") in
       let* t := or_exit (λ err, "failed to create tokio adapter: " +:+ io_text err)
                   (on_snd (TokioSubscription_new s)) in
       print_lines (ready_lines "mcrx-tokio-recv" "waiting for packets with Tokio ..." parsed
                      subscription_id) ;;*
       mpure t) (mkProgram (pr_state p1, rt) (pr_printed p1) (pr_errors p1))
  | (Err e, p1) => (Err e, mkProgram (pr_state p1, rt) (pr_printed p1) (pr_errors p1))
  | (Panic, p1) => (Panic, mkProgram (pr_state p1, rt) (pr_printed p1) (pr_errors p1))
  | (OutOfFuel, p1) => (OutOfFuel, mkProgram (pr_state p1, rt) (pr_printed p1) (pr_errors p1))
  end.

(** What happens to the task in [select!]: the receive future is polled, the
    signal future is ready, or the kernel and the runtime go on. *)
Inductive Turn :=
  | PollReceive
  | CtrlC (signal : unit + IoError)
  | Elsewhere (f : World → World) (g : Runtime → Runtime).

(** The loop, turn by turn: every round has a new receive future, which is
    dropped when the signal comes first. [sleeping] is where it was
    suspended. *)
Fixpoint tokio_loop (fuel : nat) (t : Waiting) (turns : list Turn) (sleeping : option Sleep)
    : M (Program (TokioAdapter.Shared)) string unit :=
  match turns with
  | [] => mfuel
  | PollReceive :: turns =>
      let* (polled, sleeping) := or_exit (λ err, "receive failed: " +:+ tokio_error_to_string err)
                                   (poll_recv_with_metadata fuel t sleeping) in
      match polled with
      | Ready packet => print_lines (packet_lines packet) ;;* tokio_loop fuel t turns None
      | Pending => tokio_loop fuel t turns sleeping
      end
  | CtrlC (inl ()) :: _ => println "shutting down"
  | CtrlC (inr err) :: _ => mthrow ("failed to wait for Ctrl-C: " +:+ io_text err)
  | Elsewhere f g :: turns =>
      or_exit (λ s, s) (mmodify (λ '(s, w, rt), (s, f w, g rt))) ;;* tokio_loop fuel t turns sleeping
  end.

(** The program, and the subscription it ends with when it started. *)
Definition tokio_run (fuel : nat) (args : list string) (turns : list Turn)
    (p : Program (Context * World * Runtime)) : Res string unit * Program (option Subscription) :=
  match tokio_start args p with
  | (Ok t, p1) =>
      let '(r, p2) := tokio_loop fuel (ts_waiting t) turns None
                        (mkProgram (ts_inner t, (pr_state p1).1.2, (pr_state p1).2) (pr_printed p1)
                           (pr_errors p1)) in
      (r, mkProgram (Some (pr_state p2).1.1) (pr_printed p2) (pr_errors p2))
  | (Err e, p1) => (Err e, mkProgram None (pr_printed p1) (pr_errors p1))
  | (Panic, p1) => (Panic, mkProgram None (pr_printed p1) (pr_errors p1))
  | (OutOfFuel, p1) => (OutOfFuel, mkProgram None (pr_printed p1) (pr_errors p1))
  end.
Definition tokio_main (fuel : nat) (args : list string) (turns : list Turn)
    (p : Program (Context * World * Runtime)) : Res string Z * Program (option Subscription) :=
  let '(r, p1) := tokio_run fuel args turns p in main "mcrx-tokio-recv" (mlift r) p1.
End tokio.

(** ** No program unwinds *)

Section outcomes.
Context {terminal : Terminal} {terminal_laws : TerminalLaws} {S : Type}.

(** An assertion on the state, whatever was printed. *)
Definition on_state (I : S → Prop) (p : Program S) : Prop := I (pr_state p).

Lemma hoare_or_exit {E A : Type} (message : E → string) (m : M S E A) I (Q : A → S → Prop) R :
  hoare I m Q R → hoare (on_state I) (or_exit message m) (λ a, on_state (Q a)) (on_state R).
Proof.
  intros Hm p Hp. specialize (Hm (pr_state p) Hp). unfold or_exit.
  by destruct (m (pr_state p)) as [[] s].
Qed.

Lemma print_lines_eq l (p : Program S) :
  print_lines l p = (Ok (), mkProgram (pr_state p) (pr_printed p ++ l) (pr_errors p)).
Proof.
  revert p. induction l as [|line l IH]; intros [s out errors]; cbn [print_lines].
  - unfold mpure. simpl. by rewrite app_nil_r.
  - unfold mthen, println. rewrite write_line_accepted. cbn. rewrite IH. cbn. by rewrite <- app_assoc.
Qed.

Lemma eprint_lines_eq l (p : Program S) :
  eprint_lines l p = (Ok (), mkProgram (pr_state p) (pr_printed p) (pr_errors p ++ l)).
Proof.
  revert p. induction l as [|line l IH]; intros [s out errors]; cbn [eprint_lines].
  - unfold mpure. simpl. by rewrite app_nil_r.
  - unfold mthen, eprintln. rewrite write_line_accepted. cbn. rewrite IH. cbn. by rewrite <- app_assoc.
Qed.

Lemma keeps_eprint_lines (I : S → Prop) l : keeps (on_state I) (eprint_lines l).
Proof. intros p Hp. by rewrite eprint_lines_eq. Qed.

Lemma hoare_collect {A : Type} (P : Program S → Prop) args (k : list string → M (Program S) string A) Q R :
  forallb utf8_valid args = true → hoare P (k args) Q R → hoare P (mthen (collect_args args) k) Q R.
Proof. intros Hu Hk p Hp. unfold mthen. rewrite collect_args_unicode by done. by apply Hk. Qed.

Lemma keeps_print_lines (I : S → Prop) l : keeps (on_state I) (print_lines l).
Proof.
  intros p Hp. by rewrite print_lines_eq.
Qed.

Lemma rounds_outcome (I : S → Prop) round fuel p :
  keeps (on_state I) round → I (pr_state p) →
  let '(r, p') := rounds round fuel p in
  (r = OutOfFuel ∨ ∃ message, r = Err message) ∧ I (pr_state p').
Proof.
  intros Hround. revert p. induction fuel as [|fuel IH]; intros p Hp; cbn [rounds]; [by split; [left|]|].
  unfold mthen. specialize (Hround p Hp).
  destruct (round p) as [[[]|message| |] p']; try done; [by apply IH|by split; [right; eexists|]].
Qed.

(** A program still runs, or it has failed with a message. *)
Definition runs_or_fails (name : string) (r : Res string Z) (p : Program S) : Prop :=
  r = OutOfFuel ∨ r = Ok 1%Z ∧ ∃ message, last (pr_errors p) = Some (name +:+ ": " +:+ message).

Lemma main_outcome (I : S → Prop) name run p :
  (let '(r, p') := run p in (r = OutOfFuel ∨ ∃ message, r = Err message) ∧ I (pr_state p')) →
  let '(r, p') := main name run p in runs_or_fails name r p' ∧ I (pr_state p').
Proof.
  intros Hrun. unfold main. rewrite exit_with_eq. destruct (run p) as [r p'].
  destruct Hrun as [[->|[message ->]] Hi]; [by split; [left|]|].
  unfold mthen, eprintln. rewrite write_line_accepted. split; [|done]. right.
  split; [done|]. exists message. apply last_snoc.
Qed.

Lemma keeps_on_second {W E A : Type} (I : S → Prop) (m : M W E A) :
  total m → keeps (λ st : S * W, I st.1) (on_snd m).
Proof.
  intros Hm. apply hoare_on_snd. intros st Hst. specialize (Hm st.2). by destruct (m st.2) as [[] w].
Qed.

Lemma total_call_of {A : Type} (m : Call S A) : total (call_of (E := string) m).
Proof. intros s. unfold call_of. by destruct (m s). Qed.
End outcomes.

Section meta_outcome.
Context {os : Os} {clock : Clock} {terminal : Terminal} {terminal_laws : TerminalLaws} (laws : OsLaws).

Definition context_upto (b : Z) (st : Context * World) : Prop := inv_upto b st.1.

Lemma keeps_safe {A : Type} b (m : Op (Context * World) A) :
  safe (inv_upto b) m → keeps (context_upto b) m.
Proof. intros Hm st Hst. destruct (Hm st Hst) as [Hr Hi]. by destruct (m st) as [[] st']. Qed.

Lemma hoare_join_from_args usage args : args ≠ [] → forallb utf8_valid args = true →
  hoare (on_state (context_upto 1)) (join_from_args usage args) (λ _, on_state (context_upto 2))
    (on_state (context_upto 2)).
Proof.
  assert (Hw : ∀ p, on_state (context_upto 1) p → on_state (context_upto 2) p)
    by (intros p; apply inv_upto_weaken; lia).
  intros Hargs Hunicode. unfold join_from_args. apply hoare_collect; [done|].
  eapply (hoare_then _ _ _ (λ _, on_state (context_upto 1))).
  { apply hoare_or_usage; [done| |intros ?; apply keeps_eprint_lines|exact Hw].
    eapply hoare_conseq;
      [exact (hoare_or_exit _ _ _ _ _ (keeps_on_second (inv_upto 1) _ (total_receive_cli_args args)))
      |by intros p|by intros ? p|exact Hw]. }
  intros parsed. eapply (hoare_then _ _ _ (λ _, on_state (context_upto 2))).
  { apply hoare_or_exit. intros st Hst.
    destruct (safe_add_with 1 (config_of_args parsed) (open_bound_socket (config_of_args parsed)) st
                (total_open_bound_socket _) Hst) as [Hr Hi]; [done|].
    change (returns (add_subscription (config_of_args parsed) st).1) in Hr.
    change (inv_upto (1 + 1) (add_subscription (config_of_args parsed) st).2.1) in Hi.
    by destruct (add_subscription _ st) as [[] st']. }
  intros id. eapply (hoare_then _ _ _ (λ _, on_state (context_upto 2))).
  { apply hoare_or_exit, keeps_safe, safe_upto. intros. by apply safe_join. }
  intros []. by apply hoare_pure.
Qed.

Lemma keeps_meta_round b : keeps (on_state (context_upto b)) meta_round.
Proof.
  eapply (hoare_then _ _ _ (λ _, on_state (context_upto b))).
  - apply hoare_or_exit, keeps_safe, safe_upto. intros. apply safe_try_recv_from_joined.
    by apply try_recv_with_metadata_method.
  - intros [packet|]; [apply keeps_print_lines|].
    apply hoare_or_exit, (keeps_on_second (inv_upto b)), total_call_of.
Qed.
End meta_outcome.

(** [mcrx_recv_meta] runs until an error ends it with exit code 1 and a
    message: on every command line of Unicode arguments that names the program
    and a terminal that accepts what is written to it, it does not unwind, and
    its context stays well formed. *)
Theorem meta_receiver_never_unwinds {os : Os} {clock : Clock} {terminal : Terminal} fuel args w :
  OsLaws → TerminalLaws → args ≠ [] → forallb utf8_valid args = true →
  let '(r, p) := meta_main fuel args (started (Context_new, w)) in
  runs_or_fails "mcrx-recv-meta" r p ∧ ctx_inv (pr_state p).1.
Proof.
  intros Hl Hterminal Hargs Hunicode. apply (main_outcome (λ st, ctx_inv st.1)).
  unfold meta_run, meta_start, mthen at 2.
  assert (Hp : on_state (context_upto 1) (started (Context_new, w)))
    by (split; [apply ctx_inv_new|done]).
  pose proof (hoare_join_from_args Hl meta_usage args Hargs Hunicode _ Hp) as Hjoin. unfold mthen at 1.
  destruct (join_from_args meta_usage args _) as [[[parsed id]|e| |] p1]; try done;
    [|split; [by right; eexists|apply Hjoin]].
  rewrite print_lines_eq. set (p2 := mkProgram _ _ _).
  pose proof (rounds_outcome _ _ fuel p2 (keeps_meta_round Hl 2) Hjoin) as Hr.
  destruct (rounds meta_round fuel p2) as [r p3]. by destruct Hr as [? [? _]].
Qed.

Section raw_outcome.
Context {os : Os} {transport : RawTransport} {laws : RawTransportLaws _} {clock : Clock}.
Context {terminal : Terminal} {terminal_laws : TerminalLaws}.

Lemma keeps_written_line (I : RawContext * World → Prop) line : keeps (on_state I) (println line).
Proof. intros p Hp. unfold println. by rewrite write_line_accepted. Qed.

Lemma keeps_print_raw_packet (I : RawContext * World → Prop) packet :
  keeps (on_state I) (print_raw_packet packet).
Proof.
  eapply (hoare_then _ _ _ (λ _, on_state I)); [apply keeps_written_line|]. intros [].
  unfold slice. rewrite bool_decide_true by (unfold datagram_len; lia).
  eapply (hoare_then _ _ _ (λ _, on_state I)); [by intros p|]. intros preview. apply keeps_written_line.
Qed.

Lemma keeps_raw_round b : keeps (on_state (rc_holds b)) raw_round.
Proof.
  eapply (hoare_then _ _ _ (λ _, on_state (rc_holds b))).
  - apply hoare_or_exit. eapply hoare_conseq; [apply (rc_try_recv_any_spec b)|done| |done].
    by intros r st [? _].
  - intros [packet|]; [apply keeps_print_raw_packet|].
    apply hoare_or_exit, (keeps_on_second (rc_inv b)), total_call_of.
Qed.

Lemma hoare_raw_start args : args ≠ [] → forallb utf8_valid args = true →
  hoare (on_state (rc_holds 1)) (raw_start args) (λ _, on_state (rc_holds 0)) (on_state (rc_holds 0)).
Proof.
  assert (Hw : ∀ p, on_state (rc_holds 1) p → on_state (rc_holds 0) p).
  { intros p []. split; try done. lia. }
  intros Hargs Hunicode. unfold raw_start. apply hoare_collect; [done|].
  eapply (hoare_then _ _ _ (λ _, on_state (rc_holds 1))).
  { apply hoare_or_usage; [done| |intros ?; apply keeps_eprint_lines|exact Hw].
    eapply hoare_conseq;
      [exact (hoare_or_exit _ _ _ _ _ (keeps_on_second (rc_inv 1) _ (total_raw_receive_cli_args args)))
      |by intros p|by intros ? p|exact Hw]. }
  intros parsed. eapply (hoare_then _ _ _ (λ _, on_state (rc_holds 0)));
    [apply hoare_or_exit, rc_add_keeps|].
  intros id. eapply (hoare_then _ _ _ (λ _, on_state (rc_holds 0)));
    [apply hoare_or_exit, rc_on_id_keeps, rsub_join_identity|].
  intros []. apply keeps_print_lines.
Qed.
End raw_outcome.

(** [mcrx_raw_recv], over every platform layer that obeys the laws of the
    raw context, on every command line of Unicode arguments that names the
    program and on a terminal that accepts what is written to it, runs until
    an error ends it with exit code 1 and a message: it does not unwind (its
    preview never slices out of range). *)
Theorem raw_receiver_never_unwinds {os : Os} {transport : RawTransport}
    {laws : RawTransportLaws _} {clock : Clock} {terminal : Terminal} fuel args w :
  TerminalLaws → args ≠ [] → forallb utf8_valid args = true →
  let '(r, p) := raw_main fuel args (started (RawContext_new, w)) in
  runs_or_fails "mcrx-raw-recv" r p ∧ rc_inv 0 (pr_state p).1.
Proof.
  intros Hterminal Hargs Hunicode. apply (main_outcome (λ st, rc_inv 0 st.1)).
  assert (Hp : on_state (rc_holds 1) (started (RawContext_new, w)))
    by (split; simpl; try constructor; done).
  pose proof (hoare_raw_start args Hargs Hunicode _ Hp) as Hstart. unfold raw_run, mthen.
  destruct (raw_start args _) as [[[]|e| |] p1]; try done; [|by split; [right; eexists|]].
  pose proof (rounds_outcome _ _ fuel p1 (keeps_raw_round 0) Hstart) as Hr.
  by destruct (rounds raw_round fuel p1) as [r p2].
Qed.

(** ** The Tokio program reports what its subscription counts *)

(** What a receive task answers, as the program prints it. *)
Definition reports (l : list (Res TokioReceiveError PacketWithMetadata)) : list string :=
  l ≫= λ r, if r is Ok packet then packet_lines packet else [].

Definition is_packet (r : Res TokioReceiveError PacketWithMetadata) : Prop :=
  if r is Ok _ then True else False.

(** How the loop ends, with the answers [l] and the last lines [tail]. *)
Definition loop_end {os : Os} (r : Res string unit) (l : list (Res TokioReceiveError PacketWithMetadata))
    (tail : list string) : Prop :=
  match r with
  | Ok _ => tail = ["shutting down"] ∧ Forall is_packet l
  | Err message => tail = [] ∧
      ((∃ l' e, l = l' ++ [Err e] ∧ Forall is_packet l' ∧
                message = "receive failed: " +:+ tokio_error_to_string e) ∨
       (Forall is_packet l ∧ ∃ e, message = "failed to wait for Ctrl-C: " +:+ io_text e))
  | OutOfFuel => tail = [] ∧ Forall is_packet l
  | Panic => False
  end.

Lemma loop_end_cons {os : Os} r packet l tail : loop_end r l tail → loop_end r (Ok packet :: l) tail.
Proof.
  destruct r as [[]|message| |]; cbn; [intros [-> ?]|intros [-> Hl]|done|intros [-> ?]];
    split; try done; try by constructor.
  destruct Hl as [(l' & e & -> & ? & ->)|[? ?]]; [left|right; split; [by constructor|done]].
  exists (Ok packet :: l'), e. split_and!; [done|by constructor|done].
Qed.

Section tokio_outcome.
Context {os : Os} {tokio : Tokio} {tokio_laws : TokioLaws} (laws : OsLaws).
Context {terminal : Terminal} {terminal_laws : TerminalLaws}.

(** The turns up to the first signal, as the events of a receive task. *)
Fixpoint task_of (turns : list Turn) : list TaskEvent :=
  match turns with
  | PollReceive :: turns => PollFuture :: task_of turns
  | Elsewhere f g :: turns => Environment f g :: task_of turns
  | CtrlC _ :: _ | [] => []
  end.

(** The loop is the receive task of [TokioAdapter] on the turns [done], whose
    answers it prints. *)
Definition loop_reports (fuel : nat) (t : Waiting) (turns : list Turn) (sleeping : option Sleep)
    (p : Program TokioAdapter.Shared) (out : Res string unit * Program TokioAdapter.Shared) : Prop :=
  ∃ used l tail,
    used `prefix_of` turns ∧
    run_task try_recv_with_metadata fuel t (task_of used) sleeping (pr_state p) = (l, pr_state out.2) ∧
    pr_printed out.2 = pr_printed p ++ reports l ++ tail ∧
    same_identity (pr_state p).1.1 (pr_state out.2).1.1 ∧
    packets_received (pr_state out.2).1.1 = (packets_received (pr_state p).1.1 + delivered l)%Z ∧
    loop_end out.1 l tail.

Lemma tokio_loop_reports fuel t turns sleeping p :
  waits t → (0 ≤ packets_received (pr_state p).1.1)%Z →
  (packets_received (pr_state p).1.1 + Z.of_nat (length turns) ≤ u64_max)%Z →
  loop_reports (S (S fuel)) t turns sleeping p (tokio_loop (S (S fuel)) t turns sleeping p).
Proof.
  intros Ht. revert sleeping p.
  induction turns as [|[|signal|f g] turns IH]; intros sleeping [x out errors] H0 Hb;
    cbn [pr_state pr_printed pr_errors] in *.
  - exists [], [], []. split_and!; try done; cbn; [by rewrite app_nil_r|lia].
  - (* a poll *)
    pose proof (try_recv_with_metadata_method laws) as Hmethod.
    pose proof (poll_recv_answer _ receive_total (S (S fuel)) t sleeping x) as Ha.
    pose proof (poll_recv_returns _ receive_total fuel t sleeping x Ht) as Hr.
    cbn [tokio_loop]. unfold mthen at 1, or_exit, poll_recv_with_metadata; cbn [pr_state pr_printed pr_errors].
    destruct (poll_recv try_recv_with_metadata (S (S fuel)) t sleeping x) as [r y] eqn:Hpoll.
    cbn [fst] in Hr. destruct Ha as [->|Ha]; [done|].
    destruct (poll_counts _ _ _ _ (try_recv_as_counts _ _) receive_identity Ha) as [Hs Hp].
    assert (Hlen : length (PollReceive :: turns) = S (length turns)) by done.
    rewrite Hlen in Hb.
    destruct r as [[[packet|] sl]|e| |]; try done; cbn [first] in Hp; cbn [res_map_err].
    + rewrite fetch_add_small in Hp by (unfold u64_max in *; lia).
      unfold mthen at 1. rewrite print_lines_eq. cbn [pr_state pr_printed pr_errors].
      destruct (IH None (mkProgram y (out ++ packet_lines packet) errors))
        as (used & l & tail & Hu & Hrun & Hout & Hs' & Hp' & He); cbn [pr_state]; [lia..|].
      exists (PollReceive :: used), (Ok packet :: l), tail. cbn [task_of run_task pr_state].
      rewrite Hpoll. cbn [pr_state pr_printed pr_errors] in *. rewrite Hrun, Hout.
      split_and!; [by apply prefix_cons|done| |by etrans|cbn [delivered]; lia|by apply loop_end_cons].
      unfold reports. cbn. by rewrite <- !app_assoc.
    + destruct (IH sl (mkProgram y out errors))
        as (used & l & tail & Hu & Hrun & Hout & Hs' & Hp' & He); cbn [pr_state]; [lia..|].
      exists (PollReceive :: used), l, tail. cbn [task_of run_task pr_state].
      rewrite Hpoll. cbn [pr_state pr_printed pr_errors] in *. rewrite Hrun.
      split_and!; [by apply prefix_cons|done|done|by etrans|lia|done].
    + exists [PollReceive], [Err e], []. cbn [task_of run_task pr_state]. rewrite Hpoll.
      cbn [pr_state pr_printed pr_errors fst snd]. split_and!; try done;
        [by apply prefix_cons, prefix_nil|by rewrite app_nil_r|cbn; lia|].
      split; [done|left]. exists [], e. by split_and!.
  - exists [], [], (if signal is inl _ then ["shutting down"] else []).
    destruct signal as [[]|e]; cbn [tokio_loop]; [unfold println; rewrite write_line_accepted|];
      split_and!; try done; try apply prefix_nil; cbn; try lia.
    + by rewrite app_nil_r.
    + split; [done|right]. split; [done|by eexists].
  - destruct x as [[s w] rt]. cbn [fst snd] in *.
    destruct (IH sleeping (mkProgram (s, f w, g rt) out errors))
      as (used & l & tail & Hu & Hrun & Hout & Hs' & Hp' & He); cbn [pr_state]; [done|cbn in *; lia|].
    exists (Elsewhere f g :: used), l, tail. split_and!; [by apply prefix_cons|done..].
Qed.

(** *** The start *)

(** An assertion on the state, with what was printed. *)
Definition printed {S : Type} (l : list string) (I : S → Prop) (p : Program S) : Prop :=
  pr_printed p = l ∧ I (pr_state p).

Lemma printed_or_exit {S E A : Type} (message : E → string) (m : M S E A) l I (Q : A → S → Prop) R :
  hoare I m Q R → hoare (printed l I) (or_exit message m) (λ a, printed l (Q a)) (printed l R).
Proof.
  intros Hm p [Hl Hp]. specialize (Hm (pr_state p) Hp). unfold or_exit.
  by destruct (m (pr_state p)) as [[] s].
Qed.

Abbreviation Kernel := (Context * World)%type.

Lemma hoare_add_first config :
  hoare (λ st : Kernel, st.1 = Context_new) (add_subscription config)
    (λ id st, id = 1%Z ∧ ∃ rs, subscriptions st.1 = [from_receive_socket 1 config rs]) (λ _, True).
Proof.
  intros [c w] Hc. cbn [fst] in Hc. subst c. unfold add_subscription.
  unfold mthen at 1, mlift at 1.
  pose proof (returns_validate config) as Hv.
  destruct (SubscriptionConfig.validate config) as [[]|e| |]; try done.
  unfold mthen, mget, on_snd. cbn.
  pose proof (total_open_bound_socket config w) as Ho.
  destruct (open_bound_socket config w) as [[rs|e| |] w']; try done.
  cbn. split; [done|by exists rs].
Qed.

(** The subscription that the program starts with. *)
Definition fresh_subscription (config : SubscriptionConfig) (s : Subscription) : Prop :=
  ∃ rs, s = (mark_joined (from_receive_socket 1 config rs)).2.

Lemma hoare_join_first config :
  hoare (λ st : Kernel, ∃ rs, subscriptions st.1 = [from_receive_socket 1 config rs])
    (join_subscription 1)
    (λ _ st, ∃ s, subscriptions st.1 = [s] ∧ fresh_subscription config s) (λ _, True).
Proof.
  intros [c w] [rs Hc]. cbn [fst] in Hc. pose proof (join_outcome 1 c w) as Ho.
  assert (Hg : get_subscription c 1 = Some (from_receive_socket 1 config rs))
    by (unfold get_subscription, position_of; rewrite Hc; reflexivity).
  rewrite Hg in Ho. destruct Ho as [_ Ho]. cbn [sub_is_joined] in Ho.
  change (sub_is_joined (from_receive_socket 1 config rs)) with false in Ho. cbn iota in Ho.
  pose proof (total_join_multicast_group (sub_raw_socket (from_receive_socket 1 config rs))
    (sub_config (from_receive_socket 1 config rs)) laws w) as Ht.
  destruct (join_multicast_group _ _ w) as [[[]|e| |] w']; try done.
  - destruct Ho as (i & Hi & ->). rewrite Hc in Hi. apply list_lookup_singleton_Some in Hi as [-> _].
    cbn [fst set_ctx_metrics set_subscriptions subscriptions]. rewrite Hc. cbn.
    eexists. split; [done|by exists rs].
  - by rewrite Ho.
Qed.

(** The one subscription of the context, joined. *)
Definition first_joined (config : SubscriptionConfig) (st : Kernel) : Prop :=
  ∃ s, subscriptions st.1 = [s] ∧ fresh_subscription config s.

Lemma hoare_join_from_first_args usage args : args ≠ [] → forallb utf8_valid args = true →
  hoare (printed [] (λ st : Kernel, st.1 = Context_new)) (join_from_args usage args)
    (λ '(parsed, id), printed [] (λ st, id = 1%Z ∧ first_joined (config_of_args parsed) st))
    (printed [] (λ _, True)).
Proof.
  intros Hargs Hunicode. unfold join_from_args. apply hoare_collect; [done|].
  eapply (hoare_then _ _ _ (λ _, printed [] (λ st : Kernel, st.1 = Context_new))).
  { apply hoare_or_usage; [done| |intros ? p Hp; by rewrite eprint_lines_eq|by intros p []].
    eapply hoare_conseq;
      [exact (printed_or_exit _ _ [] _ _ _ (keeps_on_second (λ c, c = Context_new) _
                                            (total_receive_cli_args args)))
      |by intros p|by intros ? p|by intros p []]. }
  intros parsed.
  eapply hoare_then; [apply printed_or_exit, hoare_add_first|]. intros id.
  eapply (hoare_then _ _ _ (λ _, printed [] (λ st, id = 1%Z ∧ first_joined (config_of_args parsed) st)));
    [|intros []; by apply hoare_pure].
  apply printed_or_exit. apply hoare_match_pure. intros ->.
  eapply hoare_conseq; [apply (hoare_join_first (config_of_args parsed))|done| |done]. by intros [] st Hst.
Qed.

Lemma take_first config c w : first_joined config (c, w) →
  ∃ s c', take_subscription 1 (c, w) = (Ok (Some s), (c', w)) ∧ fresh_subscription config s.
Proof.
  intros (s & Hc & Hs). cbn [fst] in Hc. exists s. destruct Hs as [rs ->].
  unfold take_subscription, mthen, mget, position_of. cbn [fst]. rewrite Hc.
  change (position _ _) with (Some 0). unfold mmap, mthen.
  erewrite (finish_removal_eq 0 (c, w)) by (cbn [fst]; rewrite Hc; reflexivity).
  eexists. split; [done|by exists rs].
Qed.

Lemma tokio_start_spec args w rt : args ≠ [] → forallb utf8_valid args = true →
  match tokio_start args (started (Context_new, w, rt)) with
  | (Ok t, p) => ∃ parsed,
      pr_printed p = ready_lines "mcrx-tokio-recv" "waiting for packets with Tokio ..." parsed 1 ∧
      fresh_subscription (config_of_args parsed) (ts_inner t) ∧ waits (ts_waiting t)
  | (Err _, p) => pr_printed p = []
  | _ => False
  end.
Proof.
  intros Hargs Hunicode. unfold tokio_start. cbn [started pr_state pr_printed pr_errors].
  pose proof (hoare_join_from_first_args tokio_usage args Hargs Hunicode (started (Context_new, w))
    (conj eq_refl eq_refl)) as Hj. unfold started in Hj.
  destruct (join_from_args tokio_usage args _) as [[[parsed id]|e| |] [[c w1] out errors]]; try done;
    destruct Hj as [Hout Hj]; [|done]. cbn [pr_printed pr_state] in *. destruct Hj as [-> Hj].
  destruct (take_first _ c w1 Hj) as (s & c' & Htake & Hs).
  unfold mthen at 1, or_exit at 1, on_fst. cbn [pr_state pr_printed pr_errors fst snd]. rewrite Htake.
  cbn [res_map_err]. unfold mthen at 1, mlift, ok_or.
  unfold mthen at 1, or_exit at 1, on_snd, TokioSubscription_new. cbn [pr_state pr_printed pr_errors fst snd].
  destruct (cfg_unix target).
  - destruct (async_fd_new _ rt) as [[fd|e] rt']; cbn [res_map_err]; [|done].
    unfold mthen. rewrite print_lines_eq. cbn. exists parsed. by rewrite Hout.
  - cbn [res_map_err]. unfold mthen. rewrite print_lines_eq. cbn. exists parsed. by rewrite Hout.
Qed.
End tokio_outcome.

(** C23: [mcrx_tokio_recv] prints exactly what its subscription receives. Without
    a start it prints nothing and ends with a message. Otherwise it joins the
    configuration of its command line, and its output is its eight first
    lines, the lines of the packets that a task calling [recv_with_metadata]
    is delivered on the turns that were used, in that order, and, when the
    signal ended it, the farewell; as many packets are printed as the
    subscription counted, and only an error or the signal ends the loop. This
    holds on Unix, with the registered descriptor, and on Windows, with the
    poll interval, where it relies on [OsLaws]. The arguments are Unicode and
    name the program, the terminal accepts what is written to it, and there
    are fewer than 2^64 turns. *)
Theorem tokio_receiver_reports_every_packet {os : Os} {tokio : Tokio} {terminal : Terminal}
    fuel args turns w rt :
  OsLaws → TokioLaws → TerminalLaws → args ≠ [] → forallb utf8_valid args = true →
  (Z.of_nat (length turns) ≤ u64_max)%Z →
  let start := started (Context_new, w, rt) in
  let '(r, ended) := tokio_run (S (S fuel)) args turns start in
  match pr_state ended with
  | None => (∃ message, r = Err message) ∧ pr_printed ended = []
  | Some s => ∃ parsed t p used l rest tail,
      tokio_start args start = (Ok t, p) ∧ used `prefix_of` turns ∧
      run_task try_recv_with_metadata (S (S fuel)) (ts_waiting t) (task_of used) None
        (ts_inner t, (pr_state p).1.2, (pr_state p).2) = (l, (s, rest.1, rest.2)) ∧
      pr_printed ended =
        ready_lines "mcrx-tokio-recv" "waiting for packets with Tokio ..." parsed 1 ++
        reports l ++ tail ∧
      sub_id s = 1%Z ∧ sub_config s = config_of_args parsed ∧
      packets_received s = delivered l ∧ loop_end r l tail
  end.
Proof.
  intros Hl Hlaws Hterminal Hargs Hunicode Hb start. unfold tokio_run.
  pose proof (tokio_start_spec Hl args w rt Hargs Hunicode) as Hs.
  fold start in Hs. destruct (tokio_start args start) as [[t|e| |] p]; try done;
    [|by split; [eexists|]].
  destruct Hs as (parsed & Hout & [rs Hinner] & Ht).
  set (p0 := mkProgram (ts_inner t, (pr_state p).1.2, (pr_state p).2) (pr_printed p) (pr_errors p)).
  assert (H0 : packets_received (pr_state p0).1.1 = 0%Z) by (cbn; by rewrite Hinner).
  destruct (tokio_loop_reports Hl fuel (ts_waiting t) turns None p0 Ht)
    as (used & l & tail & Hused & Hrun & Hprinted & Hsame & Hcount & Hend); [lia..|].
  destruct (tokio_loop _ _ _ _ p0) as [r [[[s w'] rt'] out errors]].
  cbn [pr_state pr_printed pr_errors fst snd p0] in *. rewrite Hinner in Hsame. destruct Hsame as (? & ? & _).
  exists parsed, t, p, used, l, (w', rt'), tail. split_and!; try done.
  - by rewrite Hprinted, Hout.
  - rewrite Hcount. by rewrite Hinner.
Qed.

(** ** No name

    The usage message indexes the arguments, so a process that was started
    without any, as [execve] allows, unwinds instead of failing. *)
Theorem empty_argv_unwinds {os : Os} {transport : RawTransport} {tokio : Tokio} {clock : Clock}
    {terminal : Terminal}
    {process : Process} {files : Fs} {serde : Json} env fuel turns a meta raw start :
  (Receiver.main env fuel [] a).1 = Panic ∧ (meta_main fuel [] meta).1 = Panic ∧
  (raw_main fuel [] raw).1 = Panic ∧ (tokio_main fuel [] turns start).1 = Panic.
Proof. split_and!; [done..|]. by destruct start as [[[c w] rt] out errors]. Qed.

(** The three programs unwind on an argument that is not Unicode. *)
Theorem non_unicode_arguments_unwind {os : Os} {transport : RawTransport} {tokio : Tokio} {clock : Clock}
    {terminal : Terminal} fuel args arg turns meta raw start :
  arg ∈ args → utf8_valid arg = false →
  (meta_main fuel args meta).1 = Panic ∧ (raw_main fuel args raw).1 = Panic ∧
  (tokio_main fuel args turns start).1 = Panic.
Proof.
  intros Hin Hbad. pose proof (λ S, collect_args_refuses (S := S) args arg Hin Hbad) as Hf.
  split_and!.
  - unfold meta_main, main. rewrite exit_with_eq.
    unfold meta_run, mthen at 1, meta_start, mthen at 1, join_from_args, mthen at 1. by rewrite Hf.
  - unfold raw_main, main. rewrite exit_with_eq.
    unfold raw_run, mthen at 1, raw_start, mthen at 1. by rewrite Hf.
  - destruct start as [[[c w] rt] out errors]. unfold tokio_main, tokio_run, tokio_start, join_from_args.
    cbn [pr_state pr_printed pr_errors]. unfold mthen at 1. by rewrite Hf.
Qed.

(** ** Concrete runs *)

Lemma meta_receiver_never_unwinds_witness :
  let '(r, p) := meta_main (os := sample_os) (clock := sample_clock) (terminal := open_terminal) 3
    ["mcrx-recv-meta"; "239.1.2.3"; "5000"] (started (Context_new, (0 : nat))) in
  runs_or_fails "mcrx-recv-meta" r p ∧ ctx_inv (pr_state p).1.
Proof.
  apply (meta_receiver_never_unwinds (os := sample_os) (terminal := open_terminal));
    [apply sample_laws|apply open_terminal_laws|done..].
Defined.

Lemma raw_receiver_never_unwinds_witness :
  let '(r, p) := raw_main (os := sample_os) (transport := @platform_transport sample_os sample_raw_os)
    (clock := sample_clock) (terminal := open_terminal) 3 ["mcrx-raw-recv"; "239.1.2.3"] (started (RawContext_new, (0 : nat))) in
  runs_or_fails "mcrx-raw-recv" r p ∧ rc_inv 0 (pr_state p).1.
Proof.
  apply (raw_receiver_never_unwinds (os := sample_os) (terminal := open_terminal));
    [apply open_terminal_laws|done..].
Defined.

(** A datagram arrives, and the program is interrupted. *)
Definition sample_turns : list (@Turn queue_os edge_tokio) :=
  [PollReceive; @Elsewhere queue_os edge_tokio (λ q, q ++ [sample_message]) (λ _, true);
   PollReceive; PollReceive; CtrlC (inl ())].
Definition sample_tokio_start : Program (@Context queue_os * @World queue_os * @Runtime queue_os edge_tokio) :=
  started (@Context_new queue_os, [], false).

(** The same on Windows, where the future polls and sleeps. *)
Definition sleep_tokio : @Tokio windows_os := {|
  Runtime := unit;
  AsyncFd := Empty_set;
  async_fd_new _ r := (inr sample_error, r);
  async_fd_into_inner _ r := ((), r);
  poll_read_ready fd r := match fd with end;
  clear_ready _ r := r;
  Sleep := unit;
  sleep_new _ r := ((), r);
  poll_sleep _ r := (false, r) |}.
Lemma sleep_tokio_laws : @TokioLaws windows_os sleep_tokio.
Proof. split; [by intros []|done]. Qed.

Definition tokio_args : list string := ["mcrx-tokio-recv"; "239.1.2.3"; "5000"].
Definition linux_run :=
  tokio_run (tokio := edge_tokio) (terminal := open_terminal) 2 tokio_args sample_turns sample_tokio_start.
Definition windows_run :=
  tokio_run (tokio := sleep_tokio) (terminal := open_terminal) 2 tokio_args
    [@PollReceive windows_os sleep_tokio; PollReceive; CtrlC (inl ())]
    (started (@Context_new windows_os, (0 : nat), ())).

(** What a run that was interrupted printed, with the number of packets. *)
Definition interrupted {O : Os} {T : @Tokio O} (packets : Z) (lines : nat)
    (run : Res string unit * Program (option Subscription)) : Prop :=
  run.1 = Ok () ∧ packets_received <$> pr_state run.2 = Some packets ∧
  length (pr_printed run.2) = lines ∧
  ∃ start l, pr_printed run.2 = start ++ reports l ++ ["shutting down"] ∧ length start = 8 ∧
             delivered l = packets.

#[local] Opaque tokio_run tokio_start.

Lemma tokio_receiver_reports_every_packet_witness :
  interrupted (T := edge_tokio) 1 12 linux_run ∧ interrupted (T := sleep_tokio) 2 15 windows_run.
Proof.
  split.
  - pose proof (tokio_receiver_reports_every_packet (tokio := edge_tokio) (terminal := open_terminal) 0
      tokio_args sample_turns [] false (unix_laws (H := queue_os) eq_refl) edge_tokio_laws
      open_terminal_laws ltac:(discriminate) eq_refl ltac:(vm_compute; discriminate)) as Hrun.
    cbn zeta in Hrun. fold sample_tokio_start in Hrun.
    assert (Hr : linux_run.1 = Ok () ∧ packets_received <$> pr_state linux_run.2 = Some 1%Z ∧
      length (pr_printed linux_run.2) = 12) by (split_and!; vm_compute; reflexivity).
    unfold linux_run in *. destruct (tokio_run _ _ _ _) as [r [o out errors]]. cbn [fst snd pr_state pr_printed pr_errors] in *.
    destruct Hr as (-> & Ho & Hlen). unfold interrupted. cbn [fst snd pr_state pr_printed].
    split; [reflexivity|]. split; [exact Ho|]. split; [exact Hlen|].
    destruct o as [s|]; [|discriminate Ho]. injection Ho as Hs.
    destruct Hrun as (parsed & t & p & used & l & rest & tail & _ & _ & _ & Hout & _ & _ & Hc & -> & _).
    exists (ready_lines "mcrx-tokio-recv" "waiting for packets with Tokio ..." parsed 1), l.
    by rewrite <- Hc.
  - pose proof (tokio_receiver_reports_every_packet (tokio := sleep_tokio) (terminal := open_terminal) 0
      tokio_args [@PollReceive windows_os sleep_tokio; PollReceive; CtrlC (inl ())] (0 : nat) ()
      windows_laws sleep_tokio_laws
      open_terminal_laws ltac:(discriminate) eq_refl ltac:(vm_compute; discriminate)) as Hrun.
    cbn zeta in Hrun.
    assert (Hr : windows_run.1 = Ok () ∧ packets_received (H := windows_os) <$> pr_state windows_run.2 = Some 2%Z ∧
      length (pr_printed windows_run.2) = 15) by (split_and!; vm_compute; reflexivity).
    unfold windows_run in *. destruct (tokio_run _ _ _ _) as [r [o out errors]]. cbn [fst snd pr_state pr_printed pr_errors] in *.
    destruct Hr as (-> & Ho & Hlen). unfold interrupted. cbn [fst snd pr_state pr_printed].
    split; [reflexivity|]. split; [exact Ho|]. split; [exact Hlen|].
    destruct o as [s|]; [|discriminate Ho]. injection Ho as Hs.
    destruct Hrun as (parsed & t & p & used & l & rest & tail & _ & _ & _ & Hout & _ & _ & Hc & -> & _).
    exists (ready_lines "mcrx-tokio-recv" "waiting for packets with Tokio ..." parsed 1), l.
    by rewrite <- Hc.
Defined.
